(** * NTS for chrony: key establishment records, cookies and the NTP extension fields

    A shallow embedding of [nts_ke.c] (module [NtsKe]) and of the NTS-NTP
    client and server code [nts_ntp.c] (module [NtsNtp]), followed by the
    properties proved about them.

    Conventions.  A C [int] or [uint32_t] is a [Z]; a buffer is a
    [list byte]; a function that returns 0 for failure returns [None] or the
    integer 0 as the source does; a global of the C file is a field of an
    explicit state record.  A [while] loop is a [Fixpoint] over a fuel
    counter that answers [None] when the counter runs out, and every loop
    comes with the lemma that the counter its caller supplies is enough. *)

From Stdlib Require Import ZArith List Lia Bool.
From Stdlib Require Import Strings.Byte.
From Stdlib Require Strings.String.
Import ListNotations.
Local Open Scope Z_scope.

(** ** Memory: bytes, byte order, buffers *)

Module Mem.

Definition byte_to_Z (b : byte) : Z := Z.of_N (Byte.to_N b).

(** Conversion to [uint8_t]: the low eight bits. *)
Definition Z_to_byte (z : Z) : byte :=
  match Byte.of_N (Z.to_N (z mod 256)) with
  | Some b => b
  | None => x00
  end.

Definition zlength {A : Type} (l : list A) : Z := Z.of_nat (length l).

(** [htons] applied to a value that is then stored in a [uint16_t] field:
    the two bytes in network order, high byte first. *)
Definition htons (v : Z) : list byte :=
  [Z_to_byte (Z.shiftr v 8); Z_to_byte v].

(** [ntohs] of the [uint16_t] stored at the start of [bs]. *)
Definition ntohs (bs : list byte) : Z :=
  match bs with
  | hi :: lo :: _ => byte_to_Z hi * 256 + byte_to_Z lo
  | _ => 0
  end.

(** The [len] bytes at [buf + off]. *)
Definition sub (buf : list byte) (off len : Z) : list byte :=
  firstn (Z.to_nat len) (skipn (Z.to_nat off) buf).

(** [memcpy(buf + off, src, length src)] on an array [buf]. *)
Definition memcpy (buf : list byte) (off : Z) (src : list byte) : list byte :=
  firstn (Z.to_nat off) buf ++ src ++ skipn (Z.to_nat off + length src) buf.

(** A [uint32_t] as it lies in memory on the host. *)
Definition u32_to_bytes (big_endian : bool) (v : Z) : list byte :=
  let le := [Z_to_byte v; Z_to_byte (Z.shiftr v 8);
             Z_to_byte (Z.shiftr v 16); Z_to_byte (Z.shiftr v 24)] in
  if big_endian then rev le else le.

Definition u32_of_bytes (big_endian : bool) (bs : list byte) : Z :=
  match (if big_endian then rev (firstn 4 bs) else firstn 4 bs) with
  | [b0; b1; b2; b3] =>
      byte_to_Z b0 + 256 * (byte_to_Z b1 + 256 * (byte_to_Z b2 + 256 * byte_to_Z b3))
  | _ => 0
  end.

(** Array element [a[i]]; an index outside the array reads [d]. *)
Definition aget {A : Type} (d : A) (a : list A) (i : Z) : A :=
  if i <? 0 then d else nth (Z.to_nat i) a d.

(** Array store [a[i] = v]; an index outside the array stores nothing. *)
Fixpoint set_nth {A : Type} (a : list A) (n : nat) (v : A) : list A :=
  match a, n with
  | [], _ => []
  | _ :: t, O => v :: t
  | h :: t, S n' => h :: set_nth t n' v
  end.

Definition aset {A : Type} (a : list A) (i : Z) (v : A) : list A :=
  if i <? 0 then a else set_nth a (Z.to_nat i) v.

End Mem.

Import Mem.

(** ** External collaborators

    The AES-SIV-CMAC primitive (nettle or the bundled [siv_cmac.h]) is not
    part of the repository sources: it is an interface. *)

Class SIV : Type := {
  (** [struct siv_cmac_aes128_ctx] *)
  siv_ctx : Type;
  (** a context in zero-initialised static storage, never set *)
  siv_ctx_zero : siv_ctx;
  (** [siv_cmac_aes128_set_key] *)
  siv_set_key : list byte -> siv_ctx;
  (** [siv_cmac_aes128_encrypt_message ctx nonce adata plaintext]: the
      ciphertext, tag included. *)
  siv_encrypt_message : siv_ctx -> list byte -> list byte -> list byte -> list byte;
  (** [siv_cmac_aes128_decrypt_message ctx nonce adata ciphertext]: the
      plaintext, or [None] when the tag does not verify (the C function
      returns 0). *)
  siv_decrypt_message : siv_ctx -> list byte -> list byte -> list byte -> option (list byte)
}.

Definition SIV_DIGEST_SIZE : Z := 16.

(** What the primitive guarantees: the ciphertext is [SIV_DIGEST_SIZE]
    bytes longer than the plaintext and decrypts to it under the same
    context, nonce and associated data. *)
Class SIV_correct (Siv : SIV) : Prop := {
  siv_encrypt_length : forall k n a p,
    zlength (siv_encrypt_message k n a p) = zlength p + SIV_DIGEST_SIZE;
  siv_decrypt_encrypt : forall k n a p,
    siv_decrypt_message k n a (siv_encrypt_message k n a p) = Some p
}.

(** What [nts_ke.c] takes from headers and modules that are not part of the
    sources at hand: [nts_ke.h], the configuration, the TLS session and the
    address parser. *)
Class KeEnv : Type := {
  (** the byte order of the host *)
  host_big_endian : bool;
  (** [NKE_MAX_COOKIE_LENGTH] of [nts_ke.h], the size of [NKE_Cookie.cookie] *)
  NKE_MAX_COOKIE_LENGTH : Z;
  (** [CNF_GetNTPPort ()] *)
  CNF_GetNTPPort : Z;
  (** [gnutls_session_t] *)
  Session : Type;
  (** [gnutls_prf_rfc5705 session label context length]: the exported
      bytes, or [None] for a negative return value *)
  gnutls_prf_rfc5705 : Session -> list byte -> list byte -> Z -> option (list byte);
  (** [IPAddr] *)
  IPAddr : Type;
  (** [snprintf(buf, length + 1, "%s", data)] followed by [UTI_StringToIP]
      in [process_response]: the address, or [None] when either call makes
      the condition of the [if] true *)
  string_to_ip : list byte -> Z -> option IPAddr
}.

(** ** nts_ke.c *)

Module NtsKe.

Definition RECORD_CRITICAL_BIT : Z := Z.shiftl 1 15.
Definition RECORD_END_OF_MESSAGE : Z := 0.
Definition RECORD_NEXT_PROTOCOL : Z := 1.
Definition RECORD_ERROR : Z := 2.
Definition RECORD_WARNING : Z := 3.
Definition RECORD_AEAD_ALGORITHM : Z := 4.
Definition RECORD_COOKIE : Z := 5.
Definition RECORD_NTPV4_SERVER_NEGOTIATION : Z := 6.
Definition RECORD_NTPV4_PORT_NEGOTIATION : Z := 7.

Definition ERROR_BAD_RESPONSE : Z := -2.
Definition ERROR_NONE : Z := -1.
Definition ERROR_UNRECOGNIZED_CRITICAL_RECORD : Z := 0.
Definition ERROR_BAD_REQUEST : Z := 1.

Definition NEXT_PROTOCOL_NONE : Z := -1.
Definition NEXT_PROTOCOL_NTPV4 : Z := 0.
Definition AEAD_NONE : Z := -1.
Definition AEAD_AES_SIV_CMAC_256 : Z := 15.

Definition MAX_MESSAGE_LENGTH : Z := 16384.
Definition MAX_RECORD_BODY_LENGTH : Z := 256.
Definition MAX_COOKIES : Z := 8.

(** [sizeof (struct RecordHeader)]: two [uint16_t]. *)
Definition sizeof_header : Z := 4.

(** [struct NKE_Message]; [m_data] is the array [data]. *)
Record NKE_Message : Type := {
  m_length : Z;
  m_sent : Z;
  m_eof : Z;
  m_parsed : Z;
  m_data : list byte
}.

Inductive NtsKeMsgFormat : Type := MSG_INCOMPLETE | MSG_ERROR | MSG_OK.

Definition reset_message (message : NKE_Message) : NKE_Message :=
  {| m_length := 0; m_sent := 0; m_eof := 0; m_parsed := 0;
     m_data := m_data message |}.

(** [add_record]; [body] and [body_length] travel together as one list.
    [None] is the return value 0, and the message is then left as it was. *)
Definition add_record (message : NKE_Message) (critical type : Z) (body : list byte)
  : option NKE_Message :=
  let body_length := zlength body in
  if (body_length <? 0) || (body_length >? 65535) ||
     (m_length message + sizeof_header + body_length >? MAX_MESSAGE_LENGTH)
  then None
  else
    let header :=
      htons (Z.lor ((if critical =? 0 then 0 else 1) * RECORD_CRITICAL_BIT) type)
      ++ htons body_length in
    let data1 := memcpy (m_data message) (m_length message) header in
    let length1 := m_length message + sizeof_header in
    let '(data2, length2) :=
      if body_length >? 0
      then (memcpy data1 length1 body, length1 + body_length)
      else (data1, length1) in
    Some {| m_length := length2; m_sent := m_sent message; m_eof := m_eof message;
            m_parsed := m_parsed message; m_data := data2 |}.

Definition reset_message_parsing (message : NKE_Message) : NKE_Message :=
  {| m_length := m_length message; m_sent := m_sent message; m_eof := m_eof message;
     m_parsed := 0; m_data := m_data message |}.

(** What [get_record] stores through its pointer arguments. *)
Record RecordOut : Type := {
  r_critical : Z;
  r_type : Z;
  r_body : option (list byte);
  r_body_length : Z
}.

(** [get_record].  [body] is the caller's buffer ([None] for a NULL
    pointer) and [body_length] the value of [*body_length] on entry.  [None]
    is the return value 0: nothing is stored and [parsed] does not move. *)
Definition get_record (message : NKE_Message) (body : option (list byte)) (body_length : Z)
  : option (NKE_Message * RecordOut) :=
  if m_length message <? m_parsed message + sizeof_header then None
  else
    let header := sub (m_data message) (m_parsed message) sizeof_header in
    let blen := ntohs (skipn 2 header) in
    let rlen := sizeof_header + blen in
    if m_length message <? m_parsed message + rlen then None
    else
      Some ({| m_length := m_length message; m_sent := m_sent message;
               m_eof := m_eof message; m_parsed := m_parsed message + rlen;
               m_data := m_data message |},
            {| r_critical := if Z.land (ntohs header) 32768 =? 0 then 0 else 1;
               r_type := Z.land (ntohs header) 32767;
               r_body :=
                 option_map
                   (fun b => memcpy b 0
                      (sub (m_data message) (m_parsed message + sizeof_header)
                           (Z.min body_length blen)))
                   body;
               r_body_length := blen |}).

(** The loop [while (get_record(message, &critical, &type, NULL, &length)) ;]
    of [check_message_format].  [last] holds the three locals, [None] while
    they are still uninitialised. *)
Fixpoint get_records (fuel : nat) (message : NKE_Message) (last : option (Z * Z * Z))
  : option (NKE_Message * option (Z * Z * Z)) :=
  match fuel with
  | O => None
  | S fuel' =>
      match get_record message None 0 with
      | None => Some (message, last)
      | Some (message', r) =>
          get_records fuel' message' (Some (r_critical r, r_type r, r_body_length r))
      end
  end.

(** Every record takes at least the four bytes of its header. *)
Definition records_fuel (message : NKE_Message) : nat :=
  S (Z.to_nat (m_length message)).

(** [check_message_format]: the verdict and the message with its [parsed]
    cursor where the loop left it.  The outer [None] is the loop running out
    of fuel. *)
Definition check_message_format (message : NKE_Message)
  : option (NtsKeMsgFormat * NKE_Message) :=
  let message0 := reset_message_parsing message in
  match get_records (records_fuel message0) message0 None with
  | None => None
  | Some (message1, last) =>
      if (m_length message1 =? 0) || (m_parsed message1 <? m_length message1)
      then Some (if m_eof message1 =? 0 then MSG_INCOMPLETE else MSG_ERROR, message1)
      else
        match last with
        | Some (critical, type, length) =>
            if (critical =? 0) || negb (type =? RECORD_END_OF_MESSAGE) || negb (length =? 0)
            then Some (MSG_ERROR, message1)
            else Some (MSG_OK, message1)
        | None =>
            (* the locals would be read uninitialised: not reachable, see
               [get_records_total] *)
            Some (MSG_ERROR, message1)
        end
  end.

(** *** Messages as sequences of records

    The vocabulary in which the properties of the codec are stated. *)

(** The bytes of a message: [data[0 .. length)]. *)
Definition contents (message : NKE_Message) : list byte :=
  sub (m_data message) 0 (m_length message).

(** The invariant of [struct NKE_Message] that the codec relies on. *)
Definition message_ok (message : NKE_Message) : Prop :=
  0 <= m_length message <= MAX_MESSAGE_LENGTH /\
  zlength (m_data message) = MAX_MESSAGE_LENGTH.

(** An NTS-KE record. *)
Record KeRecord : Type := {
  rec_critical : bool;
  rec_type : Z;
  rec_body : list byte
}.

Definition record_ok (r : KeRecord) : Prop :=
  0 <= rec_type r < 32768 /\ zlength (rec_body r) <= 65535.

Definition int_of_bool (b : bool) : Z := if b then 1 else 0.

(** The bytes [add_record] writes for a record. *)
Definition encode_record (r : KeRecord) : list byte :=
  htons (Z.lor (int_of_bool (rec_critical r) * RECORD_CRITICAL_BIT) (rec_type r))
  ++ htons (zlength (rec_body r)) ++ rec_body r.

Definition encode_records (rs : list KeRecord) : list byte :=
  concat (map encode_record rs).

(** [add_record] for each record in turn, stopping at the first that
    fails. *)
Fixpoint add_records (message : NKE_Message) (rs : list KeRecord) : option NKE_Message :=
  match rs with
  | [] => Some message
  | r :: rs' =>
      match add_record message (int_of_bool (rec_critical r)) (rec_type r) (rec_body r) with
      | None => None
      | Some message' => add_records message' rs'
      end
  end.

(** The critical End-of-Message record with an empty body. *)
Definition end_of_message : KeRecord :=
  {| rec_critical := true; rec_type := RECORD_END_OF_MESSAGE; rec_body := [] |}.

Definition is_end_of_message (r : KeRecord) : bool :=
  rec_type r =? RECORD_END_OF_MESSAGE.

(** The three locals of [check_message_format] after the records [rs]
    have been read. *)
Definition last_record (rs : list KeRecord) (last : option (Z * Z * Z))
  : option (Z * Z * Z) :=
  fold_left
    (fun _ r => Some (int_of_bool (rec_critical r), rec_type r, zlength (rec_body r)))
    rs last.

(** The first of the three locals of [check_message_format] is a truth
    value. *)
Definition last_ok (last : option (Z * Z * Z)) : Prop :=
  match last with
  | Some (c, _, _) => c = 0 \/ c = 1
  | None => True
  end.

(** The request that [prepare_request] builds, without its last record. *)
Definition sample_request : list KeRecord :=
  [ {| rec_critical := true; rec_type := RECORD_NEXT_PROTOCOL;
       rec_body := htons NEXT_PROTOCOL_NTPV4 |};
    {| rec_critical := true; rec_type := RECORD_AEAD_ALGORITHM;
       rec_body := htons AEAD_AES_SIV_CMAC_256 |} ].


(** An array [data] with nothing in it yet. *)
Definition blank_message : NKE_Message :=
  {| m_length := 0; m_sent := 0; m_eof := 0; m_parsed := 0;
     m_data := repeat x00 (Z.to_nat MAX_MESSAGE_LENGTH) |}.

(** The message that holds [bytes] at the start of its array. *)
Definition message_of (bytes : list byte) (eof : Z) : NKE_Message :=
  {| m_length := zlength bytes; m_sent := 0; m_eof := eof; m_parsed := 0;
     m_data := memcpy (m_data blank_message) 0 bytes |}.

(** The verdict of [check_message_format] on the message that [add_record]
    builds from the records [rs] in a blank buffer. *)
Definition encode_and_check (rs : list KeRecord) : option NtsKeMsgFormat :=
  match add_records (reset_message blank_message) rs with
  | None => None
  | Some message => option_map fst (check_message_format message)
  end.

Definition set_parsed (message : NKE_Message) (parsed : Z) : NKE_Message :=
  {| m_length := m_length message; m_sent := m_sent message; m_eof := m_eof message;
     m_parsed := parsed; m_data := m_data message |}.

(** *** Requests and responses *)

Module Labels.
Import Stdlib.Strings.String.
Definition ALPN_NAME : list byte := list_byte_of_string "ntske/1".
Definition EXPORTER_LABEL : list byte :=
  list_byte_of_string "EXPORTER-network-time-security/1".
End Labels.

(** [NKE_Cookie] and [NKE_Key] of [nts_ke.h]: a length and an array. *)
Record NKE_Cookie : Type := { c_length : Z; c_cookie : list byte }.
Record NKE_Key : Type := { k_length : Z; k_key : list byte }.

(** [sizeof (NKE_Key.key)]: [NKE_GetKeys] exports that many bytes and
    [get_nke_data] asserts that it is twice the AES-128 key size. *)
Definition sizeof_key : Z := 32.

(** [ServerCookie]: a [uint32_t], sixteen bytes of nonce and 64 + 16 bytes
    of ciphertext, laid out without padding. *)
Definition offsetof_nonce : Z := 4.
Definition sizeof_nonce : Z := 16.
Definition offsetof_ciphertext : Z := 20.
Definition sizeof_ciphertext : Z := 64 + 16.
Definition sizeof_ServerCookie : Z := 100.

(** [ServerKey] *)
Record ServerKey {Siv : SIV} : Type := { id : Z; siv : siv_ctx }.

Definition KEY_ID_INDEX_BITS : Z := 2.
Definition MAX_SERVER_KEYS : Z := Z.shiftl 1 KEY_ID_INDEX_BITS.

(** The globals [server_keys] and [current_server_key]. *)
Record KeyRing {Siv : SIV} : Type := {
  server_keys : list ServerKey;
  current_server_key : Z
}.

(** [struct NKE_Instance_Record], without the socket and the timer. *)
Record NKE_Instance {E : KeEnv} : Type := {
  i_session : Session;
  i_message : NKE_Message
}.

Section Exchange.

Context {Siv : SIV} {E : KeEnv}.

(** A [ServerKey] in static storage before anything is stored in it. *)
Definition ServerKey_zero : ServerKey := {| id := 0; siv := siv_ctx_zero |}.

(** The key ring when the program starts. *)
Definition initial_keys : KeyRing :=
  {| server_keys := repeat ServerKey_zero (Z.to_nat MAX_SERVER_KEYS);
     current_server_key := 0 |}.

(** [-1U << KEY_ID_INDEX_BITS], an [unsigned int] of 32 bits. *)
Definition id_mask : Z := Z.shiftl (2 ^ 32 - 1) KEY_ID_INDEX_BITS mod 2 ^ 32.

(** [generate_server_key]; [key] and [rnd] are what
    [UTI_GetRandomBytesUrandom] and [UTI_GetRandomBytes] deliver, [rnd]
    read as the [uint32_t] it is stored in. *)
Definition generate_server_key (ring : KeyRing) (key : list byte) (rnd : Z) : KeyRing :=
  let current := (current_server_key ring + 1) mod MAX_SERVER_KEYS in
  let id0 := rnd mod 2 ^ 32 in
  let id1 := Z.land id0 id_mask in
  let id2 := Z.lor id1 current in
  {| server_keys :=
       aset (server_keys ring) current {| id := id2; siv := siv_set_key key |};
     current_server_key := current |}.

(** [NKE_GenerateCookie]; [nonce] is what [UTI_GetRandomBytes] delivers and
    [nke_cookie] the object written to.  A failed [assert] is [None]. *)
Definition NKE_GenerateCookie (ring : KeyRing) (c2s s2c : NKE_Key) (nonce : list byte)
    (nke_cookie : NKE_Cookie) : option NKE_Cookie :=
  let key := aget ServerKey_zero (server_keys ring) (current_server_key ring) in
  if NKE_MAX_COOKIE_LENGTH <? sizeof_ServerCookie then None
  else
    let cookie0 := memcpy (c_cookie nke_cookie) 0 (u32_to_bytes host_big_endian (id key)) in
    let cookie1 := memcpy cookie0 offsetof_nonce (sub nonce 0 sizeof_nonce) in
    if negb (k_length c2s =? 32) || negb (k_length s2c =? 32) then None
    else
      let plaintext := sub (k_key c2s) 0 32 ++ sub (k_key s2c) 0 32 in
      let ciphertext :=
        siv_encrypt_message (siv key) (sub cookie1 offsetof_nonce sizeof_nonce) []
                            plaintext in
      Some {| c_length := sizeof_ServerCookie;
              c_cookie := memcpy cookie1 offsetof_ciphertext ciphertext |}.

(** [NKE_DecodeCookie]: the two keys stored through [c2s] and [s2c], or
    [None] for the return value 0. *)
Definition NKE_DecodeCookie (ring : KeyRing) (nke_cookie : NKE_Cookie)
  : option (NKE_Key * NKE_Key) :=
  if negb (c_length nke_cookie =? sizeof_ServerCookie) then None
  else
    let key_id := u32_of_bytes host_big_endian (sub (c_cookie nke_cookie) 0 4) in
    let key := aget ServerKey_zero (server_keys ring) (key_id mod MAX_SERVER_KEYS) in
    if negb (key_id =? id key) then None
    else
      match siv_decrypt_message (siv key)
              (sub (c_cookie nke_cookie) offsetof_nonce sizeof_nonce) []
              (sub (c_cookie nke_cookie) offsetof_ciphertext sizeof_ciphertext) with
      | None => None
      | Some plaintext =>
          Some ({| k_length := 32; k_key := sub plaintext 0 32 |},
                {| k_length := 32; k_key := sub plaintext 32 32 |})
      end.

(** [server_keys[i]] *)
Definition slot (ring : KeyRing) (i : Z) : ServerKey :=
  aget ServerKey_zero (server_keys ring) i.

(** The key that seals: [server_keys[current_server_key]]. *)
Definition current_key (ring : KeyRing) : ServerKey :=
  slot ring (current_server_key ring).

(** The field [key_id] of the [ServerCookie] that lies in a cookie. *)
Definition cookie_key_id (nke_cookie : NKE_Cookie) : Z :=
  u32_of_bytes host_big_endian (sub (c_cookie nke_cookie) 0 4).

(** The states of the key ring: the one the program starts in, and any
    state followed by a rotation. *)
Inductive reachable : KeyRing -> Prop :=
| reachable_start : reachable initial_keys
| reachable_rotate (ring : KeyRing) (key : list byte) (rnd : Z) :
    reachable ring -> reachable (generate_server_key ring key rnd).

(** What holds of every reachable key ring: either every slot has been
    filled, and each id names its slot; or slot 0 and the slots behind the
    current one are still as the program found them, and the others have
    been filled. *)
Definition ring_ok (ring : KeyRing) : Prop :=
  zlength (server_keys ring) = MAX_SERVER_KEYS /\
  0 <= current_server_key ring < MAX_SERVER_KEYS /\
  (forall i, 0 <= i < MAX_SERVER_KEYS -> 0 <= id (slot ring i) < 2 ^ 32) /\
  ((forall i, 0 <= i < MAX_SERVER_KEYS -> id (slot ring i) mod MAX_SERVER_KEYS = i) \/
   (forall i, 0 <= i < MAX_SERVER_KEYS ->
      (1 <= i <= current_server_key ring -> id (slot ring i) mod MAX_SERVER_KEYS = i) /\
      (i = 0 \/ current_server_key ring < i -> slot ring i = ServerKey_zero))).

Definition EXPORTER_LABEL : list byte := Labels.EXPORTER_LABEL.
Definition EXPORTER_CONTEXT_C2S : list byte := [x00; x00; x00; x0f; x00].
Definition EXPORTER_CONTEXT_S2C : list byte := [x00; x00; x00; x0f; x01].

(** [NKE_GetKeys] *)
Definition NKE_GetKeys (inst : NKE_Instance) : option (NKE_Key * NKE_Key) :=
  match gnutls_prf_rfc5705 (i_session inst) EXPORTER_LABEL EXPORTER_CONTEXT_C2S sizeof_key with
  | None => None
  | Some c2s =>
      match gnutls_prf_rfc5705 (i_session inst) EXPORTER_LABEL EXPORTER_CONTEXT_S2C
              sizeof_key with
      | None => None
      | Some s2c =>
          Some ({| k_length := sizeof_key; k_key := c2s |},
                {| k_length := sizeof_key; k_key := s2c |})
      end
  end.

Definition set_message (inst : NKE_Instance) (message : NKE_Message) : NKE_Instance :=
  {| i_session := i_session inst; i_message := message |}.

(** [prepare_request]: the return value and the instance afterwards. *)
Definition prepare_request (inst : NKE_Instance) : Z * NKE_Instance :=
  let m0 := reset_message (i_message inst) in
  match add_record m0 1 RECORD_NEXT_PROTOCOL (htons NEXT_PROTOCOL_NTPV4) with
  | None => (0, set_message inst m0)
  | Some m1 =>
      match add_record m1 1 RECORD_AEAD_ALGORITHM (htons AEAD_AES_SIV_CMAC_256) with
      | None => (0, set_message inst m1)
      | Some m2 =>
          match add_record m2 1 RECORD_END_OF_MESSAGE [] with
          | None => (0, set_message inst m2)
          | Some m3 => (1, set_message inst m3)
          end
      end
  end.

(** Modelled from the spec: [NTP_PORT] of [ntp.h], a header that is not
    among the sources; the spec gives the port as 123. *)
Definition NTP_PORT : Z := 123.

(** The loop [for (i = 0; i < MAX_COOKIES; i++)] of [prepare_response],
    from [i] on; [nonces i] is the nonce drawn in round [i].  The flag says
    whether the loop ran to its end. *)
Fixpoint add_cookies (rounds : nat) (i : nat) (ring : KeyRing) (c2s s2c : NKE_Key)
    (nonces : nat -> list byte) (cookie : NKE_Cookie) (message : NKE_Message)
  : bool * NKE_Message :=
  match rounds with
  | O => (true, message)
  | S rounds' =>
      match NKE_GenerateCookie ring c2s s2c (nonces i) cookie with
      | None => (false, message)
      | Some cookie' =>
          match add_record message 0 RECORD_COOKIE
                  (sub (c_cookie cookie') 0 (c_length cookie')) with
          | None => (false, message)
          | Some message' =>
              add_cookies rounds' (S i) ring c2s s2c nonces cookie' message'
          end
      end
  end.

(** [prepare_response]; [cookie0] is the uninitialised local [cookie]. *)
Definition prepare_response (ring : KeyRing) (nonces : nat -> list byte)
    (cookie0 : NKE_Cookie) (inst : NKE_Instance) (error next_protocol aead_algorithm : Z)
  : Z * NKE_Instance :=
  let m0 := reset_message (i_message inst) in
  let '(ok, m1) :=
    if negb (error =? ERROR_NONE) then
      match add_record m0 1 RECORD_ERROR (htons error) with
      | None => (false, m0)
      | Some m => (true, m)
      end
    else
      match add_record m0 1 RECORD_NEXT_PROTOCOL (htons next_protocol) with
      | None => (false, m0)
      | Some ma =>
          match add_record ma 1 RECORD_AEAD_ALGORITHM (htons aead_algorithm) with
          | None => (false, ma)
          | Some mb =>
              let port :=
                if negb (CNF_GetNTPPort =? NTP_PORT)
                then add_record mb 1 RECORD_NTPV4_PORT_NEGOTIATION (htons CNF_GetNTPPort)
                else Some mb in
              match port with
              | None => (false, mb)
              | Some mc =>
                  match NKE_GetKeys inst with
                  | None => (false, mc)
                  | Some (c2s, s2c) =>
                      add_cookies (Z.to_nat MAX_COOKIES) 0 ring c2s s2c nonces cookie0 mc
                  end
              end
          end
      end in
  if ok then
    match add_record m1 1 RECORD_END_OF_MESSAGE [] with
    | None => (0, set_message inst m1)
    | Some m2 => (1, set_message inst m2)
    end
  else (0, set_message inst m1).

(** The loops [for (i = 0; i < MIN(length, sizeof (data)) / 2; i++)] of
    [process_request]: is one of the 16-bit values of [data] equal to
    [wanted]? *)
Definition offered (data : list byte) (length wanted : Z) : bool :=
  existsb (fun i => ntohs (skipn (2 * i)%nat data) =? wanted)
          (seq 0 (Z.to_nat (Z.min length MAX_RECORD_BODY_LENGTH / 2))).

(** The locals of [process_request]. *)
Record Request : Type := {
  q_next_protocol : Z;
  q_aead_algorithm : Z;
  q_error : Z;
  q_has_next_protocol : Z;
  q_data : list byte
}.

(** The body of the loop of [process_request] after a record was read:
    the [switch]. *)
Definition request_record (q : Request) (critical type length : Z) (data : list byte)
  : Request :=
  let set_error e :=
    {| q_next_protocol := q_next_protocol q; q_aead_algorithm := q_aead_algorithm q;
       q_error := e; q_has_next_protocol := q_has_next_protocol q; q_data := data |} in
  if type =? RECORD_NEXT_PROTOCOL then
    if (critical =? 0) || (length <? 2) || negb (Z.rem length 2 =? 0)
    then set_error ERROR_BAD_REQUEST
    else
      {| q_next_protocol :=
           if offered data length NEXT_PROTOCOL_NTPV4 then NEXT_PROTOCOL_NTPV4
           else q_next_protocol q;
         q_aead_algorithm := q_aead_algorithm q;
         q_error := q_error q; q_has_next_protocol := 1; q_data := data |}
  else if type =? RECORD_AEAD_ALGORITHM then
    if (length <? 2) || negb (Z.rem length 2 =? 0)
    then set_error ERROR_BAD_REQUEST
    else
      {| q_next_protocol := q_next_protocol q;
         q_aead_algorithm :=
           if offered data length AEAD_AES_SIV_CMAC_256 then AEAD_AES_SIV_CMAC_256
           else q_aead_algorithm q;
         q_error := q_error q; q_has_next_protocol := q_has_next_protocol q;
         q_data := data |}
  else if (type =? RECORD_ERROR) || (type =? RECORD_WARNING) || (type =? RECORD_COOKIE)
  then set_error ERROR_BAD_REQUEST
  else if type =? RECORD_END_OF_MESSAGE then set_error (q_error q)
  else if negb (critical =? 0) then set_error ERROR_UNRECOGNIZED_CRITICAL_RECORD
  else set_error (q_error q).

(** The loop [while (error == ERROR_NONE)] of [process_request]. *)
Fixpoint request_loop (fuel : nat) (message : NKE_Message) (q : Request)
  : option (NKE_Message * Request) :=
  match fuel with
  | O => None
  | S fuel' =>
      if negb (q_error q =? ERROR_NONE) then Some (message, q)
      else
        match get_record message (Some (q_data q)) MAX_RECORD_BODY_LENGTH with
        | None => Some (message, q)
        | Some (message', r) =>
            request_loop fuel' message'
              (request_record q (r_critical r) (r_type r) (r_body_length r)
                 (match r_body r with Some d => d | None => q_data q end))
        end
  end.

(** [process_request] up to the call of [prepare_response]: the message
    with its cursor moved and the three arguments [error], [next_protocol]
    and [aead_algorithm] of that call.  [data0] is the uninitialised array
    [data]. *)
Definition request_verdict (data0 : list byte) (message : NKE_Message)
  : option (NKE_Message * (Z * Z * Z)) :=
  let m0 := reset_message_parsing message in
  match request_loop (records_fuel m0) m0
          {| q_next_protocol := NEXT_PROTOCOL_NONE; q_aead_algorithm := AEAD_NONE;
             q_error := ERROR_NONE; q_has_next_protocol := 0; q_data := data0 |} with
  | None => None
  | Some (m1, q) =>
      let error := if q_has_next_protocol q =? 0 then ERROR_BAD_REQUEST else q_error q in
      Some (m1, (error, q_next_protocol q, q_aead_algorithm q))
  end.

(** [process_request] *)
Definition process_request (ring : KeyRing) (nonces : nat -> list byte)
    (cookie0 : NKE_Cookie) (data0 : list byte) (inst : NKE_Instance)
  : option (Z * NKE_Instance) :=
  match request_verdict data0 (i_message inst) with
  | None => None
  | Some (m1, (error, next_protocol, aead_algorithm)) =>
      let '(_, inst') :=
        prepare_response ring nonces cookie0 (set_message inst m1)
                         error next_protocol aead_algorithm in
      Some (1, inst')
  end.

(** The first component of [request_verdict]: the error that
    [process_request] hands to [prepare_response]. *)
Definition request_error (data0 : list byte) (message : NKE_Message) : option Z :=
  option_map (fun v => fst (fst (snd v))) (request_verdict data0 message).

(** The error that the [switch] of [process_request] assigns for a record,
    [None] when it assigns none. *)
Definition record_error (r : KeRecord) : option Z :=
  let type := rec_type r in
  let length := zlength (rec_body r) in
  if type =? RECORD_NEXT_PROTOCOL then
    if negb (rec_critical r) || (length <? 2) || negb (Z.rem length 2 =? 0)
    then Some ERROR_BAD_REQUEST else None
  else if type =? RECORD_AEAD_ALGORITHM then
    if (length <? 2) || negb (Z.rem length 2 =? 0) then Some ERROR_BAD_REQUEST else None
  else if (type =? RECORD_ERROR) || (type =? RECORD_WARNING) || (type =? RECORD_COOKIE)
  then Some ERROR_BAD_REQUEST
  else if type =? RECORD_END_OF_MESSAGE then None
  else if rec_critical r then Some ERROR_UNRECOGNIZED_CRITICAL_RECORD
  else None.

(** A record for which the [switch] of [process_request] assigns no
    error. *)
Definition quiet (r : KeRecord) : Prop := record_error r = None.

Definition is_next_protocol (r : KeRecord) : bool := rec_type r =? RECORD_NEXT_PROTOCOL.

(** The loop of [process_request] on the records of a request: it stops at
    the first record for which an error is assigned. *)
Fixpoint request_run (q : Request) (rs : list KeRecord) : Request :=
  match rs with
  | [] => q
  | r :: rs' =>
      if negb (q_error q =? ERROR_NONE) then q
      else
        request_run
          (request_record q (int_of_bool (rec_critical r)) (rec_type r)
             (zlength (rec_body r))
             (memcpy (q_data q) 0
                (firstn (Z.to_nat (Z.min MAX_RECORD_BODY_LENGTH (zlength (rec_body r))))
                        (rec_body r))))
          rs'
  end.

(** The error of a request as a function of its records:
    [has_next_protocol] tells whether a Next-Protocol record was accepted
    before. *)
Fixpoint verdict_error (has_next_protocol : bool) (rs : list KeRecord) : Z :=
  match rs with
  | [] => if has_next_protocol then ERROR_NONE else ERROR_BAD_REQUEST
  | r :: rs' =>
      match record_error r with
      | Some e => if has_next_protocol then e else ERROR_BAD_REQUEST
      | None =>
          verdict_error (has_next_protocol || (rec_type r =? RECORD_NEXT_PROTOCOL)) rs'
      end
  end.

(** The locals of [process_response] and what it stores through its
    pointer arguments: [p_cookies] is the caller's array [cookies], [p_addr]
    and [p_port] are [Some] once [*addr] and [*port] have been assigned. *)
Record Response : Type := {
  p_next_protocol : Z;
  p_aead_algorithm : Z;
  p_error : Z;
  p_num_cookies : Z;
  p_cookies : list NKE_Cookie;
  p_addr : option IPAddr;
  p_port : option Z;
  p_data : list byte
}.

Definition NKE_Cookie_zero : NKE_Cookie := {| c_length := 0; c_cookie := [] |}.

(** The body of the loop of [process_response] after a record was read:
    the [switch]. *)
Definition response_record (max_cookies : Z) (p : Response)
    (critical type length : Z) (data : list byte) : Response :=
  let upd next_protocol aead_algorithm error :=
    {| p_next_protocol := next_protocol; p_aead_algorithm := aead_algorithm;
       p_error := error; p_num_cookies := p_num_cookies p; p_cookies := p_cookies p;
       p_addr := p_addr p; p_port := p_port p; p_data := data |} in
  let set_error e := upd (p_next_protocol p) (p_aead_algorithm p) e in
  if type =? RECORD_NEXT_PROTOCOL then
    if (critical =? 0) || negb (length =? 2) || negb (ntohs data =? NEXT_PROTOCOL_NTPV4)
    then set_error ERROR_BAD_RESPONSE
    else upd NEXT_PROTOCOL_NTPV4 (p_aead_algorithm p) (p_error p)
  else if type =? RECORD_AEAD_ALGORITHM then
    upd (p_next_protocol p) AEAD_AES_SIV_CMAC_256
        (if negb (length =? 2) || negb (ntohs data =? AEAD_AES_SIV_CMAC_256)
         then ERROR_BAD_RESPONSE else p_error p)
  else if type =? RECORD_ERROR then set_error ERROR_BAD_RESPONSE
  else if type =? RECORD_WARNING then set_error ERROR_BAD_RESPONSE
  else if type =? RECORD_COOKIE then
    if (length <=? NKE_MAX_COOKIE_LENGTH) && (p_num_cookies p <? max_cookies)
    then
      let slot := aget NKE_Cookie_zero (p_cookies p) (p_num_cookies p) in
      {| p_next_protocol := p_next_protocol p; p_aead_algorithm := p_aead_algorithm p;
         p_error := p_error p; p_num_cookies := p_num_cookies p + 1;
         p_cookies :=
           aset (p_cookies p) (p_num_cookies p)
                {| c_length := length;
                   c_cookie := memcpy (c_cookie slot) 0 (sub data 0 length) |};
         p_addr := p_addr p; p_port := p_port p; p_data := data |}
    else set_error (p_error p)
  else if type =? RECORD_END_OF_MESSAGE then set_error (p_error p)
  else if type =? RECORD_NTPV4_SERVER_NEGOTIATION then
    if length <? 2 then set_error ERROR_BAD_RESPONSE
    else if length >=? MAX_RECORD_BODY_LENGTH + 1 then set_error ERROR_BAD_RESPONSE
    else
      match string_to_ip data length with
      | None => set_error ERROR_BAD_RESPONSE
      | Some a =>
          {| p_next_protocol := p_next_protocol p; p_aead_algorithm := p_aead_algorithm p;
             p_error := p_error p; p_num_cookies := p_num_cookies p;
             p_cookies := p_cookies p; p_addr := Some a; p_port := p_port p;
             p_data := data |}
      end
  else if type =? RECORD_NTPV4_PORT_NEGOTIATION then
    if negb (length =? 2) then set_error ERROR_BAD_RESPONSE
    else
      {| p_next_protocol := p_next_protocol p; p_aead_algorithm := p_aead_algorithm p;
         p_error := p_error p; p_num_cookies := p_num_cookies p;
         p_cookies := p_cookies p; p_addr := p_addr p; p_port := Some (ntohs data);
         p_data := data |}
  else if negb (critical =? 0) then set_error 1
  else set_error (p_error p).

(** [sizeof (data)] in [process_response], an array of
    [NKE_MAX_COOKIE_LENGTH / sizeof (uint16_t)] 16-bit values. *)
Definition sizeof_response_data : Z := NKE_MAX_COOKIE_LENGTH / 2 * 2.

(** The loop [while (error == ERROR_NONE)] of [process_response]. *)
Fixpoint response_loop (fuel : nat) (max_cookies : Z) (message : NKE_Message)
    (p : Response) : option (NKE_Message * Response) :=
  match fuel with
  | O => None
  | S fuel' =>
      if negb (p_error p =? ERROR_NONE) then Some (message, p)
      else
        match get_record message (Some (p_data p)) sizeof_response_data with
        | None => Some (message, p)
        | Some (message', r) =>
            response_loop fuel' max_cookies message'
              (response_record max_cookies p (r_critical r) (r_type r) (r_body_length r)
                 (match r_body r with Some d => d | None => p_data p end))
        end
  end.

(** The locals of [process_response] on entry; [data0] is the
    uninitialised array [data]. *)
Definition response_start (cookies : list NKE_Cookie) (data0 : list byte) : Response :=
  {| p_next_protocol := NEXT_PROTOCOL_NONE; p_aead_algorithm := AEAD_NONE;
     p_error := ERROR_NONE; p_num_cookies := 0; p_cookies := cookies;
     p_addr := None; p_port := None; p_data := data0 |}.

(** [process_response]: the return value, and the locals when the loop
    has ended, among them what the pointer arguments received. *)
Definition process_response (data0 : list byte) (message : NKE_Message)
    (cookies : list NKE_Cookie) (max_cookies : Z)
  : option (Z * NKE_Message * Response) :=
  let m0 := reset_message_parsing message in
  match response_loop (records_fuel m0) max_cookies m0 (response_start cookies data0) with
  | None => None
  | Some (m1, p) =>
      if negb (p_next_protocol p =? NEXT_PROTOCOL_NTPV4) ||
         negb (p_aead_algorithm p =? AEAD_AES_SIV_CMAC_256) ||
         negb (p_error p =? ERROR_NONE)
      then Some (0, m1, p)
      else Some (p_num_cookies p, m1, p)
  end.

(** What [process_response] keeps true of the cookies it has stored. *)
Definition cookies_ok (max_cookies : Z) (p : Response) : Prop :=
  0 <= p_num_cookies p <= max_cookies /\
  forall i, 0 <= i < p_num_cookies p ->
            c_length (aget NKE_Cookie_zero (p_cookies p) i) <= NKE_MAX_COOKIE_LENGTH.

(** The locals with another content of the scratch array [data]. *)
Definition set_data (p : Response) (data : list byte) : Response :=
  {| p_next_protocol := p_next_protocol p; p_aead_algorithm := p_aead_algorithm p;
     p_error := p_error p; p_num_cookies := p_num_cookies p; p_cookies := p_cookies p;
     p_addr := p_addr p; p_port := p_port p; p_data := data |}.

End Exchange.

End NtsKe.

(** ** nts_ntp.c *)

Module NtsNtp.

Import NtsKe.

Definition MAX_COOKIES : Z := 8.
Definition NONCE_LENGTH : Z := 16.
Definition UNIQ_ID_LENGTH : Z := 32.

(** Modelled from the spec: the extension-field type constants of
    [ntp_ext.h], a header that is not among the sources.  The spec names the
    four NTS fields; every other type read from a packet is [NTP_EF_OTHER]
    with its number.  The constructors are distinct, as the labels of a C
    [switch] are. *)
Inductive EFType : Type :=
| NTP_EF_NTS_UNIQUE_IDENTIFIER
| NTP_EF_NTS_COOKIE
| NTP_EF_NTS_COOKIE_PLACEHOLDER
| NTP_EF_NTS_AUTH_AND_EEF
| NTP_EF_OTHER (type : Z).

(** Modelled from the spec: the packet modes of [ntp.h], a header that is
    not among the sources; the code compares with [MODE_CLIENT] and
    [MODE_SERVER] only. *)
Inductive NTP_Mode : Type := MODE_CLIENT | MODE_SERVER | MODE_OTHER (mode : Z).

(** Modelled from the spec: [NTP_Packet] of [ntp.h], a header that is not
    among the sources.  The spec calls an extension field a typed,
    length-delimited appendix to the packet: a packet is its fixed header
    and the sequence of its extension fields, each a type and a body. *)
Record NTP_Packet : Type := {
  pk_header : list byte;
  pk_fields : list (EFType * list byte)
}.

(** Modelled from the spec: [NTP_PacketInfo] of [ntp.h], of which the code
    reads [length], [mode] and [ext_fields]. *)
Record NTP_PacketInfo : Type := {
  pi_length : Z;
  pi_mode : NTP_Mode;
  pi_ext_fields : Z
}.

(** What [ntp_ext.c], which is not among the sources, decides on its own:
    whether a packet has room for one more field, how many bytes a field
    with a given body takes, and the bytes of a packet as they are sent. *)
Class NtpExt : Type := {
  NEF_room : NTP_Packet -> NTP_PacketInfo -> list byte -> bool;
  NEF_field_length : list byte -> Z;
  packet_bytes : NTP_Packet -> Z -> list byte
}.

(** How a loop over the extension fields ends: with a [return] inside its
    body or with the [break] behind the last field. *)
Inductive LoopEnd (A : Type) : Type :=
| Returned (value : Z)
| Broke (locals : A).
Arguments Returned {A} value.
Arguments Broke {A} locals.

Section Fields.

Context {Siv : SIV} {E : KeEnv} {X : NtpExt}.

(** Modelled from the spec: [NEF_AddField] of [ntp_ext.c], which is not
    among the sources.  It appends one typed field to the packet and counts
    it in [info]; [None] is the return value 0, the packet left as it was. *)
Definition NEF_AddField (packet : NTP_Packet) (info : NTP_PacketInfo) (type : EFType)
    (body : list byte) : option (NTP_Packet * NTP_PacketInfo) :=
  if NEF_room packet info body then
    Some ({| pk_header := pk_header packet;
             pk_fields := pk_fields packet ++ [(type, body)] |},
          {| pi_length := pi_length info + NEF_field_length body;
             pi_mode := pi_mode info;
             pi_ext_fields := pi_ext_fields info + 1 |})
  else None.

(** Modelled from the spec: [NEF_ParseField] of [ntp_ext.c], which is not
    among the sources.  It yields the fields of a packet one after the
    other: given the cursor [parsed] it returns the cursor behind the next
    field with the type and the body of that field.  Both callers stop when
    the returned cursor is below the one they passed; that outcome, which
    ends the iteration behind the last field, is [None].  The cursor counts
    fields. *)
Definition NEF_ParseField (packet : NTP_Packet) (length parsed : Z)
  : option (Z * EFType * list byte) :=
  if parsed <? 0 then None
  else
    match nth_error (pk_fields packet) (Z.to_nat parsed) with
    | Some (type, body) => Some (parsed + 1, type, body)
    | None => None
    end.

(** [struct AuthAndEEF]; the two pointers are kept as the bytes they point
    to, from there to the end of the field body. *)
Record AuthAndEEF : Type := {
  a_nonce : list byte;
  a_ciphertext : list byte;
  a_nonce_length : Z;
  a_ciphertext_length : Z
}.

(** The conversion of an [unsigned int] of 32 bits to [int]: the values
    from 2^31 on become the negative numbers. *)
Definition int_of_unsigned (u : Z) : Z :=
  if u <? 2 ^ 31 then u else u - 2 ^ 32.

(** [get_padded_length].  With the operand [4U] the arithmetic is done on
    [unsigned int]: [length] is converted, which takes it modulo 2^32, the
    sum wraps at 2^32, and the assignment converts it back to [int]. *)
Definition get_padded_length (length : Z) : Z :=
  let u := length mod 2 ^ 32 in
  if negb (u mod 4 =? 0)
  then int_of_unsigned ((u + (4 - u mod 4)) mod 2 ^ 32)
  else length.

(** [parse_auth_and_eef]; [None] is the return value 0. *)
Definition parse_auth_and_eef (ef_body : list byte) (ef_body_length : Z)
  : option AuthAndEEF :=
  if ef_body_length <? 4 then None
  else
    let nonce_length := ntohs ef_body in
    let ciphertext_length := ntohs (skipn 2 ef_body) in
    if get_padded_length nonce_length + get_padded_length ciphertext_length
       >? ef_body_length
    then None
    else
      Some {| a_nonce := skipn 4 ef_body;
              a_ciphertext :=
                skipn (Z.to_nat (4 + get_padded_length nonce_length)) ef_body;
              a_nonce_length := nonce_length;
              a_ciphertext_length := ciphertext_length |}.

(** The loop [while (1)] of [NTS_CheckRequestAuth]; the locals are
    [cookie] (with [cookie_length]) and [auth_and_eef], [None] while [cookie]
    is NULL and while [auth_and_eef] is uninitialised. *)
Fixpoint check_request_loop (fuel : nat) (packet : NTP_Packet) (info : NTP_PacketInfo)
    (parsed : Z) (cookie : option (list byte)) (auth_and_eef : option AuthAndEEF)
  : option (LoopEnd (option (list byte) * option AuthAndEEF)) :=
  match fuel with
  | O => None
  | S fuel' =>
      match NEF_ParseField packet (pi_length info) parsed with
      | None => Some (Broke (cookie, auth_and_eef))
      | Some (ef_parsed, ef_type, ef_body) =>
          match ef_type with
          | NTP_EF_NTS_COOKIE =>
              match cookie with
              | Some _ => Some (Returned 0)
              | None =>
                  check_request_loop fuel' packet info ef_parsed (Some ef_body) auth_and_eef
              end
          | NTP_EF_NTS_COOKIE_PLACEHOLDER =>
              check_request_loop fuel' packet info ef_parsed cookie auth_and_eef
          | NTP_EF_NTS_AUTH_AND_EEF =>
              match parse_auth_and_eef ef_body (zlength ef_body) with
              | None => Some (Returned 0)
              | Some a => check_request_loop fuel' packet info ef_parsed cookie (Some a)
              end
          | _ => check_request_loop fuel' packet info ef_parsed cookie auth_and_eef
          end
      end
  end.

(** One round for every field and one for the failing parse behind the
    last. *)
Definition fields_fuel (packet : NTP_Packet) : nat := S (length (pk_fields packet)).

Definition is_client (mode : NTP_Mode) : bool :=
  match mode with MODE_CLIENT => true | _ => false end.
Definition is_server (mode : NTP_Mode) : bool :=
  match mode with MODE_SERVER => true | _ => false end.

(** [NTS_CheckRequestAuth]: the return value; the outer [None] is the loop
    running out of fuel. *)
Definition NTS_CheckRequestAuth (packet : NTP_Packet) (info : NTP_PacketInfo)
  : option Z :=
  if (pi_ext_fields info =? 0) || negb (is_client (pi_mode info)) then Some 0
  else
    match check_request_loop (fields_fuel packet) packet info 0 None None with
    | None => None
    | Some (Returned v) => Some v
    | Some (Broke (cookie, auth_and_eef)) =>
        (* if (cookie && cookie_length) ; *)
        Some 1
    end.

(** [add_response_cookie] *)
Definition add_response_cookie (packet : NTP_Packet) (info : NTP_PacketInfo)
  : option (NTP_Packet * NTP_PacketInfo) :=
  let cookie := repeat x00 100 in
  NEF_AddField packet info NTP_EF_NTS_COOKIE cookie.

(** The loop [while (1)] of [NTS_GenerateResponseAuth]; the response and
    its info are the state.  A [return 0] gives back the response as far as
    it was written. *)
Fixpoint generate_response_loop (fuel : nat) (request : NTP_Packet)
    (req_info : NTP_PacketInfo) (parsed : Z)
    (response : NTP_Packet) (res_info : NTP_PacketInfo)
  : option (Z * NTP_Packet * NTP_PacketInfo) :=
  match fuel with
  | O => None
  | S fuel' =>
      match NEF_ParseField request (pi_length req_info) parsed with
      | None => Some (1, response, res_info)
      | Some (ef_parsed, ef_type, ef_body) =>
          let cookie_case response res_info :=
            match add_response_cookie response res_info with
            | None => Some (0, response, res_info)
            | Some (response', res_info') =>
                generate_response_loop fuel' request req_info ef_parsed response' res_info'
            end in
          match ef_type with
          | NTP_EF_NTS_UNIQUE_IDENTIFIER =>
              match NEF_AddField response res_info ef_type ef_body with
              | None => Some (0, response, res_info)
              | Some (response', res_info') =>
                  (* no break: control falls into the next case *)
                  cookie_case response' res_info'
              end
          | NTP_EF_NTS_COOKIE => cookie_case response res_info
          | NTP_EF_NTS_COOKIE_PLACEHOLDER => cookie_case response res_info
          | _ => generate_response_loop fuel' request req_info ef_parsed response res_info
          end
      end
  end.

(** [NTS_GenerateResponseAuth]: the return value, the response and its
    info. *)
Definition NTS_GenerateResponseAuth (request : NTP_Packet) (req_info : NTP_PacketInfo)
    (response : NTP_Packet) (res_info : NTP_PacketInfo)
  : option (Z * NTP_Packet * NTP_PacketInfo) :=
  if negb (is_client (pi_mode req_info)) || negb (is_server (pi_mode res_info))
  then Some (0, response, res_info)
  else generate_response_loop (fields_fuel request) request req_info 0 response res_info.

(** [struct NTS_ClientInstance_Record], without the address, the name and
    the key establishment instance of the server. *)
Record NTS_ClientInstance : Type := {
  cookies : list NKE_Cookie;
  num_cookies : Z;
  cookie_index : Z;
  siv_c2s : siv_ctx;
  siv_s2c : siv_ctx;
  nonce : list byte;
  uniq_id : list byte
}.

Definition needs_nke (inst : NTS_ClientInstance) : bool := num_cookies inst =? 0.

(** The loop [for (i = 0; i < MAX_COOKIES - inst->num_cookies; i++)] of
    [NTS_GenerateRequestAuth], [rounds] rounds of it.  The flag is false for
    the [return 0] inside; the packet then has the fields added before. *)
Fixpoint add_placeholders (rounds : nat) (cookie : NKE_Cookie)
    (packet : NTP_Packet) (info : NTP_PacketInfo)
  : bool * NTP_Packet * NTP_PacketInfo :=
  match rounds with
  | O => (true, packet, info)
  | S rounds' =>
      match NEF_AddField packet info NTP_EF_NTS_COOKIE_PLACEHOLDER
              (sub (c_cookie cookie) 0 (c_length cookie)) with
      | None => (false, packet, info)
      | Some (packet', info') => add_placeholders rounds' cookie packet' info'
      end
  end.

(** The local [auth] of [NTS_GenerateRequestAuth] as it lies in memory. *)
Definition auth_bytes (nonce ciphertext : list byte) : list byte :=
  htons NONCE_LENGTH ++ htons SIV_DIGEST_SIZE ++ sub nonce 0 NONCE_LENGTH ++ ciphertext.

(** [NTS_GenerateRequestAuth]: the return value, the instance, the packet
    and its info.  When it returns 0 after a field was added, the packet
    keeps the fields added so far. *)
Definition NTS_GenerateRequestAuth (inst : NTS_ClientInstance) (packet : NTP_Packet)
    (info : NTP_PacketInfo) : Z * NTS_ClientInstance * NTP_Packet * NTP_PacketInfo :=
  if needs_nke inst then (0, inst, packet, info)
  else
    let cookie := aget NKE_Cookie_zero (cookies inst) (cookie_index inst) in
    match NEF_AddField packet info NTP_EF_NTS_UNIQUE_IDENTIFIER
            (sub (uniq_id inst) 0 UNIQ_ID_LENGTH) with
    | None => (0, inst, packet, info)
    | Some (packet1, info1) =>
        match NEF_AddField packet1 info1 NTP_EF_NTS_COOKIE
                (sub (c_cookie cookie) 0 (c_length cookie)) with
        | None => (0, inst, packet1, info1)
        | Some (packet2, info2) =>
            match add_placeholders (Z.to_nat (MAX_COOKIES - num_cookies inst)) cookie
                    packet2 info2 with
            | (false, packet3, info3) => (0, inst, packet3, info3)
            | (true, packet3, info3) =>
                let ciphertext :=
                  siv_encrypt_message (siv_c2s inst) (sub (nonce inst) 0 NONCE_LENGTH)
                    (packet_bytes packet3 (pi_length info3)) [] in
                match NEF_AddField packet3 info3 NTP_EF_NTS_AUTH_AND_EEF
                        (auth_bytes (nonce inst) ciphertext) with
                | None => (0, inst, packet3, info3)
                | Some (packet4, info4) =>
                    (1,
                     {| cookies := cookies inst;
                        num_cookies := num_cookies inst - 1;
                        cookie_index := Z.rem (cookie_index inst + 1) MAX_COOKIES;
                        siv_c2s := siv_c2s inst; siv_s2c := siv_s2c inst;
                        nonce := nonce inst; uniq_id := uniq_id inst |},
                     packet4, info4)
                end
            end
        end
    end.

(** [NTS_CheckResponseAuth] *)
Definition NTS_CheckResponseAuth (inst : NTS_ClientInstance) (packet : NTP_Packet)
    (info : NTP_PacketInfo) : Z :=
  if (pi_ext_fields info =? 0) || negb (is_server (pi_mode info)) then 0
  else 0.

(** What [NTS_CheckRequestAuth] decides on the fields of a packet;
    [cookie] tells whether a cookie field came before. *)
Fixpoint check_fields (fields : list (EFType * list byte)) (cookie : bool) : Z :=
  match fields with
  | [] => 1
  | (NTP_EF_NTS_COOKIE, _) :: fields' =>
      if cookie then 0 else check_fields fields' true
  | (NTP_EF_NTS_AUTH_AND_EEF, body) :: fields' =>
      match parse_auth_and_eef body (zlength body) with
      | None => 0
      | Some _ => check_fields fields' cookie
      end
  | _ :: fields' => check_fields fields' cookie
  end.

(** What [NTS_GenerateResponseAuth] does for the fields of a request, one
    after the other. *)
Fixpoint respond (fields : list (EFType * list byte))
    (response : NTP_Packet) (res_info : NTP_PacketInfo)
  : Z * NTP_Packet * NTP_PacketInfo :=
  match fields with
  | [] => (1, response, res_info)
  | (type, body) :: fields' =>
      let cookie_case response res_info :=
        match add_response_cookie response res_info with
        | None => (0, response, res_info)
        | Some (response', res_info') => respond fields' response' res_info'
        end in
      match type with
      | NTP_EF_NTS_UNIQUE_IDENTIFIER =>
          match NEF_AddField response res_info type body with
          | None => (0, response, res_info)
          | Some (response', res_info') => cookie_case response' res_info'
          end
      | NTP_EF_NTS_COOKIE => cookie_case response res_info
      | NTP_EF_NTS_COOKIE_PLACEHOLDER => cookie_case response res_info
      | _ => respond fields' response res_info
      end
  end.

(** The fields that a successful [NTS_GenerateResponseAuth] appends. *)
Definition response_fields (fields : list (EFType * list byte))
  : list (EFType * list byte) :=
  flat_map
    (fun f =>
       match fst f with
       | NTP_EF_NTS_UNIQUE_IDENTIFIER =>
           [(NTP_EF_NTS_UNIQUE_IDENTIFIER, snd f); (NTP_EF_NTS_COOKIE, repeat x00 100)]
       | NTP_EF_NTS_COOKIE => [(NTP_EF_NTS_COOKIE, repeat x00 100)]
       | NTP_EF_NTS_COOKIE_PLACEHOLDER => [(NTP_EF_NTS_COOKIE, repeat x00 100)]
       | _ => []
       end)
    fields.

Definition EFType_eqb (a b : EFType) : bool :=
  match a, b with
  | NTP_EF_NTS_UNIQUE_IDENTIFIER, NTP_EF_NTS_UNIQUE_IDENTIFIER => true
  | NTP_EF_NTS_COOKIE, NTP_EF_NTS_COOKIE => true
  | NTP_EF_NTS_COOKIE_PLACEHOLDER, NTP_EF_NTS_COOKIE_PLACEHOLDER => true
  | NTP_EF_NTS_AUTH_AND_EEF, NTP_EF_NTS_AUTH_AND_EEF => true
  | NTP_EF_OTHER x, NTP_EF_OTHER y => x =? y
  | _, _ => false
  end.

(** The number of fields of a type. *)
Definition count_type (type : EFType) (fields : list (EFType * list byte)) : Z :=
  zlength (filter (fun f => EFType_eqb (fst f) type) fields).

End Fields.

End NtsNtp.

(** ** A sample environment

    Instances of the interfaces, to run the definitions on concrete
    inputs.  The sample cipher prefixes the plaintext with a tag of sixteen
    bytes taken from the nonce and the key, and checks that tag when it
    decrypts. *)

Module Sample.

Fixpoint bytes_eqb (l1 l2 : list byte) : bool :=
  match l1, l2 with
  | [], [] => true
  | b1 :: l1', b2 :: l2' => Byte.eqb b1 b2 && bytes_eqb l1' l2'
  | _, _ => false
  end.

Definition tag (ctx nonce : list byte) : list byte :=
  firstn 16 (nonce ++ ctx ++ repeat x00 16).

Definition siv : SIV :=
  {| siv_ctx := list byte;
     siv_ctx_zero := [];
     siv_set_key := fun key => key;
     siv_encrypt_message := fun ctx nonce adata plaintext =>
       tag ctx nonce ++ plaintext;
     siv_decrypt_message := fun ctx nonce adata ciphertext =>
       if bytes_eqb (firstn 16 ciphertext) (tag ctx nonce)
       then Some (skipn 16 ciphertext) else None |}.

Definition ke_env : KeEnv :=
  {| host_big_endian := false;
     NKE_MAX_COOKIE_LENGTH := 256;
     CNF_GetNTPPort := 123;
     Session := unit;
     gnutls_prf_rfc5705 := fun _ _ context length =>
       Some (repeat (last context x00) (Z.to_nat length));
     IPAddr := unit;
     string_to_ip := fun _ _ => None |}.

Definition ntp_ext : NtsNtp.NtpExt :=
  {| NtsNtp.NEF_room := fun _ _ _ => true;
     NtsNtp.NEF_field_length := fun body => 4 + NtsNtp.get_padded_length (zlength body);
     NtsNtp.packet_bytes := fun packet length =>
       sub (NtsNtp.pk_header packet ++ flat_map snd (NtsNtp.pk_fields packet)) 0 length |}.

(** A key establishment buffer for a cookie, two exporter keys and a
    nonce. *)
Definition cookie_buffer : NtsKe.NKE_Cookie :=
  {| NtsKe.c_length := 0; NtsKe.c_cookie := repeat x00 256 |}.
Definition c2s : NtsKe.NKE_Key :=
  {| NtsKe.k_length := 32; NtsKe.k_key := repeat x11 32 |}.
Definition s2c : NtsKe.NKE_Key :=
  {| NtsKe.k_length := 32; NtsKe.k_key := repeat x22 32 |}.
Definition nonce16 : list byte := repeat x5a 16.

(** The key ring after the rotation that [NKE_Initialise] makes. *)
Definition ring1 : @NtsKe.KeyRing siv :=
  @NtsKe.generate_server_key siv (@NtsKe.initial_keys siv) (repeat x33 32) 3735928559.

(** A client with eight cookies of 100 bytes, a request packet without
    extension fields and the response packet to it. *)
Definition client : @NtsNtp.NTS_ClientInstance siv :=
  {| NtsNtp.cookies :=
       repeat {| NtsKe.c_length := 100; NtsKe.c_cookie := repeat x77 256 |} 8;
     NtsNtp.num_cookies := 8;
     NtsNtp.cookie_index := 0;
     NtsNtp.siv_c2s := (repeat x11 32 : @siv_ctx siv);
     NtsNtp.siv_s2c := (repeat x22 32 : @siv_ctx siv);
     NtsNtp.nonce := nonce16;
     NtsNtp.uniq_id := repeat xab 32 |}.

Definition request0 : NtsNtp.NTP_Packet :=
  {| NtsNtp.pk_header := repeat x00 48; NtsNtp.pk_fields := [] |}.
Definition request0_info : NtsNtp.NTP_PacketInfo :=
  {| NtsNtp.pi_length := 48; NtsNtp.pi_mode := NtsNtp.MODE_CLIENT;
     NtsNtp.pi_ext_fields := 0 |}.
Definition response0 : NtsNtp.NTP_Packet :=
  {| NtsNtp.pk_header := repeat x00 48; NtsNtp.pk_fields := [] |}.
Definition response0_info : NtsNtp.NTP_PacketInfo :=
  {| NtsNtp.pi_length := 48; NtsNtp.pi_mode := NtsNtp.MODE_SERVER;
     NtsNtp.pi_ext_fields := 0 |}.


(** A request whose only extension field is a Unique-Identifier field. *)
Definition bare_request : NtsNtp.NTP_Packet :=
  {| NtsNtp.pk_header := repeat x00 48;
     NtsNtp.pk_fields := [(NtsNtp.NTP_EF_NTS_UNIQUE_IDENTIFIER, repeat xab 32)] |}.
Definition bare_request_info : NtsNtp.NTP_PacketInfo :=
  {| NtsNtp.pi_length := 84; NtsNtp.pi_mode := NtsNtp.MODE_CLIENT;
     NtsNtp.pi_ext_fields := 1 |}.

(** A request with a Unique-Identifier field, a Cookie field of 100 bytes
    0xff, which names a key id that no slot holds, and an authenticator
    field with a nonce and a ciphertext of sixteen zero bytes each. *)
Definition forged_cookie : NtsKe.NKE_Cookie :=
  {| NtsKe.c_length := 100; NtsKe.c_cookie := repeat xff 100 |}.
Definition forged_request : NtsNtp.NTP_Packet :=
  {| NtsNtp.pk_header := repeat x00 48;
     NtsNtp.pk_fields :=
       [ (NtsNtp.NTP_EF_NTS_UNIQUE_IDENTIFIER, repeat xab 32);
         (NtsNtp.NTP_EF_NTS_COOKIE, NtsKe.c_cookie forged_cookie);
         (NtsNtp.NTP_EF_NTS_AUTH_AND_EEF,
          NtsNtp.auth_bytes (repeat x00 16) (repeat x00 16)) ] |}.
Definition forged_request_info : NtsNtp.NTP_PacketInfo :=
  {| NtsNtp.pi_length := 228; NtsNtp.pi_mode := NtsNtp.MODE_CLIENT;
     NtsNtp.pi_ext_fields := 3 |}.

(** A request with one Unique-Identifier, one Cookie and two
    Cookie-Placeholder fields. *)
Definition request2 : NtsNtp.NTP_Packet :=
  {| NtsNtp.pk_header := repeat x00 48;
     NtsNtp.pk_fields :=
       [ (NtsNtp.NTP_EF_NTS_UNIQUE_IDENTIFIER, repeat xab 32);
         (NtsNtp.NTP_EF_NTS_COOKIE, repeat x77 100);
         (NtsNtp.NTP_EF_NTS_COOKIE_PLACEHOLDER, repeat x77 100);
         (NtsNtp.NTP_EF_NTS_COOKIE_PLACEHOLDER, repeat x77 100) ] |}.
Definition request2_info : NtsNtp.NTP_PacketInfo :=
  {| NtsNtp.pi_length := 500; NtsNtp.pi_mode := NtsNtp.MODE_CLIENT;
     NtsNtp.pi_ext_fields := 4 |}.

(** A request with two Unique-Identifier fields, a Cookie field between
    them and one Cookie-Placeholder field. *)
Definition request_two_ids : NtsNtp.NTP_Packet :=
  {| NtsNtp.pk_header := repeat x00 48;
     NtsNtp.pk_fields :=
       [ (NtsNtp.NTP_EF_NTS_UNIQUE_IDENTIFIER, repeat xab 32);
         (NtsNtp.NTP_EF_NTS_COOKIE, repeat x77 100);
         (NtsNtp.NTP_EF_NTS_UNIQUE_IDENTIFIER, repeat xcd 32);
         (NtsNtp.NTP_EF_NTS_COOKIE_PLACEHOLDER, repeat x77 100) ] |}.
Definition request_two_ids_info : NtsNtp.NTP_PacketInfo :=
  {| NtsNtp.pi_length := 328; NtsNtp.pi_mode := NtsNtp.MODE_CLIENT;
     NtsNtp.pi_ext_fields := 4 |}.

(** A key establishment response with two cookies, the second longer
    than [NKE_MAX_COOKIE_LENGTH]. *)
Definition ke_response : list NtsKe.KeRecord :=
  [ {| NtsKe.rec_critical := true; NtsKe.rec_type := NtsKe.RECORD_NEXT_PROTOCOL;
       NtsKe.rec_body := htons NtsKe.NEXT_PROTOCOL_NTPV4 |};
    {| NtsKe.rec_critical := true; NtsKe.rec_type := NtsKe.RECORD_AEAD_ALGORITHM;
       NtsKe.rec_body := htons NtsKe.AEAD_AES_SIV_CMAC_256 |};
    {| NtsKe.rec_critical := false; NtsKe.rec_type := NtsKe.RECORD_COOKIE;
       NtsKe.rec_body := repeat x77 100 |};
    {| NtsKe.rec_critical := false; NtsKe.rec_type := NtsKe.RECORD_COOKIE;
       NtsKe.rec_body := repeat x78 300 |};
    NtsKe.end_of_message ].

(** Two requests, each ended by a critical End-of-Message record: a
    Next-Protocol record, a critical record of the unknown type 100 and a
    Cookie record; and the critical record of type 100 followed by the
    Next-Protocol record. *)
Definition unknown_then_cookie : list NtsKe.KeRecord :=
  [ {| NtsKe.rec_critical := true; NtsKe.rec_type := NtsKe.RECORD_NEXT_PROTOCOL;
       NtsKe.rec_body := htons NtsKe.NEXT_PROTOCOL_NTPV4 |};
    {| NtsKe.rec_critical := true; NtsKe.rec_type := 100; NtsKe.rec_body := [] |};
    {| NtsKe.rec_critical := false; NtsKe.rec_type := NtsKe.RECORD_COOKIE;
       NtsKe.rec_body := [] |};
    NtsKe.end_of_message ].

Definition unknown_first : list NtsKe.KeRecord :=
  [ {| NtsKe.rec_critical := true; NtsKe.rec_type := 100; NtsKe.rec_body := [] |};
    {| NtsKe.rec_critical := true; NtsKe.rec_type := NtsKe.RECORD_NEXT_PROTOCOL;
       NtsKe.rec_body := htons NtsKe.NEXT_PROTOCOL_NTPV4 |};
    NtsKe.end_of_message ].

End Sample.

(** ** Reading a message back

    The records of a message as a caller of [get_record] collects them,
    with a buffer that holds the longest body. *)

Module KeRead.

Import NtsKe.

(** The largest body a record can announce. *)
Definition MAX_BODY : Z := 65535.

(** [get_record] until it returns 0, every record kept with the bytes the
    call has copied to [body]; the fuel counts the calls. *)
Fixpoint read_records (fuel : nat) (message : NKE_Message) (body : list byte)
  : list KeRecord :=
  match fuel with
  | O => []
  | S fuel' =>
      match get_record message (Some body) MAX_BODY with
      | None => []
      | Some (message', r) =>
          let body' := match r_body r with Some b => b | None => body end in
          {| rec_critical := negb (r_critical r =? 0);
             rec_type := r_type r;
             rec_body := sub body' 0 (r_body_length r) |}
          :: read_records fuel' message' body'
      end
  end.

(** Is this the record that ends a message: critical, End-of-Message,
    empty body? *)
Definition is_final (r : KeRecord) : bool :=
  rec_critical r && (rec_type r =? RECORD_END_OF_MESSAGE) && (zlength (rec_body r) =? 0).

(** Does the body of the record hold [wanted] among the 16-bit values that
    the loops of [process_request] look at? *)
Definition offers (wanted : Z) (r : KeRecord) : bool :=
  offered (rec_body r) (zlength (rec_body r)) wanted.

Definition is_aead_algorithm (r : KeRecord) : bool := rec_type r =? RECORD_AEAD_ALGORITHM.

Section Runs.

Context {Siv : SIV} {E : KeEnv}.

(** The loop of [process_response] on the records of a response: it stops
    at the first record for which an error is assigned. *)
Fixpoint response_run (max_cookies : Z) (p : Response) (rs : list KeRecord) : Response :=
  match rs with
  | [] => p
  | r :: rs' =>
      if negb (p_error p =? ERROR_NONE) then p
      else
        response_run max_cookies
          (response_record max_cookies p (int_of_bool (rec_critical r)) (rec_type r)
             (zlength (rec_body r))
             (memcpy (p_data p) 0
                (firstn (Z.to_nat (Z.min sizeof_response_data (zlength (rec_body r))))
                        (rec_body r))))
          rs'
  end.

(** The record in which [prepare_response] sends a cookie. *)
Definition cookie_record (cookie : NKE_Cookie) : KeRecord :=
  {| rec_critical := false; rec_type := RECORD_COOKIE;
     rec_body := sub (c_cookie cookie) 0 (c_length cookie) |}.

(** The record in which [prepare_response] reports an error. *)
Definition error_record (error : Z) : KeRecord :=
  {| rec_critical := true; rec_type := RECORD_ERROR; rec_body := htons error |}.

(** The records with which [prepare_response] starts a response that
    reports no error: the negotiated protocol and algorithm and, when the
    server's NTP port is not the standard one, the port. *)
Definition response_head (next_protocol aead_algorithm : Z) : list KeRecord :=
  [ {| rec_critical := true; rec_type := RECORD_NEXT_PROTOCOL;
       rec_body := htons next_protocol |};
    {| rec_critical := true; rec_type := RECORD_AEAD_ALGORITHM;
       rec_body := htons aead_algorithm |} ]
  ++ (if CNF_GetNTPPort =? NTP_PORT then []
      else [ {| rec_critical := true; rec_type := RECORD_NTPV4_PORT_NEGOTIATION;
                rec_body := htons CNF_GetNTPPort |} ]).

(** A cookie of the size of a [ServerCookie], in a buffer of the size of
    [NKE_Cookie.cookie], that [NKE_DecodeCookie] opens to the two keys. *)
Definition sealed (ring : KeyRing) (c2s s2c : NKE_Key) (cookie : NKE_Cookie) : Prop :=
  c_length cookie = sizeof_ServerCookie /\
  zlength (c_cookie cookie) = NKE_MAX_COOKIE_LENGTH /\
  NKE_DecodeCookie ring cookie = Some (c2s, s2c).

(** The locals of [process_response] with which it returns the number of
    cookies. *)
Definition agreed (p : Response) : Prop :=
  p_next_protocol p = NEXT_PROTOCOL_NTPV4 /\
  p_aead_algorithm p = AEAD_AES_SIV_CMAC_256 /\
  p_error p = ERROR_NONE.

(** The key ring after [server_key_timeout] has run once for each element
    of [draws]: the key and the random id that [generate_server_key] draws. *)
Definition rotations (ring : KeyRing) (draws : list (list byte * Z)) : KeyRing :=
  fold_left (fun r d => generate_server_key r (fst d) (snd d)) draws ring.

End Runs.

End KeRead.


(** Vocabulary for the properties of [nts_ntp.c]. *)
Module NtpRun.

Import NtsKe NtsNtp.

(** A field that is no authenticator field, or one that
    [parse_auth_and_eef] accepts. *)
Definition auth_parses (f : EFType * list byte) : bool :=
  match fst f with
  | NTP_EF_NTS_AUTH_AND_EEF =>
      match parse_auth_and_eef (snd f) (zlength (snd f)) with
      | Some _ => true
      | None => false
      end
  | _ => true
  end.

(** The body with which [NTS_GenerateRequestAuth] sends a cookie. *)
Definition cookie_body (cookie : NKE_Cookie) : list byte :=
  sub (c_cookie cookie) 0 (c_length cookie).

Section Pool.

Context {Siv : SIV} {X : NtpExt}.

(** The instance as a successful [NTS_GenerateRequestAuth] leaves it. *)
Definition after_request (inst : NTS_ClientInstance) : NTS_ClientInstance :=
  {| cookies := cookies inst;
     num_cookies := num_cookies inst - 1;
     cookie_index := Z.rem (cookie_index inst + 1) MAX_COOKIES;
     siv_c2s := siv_c2s inst; siv_s2c := siv_s2c inst;
     nonce := nonce inst; uniq_id := uniq_id inst |}.

(** [k] calls of [NTS_GenerateRequestAuth] in a row, each for a new packet
    [packet] with [info]: the return values with the packets made, and the
    instance in the end. *)
Fixpoint requests (k : nat) (inst : NTS_ClientInstance) (packet : NTP_Packet)
    (info : NTP_PacketInfo) : list (Z * NTP_Packet) * NTS_ClientInstance :=
  match k with
  | O => ([], inst)
  | S k' =>
      let '(r, inst', packet', _) := NTS_GenerateRequestAuth inst packet info in
      let '(rest, inst'') := requests k' inst' packet info in
      ((r, packet') :: rest, inst'')
  end.

End Pool.

End NtpRun.

(** ** nts_ke.c: connections

    The part of [nts_ke.c] that drives a connection: the instance with its
    mode and state, the handlers the scheduler calls, and the table of the
    server's instances.  What the TLS library, the operating system and the
    scheduler return is an argument of the function that asks for it; the
    calls made to them that change something outside the instance are
    returned as a list, in the order they are made. *)

Module KeConn.

Import NtsKe.

Inductive NtsKeMode : Type := KE_UNKNOWN | KE_SERVER | KE_CLIENT.

Inductive NtsKeState : Type :=
| KE_WAIT_CONNECT | KE_HANDSHAKE | KE_SEND | KE_RECEIVE | KE_SHUTDOWN | KE_CLOSED.

Definition INVALID_SOCK_FD : Z := -4.
Definition MAX_SERVER_INSTANCES : Z := 10.

(** What the connection code takes from [gnutls.h] and [sched.h]. *)
Class Tls : Type := {
  (** [gnutls_error_is_fatal] *)
  gnutls_error_is_fatal : Z -> bool;
  SCH_FILE_INPUT : Z;
  SCH_FILE_OUTPUT : Z
}.

Inductive Call : Type :=
| SCH_AddTimeoutByDelay
| SCH_RemoveTimeout (id : Z)
| SCH_AddFileHandler (fd events : Z)
| SCH_RemoveFileHandler (fd : Z)
| SCH_SetFileHandlerEvent (fd event enable : Z)
| close (fd : Z)
| shutdown (fd : Z)
| gnutls_deinit
| Free (address : nat).

(** [struct NKE_Instance_Record]; a NULL [session] is [None], and
    [remote_addr] is [None] until it is assigned. *)
Record NKE_Instance_Record {E : KeEnv} : Type := {
  n_mode : NtsKeMode;
  n_state : NtsKeState;
  n_sock_fd : Z;
  n_session : option Session;
  n_timeout_id : Z;
  n_message : NKE_Message;
  n_remote_addr : option IPAddr
}.

(** What one run of [read_write_socket] is told by the calls it makes:
    [get_socket_error], [gnutls_handshake], [gnutls_record_get_direction],
    [gnutls_record_send], each [gnutls_record_recv] with the bytes it stored
    and the [gnutls_record_check_pending] that follows it, [gnutls_bye], and
    the protocol that [gnutls_alpn_get_selected_protocol] reports, [None]
    for a negative return value. *)
Record Answers : Type := {
  socket_error : Z;
  handshake : Z;
  direction : Z;
  send : Z;
  recv : list (Z * list byte * Z);
  bye : Z;
  selected_protocol : option (list byte)
}.

(** The uninitialised locals and the random bytes that a run of
    [process_request] uses. *)
Record Scratch : Type := {
  s_nonces : nat -> list byte;
  s_cookie : NKE_Cookie;
  s_data : list byte
}.

(** How a part of a handler ends: it has closed the connection and
    returned, it has returned to wait for the next event, or it goes on. *)
Inductive Step (A : Type) : Type :=
| Closed (result : A) (calls : list Call)
| Waits (result : A) (calls : list Call)
| GoesOn (result : A) (calls : list Call).
Arguments Closed {A} result calls.
Arguments Waits {A} result calls.
Arguments GoesOn {A} result calls.

Fixpoint bytes_equal (a b : list byte) : bool :=
  match a, b with
  | [], [] => true
  | x :: a', y :: b' => Byte.eqb x y && bytes_equal a' b'
  | _, _ => false
  end.

(** [check_alpn], on what [gnutls_alpn_get_selected_protocol] reports. *)
Definition check_alpn (selected : option (list byte)) : Z :=
  match selected with
  | None => 0
  | Some data =>
      if negb (zlength data =? zlength Labels.ALPN_NAME)
         || negb (bytes_equal data Labels.ALPN_NAME)
      then 0 else 1
  end.

Section Connection.

Context {Siv : SIV} {E : KeEnv} {T : Tls}.

Definition set_state (inst : NKE_Instance_Record) (state : NtsKeState)
  : NKE_Instance_Record :=
  {| n_mode := n_mode inst; n_state := state; n_sock_fd := n_sock_fd inst;
     n_session := n_session inst; n_timeout_id := n_timeout_id inst;
     n_message := n_message inst; n_remote_addr := n_remote_addr inst |}.

Definition set_n_message (inst : NKE_Instance_Record) (message : NKE_Message)
  : NKE_Instance_Record :=
  {| n_mode := n_mode inst; n_state := n_state inst; n_sock_fd := n_sock_fd inst;
     n_session := n_session inst; n_timeout_id := n_timeout_id inst;
     n_message := message; n_remote_addr := n_remote_addr inst |}.

Definition set_timeout_id (inst : NKE_Instance_Record) (id : Z) : NKE_Instance_Record :=
  {| n_mode := n_mode inst; n_state := n_state inst; n_sock_fd := n_sock_fd inst;
     n_session := n_session inst; n_timeout_id := id;
     n_message := n_message inst; n_remote_addr := n_remote_addr inst |}.

(** [close_connection] *)
Definition close_connection (inst : NKE_Instance_Record)
  : NKE_Instance_Record * list Call :=
  match n_state inst with
  | KE_CLOSED => (inst, [])
  | _ =>
      ({| n_mode := n_mode inst; n_state := KE_CLOSED; n_sock_fd := INVALID_SOCK_FD;
          n_session := n_session inst; n_timeout_id := 0;
          n_message := n_message inst; n_remote_addr := n_remote_addr inst |},
       SCH_RemoveTimeout (n_timeout_id inst)
       :: (if negb (n_sock_fd inst =? INVALID_SOCK_FD)
           then [SCH_RemoveFileHandler (n_sock_fd inst); close (n_sock_fd inst)]
           else []))
  end.

(** [session_timeout] *)
Definition session_timeout (inst : NKE_Instance_Record)
  : NKE_Instance_Record * list Call :=
  close_connection (set_timeout_id inst 0).

(** The part of the instance that the functions of the exchange work on;
    [None] when [session] is NULL. *)
Definition exchange_view (inst : NKE_Instance_Record) : option NKE_Instance :=
  match n_session inst with
  | Some session => Some {| i_session := session; i_message := n_message inst |}
  | None => None
  end.

(** The end of [update_state]: the new state is stored and the output
    events are switched. *)
Definition enter (inst : NKE_Instance_Record) (next_state : NtsKeState) (enable_output : Z)
  : NKE_Instance_Record * list Call :=
  (set_state inst next_state,
   [SCH_SetFileHandlerEvent (n_sock_fd inst) SCH_FILE_OUTPUT enable_output]).

(** [update_state].  [None] is a failed [assert], a NULL [session] handed
    to a function that uses it, or a loop out of fuel. *)
Definition update_state (ring : KeyRing) (scratch : Scratch)
    (selected : option (list byte)) (inst : NKE_Instance_Record)
  : option (NKE_Instance_Record * list Call) :=
  match n_mode inst with
  | KE_SERVER =>
      match n_state inst with
      | KE_WAIT_CONNECT => Some (enter inst KE_HANDSHAKE 0)
      | KE_HANDSHAKE =>
          if check_alpn selected =? 0 then Some (close_connection inst)
          else Some (enter inst KE_RECEIVE 0)
      | KE_RECEIVE =>
          match check_message_format (n_message inst) with
          | None => None
          | Some (MSG_INCOMPLETE, message) => Some (set_n_message inst message, [])
          | Some (MSG_OK, message) =>
              match exchange_view (set_n_message inst message) with
              | None => None
              | Some view =>
                  match process_request ring (s_nonces scratch) (s_cookie scratch)
                          (s_data scratch) view with
                  | None => None
                  | Some (r, view') =>
                      let inst' := set_n_message inst (i_message view') in
                      if r =? 0 then Some (close_connection inst')
                      else Some (enter inst' KE_SEND 1)
                  end
              end
          | Some (MSG_ERROR, message) => Some (close_connection (set_n_message inst message))
          end
      | KE_SEND => Some (enter inst KE_SHUTDOWN 1)
      | KE_SHUTDOWN => Some (close_connection inst)
      | KE_CLOSED => None
      end
  | KE_CLIENT =>
      match n_state inst with
      | KE_WAIT_CONNECT => Some (enter inst KE_HANDSHAKE 1)
      | KE_HANDSHAKE =>
          if check_alpn selected =? 0 then Some (close_connection inst)
          else
            match exchange_view inst with
            | None => None
            | Some view =>
                let '(r, view') := prepare_request view in
                let inst' := set_n_message inst (i_message view') in
                if r =? 0 then Some (close_connection inst')
                else Some (enter inst' KE_SEND 1)
            end
      | KE_SEND => Some (enter (set_n_message inst (reset_message (n_message inst))) KE_RECEIVE 0)
      | KE_RECEIVE =>
          match check_message_format (n_message inst) with
          | None => None
          | Some (MSG_INCOMPLETE, message) => Some (set_n_message inst message, [])
          | Some (MSG_OK, message) => Some (enter (set_n_message inst message) KE_SHUTDOWN 1)
          | Some (MSG_ERROR, message) => Some (close_connection (set_n_message inst message))
          end
      | KE_SHUTDOWN => Some (close_connection inst)
      | KE_CLOSED => None
      end
  | KE_UNKNOWN => None
  end.

(** The loop [do ... while (gnutls_record_check_pending (...) > 0)] of
    [read_write_socket]; [None] when the loop asks for more than [answers]
    holds. *)
Fixpoint receive (answers : list (Z * list byte * Z)) (inst : NKE_Instance_Record)
  : option (Step NKE_Instance_Record) :=
  let message := n_message inst in
  if m_length message >=? MAX_MESSAGE_LENGTH
  then let '(inst', calls) := close_connection inst in Some (Closed inst' calls)
  else
    match answers with
    | [] => None
    | (r, bytes, pending) :: answers' =>
        if r <? 0 then
          if gnutls_error_is_fatal r
          then let '(inst', calls) := close_connection inst in Some (Closed inst' calls)
          else Some (Waits inst [])
        else
          let inst' :=
            set_n_message inst
              {| m_length := m_length message + r; m_sent := m_sent message;
                 m_eof := if r =? 0 then 1 else m_eof message;
                 m_parsed := m_parsed message;
                 m_data := memcpy (m_data message) (m_length message) bytes |} in
          if pending >? 0 then receive answers' inst' else Some (GoesOn inst' [])
    end.

(** The [switch] of [read_write_socket], before the call of
    [update_state]. *)
Definition socket_event (event : Z) (answers : Answers) (inst : NKE_Instance_Record)
  : option (Step NKE_Instance_Record) :=
  let closes := let '(inst', calls) := close_connection inst in Closed inst' calls in
  match n_state inst with
  | KE_WAIT_CONNECT =>
      if negb (event =? SCH_FILE_OUTPUT) then Some (Waits inst [])
      else if negb (socket_error answers =? 0) then Some closes
      else Some (GoesOn inst [])
  | KE_HANDSHAKE =>
      if handshake answers <? 0 then
        if gnutls_error_is_fatal (handshake answers) then Some closes
        else Some (Waits inst [SCH_SetFileHandlerEvent (n_sock_fd inst) SCH_FILE_OUTPUT
                                 (direction answers)])
      else Some (GoesOn inst [])
  | KE_SEND =>
      if send answers <? 0 then
        if gnutls_error_is_fatal (send answers) then Some closes else Some (Waits inst [])
      else
        let message := n_message inst in
        let inst' :=
          set_n_message inst
            {| m_length := m_length message; m_sent := m_sent message + send answers;
               m_eof := m_eof message; m_parsed := m_parsed message;
               m_data := m_data message |} in
        if m_sent message + send answers <? m_length message
        then Some (Waits inst' []) else Some (GoesOn inst' [])
  | KE_RECEIVE => receive (recv answers) inst
  | KE_SHUTDOWN =>
      if bye answers <? 0 then
        if gnutls_error_is_fatal (bye answers) then Some closes
        else Some (Waits inst [SCH_SetFileHandlerEvent (n_sock_fd inst) SCH_FILE_OUTPUT
                                 (direction answers)])
      else Some (GoesOn inst [shutdown (n_sock_fd inst)])
  | KE_CLOSED => None
  end.

(** [read_write_socket] *)
Definition read_write_socket (ring : KeyRing) (scratch : Scratch) (event : Z)
    (answers : Answers) (inst : NKE_Instance_Record)
  : option (NKE_Instance_Record * list Call) :=
  match socket_event event answers inst with
  | None => None
  | Some (Closed inst' calls) => Some (inst', calls)
  | Some (Waits inst' calls) => Some (inst', calls)
  | Some (GoesOn inst' calls) =>
      match update_state ring scratch (selected_protocol answers) inst' with
      | None => None
      | Some (inst'', calls') => Some (inst'', calls ++ calls')
      end
  end.

(** [NKE_CreateInstance]; [data0] is what the allocated memory holds where
    the array [message.data] lies. *)
Definition NKE_CreateInstance (data0 : list byte) : NKE_Instance_Record :=
  {| n_mode := KE_UNKNOWN; n_state := KE_CLOSED; n_sock_fd := INVALID_SOCK_FD;
     n_session := None; n_timeout_id := 0;
     n_message := {| m_length := 0; m_sent := 0; m_eof := 0; m_parsed := 0;
                     m_data := data0 |};
     n_remote_addr := None |}.

(** [accept_server_connection]; [created] is what [create_session] returns
    and [timeout] what [SCH_AddTimeoutByDelay] returns.  [None] is the failed
    [assert]. *)
Definition accept_server_connection (inst : NKE_Instance_Record) (sock_fd : Z)
    (created : option Session) (timeout : Z)
  : option (Z * NKE_Instance_Record * list Call) :=
  match n_state inst with
  | KE_CLOSED =>
      let calls := match n_session inst with Some _ => [gnutls_deinit] | None => [] end in
      match created with
      | None =>
          Some (0,
                {| n_mode := n_mode inst; n_state := n_state inst;
                   n_sock_fd := n_sock_fd inst; n_session := None;
                   n_timeout_id := n_timeout_id inst; n_message := n_message inst;
                   n_remote_addr := n_remote_addr inst |},
                calls)
      | Some session =>
          Some (1,
                {| n_mode := KE_SERVER; n_state := KE_HANDSHAKE; n_sock_fd := sock_fd;
                   n_session := Some session; n_timeout_id := timeout;
                   n_message := reset_message (n_message inst);
                   n_remote_addr := n_remote_addr inst |},
                calls ++ [SCH_AddTimeoutByDelay; SCH_AddFileHandler sock_fd SCH_FILE_INPUT])
      end
  | _ => None
  end.

(** [NKE_OpenClientConnection]; [sock_fd] is what [prepare_socket]
    returns. *)
Definition NKE_OpenClientConnection (inst : NKE_Instance_Record) (addr : IPAddr)
    (sock_fd : Z) (created : option Session) (timeout : Z)
  : option (Z * NKE_Instance_Record * list Call) :=
  match n_state inst with
  | KE_CLOSED =>
      if sock_fd =? INVALID_SOCK_FD then Some (0, inst, [])
      else
        let calls := match n_session inst with Some _ => [gnutls_deinit] | None => [] end in
        match created with
        | None =>
            Some (0,
                  {| n_mode := n_mode inst; n_state := n_state inst;
                     n_sock_fd := n_sock_fd inst; n_session := None;
                     n_timeout_id := n_timeout_id inst; n_message := n_message inst;
                     n_remote_addr := n_remote_addr inst |},
                  calls ++ [close sock_fd])
        | Some session =>
            Some (1,
                  {| n_mode := KE_CLIENT; n_state := KE_WAIT_CONNECT; n_sock_fd := sock_fd;
                     n_session := Some session; n_timeout_id := timeout;
                     n_message := n_message inst; n_remote_addr := Some addr |},
                  calls ++ [SCH_AddTimeoutByDelay;
                            SCH_AddFileHandler sock_fd (Z.lor SCH_FILE_INPUT SCH_FILE_OUTPUT)])
        end
  | _ => None
  end.

(** [NKE_IsClosed] *)
Definition NKE_IsClosed (inst : NKE_Instance_Record) : Z :=
  match n_state inst with KE_CLOSED => 1 | _ => 0 end.

Definition is_client (mode : NtsKeMode) : bool :=
  match mode with KE_CLIENT => true | _ => false end.
Definition is_closed (state : NtsKeState) : bool :=
  match state with KE_CLOSED => true | _ => false end.

(** [NKE_GetCookies]: the return value and the caller's array. *)
Definition NKE_GetCookies (data0 : list byte) (inst : NKE_Instance_Record)
    (cookies : list NKE_Cookie) (max_cookies : Z)
  : option (Z * NKE_Instance_Record * list NKE_Cookie) :=
  if negb (is_client (n_mode inst)) && negb (is_closed (n_state inst))
  then Some (0, inst, cookies)
  else
    match process_response data0 (n_message inst) cookies max_cookies with
    | None => None
    | Some (r, message, p) => Some (r, set_n_message inst message, p_cookies p)
    end.

(** [NKE_GetNtpAddress]: the return value and, when it is 1, the address
    and the port stored through [address]; [cookie0] is the uninitialised
    local [cookie].  The address is [None] when it is taken from a
    [remote_addr] that was never assigned. *)
Definition NKE_GetNtpAddress (data0 : list byte) (cookie0 : NKE_Cookie)
    (inst : NKE_Instance_Record)
  : option (Z * NKE_Instance_Record * option (option IPAddr * Z)) :=
  if negb (is_client (n_mode inst)) && negb (is_closed (n_state inst))
  then Some (0, inst, None)
  else
    match process_response data0 (n_message inst) [cookie0] 1 with
    | None => None
    | Some (r, message, p) =>
        let inst' := set_n_message inst message in
        let port := match p_port p with Some v => v | None => 0 end in
        if r =? 0 then Some (0, inst', None)
        else if port =? 0 then Some (0, inst', None)
        else
          Some (1, inst',
                Some (match p_addr p with Some a => Some a | None => n_remote_addr inst end,
                      port))
    end.

(** [NKE_DestroyInstance] of the instance at [address]: the calls made. *)
Definition NKE_DestroyInstance (address : nat) (inst : NKE_Instance_Record) : list Call :=
  snd (close_connection inst)
  ++ (match n_mode inst with KE_UNKNOWN => [] | _ => [gnutls_deinit] end)
  ++ [Free address].

(** The instances that were allocated, by address, [None] once freed, and
    the global [server_instances], an array of pointers, [None] for NULL. *)
Record Server : Type := {
  heap : list (option NKE_Instance_Record);
  server_instances : list (option nat)
}.

(** What [server_instances[i]] is to the loop of [accept_connection]: a
    NULL pointer, a pointer to an instance, or a pointer to memory that was
    freed. *)
Inductive Slot : Type :=
| Null
| Points (address : nat) (inst : NKE_Instance_Record)
| Dangles (address : nat).

Definition slot_at (server : Server) (i : nat) : Slot :=
  match nth i (server_instances server) None with
  | None => Null
  | Some address =>
      match nth address (heap server) None with
      | Some inst => Points address inst
      | None => Dangles address
      end
  end.

(** What the loop [for (i = 0, inst = NULL; i < MAX_SERVER_INSTANCES; i++)]
    of [accept_connection] finds, from index [i] on with [rounds] rounds
    left: a NULL slot, the slot of a closed instance, or nothing.  The
    outer [None] is a read of freed memory. *)
Inductive Found : Type :=
| FoundNull (i : nat)
| FoundClosed (i : nat) (address : nat) (inst : NKE_Instance_Record)
| FoundNone.

Fixpoint find_slot (rounds : nat) (i : nat) (server : Server) : option Found :=
  match rounds with
  | O => Some FoundNone
  | S rounds' =>
      match slot_at server i with
      | Null => Some (FoundNull i)
      | Points address inst =>
          if is_closed (n_state inst) then Some (FoundClosed i address inst)
          else find_slot rounds' (S i) server
      | Dangles _ => None
      end
  end.

(** What one run of [accept_connection] is told: the descriptor that
    [accept] returns, what [NCR_CheckAccessRestriction] and [fcntl] return,
    the memory that [MallocNew] hands out, the session that
    [create_session] returns and the id that [SCH_AddTimeoutByDelay]
    returns. *)
Record Accepted : Type := {
  accepted_fd : Z;
  access_allowed : Z;
  fcntl_result : Z;
  malloc_data : list byte;
  created_session : option Session;
  timeout : Z
}.

(** The loop of [accept_connection] with what its first branch does: the
    address of the instance taken and the instance, [None] when all slots
    are in use, and the server with a new instance allocated and stored in
    the slot that was NULL. *)
Definition take_slot (answers : Accepted) (server : Server)
  : option (option (nat * NKE_Instance_Record) * Server) :=
  match find_slot (Z.to_nat MAX_SERVER_INSTANCES) 0 server with
  | None => None
  | Some FoundNone => Some (None, server)
  | Some (FoundClosed _ address inst) => Some (Some (address, inst), server)
  | Some (FoundNull i) =>
      let address := length (heap server) in
      let inst := NKE_CreateInstance (malloc_data answers) in
      Some (Some (address, inst),
            {| heap := heap server ++ [Some inst];
               server_instances := set_nth (server_instances server) i (Some address) |})
  end.

Definition set_heap (server : Server) (address : nat) (cell : option NKE_Instance_Record)
  : Server :=
  {| heap := set_nth (heap server) address cell;
     server_instances := server_instances server |}.

(** [accept_connection] *)
Definition accept_connection (answers : Accepted) (server : Server)
  : option (Server * list Call) :=
  let sock_fd := accepted_fd answers in
  if sock_fd <? 0 then Some (server, [])
  else if access_allowed answers =? 0 then Some (server, [close sock_fd])
  else
    match take_slot answers server with
    | None => None
    | Some (None, server1) => Some (server1, [close sock_fd])
    | Some (Some (address, inst), server1) =>
        if negb (fcntl_result answers =? 0) then Some (server1, [close sock_fd])
        else
          match accept_server_connection inst sock_fd (created_session answers)
                  (timeout answers) with
          | None => None
          | Some (r, inst', calls) =>
              if r =? 0 then
                Some (set_heap server1 address None,
                      calls ++ NKE_DestroyInstance address inst' ++ [close sock_fd])
              else Some (set_heap server1 address (Some inst'), calls)
          end
    end.

(** A slot of [server_instances] that points to an instance that is not
    closed. *)
Definition in_use (server : Server) (i : nat) : Prop :=
  exists address inst,
    slot_at server i = Points address inst /\ is_closed (n_state inst) = false.

(** The place of a state on the way of a connection: a server receives
    before it sends, a client sends before it receives. *)
Definition rank (mode : NtsKeMode) (state : NtsKeState) : nat :=
  match state with
  | KE_WAIT_CONNECT => 0
  | KE_HANDSHAKE => 1
  | KE_SEND => match mode with KE_SERVER => 3 | _ => 2 end
  | KE_RECEIVE => match mode with KE_SERVER => 2 | _ => 3 end
  | KE_SHUTDOWN => 4
  | KE_CLOSED => 5
  end.

(** The instance in which a part of a handler ends. *)
Definition step_result {A : Type} (step : Step A) : A :=
  match step with
  | Closed result _ => result
  | Waits result _ => result
  | GoesOn result _ => result
  end.

(** What [gnutls_record_recv] promises for a buffer that holds [length]
    bytes: it fails, or it stores the number of bytes it returns, which is
    at most the room it was given. *)
Fixpoint recv_ok (length : Z) (answers : list (Z * list byte * Z)) : Prop :=
  match answers with
  | [] => True
  | (r, bytes, _) :: answers' =>
      r < 0 \/
      (r <= MAX_MESSAGE_LENGTH - length /\ zlength bytes = r /\
       recv_ok (length + r) answers')
  end.

(** The calls of [gnutls_record_recv] after which the loop of
    [read_write_socket] goes round again, for a buffer that holds [length]
    bytes: the buffer was not full, the call has stored the bytes it
    returns, no more than the room it was given, and
    [gnutls_record_check_pending] is positive afterwards. *)
Fixpoint reads (length : Z) (answers : list (Z * list byte * Z)) : Prop :=
  match answers with
  | [] => True
  | (r, bytes, pending) :: answers' =>
      length < MAX_MESSAGE_LENGTH /\
      0 <= r <= MAX_MESSAGE_LENGTH - length /\ zlength bytes = r /\
      0 < pending /\ reads (length + r) answers'
  end.

(** The message [m'] is the message [m] with the bytes of the calls
    [taken] stored behind its own: it lies within the array, [eof] is 1
    when one of the calls returned 0 and as in [m] otherwise, and [sent] and
    [parsed] are as in [m]. *)
Definition stored_behind (m : NKE_Message) (taken : list (Z * list byte * Z))
    (m' : NKE_Message) : Prop :=
  message_ok m' /\
  contents m' = contents m ++ concat (map (fun a => snd (fst a)) taken) /\
  m_eof m' = (if existsb (fun a => fst (fst a) =? 0) taken then 1 else m_eof m) /\
  m_sent m' = m_sent m /\ m_parsed m' = m_parsed m.

(** What the handlers keep true of the message of an instance. *)
Definition connection_ok (inst : NKE_Instance_Record) : Prop :=
  message_ok (n_message inst) /\
  0 <= m_sent (n_message inst) <= m_length (n_message inst).

End Connection.

End KeConn.

(** ** nts_ntp.c: getting cookies and keys *)

Module NtsPrepare.

Import NtsKe NtsNtp KeConn.

(** [struct NTS_ClientInstance_Record] with its field [nke]: [None] for
    NULL, else the address and the content of the instance it points to. *)
Record NTS_Client {Siv : SIV} {E : KeEnv} : Type := {
  base : NTS_ClientInstance;
  nke : option (nat * NKE_Instance_Record)
}.

(** What one run of [get_nke_data] is told: the address and the memory
    that [MallocNew] hands out, what [prepare_socket], [create_session] and
    [SCH_AddTimeoutByDelay] return, and what the array [data] of
    [process_response] holds on entry. *)
Record Opened {E : KeEnv} : Type := {
  open_address : nat;
  open_data : list byte;
  open_fd : Z;
  open_session : option Session;
  open_timeout : Z;
  open_scratch : list byte
}.

Section Prepare.

Context {Siv : SIV} {E : KeEnv} {T : Tls} {X : NtpExt}.

Definition set_pool (inst : NTS_ClientInstance) (pool : list NKE_Cookie) (num index : Z)
  : NTS_ClientInstance :=
  {| cookies := pool; num_cookies := num; cookie_index := index;
     siv_c2s := siv_c2s inst; siv_s2c := siv_s2c inst;
     nonce := nonce inst; uniq_id := uniq_id inst |}.

(** The first part of [get_nke_data]: the instance to ask, newly made and
    connected when [nke] was NULL, or [None] when the connection could not
    be opened and the new instance was destroyed. *)
Definition connect (addr : IPAddr) (answers : Opened) (inst : NTS_Client)
  : option (option (nat * NKE_Instance_Record) * list Call) :=
  match nke inst with
  | Some k => Some (Some k, [])
  | None =>
      match NKE_OpenClientConnection (NKE_CreateInstance (open_data answers)) addr
              (open_fd answers) (open_session answers) (open_timeout answers) with
      | None => None
      | Some (r, k, calls) =>
          if r =? 0
          then Some (None, calls ++ NKE_DestroyInstance (open_address answers) k)
          else Some (Some (open_address answers, k), calls)
      end
  end.

(** [get_nke_data]; [None] is a failed [assert] or a NULL [session] handed
    to [NKE_GetKeys]. *)
Definition get_nke_data (addr : IPAddr) (answers : Opened) (inst : NTS_Client)
  : option (NTS_Client * list Call) :=
  if negb (needs_nke (base inst)) then None
  else
    match connect addr answers inst with
    | None => None
    | Some (None, calls) => Some ({| base := base inst; nke := None |}, calls)
    | Some (Some (address, k), calls) =>
        match NKE_GetCookies (open_scratch answers) k (cookies (base inst)) MAX_COOKIES with
        | None => None
        | Some (n, k', pool) =>
            if n =? 0
            then Some ({| base := set_pool (base inst) pool n 0;
                          nke := Some (address, k') |}, calls)
            else
              match exchange_view k' with
              | None => None
              | Some view =>
                  match NKE_GetKeys view with
                  | None =>
                      Some ({| base := set_pool (base inst) pool 0 0;
                               nke := Some (address, k') |}, calls)
                  | Some (c2s, s2c) =>
                      Some ({| base :=
                                 {| cookies := pool; num_cookies := n; cookie_index := 0;
                                    siv_c2s := siv_set_key (k_key c2s);
                                    siv_s2c := siv_set_key (k_key s2c);
                                    nonce := nonce (base inst);
                                    uniq_id := uniq_id (base inst) |};
                               nke := None |},
                            calls ++ NKE_DestroyInstance address k')
                  end
              end
        end
    end.

(** [NTS_PrepareForAuth]; [new_id] and [new_nonce] are what
    [UTI_GetRandomBytes] delivers. *)
Definition NTS_PrepareForAuth (addr : IPAddr) (answers : Opened)
    (new_id new_nonce : list byte) (inst : NTS_Client)
  : option (Z * NTS_Client * list Call) :=
  if negb (needs_nke (base inst)) then Some (1, inst, [])
  else
    match get_nke_data addr answers inst with
    | None => None
    | Some (inst', calls) =>
        if needs_nke (base inst') then Some (0, inst', calls)
        else
          Some (1,
                {| base :=
                     {| cookies := cookies (base inst');
                        num_cookies := num_cookies (base inst');
                        cookie_index := cookie_index (base inst');
                        siv_c2s := siv_c2s (base inst'); siv_s2c := siv_s2c (base inst');
                        nonce := new_nonce; uniq_id := new_id |};
                   nke := nke inst' |},
                calls)
    end.

(** What the client code keeps true of the cookies of an instance: the
    cookies not yet used lie in the array from [cookie_index] on. *)
Definition pool_ok (inst : NTS_ClientInstance) : Prop :=
  MAX_COOKIES <= zlength (cookies inst) /\
  0 <= num_cookies inst /\ 0 <= cookie_index inst /\
  cookie_index inst + num_cookies inst <= MAX_COOKIES.

End Prepare.

End NtsPrepare.

(** A key establishment instance over the sample environment, with an
    empty message buffer. *)
Module SampleKe.

Definition inst : @NtsKe.NKE_Instance Sample.ke_env :=
  @NtsKe.Build_NKE_Instance Sample.ke_env tt NtsKe.blank_message.

Definition cookies : list NtsKe.NKE_Cookie := repeat Sample.cookie_buffer 8.

(** A request that offers the protocol 1 and no algorithm. *)
Definition other_protocol : list NtsKe.KeRecord :=
  [ {| NtsKe.rec_critical := true; NtsKe.rec_type := NtsKe.RECORD_NEXT_PROTOCOL;
       NtsKe.rec_body := htons 1 |};
    NtsKe.end_of_message ].

(** An instance whose buffer holds the given bytes. *)
Definition holding (bytes : list byte) : @NtsKe.NKE_Instance Sample.ke_env :=
  @NtsKe.Build_NKE_Instance Sample.ke_env tt (NtsKe.message_of bytes 0).

(** Four draws of [generate_server_key], and the cookie sealed before
    them. *)
Definition four_draws : list (list byte * Z) :=
  [(repeat x44 32, 17); (repeat x55 32, 99); (repeat x66 32, 4096); (repeat x77 32, 5)].

Definition sealed_cookie : NtsKe.NKE_Cookie :=
  match @NtsKe.NKE_GenerateCookie Sample.siv Sample.ke_env Sample.ring1 Sample.c2s
          Sample.s2c Sample.nonce16 Sample.cookie_buffer with
  | Some cookie => cookie
  | None => Sample.cookie_buffer
  end.

Definition tls : KeConn.Tls :=
  {| KeConn.gnutls_error_is_fatal := fun r => negb (r =? -28);
     KeConn.SCH_FILE_INPUT := 1;
     KeConn.SCH_FILE_OUTPUT := 2 |}.

(** A server instance that received the request of [prepare_request], and
    a client instance that is connecting. *)
Definition serving : @KeConn.NKE_Instance_Record Sample.ke_env :=
  @KeConn.Build_NKE_Instance_Record Sample.ke_env KeConn.KE_SERVER KeConn.KE_RECEIVE 7
    (Some tt) 3
    (NtsKe.message_of
       (NtsKe.encode_records (NtsKe.sample_request ++ [NtsKe.end_of_message])) 0)
    None.

Definition connecting : @KeConn.NKE_Instance_Record Sample.ke_env :=
  @KeConn.Build_NKE_Instance_Record Sample.ke_env KeConn.KE_CLIENT KeConn.KE_WAIT_CONNECT 8
    (Some tt) 4 NtsKe.blank_message (Some tt).

(** An environment in which the export of keys fails, and a server in it
    that received the request of [prepare_request]. *)
Definition ke_env_no_keys : KeEnv :=
  {| host_big_endian := false;
     NKE_MAX_COOKIE_LENGTH := 256;
     CNF_GetNTPPort := 123;
     Session := unit;
     gnutls_prf_rfc5705 := fun _ _ _ _ => None;
     IPAddr := unit;
     string_to_ip := fun _ _ => None |}.

Definition serving_no_keys : @KeConn.NKE_Instance_Record ke_env_no_keys :=
  @KeConn.Build_NKE_Instance_Record ke_env_no_keys KeConn.KE_SERVER KeConn.KE_RECEIVE 7
    (Some tt) 3
    (NtsKe.message_of
       (NtsKe.encode_records (NtsKe.sample_request ++ [NtsKe.end_of_message])) 0)
    None.

(** A server with two connections in progress, and the answers to an
    [accept] for which no session can be made. *)
Definition busy_server : @KeConn.Server Sample.ke_env :=
  @KeConn.Build_Server Sample.ke_env [Some serving; Some serving]
    [Some 0%nat; Some 1%nat; None; None; None; None; None; None; None; None].

Definition no_session : @KeConn.Accepted Sample.ke_env :=
  @KeConn.Build_Accepted Sample.ke_env 9 1 0 (NtsKe.m_data NtsKe.blank_message) None 5.

(** The start of a response with one cookie, a client whose buffer holds
    it while it is still receiving, and a client that has received the whole
    response. *)
Definition partial_response : list NtsKe.KeRecord :=
  @KeRead.response_head Sample.ke_env NtsKe.NEXT_PROTOCOL_NTPV4 NtsKe.AEAD_AES_SIV_CMAC_256
  ++ map KeRead.cookie_record [sealed_cookie].

Definition receiving : @KeConn.NKE_Instance_Record Sample.ke_env :=
  @KeConn.Build_NKE_Instance_Record Sample.ke_env KeConn.KE_CLIENT KeConn.KE_RECEIVE 8
    (Some tt) 4 (NtsKe.message_of (NtsKe.encode_records partial_response) 0) (Some tt).

Definition received : @KeConn.NKE_Instance_Record Sample.ke_env :=
  @KeConn.Build_NKE_Instance_Record Sample.ke_env KeConn.KE_CLIENT KeConn.KE_CLOSED
    KeConn.INVALID_SOCK_FD (Some tt) 0
    (NtsKe.message_of
       (NtsKe.encode_records (partial_response ++ [NtsKe.end_of_message])) 1)
    (Some tt).

(** A client of NTS-NTP without cookies whose key establishment has
    ended, and what a run of [get_nke_data] is told. *)
Definition waiting_client : @NtsPrepare.NTS_Client Sample.siv Sample.ke_env :=
  @NtsPrepare.Build_NTS_Client Sample.siv Sample.ke_env
    (@NtsPrepare.set_pool Sample.siv Sample.client (NtsNtp.cookies Sample.client) 0 0)
    (Some (0%nat, received)).

Definition opened : @NtsPrepare.Opened Sample.ke_env :=
  @NtsPrepare.Build_Opened Sample.ke_env 0%nat (NtsKe.m_data NtsKe.blank_message) 8
    (Some tt) 4 [].

Definition prepared
  : Z * @NtsPrepare.NTS_Client Sample.siv Sample.ke_env * list KeConn.Call :=
  match @NtsPrepare.NTS_PrepareForAuth Sample.siv Sample.ke_env tls tt opened
          (repeat xcd 32) (repeat x5b 16) waiting_client with
  | Some result => result
  | None => (0, waiting_client, [])
  end.

Definition scratch : KeConn.Scratch :=
  {| KeConn.s_nonces := fun _ => Sample.nonce16;
     KeConn.s_cookie := Sample.cookie_buffer;
     KeConn.s_data := repeat x00 256 |}.

(** A server instance that waits for a request, the request of
    [prepare_request] arriving in two parts, the instance after the run of
    [read_write_socket] that receives them, and a call of
    [gnutls_record_send] that sends ten bytes. *)
Definition listening : @KeConn.NKE_Instance_Record Sample.ke_env :=
  @KeConn.Build_NKE_Instance_Record Sample.ke_env KeConn.KE_SERVER KeConn.KE_RECEIVE 7
    (Some tt) 3 NtsKe.blank_message None.

Definition two_parts : KeConn.Answers :=
  let request := NtsKe.encode_records (NtsKe.sample_request ++ [NtsKe.end_of_message]) in
  {| KeConn.socket_error := 0; KeConn.handshake := 0; KeConn.direction := 0;
     KeConn.send := 0;
     KeConn.recv := [(6, firstn 6 request, 10); (10, skipn 6 request, 0)];
     KeConn.bye := 0;
     KeConn.selected_protocol := Some NtsKe.Labels.ALPN_NAME |}.

Definition answered : @KeConn.NKE_Instance_Record Sample.ke_env * list KeConn.Call :=
  match @KeConn.read_write_socket Sample.siv Sample.ke_env tls Sample.ring1 scratch 1
          two_parts listening with
  | Some result => result
  | None => (listening, [])
  end.


Definition sends_ten : KeConn.Answers :=
  {| KeConn.socket_error := 0; KeConn.handshake := 0; KeConn.direction := 0;
     KeConn.send := 10; KeConn.recv := []; KeConn.bye := 0;
     KeConn.selected_protocol := Some NtsKe.Labels.ALPN_NAME |}.

Definition quiet_answers : KeConn.Answers :=
  {| KeConn.socket_error := 0; KeConn.handshake := 0; KeConn.direction := 0;
     KeConn.send := 0; KeConn.recv := []; KeConn.bye := 0;
     KeConn.selected_protocol := Some NtsKe.Labels.ALPN_NAME |}.

End SampleKe.

(** * Properties *)

(** ** Bytes and buffers *)

Section MemFacts.

Lemma byte_to_Z_range (b : byte) : 0 <= byte_to_Z b < 256.
Proof.
  unfold byte_to_Z. pose proof (Byte.to_N_bounded b). lia.
Qed.

Lemma byte_to_Z_to_byte (z : Z) : byte_to_Z (Z_to_byte z) = z mod 256.
Proof.
  unfold Z_to_byte, byte_to_Z.
  assert (Hr : 0 <= z mod 256 < 256) by (apply Z.mod_pos_bound; lia).
  destruct (Byte.of_N (Z.to_N (z mod 256))) as [b|] eqn:Hb.
  - apply Byte.to_of_N in Hb. rewrite Hb. lia.
  - apply Byte.of_N_None_iff in Hb. lia.
Qed.

Lemma ntohs_htons (v : Z) (rest : list byte) :
  ntohs (htons v ++ rest) = v mod 65536.
Proof.
  unfold htons, ntohs. cbn [app].
  rewrite !byte_to_Z_to_byte, Z.shiftr_div_pow2 by lia.
  change (2 ^ 8) with 256.
  pose proof (Z.div_mod v 256 ltac:(lia)) as H1.
  pose proof (Z.div_mod (v / 256) 256 ltac:(lia)) as H2.
  pose proof (Z.mod_pos_bound v 256 ltac:(lia)).
  pose proof (Z.mod_pos_bound (v / 256) 256 ltac:(lia)).
  apply Z.mod_unique with (q := v / 256 / 256); lia.
Qed.

Lemma zlength_app {A : Type} (l1 l2 : list A) :
  zlength (l1 ++ l2) = zlength l1 + zlength l2.
Proof. unfold zlength. rewrite length_app. lia. Qed.

Lemma zlength_nonneg {A : Type} (l : list A) : 0 <= zlength l.
Proof. unfold zlength. lia. Qed.

Lemma zlength_htons (v : Z) : zlength (htons v) = 2.
Proof. reflexivity. Qed.

End MemFacts.

Section ArrayFacts.

Context {A : Type}.

Lemma length_set_nth (a : list A) (n : nat) (v : A) : length (set_nth a n v) = length a.
Proof.
  revert n. induction a as [|h t IH]; intros [|n]; cbn; try reflexivity.
  now rewrite IH.
Qed.

Lemma nth_set_nth_same (d : A) (a : list A) (n : nat) (v : A) :
  (n < length a)%nat -> nth n (set_nth a n v) d = v.
Proof.
  revert n. induction a as [|h t IH]; intros [|n] H; cbn in *; try lia; try reflexivity.
  apply IH. lia.
Qed.

Lemma nth_set_nth_other (d : A) (a : list A) (n k : nat) (v : A) :
  n <> k -> nth k (set_nth a n v) d = nth k a d.
Proof.
  revert n k. induction a as [|h t IH]; intros [|n] [|k] H; cbn; try reflexivity; try lia.
  apply IH. lia.
Qed.

Lemma zlength_aset (a : list A) (i : Z) (v : A) : zlength (aset a i v) = zlength a.
Proof.
  unfold aset, zlength. destruct (i <? 0); [reflexivity|]. now rewrite length_set_nth.
Qed.

Lemma aget_aset_same (d : A) (a : list A) (i : Z) (v : A) :
  0 <= i < zlength a -> aget d (aset a i v) i = v.
Proof.
  unfold aget, aset, zlength. intros H.
  replace (i <? 0) with false by (symmetry; apply Z.ltb_ge; lia).
  apply nth_set_nth_same. lia.
Qed.

Lemma aget_aset_other (d : A) (a : list A) (i j : Z) (v : A) :
  0 <= i -> 0 <= j -> i <> j -> aget d (aset a i v) j = aget d a j.
Proof.
  unfold aget, aset. intros Hi Hj H.
  replace (i <? 0) with false by (symmetry; apply Z.ltb_ge; lia).
  replace (j <? 0) with false by (symmetry; apply Z.ltb_ge; lia).
  apply nth_set_nth_other. lia.
Qed.

End ArrayFacts.


(** ** The record codec *)

Section CodecFacts.

Import NtsKe.

Lemma length_firstn_le {A : Type} (n : nat) (l : list A) :
  (n <= length l)%nat -> length (firstn n l) = n.
Proof. intros. rewrite length_firstn. lia. Qed.

Lemma length_memcpy (buf : list byte) (off : Z) (src : list byte) :
  0 <= off -> off + zlength src <= zlength buf ->
  zlength (memcpy buf off src) = zlength buf.
Proof.
  unfold memcpy, zlength. intros Ho Hl.
  rewrite !length_app, length_skipn, length_firstn_le by lia. lia.
Qed.

(** After [memcpy(buf + off, src, n)] the first [off + n] bytes are the
    first [off] bytes as they were, followed by [src]. *)
Lemma firstn_memcpy (buf : list byte) (off : Z) (src : list byte) :
  0 <= off -> off + zlength src <= zlength buf ->
  sub (memcpy buf off src) 0 (off + zlength src) = sub buf 0 off ++ src.
Proof.
  unfold memcpy, sub, zlength. intros Ho Hl. cbn [Z.to_nat skipn].
  replace (Z.to_nat (off + Z.of_nat (length src)))
    with (length (firstn (Z.to_nat off) buf ++ src) + 0)%nat
    by (rewrite length_app, length_firstn_le by lia; lia).
  rewrite app_assoc, firstn_app_2. cbn [firstn]. now rewrite app_nil_r.
Qed.

Lemma sub_sub_prefix (buf : list byte) (n off len : Z) :
  0 <= off -> off + len <= n ->
  sub (sub buf 0 n) off len = sub buf off len.
Proof.
  unfold sub. intros Ho Hn. cbn [Z.to_nat skipn].
  rewrite skipn_firstn_comm, firstn_firstn. f_equal. lia.
Qed.

Lemma sub_app_at (pre x : list byte) (len : Z) :
  sub (pre ++ x) (zlength pre) len = firstn (Z.to_nat len) x.
Proof.
  unfold sub, zlength. rewrite Nat2Z.id, skipn_app, skipn_all, Nat.sub_diag.
  reflexivity.
Qed.

Lemma firstn_app_exact {A : Type} (l1 l2 : list A) (n : nat) :
  n = length l1 -> firstn n (l1 ++ l2) = l1.
Proof.
  intros ->. rewrite firstn_app, Nat.sub_diag, firstn_all. cbn. apply app_nil_r.
Qed.

Lemma zlength_header (w n : Z) : zlength (htons w ++ htons n) = 4.
Proof. reflexivity. Qed.

Lemma add_record_ok (m : NKE_Message) (c t : Z) (body : list byte) :
  message_ok m ->
  zlength body <= 65535 ->
  m_length m + sizeof_header + zlength body <= MAX_MESSAGE_LENGTH ->
  exists m',
    add_record m c t body = Some m' /\
    message_ok m' /\
    m_length m' = m_length m + sizeof_header + zlength body /\
    contents m' =
      contents m ++
      encode_record {| rec_critical := negb (c =? 0); rec_type := t; rec_body := body |} /\
    m_eof m' = m_eof m /\ m_parsed m' = m_parsed m /\ m_sent m' = m_sent m.
Proof.
  intros [Hlen Hdata] Hb Hfit.
  pose proof (zlength_nonneg body) as Hnn.
  unfold add_record.
  unfold sizeof_header, MAX_MESSAGE_LENGTH in *.
  replace ((zlength body <? 0) || (zlength body >? 65535) ||
           (m_length m + 4 + zlength body >? 16384))
    with false
    by (symmetry; rewrite !orb_false_iff, Z.ltb_ge, !Z.gtb_ltb, !Z.ltb_ge; lia).
  set (hdr := htons _ ++ htons _).
  assert (Hh : zlength hdr = 4) by reflexivity.
  assert (Hd1 : zlength (memcpy (m_data m) (m_length m) hdr) = 16384)
    by (rewrite length_memcpy; lia).
  assert (Hc1 : sub (memcpy (m_data m) (m_length m) hdr) 0 (m_length m + 4)
                = contents m ++ hdr)
    by (rewrite <- Hh; apply firstn_memcpy; lia).
  assert (Henc : encode_record {| rec_critical := negb (c =? 0); rec_type := t;
                                  rec_body := body |} = hdr ++ body).
  { unfold encode_record, hdr. cbn [rec_critical rec_type rec_body].
    rewrite <- app_assoc. destruct (c =? 0); reflexivity. }
  rewrite Henc.
  destruct (zlength body >? 0) eqn:Hpos; eexists; (split; [reflexivity|]);
    unfold message_ok, contents, MAX_MESSAGE_LENGTH; cbn [m_length m_data m_eof m_parsed m_sent].
  - rewrite length_memcpy by lia.
    rewrite firstn_memcpy by lia. rewrite Hc1, app_assoc.
    repeat split; try lia.
  - assert (body = []) as ->.
    { destruct body; [reflexivity|]. unfold zlength in Hpos. cbn in Hpos.
      discriminate. }
    rewrite app_nil_r. change (zlength []) with 0. rewrite Z.add_0_r.
    repeat split; try lia. exact Hc1.
Qed.

Lemma zlength_contents (m : NKE_Message) :
  message_ok m -> zlength (contents m) = m_length m.
Proof.
  intros [Hl Hd]. unfold contents, sub, zlength in *. cbn [Z.to_nat skipn].
  rewrite length_firstn. lia.
Qed.

Lemma sub_contents_at (m : NKE_Message) (pre x : list byte) (len : Z) :
  message_ok m -> contents m = pre ++ x -> len <= zlength x ->
  sub (m_data m) (zlength pre) len = firstn (Z.to_nat len) x.
Proof.
  intros Hok Hc Hlen.
  pose proof (zlength_contents m Hok) as Hz. rewrite Hc, zlength_app in Hz.
  rewrite <- (sub_sub_prefix _ (m_length m)).
  - fold (contents m). rewrite Hc. apply sub_app_at.
  - apply zlength_nonneg.
  - lia.
Qed.

Lemma land_pow2_small (t : Z) : 0 <= t < 32768 -> Z.land 32768 t = 0.
Proof.
  intros Ht. apply Z.bits_inj'. intros n Hn.
  rewrite Z.land_spec, Z.bits_0.
  change 32768 with (2 ^ 15). rewrite Z.pow2_bits_eqb by lia.
  destruct (15 =? n) eqn:E; [|reflexivity].
  apply Z.eqb_eq in E. subst n. cbn [andb].
  destruct (Z.eq_dec t 0) as [->|Hnz]; [reflexivity|].
  apply Z.bits_above_log2; [lia|].
  apply Z.log2_lt_pow2; lia.
Qed.

Lemma header_word (c : bool) (t : Z) :
  0 <= t < 32768 ->
  Z.lor (int_of_bool c * RECORD_CRITICAL_BIT) t mod 65536 = int_of_bool c * 32768 + t.
Proof.
  intros Ht. change RECORD_CRITICAL_BIT with 32768.
  assert (Z.lor (int_of_bool c * 32768) t = int_of_bool c * 32768 + t) as ->.
  { destruct c; cbn [int_of_bool].
    - change (1 * 32768) with 32768.
      rewrite <- Z.lxor_lor by (apply land_pow2_small; lia).
      symmetry. apply Z.add_nocarry_lxor. apply land_pow2_small; lia.
    - reflexivity. }
  apply Z.mod_small. destruct c; cbn [int_of_bool]; lia.
Qed.

Lemma header_word_critical (c : bool) (t : Z) :
  0 <= t < 32768 ->
  (if Z.land (int_of_bool c * 32768 + t) 32768 =? 0 then 0 else 1) = int_of_bool c.
Proof.
  intros Ht. destruct c; cbn [int_of_bool].
  - change (1 * 32768) with 32768.
    rewrite Z.add_nocarry_lxor, Z.lxor_lor by (apply land_pow2_small; lia).
    rewrite Z.land_lor_distr_l, (Z.land_comm t), (land_pow2_small t) by lia.
    reflexivity.
  - cbn [Z.mul Z.add]. rewrite Z.land_comm, (land_pow2_small t) by lia. reflexivity.
Qed.

Lemma header_word_type (c : bool) (t : Z) :
  0 <= t < 32768 -> Z.land (int_of_bool c * 32768 + t) 32767 = t.
Proof.
  intros Ht. change 32767 with (Z.ones 15). rewrite Z.land_ones by lia.
  change (2 ^ 15) with 32768.
  rewrite Z.add_comm, Z.mod_add by lia. apply Z.mod_small. lia.
Qed.

Lemma get_record_at (m : NKE_Message) (pre post : list byte) (r : KeRecord)
    (buf : option (list byte)) (n : Z) :
  message_ok m -> record_ok r ->
  contents m = pre ++ encode_record r ++ post ->
  m_parsed m = zlength pre ->
  get_record m buf n =
    Some (set_parsed m (zlength pre + zlength (encode_record r)),
          {| r_critical := int_of_bool (rec_critical r);
             r_type := rec_type r;
             r_body :=
               option_map
                 (fun b => memcpy b 0
                    (firstn (Z.to_nat (Z.min n (zlength (rec_body r)))) (rec_body r)))
                 buf;
             r_body_length := zlength (rec_body r) |}).
Proof.
  intros Hok [Ht Hb] Hc Hp.
  pose proof (zlength_nonneg (rec_body r)) as Hnn.
  pose proof (zlength_nonneg post) as Hnp.
  pose proof (zlength_nonneg pre) as Hnpre.
  pose proof (zlength_contents m Hok) as Hz.
  set (w := Z.lor (int_of_bool (rec_critical r) * RECORD_CRITICAL_BIT) (rec_type r)) in *.
  assert (Henc : encode_record r = htons w ++ htons (zlength (rec_body r)) ++ rec_body r)
    by reflexivity.
  assert (Hlenc : zlength (encode_record r) = 4 + zlength (rec_body r))
    by (rewrite Henc, !zlength_app, !zlength_htons; lia).
  rewrite Hc, !zlength_app, Hlenc in Hz.
  unfold get_record, sizeof_header. rewrite Hp.
  replace (m_length m <? zlength pre + 4) with false by (symmetry; apply Z.ltb_ge; lia).
  rewrite (sub_contents_at m pre (encode_record r ++ post) 4 Hok Hc)
    by (rewrite zlength_app; lia).
  assert (Hhdr : firstn (Z.to_nat 4) (encode_record r ++ post)
                 = htons w ++ htons (zlength (rec_body r))) by reflexivity.
  rewrite Hhdr.
  change (skipn 2 (htons w ++ htons (zlength (rec_body r))))
    with (htons (zlength (rec_body r)) ++ []).
  rewrite !ntohs_htons.
  rewrite (Z.mod_small (zlength (rec_body r))) by lia.
  replace (m_length m <? zlength pre + (4 + zlength (rec_body r))) with false
    by (symmetry; apply Z.ltb_ge; lia).
  unfold w. rewrite header_word by lia.
  rewrite header_word_critical, header_word_type by lia.
  assert (Hbody : sub (m_data m) (zlength pre + 4) (Z.min n (zlength (rec_body r)))
                  = firstn (Z.to_nat (Z.min n (zlength (rec_body r)))) (rec_body r)).
  { replace (zlength pre + 4)
      with (zlength (pre ++ htons w ++ htons (zlength (rec_body r))))
      by (rewrite !zlength_app, !zlength_htons; lia).
    rewrite (sub_contents_at m _ (rec_body r ++ post)); [| exact Hok | | ].
    - rewrite firstn_app.
      replace (Z.to_nat (Z.min n (zlength (rec_body r))) - length (rec_body r))%nat
        with O by (unfold zlength; lia).
      cbn [firstn]. apply app_nil_r.
    - rewrite Hc, Henc. now rewrite <- !app_assoc.
    - rewrite zlength_app. lia. }
  rewrite Hbody, Hlenc. unfold set_parsed.
  reflexivity.
Qed.

Lemma ntohs_range (bs : list byte) : 0 <= ntohs bs < 65536.
Proof.
  unfold ntohs. destruct bs as [|hi [|lo ?]]; try lia.
  pose proof (byte_to_Z_range hi). pose proof (byte_to_Z_range lo). lia.
Qed.

Lemma set_parsed_parsed (m : NKE_Message) : set_parsed m (m_parsed m) = m.
Proof. destruct m; reflexivity. Qed.

Lemma m_parsed_set_parsed (m : NKE_Message) (p : Z) : m_parsed (set_parsed m p) = p.
Proof. reflexivity. Qed.

Lemma m_length_set_parsed (m : NKE_Message) (p : Z) :
  m_length (set_parsed m p) = m_length m.
Proof. reflexivity. Qed.

(** What a successful [get_record] has checked and done. *)
Lemma get_record_Some (m m' : NKE_Message) (buf : option (list byte)) (n : Z)
    (r : RecordOut) :
  get_record m buf n = Some (m', r) ->
  m_parsed m + sizeof_header + r_body_length r <= m_length m /\
  0 <= r_body_length r < 65536 /\
  (r_critical r = 0 \/ r_critical r = 1) /\
  m' = set_parsed m (m_parsed m + (sizeof_header + r_body_length r)).
Proof.
  unfold get_record.
  destruct (m_length m <? m_parsed m + sizeof_header) eqn:H1; [discriminate|].
  pose proof (ntohs_range (skipn 2 (sub (m_data m) (m_parsed m) sizeof_header))) as Hb.
  destruct (m_length m <? m_parsed m + (sizeof_header + _)) eqn:H2; [discriminate|].
  intros H. injection H as <- <-. apply Z.ltb_ge in H2.
  split; [|split; [|split]]; [ | exact Hb | | reflexivity].
  - change (r_body_length _)
      with (ntohs (skipn 2 (sub (m_data m) (m_parsed m) sizeof_header))).
    lia.
  - unfold r_critical. destruct (Z.land _ 32768 =? 0); [left | right]; reflexivity.
Qed.

(** A record that is read moves the cursor forward by at least the size
    of a header, never beyond [length], and changes nothing else. *)
Lemma get_record_progress (m m' : NKE_Message) (buf : option (list byte)) (n : Z)
    (r : RecordOut) :
  get_record m buf n = Some (m', r) ->
  m' = set_parsed m (m_parsed m') /\
  m_parsed m + sizeof_header <= m_parsed m' <= m_length m.
Proof.
  intros H. destruct (get_record_Some _ _ _ _ _ H) as (Hfit & Hb & _ & ->).
  rewrite m_parsed_set_parsed. split; [reflexivity | lia].
Qed.

(** The loop of [check_message_format] ends within the fuel it is given,
    and it ends because [get_record] fails. *)
Lemma get_records_total (fuel : nat) (m : NKE_Message) (last : option (Z * Z * Z)) :
  (Z.to_nat (m_length m - m_parsed m) < fuel)%nat ->
  last_ok last ->
  exists m' last',
    get_records fuel m last = Some (m', last') /\
    get_record m' None 0 = None /\
    m' = set_parsed m (m_parsed m') /\
    m_parsed m <= m_parsed m' /\
    (m_parsed m < m_parsed m' -> last' <> None) /\
    (m_parsed m' = m_parsed m -> last' = last) /\
    last_ok last'.
Proof.
  revert m last. induction fuel as [|fuel IH]; intros m last Hf Hlast; [lia|].
  cbn [get_records].
  destruct (get_record m None 0) as [[m1 r]|] eqn:Hg.
  - destruct (get_record_progress _ _ _ _ _ Hg) as [Hm1 Hp].
    destruct (get_record_Some _ _ _ _ _ Hg) as (_ & _ & Hc & _).
    unfold sizeof_header in Hp.
    assert (Hl : m_length m1 = m_length m) by (rewrite Hm1; reflexivity).
    destruct (IH m1 (Some (r_critical r, r_type r, r_body_length r)))
      as (m2 & last2 & Hrun & Hstop & Hm2 & Hle & Hinit & Hsame & Hok2);
      [lia | exact Hc |].
    exists m2, last2. repeat split.
    + exact Hrun.
    + exact Hstop.
    + rewrite Hm2, Hm1. reflexivity.
    + lia.
    + intros _. destruct (Z.eq_dec (m_parsed m2) (m_parsed m1)) as [E|E].
      * rewrite (Hsame E). discriminate.
      * apply Hinit. lia.
    + intros E. lia.
    + exact Hok2.
  - exists m, last. repeat split; try assumption; try lia.
    symmetry. apply set_parsed_parsed.
Qed.

Lemma get_record_end (m : NKE_Message) (buf : option (list byte)) (n : Z) :
  m_length m < m_parsed m + sizeof_header -> get_record m buf n = None.
Proof.
  intros H. unfold get_record.
  replace (m_length m <? m_parsed m + sizeof_header) with true
    by (symmetry; apply Z.ltb_lt; exact H).
  reflexivity.
Qed.

Lemma zlength_encode_record (r : KeRecord) :
  zlength (encode_record r) = sizeof_header + zlength (rec_body r).
Proof.
  unfold encode_record, sizeof_header. rewrite !zlength_app, !zlength_htons. lia.
Qed.

Lemma encode_records_cons (r : KeRecord) (rs : list KeRecord) :
  encode_records (r :: rs) = encode_record r ++ encode_records rs.
Proof. reflexivity. Qed.

Lemma encode_records_app (rs1 rs2 : list KeRecord) :
  encode_records (rs1 ++ rs2) = encode_records rs1 ++ encode_records rs2.
Proof. unfold encode_records. now rewrite map_app, concat_app. Qed.

Lemma zlength_encode_records (rs : list KeRecord) :
  sizeof_header * zlength rs <= zlength (encode_records rs).
Proof.
  induction rs as [|r rs IH].
  - reflexivity.
  - rewrite encode_records_cons, zlength_app, zlength_encode_record.
    pose proof (zlength_nonneg (rec_body r)).
    unfold zlength, sizeof_header in *. cbn [length]. lia.
Qed.

Lemma message_ok_set_parsed (m : NKE_Message) (p : Z) :
  message_ok m -> message_ok (set_parsed m p).
Proof. exact (fun H => H). Qed.

(** On a message whose bytes from the cursor on are the records [rs], the
    loop reads them all. *)
Lemma get_records_encoded (rs : list KeRecord) :
  forall (fuel : nat) (m : NKE_Message) (pre : list byte) (last : option (Z * Z * Z)),
    message_ok m -> Forall record_ok rs ->
    contents m = pre ++ encode_records rs ->
    m_parsed m = zlength pre ->
    (length rs < fuel)%nat ->
    get_records fuel m last = Some (set_parsed m (m_length m), last_record rs last).
Proof.
  induction rs as [|r rs IH]; intros fuel m pre last Hok Hrs Hc Hp Hf;
    (destruct fuel as [|fuel]; [cbn in Hf; lia|]); cbn [get_records].
  - pose proof (zlength_contents m Hok) as Hz.
    rewrite Hc, zlength_app in Hz. change (zlength (encode_records [])) with 0 in Hz.
    rewrite get_record_end by (unfold sizeof_header; lia).
    cbn [last_record fold_left]. do 2 f_equal.
    replace (m_length m) with (m_parsed m) by lia. symmetry. apply set_parsed_parsed.
  - inversion Hrs as [|? ? Hr Hrs']; subst.
    rewrite encode_records_cons in Hc.
    rewrite (get_record_at m pre (encode_records rs) r None 0 Hok Hr Hc Hp).
    cbn [r_critical r_type r_body_length].
    rewrite (IH fuel _ (pre ++ encode_record r)).
    + reflexivity.
    + apply message_ok_set_parsed, Hok.
    + exact Hrs'.
    + change (contents (set_parsed m _)) with (contents m).
      rewrite Hc. now rewrite <- app_assoc.
    + rewrite m_parsed_set_parsed, zlength_app. reflexivity.
    + cbn in Hf. lia.
Qed.

Lemma last_record_app (rs : list KeRecord) (r : KeRecord) (last : option (Z * Z * Z)) :
  last_record (rs ++ [r]) last =
  Some (int_of_bool (rec_critical r), rec_type r, zlength (rec_body r)).
Proof. unfold last_record. rewrite fold_left_app. reflexivity. Qed.

(** [add_records] succeeds when every body fits a record and the whole
    fits the buffer, and the message then holds the encoded records. *)
Lemma add_records_ok (rs : list KeRecord) :
  forall m : NKE_Message,
    message_ok m ->
    Forall (fun r => zlength (rec_body r) <= 65535) rs ->
    m_length m + zlength (encode_records rs) <= MAX_MESSAGE_LENGTH ->
    exists m',
      add_records m rs = Some m' /\
      message_ok m' /\
      contents m' = contents m ++ encode_records rs /\
      m_eof m' = m_eof m.
Proof.
  induction rs as [|r rs IH]; intros m Hok Hb Hfit.
  - exists m. cbn [add_records]. repeat split; try apply Hok.
    symmetry. apply app_nil_r.
  - inversion Hb as [|? ? Hr Hb']; subst.
    rewrite encode_records_cons, zlength_app, zlength_encode_record in Hfit.
    pose proof (zlength_nonneg (encode_records rs)) as Hnn.
    destruct (add_record_ok m (int_of_bool (rec_critical r)) (rec_type r) (rec_body r)
                Hok Hr ltac:(lia))
      as (m1 & Hadd & Hok1 & Hlen1 & Hc1 & Heof1 & _).
    destruct (IH m1 Hok1 Hb' ltac:(lia)) as (m2 & Hadds & Hok2 & Hc2 & Heof2).
    exists m2. cbn [add_records]. rewrite Hadd. repeat split; try assumption; try apply Hok2.
    + rewrite Hc2, Hc1, encode_records_cons, <- app_assoc. do 2 f_equal.
      destruct r as [c t b]. cbn [rec_critical rec_type rec_body]. now destruct c.
    + congruence.
Qed.

Lemma reset_message_parsing_set_parsed (m : NKE_Message) :
  reset_message_parsing m = set_parsed m 0.
Proof. reflexivity. Qed.


Lemma record_ok_end_of_message : record_ok end_of_message.
Proof. split; cbn; unfold RECORD_END_OF_MESSAGE; lia. Qed.

Lemma record_ok_body (r : KeRecord) : record_ok r -> zlength (rec_body r) <= 65535.
Proof. intros [_ H]. exact H. Qed.

(** C4, amended.  For every vector of records with types below 0x8000 and
    bodies of at most 65535 bytes that fits the buffer together with one
    final critical End-of-Message record, [add_record] encodes the vector
    and the final record, and [check_message_format] returns Ok for the
    message, whether or not the vector holds End-of-Message records. *)
Theorem terminated_message_ok (m0 : NKE_Message) (rs : list KeRecord) :
  message_ok m0 ->
  Forall record_ok rs ->
  zlength (encode_records (rs ++ [end_of_message])) <= MAX_MESSAGE_LENGTH ->
  exists m m' : NKE_Message,
    add_records (reset_message m0) (rs ++ [end_of_message]) = Some m /\
    contents m = encode_records (rs ++ [end_of_message]) /\
    check_message_format m = Some (MSG_OK, m').
Proof.
  intros Hok0 Hrs Hfit.
  assert (Hall : Forall record_ok (rs ++ [end_of_message])).
  { apply Forall_app. split; [exact Hrs|].
    constructor; [exact record_ok_end_of_message | constructor]. }
  destruct (add_records_ok (rs ++ [end_of_message]) (reset_message m0))
    as (m & Hadd & Hok & Hc & _).
  { split; [cbn; unfold MAX_MESSAGE_LENGTH; lia | apply Hok0]. }
  { eapply Forall_impl; [|exact Hall]. exact record_ok_body. }
  { cbn [m_length reset_message]. lia. }
  change (contents (reset_message m0)) with (@nil byte) in Hc. cbn [app] in Hc.
  pose proof (zlength_contents m Hok) as Hz. rewrite Hc in Hz.
  pose proof (zlength_encode_records (rs ++ [end_of_message])) as Hn.
  unfold sizeof_header, zlength in Hn, Hz.
  assert (Hpos : (0 < length (rs ++ [end_of_message]))%nat)
    by (rewrite length_app; cbn; lia).
  exists m, (set_parsed m (m_length m)). split; [exact Hadd|]. split; [exact Hc|].
  unfold check_message_format.
  rewrite reset_message_parsing_set_parsed.
  rewrite (get_records_encoded (rs ++ [end_of_message]) _ (set_parsed m 0) [] None).
  - rewrite last_record_app.
    change (m_length (set_parsed (set_parsed m 0) (m_length (set_parsed m 0))))
      with (m_length m).
    change (m_parsed (set_parsed (set_parsed m 0) (m_length (set_parsed m 0))))
      with (m_length m).
    replace (m_length m =? 0) with false by (symmetry; apply Z.eqb_neq; lia).
    rewrite Z.ltb_irrefl. reflexivity.
  - apply message_ok_set_parsed, Hok.
  - exact Hall.
  - exact Hc.
  - reflexivity.
  - unfold records_fuel. rewrite m_length_set_parsed. lia.
Qed.

Lemma terminated_message_ok_witness :
  exists m m' : NKE_Message,
    add_records (reset_message blank_message) (sample_request ++ [end_of_message]) = Some m /\
    contents m = encode_records (sample_request ++ [end_of_message]) /\
    check_message_format m = Some (MSG_OK, m').
Proof.
  apply (terminated_message_ok blank_message sample_request).
  - split; vm_compute; [split; discriminate | reflexivity].
  - repeat constructor; vm_compute; discriminate.
  - vm_compute. discriminate.
Defined.

(** C4 as stated fails: the records before the final End-of-Message
    record may hold an End-of-Message record themselves, and the message,
    which then has two of them, is still Ok. *)
Lemma two_end_of_message_ok :
  let rs := [end_of_message] in
  Forall record_ok rs /\
  existsb is_end_of_message rs = true /\
  encode_and_check (rs ++ [end_of_message]) = Some MSG_OK.
Proof.
  cbv zeta. split; [|split].
  - repeat constructor; vm_compute; discriminate.
  - reflexivity.
  - vm_compute. reflexivity.
Qed.

Lemma sub_memcpy_same (buf : list byte) (off : Z) (src : list byte) :
  0 <= off -> off + zlength src <= zlength buf ->
  sub (memcpy buf off src) off (zlength src) = src.
Proof.
  unfold sub, memcpy, zlength. intros Ho Hl.
  rewrite skipn_app, length_firstn_le, Nat.sub_diag by lia.
  rewrite skipn_all2 by (rewrite length_firstn; lia).
  cbn [skipn app]. rewrite Nat2Z.id. apply firstn_app_exact. reflexivity.
Qed.

Lemma sub_memcpy_before (buf : list byte) (off : Z) (src : list byte) (off' len : Z) :
  0 <= off' -> 0 <= len -> off' + len <= off -> off <= zlength buf ->
  sub (memcpy buf off src) off' len = sub buf off' len.
Proof.
  unfold sub, memcpy, zlength. intros Ho Hn Hl Hb.
  rewrite skipn_app, length_firstn_le by lia.
  replace (Z.to_nat off' - Z.to_nat off)%nat with O by lia. cbn [skipn].
  rewrite firstn_app, length_skipn, length_firstn_le by lia.
  replace (Z.to_nat len - (Z.to_nat off - Z.to_nat off'))%nat with O by lia.
  cbn [firstn]. rewrite app_nil_r, skipn_firstn_comm, firstn_firstn.
  f_equal. lia.
Qed.

Lemma zlength_sub (buf : list byte) (off len : Z) :
  0 <= off -> 0 <= len -> off + len <= zlength buf -> zlength (sub buf off len) = len.
Proof.
  unfold sub, zlength. intros. rewrite length_firstn, length_skipn. lia.
Qed.

Lemma sub_all (l : list byte) : sub l 0 (zlength l) = l.
Proof. unfold sub, zlength. cbn [Z.to_nat skipn]. rewrite Nat2Z.id. apply firstn_all. Qed.

Lemma sub_app_l (l1 l2 : list byte) : sub (l1 ++ l2) 0 (zlength l1) = l1.
Proof.
  unfold sub, zlength. cbn [Z.to_nat skipn]. rewrite Nat2Z.id.
  apply firstn_app_exact. reflexivity.
Qed.

Lemma sub_app_r (l1 l2 : list byte) :
  sub (l1 ++ l2) (zlength l1) (zlength l2) = l2.
Proof. rewrite sub_app_at. unfold zlength. rewrite Nat2Z.id. apply firstn_all. Qed.

Lemma u32_bytes_le (v : Z) :
  byte_to_Z (Z_to_byte v) +
  256 * (byte_to_Z (Z_to_byte (Z.shiftr v 8)) +
         256 * (byte_to_Z (Z_to_byte (Z.shiftr v 16)) +
                256 * byte_to_Z (Z_to_byte (Z.shiftr v 24))))
  = v mod 2 ^ 32.
Proof.
  rewrite !byte_to_Z_to_byte, !Z.shiftr_div_pow2 by lia.
  change (2 ^ 8) with 256. change (2 ^ 16) with (256 * 256).
  change (2 ^ 24) with (256 * (256 * 256)). change (2 ^ 32) with 4294967296.
  rewrite <- !Z.div_div by lia.
  set (q1 := v / 256). set (q2 := q1 / 256). set (q3 := q2 / 256).
  pose proof (Z.div_mod v 256 ltac:(lia)) as H0. fold q1 in H0.
  pose proof (Z.div_mod q1 256 ltac:(lia)) as H1. fold q2 in H1.
  pose proof (Z.div_mod q2 256 ltac:(lia)) as H2. fold q3 in H2.
  pose proof (Z.div_mod q3 256 ltac:(lia)) as H3.
  pose proof (Z.mod_pos_bound v 256 ltac:(lia)).
  pose proof (Z.mod_pos_bound q1 256 ltac:(lia)).
  pose proof (Z.mod_pos_bound q2 256 ltac:(lia)).
  pose proof (Z.mod_pos_bound q3 256 ltac:(lia)).
  apply Z.mod_unique with (q := q3 / 256); lia.
Qed.

Lemma u32_of_to_bytes (big_endian : bool) (v : Z) :
  u32_of_bytes big_endian (u32_to_bytes big_endian v) = v mod 2 ^ 32.
Proof.
  unfold u32_of_bytes, u32_to_bytes.
  destruct big_endian; cbn [rev firstn app]; apply u32_bytes_le.
Qed.

Lemma zlength_u32_to_bytes (big_endian : bool) (v : Z) :
  zlength (u32_to_bytes big_endian v) = 4.
Proof. destruct big_endian; reflexivity. Qed.

End CodecFacts.

(** ** The messages that reach the format check *)

Section FormatCheckReached.

Import NtsKe KeConn.

Context {Siv : SIV} {E : KeEnv} {T : Tls}.



End FormatCheckReached.


(** ** Requests *)

Section RequestFacts.

Import NtsKe.

Context {Siv : SIV} {E : KeEnv}.

Lemma int_of_bool_eqb (b : bool) : (int_of_bool b =? 0) = negb b.
Proof. now destruct b. Qed.

(** The error and the Next-Protocol flag after the [switch]. *)
Lemma request_record_effect (q : Request) (r : KeRecord) (data : list byte) :
  let q' := request_record q (int_of_bool (rec_critical r)) (rec_type r)
              (zlength (rec_body r)) data in
  q_error q' = match record_error r with Some e => e | None => q_error q end /\
  q_has_next_protocol q' =
    match record_error r with
    | Some _ => q_has_next_protocol q
    | None => if rec_type r =? RECORD_NEXT_PROTOCOL then 1 else q_has_next_protocol q
    end.
Proof.
  unfold request_record, record_error. rewrite int_of_bool_eqb.
  destruct (rec_type r =? RECORD_NEXT_PROTOCOL).
  { destruct (negb (rec_critical r) || _ || _); split; reflexivity. }
  destruct (rec_type r =? RECORD_AEAD_ALGORITHM).
  { destruct ((_ <? 2) || _); split; reflexivity. }
  destruct ((rec_type r =? RECORD_ERROR) || _ || _); [split; reflexivity|].
  destruct (rec_type r =? RECORD_END_OF_MESSAGE); [split; reflexivity|].
  rewrite negb_involutive. destruct (rec_critical r); split; reflexivity.
Qed.

Lemma record_error_raised (r : KeRecord) (e : Z) :
  record_error r = Some e -> e <> ERROR_NONE.
Proof.
  unfold record_error.
  repeat match goal with
         | |- context [if ?b then _ else _] => destruct b
         end; intros H; inversion H; discriminate.
Qed.

Lemma request_run_stopped (q : Request) (rs : list KeRecord) :
  q_error q <> ERROR_NONE -> request_run q rs = q.
Proof.
  intros H. destruct rs; [reflexivity|]. cbn [request_run].
  apply Z.eqb_neq in H. now rewrite H.
Qed.

Lemma request_run_error (rs : list KeRecord) :
  forall q : Request,
    q_error q = ERROR_NONE ->
    (if q_has_next_protocol (request_run q rs) =? 0 then ERROR_BAD_REQUEST
     else q_error (request_run q rs))
    = verdict_error (negb (q_has_next_protocol q =? 0)) rs.
Proof.
  induction rs as [|r rs IH]; intros q Hq.
  - cbn [request_run verdict_error]. rewrite Hq.
    now destruct (q_has_next_protocol q =? 0).
  - cbn [request_run verdict_error]. rewrite Hq, Z.eqb_refl. cbn [negb].
    set (q1 := request_record _ _ _ _ _).
    destruct (request_record_effect q r
                (memcpy (q_data q) 0
                   (firstn (Z.to_nat (Z.min MAX_RECORD_BODY_LENGTH (zlength (rec_body r))))
                      (rec_body r)))) as [He Hn].
    fold q1 in He, Hn.
    destruct (record_error r) as [e|] eqn:Hr.
    + rewrite request_run_stopped
        by (rewrite He; eapply record_error_raised; exact Hr).
      rewrite Hn, He. now destruct (q_has_next_protocol q =? 0).
    + rewrite IH by congruence. rewrite Hn. f_equal.
      destruct (rec_type r =? RECORD_NEXT_PROTOCOL);
        [now rewrite orb_true_r | now rewrite orb_false_r].
Qed.

Lemma request_loop_encoded (data0 : list byte) (rs : list KeRecord) :
  forall (fuel : nat) (m : NKE_Message) (pre : list byte) (q : Request),
    message_ok m -> Forall record_ok rs ->
    contents m = pre ++ encode_records rs ->
    m_parsed m = zlength pre ->
    (length rs < fuel)%nat ->
    exists m', request_loop fuel m q = Some (m', request_run q rs).
Proof.
  induction rs as [|r rs IH]; intros fuel m pre q Hok Hrs Hc Hp Hf;
    (destruct fuel as [|fuel]; [cbn in Hf; lia|]);
    cbn [request_loop request_run];
    (destruct (negb (q_error q =? ERROR_NONE)); [exists m; reflexivity|]).
  - pose proof (zlength_contents m Hok) as Hz.
    rewrite Hc, zlength_app in Hz. change (zlength (encode_records [])) with 0 in Hz.
    rewrite get_record_end by (unfold sizeof_header; lia).
    exists m. reflexivity.
  - inversion Hrs as [|? ? Hr Hrs']; subst.
    rewrite encode_records_cons in Hc.
    rewrite (get_record_at m pre (encode_records rs) r (Some (q_data q))
               MAX_RECORD_BODY_LENGTH Hok Hr Hc Hp).
    cbn [r_critical r_type r_body_length r_body option_map].
    apply (IH fuel _ (pre ++ encode_record r)).
    + apply message_ok_set_parsed, Hok.
    + exact Hrs'.
    + change (contents (set_parsed m _)) with (contents m).
      rewrite Hc. now rewrite <- app_assoc.
    + rewrite m_parsed_set_parsed, zlength_app. reflexivity.
    + cbn in Hf. lia.
Qed.

(** The loop of [process_request] ends within the fuel it is given, on
    every message. *)
Lemma request_loop_total (fuel : nat) :
  forall (m : NKE_Message) (q : Request),
    (Z.to_nat (m_length m - m_parsed m) < fuel)%nat ->
    exists m' q', request_loop fuel m q = Some (m', q').
Proof.
  induction fuel as [|fuel IH]; intros m q Hf; [lia|].
  cbn [request_loop].
  destruct (negb (q_error q =? ERROR_NONE)); [exists m, q; reflexivity|].
  destruct (get_record m (Some (q_data q)) MAX_RECORD_BODY_LENGTH) as [[m1 r]|] eqn:Hg;
    [|exists m, q; reflexivity].
  destruct (get_record_progress _ _ _ _ _ Hg) as [Hm1 Hp].
  unfold sizeof_header in Hp.
  assert (Hl : m_length m1 = m_length m) by (rewrite Hm1; reflexivity).
  apply IH. lia.
Qed.

Lemma request_verdict_total (data0 : list byte) (m : NKE_Message) :
  exists m' v, request_verdict data0 m = Some (m', v).
Proof.
  unfold request_verdict.
  destruct (request_loop_total (records_fuel (reset_message_parsing m))
              (reset_message_parsing m)
              {| q_next_protocol := NEXT_PROTOCOL_NONE; q_aead_algorithm := AEAD_NONE;
                 q_error := ERROR_NONE; q_has_next_protocol := 0; q_data := data0 |})
    as (m' & q & Hrun).
  - unfold records_fuel. cbn [m_length m_parsed reset_message_parsing]. lia.
  - rewrite Hrun. eexists. eexists. reflexivity.
Qed.

(** The error of a request is a function of its records. *)
Lemma request_error_encoded (data0 : list byte) (m : NKE_Message) (rs : list KeRecord) :
  message_ok m -> Forall record_ok rs -> contents m = encode_records rs ->
  request_error data0 m = Some (verdict_error false rs).
Proof.
  intros Hok Hrs Hc.
  pose proof (zlength_contents m Hok) as Hz. rewrite Hc in Hz.
  pose proof (zlength_encode_records rs) as Hn. unfold sizeof_header, zlength in Hn, Hz.
  unfold request_error, request_verdict.
  rewrite reset_message_parsing_set_parsed.
  set (q0 := {| q_next_protocol := NEXT_PROTOCOL_NONE; q_aead_algorithm := AEAD_NONE;
                q_error := ERROR_NONE; q_has_next_protocol := 0; q_data := data0 |}).
  destruct (request_loop_encoded data0 rs (records_fuel (set_parsed m 0))
              (set_parsed m 0) [] q0) as [m' Hrun].
  - apply message_ok_set_parsed, Hok.
  - exact Hrs.
  - exact Hc.
  - reflexivity.
  - unfold records_fuel. rewrite m_length_set_parsed. lia.
  - rewrite Hrun. cbn [option_map snd fst]. f_equal.
    apply (request_run_error rs q0). reflexivity.
Qed.

Lemma verdict_error_quiet (pre rest : list KeRecord) :
  forall hn : bool,
    Forall quiet pre ->
    verdict_error hn (pre ++ rest) = verdict_error (hn || existsb is_next_protocol pre) rest.
Proof.
  induction pre as [|r pre IH]; intros hn Hq.
  - cbn. now rewrite orb_false_r.
  - inversion Hq as [|? ? Hr Hq']; subst. cbn [app verdict_error existsb].
    rewrite Hr, IH by exact Hq'. unfold is_next_protocol. now rewrite orb_assoc.
Qed.

Lemma verdict_error_no_next_protocol (rs : list KeRecord) :
  Forall (fun r => rec_type r <> RECORD_NEXT_PROTOCOL) rs ->
  verdict_error false rs = ERROR_BAD_REQUEST.
Proof.
  induction rs as [|r rs IH]; intros H; [reflexivity|].
  inversion H as [|? ? Hr H']; subst. cbn [verdict_error].
  destruct (record_error r); [reflexivity|].
  apply Z.eqb_neq in Hr. rewrite Hr. cbn [orb]. apply IH, H'.
Qed.

Lemma verdict_error_end_of_message (pre post : list KeRecord) (r : KeRecord) :
  rec_type r = RECORD_END_OF_MESSAGE ->
  forall hn : bool, verdict_error hn (pre ++ r :: post) = verdict_error hn (pre ++ post).
Proof.
  intros Hr. induction pre as [|x pre IH]; intros hn.
  - cbn [app verdict_error]. unfold record_error. rewrite Hr. cbn. now rewrite orb_false_r.
  - cbn [app verdict_error]. destruct (record_error x); [reflexivity | apply IH].
Qed.

Lemma record_error_rejected (r : KeRecord) :
  rec_type r = RECORD_ERROR \/ rec_type r = RECORD_WARNING \/ rec_type r = RECORD_COOKIE ->
  record_error r = Some ERROR_BAD_REQUEST.
Proof.
  unfold record_error. intros [H|[H|H]]; rewrite H; reflexivity.
Qed.

Lemma record_error_unknown (r : KeRecord) :
  RECORD_NTPV4_PORT_NEGOTIATION < rec_type r -> rec_critical r = true ->
  record_error r = Some ERROR_UNRECOGNIZED_CRITICAL_RECORD.
Proof.
  unfold record_error, RECORD_NTPV4_PORT_NEGOTIATION. intros Ht Hc. rewrite Hc.
  repeat match goal with
         | |- context [rec_type r =? ?k] =>
             replace (rec_type r =? k) with false
               by (symmetry; apply Z.eqb_neq;
                   unfold RECORD_NEXT_PROTOCOL, RECORD_AEAD_ALGORITHM, RECORD_ERROR,
                     RECORD_WARNING, RECORD_COOKIE, RECORD_END_OF_MESSAGE; lia)
         end.
  reflexivity.
Qed.

(** C6, amended.  For a request made of the records [rs]: the error is
    BadRequest when the first record for which an error is assigned is an
    Error, Warning or Cookie record, and when no record is a Next-Protocol
    record; it is UnrecognizedCriticalRecord when the first record for which
    an error is assigned is a critical record of unknown type and a
    Next-Protocol record was accepted before it; an End-of-Message record
    changes nothing: the request without it gets the same error. *)
Theorem process_request_errors (data0 : list byte) (m : NKE_Message)
    (rs : list KeRecord) :
  message_ok m -> Forall record_ok rs -> contents m = encode_records rs ->
  (forall pre r post,
      rs = pre ++ r :: post -> Forall quiet pre ->
      rec_type r = RECORD_ERROR \/ rec_type r = RECORD_WARNING \/
      rec_type r = RECORD_COOKIE ->
      request_error data0 m = Some ERROR_BAD_REQUEST) /\
  (Forall (fun r => rec_type r <> RECORD_NEXT_PROTOCOL) rs ->
   request_error data0 m = Some ERROR_BAD_REQUEST) /\
  (forall pre r post,
      rs = pre ++ r :: post -> Forall quiet pre ->
      existsb is_next_protocol pre = true ->
      RECORD_NTPV4_PORT_NEGOTIATION < rec_type r -> rec_critical r = true ->
      request_error data0 m = Some ERROR_UNRECOGNIZED_CRITICAL_RECORD) /\
  (forall pre r post m2,
      rs = pre ++ r :: post -> rec_type r = RECORD_END_OF_MESSAGE ->
      message_ok m2 -> contents m2 = encode_records (pre ++ post) ->
      request_error data0 m2 = request_error data0 m).
Proof.
  intros Hok Hrs Hc.
  rewrite (request_error_encoded data0 m rs Hok Hrs Hc).
  repeat split.
  - intros pre r post -> Hq Hr. f_equal.
    rewrite verdict_error_quiet by exact Hq. cbn [verdict_error].
    rewrite (record_error_rejected r Hr). now destruct (false || _).
  - intros H. f_equal. apply verdict_error_no_next_protocol, H.
  - intros pre r post -> Hq Hnp Ht Hcrit. f_equal.
    rewrite verdict_error_quiet by exact Hq. cbn [verdict_error].
    rewrite (record_error_unknown r Ht Hcrit), Hnp. reflexivity.
  - intros pre r post m2 -> Hr Hok2 Hc2.
    rewrite (request_error_encoded data0 m2 (pre ++ post) Hok2); [| | exact Hc2].
    + f_equal. symmetry. apply verdict_error_end_of_message, Hr.
    + apply Forall_app in Hrs. destruct Hrs as [H1 H2].
      inversion H2; subst. apply Forall_app. split; assumption.
Qed.

End RequestFacts.

Section RequestExamples.

Import NtsKe.

Lemma process_request_errors_witness :
  let m := message_of (encode_records Sample.unknown_then_cookie) 0 in
  request_error [] m = Some ERROR_UNRECOGNIZED_CRITICAL_RECORD.
Proof.
  cbv zeta.
  refine (proj1 (proj2 (proj2
            (process_request_errors [] (message_of (encode_records Sample.unknown_then_cookie) 0)
               Sample.unknown_then_cookie _ _ _)))
            [ {| rec_critical := true; rec_type := RECORD_NEXT_PROTOCOL;
                 rec_body := htons NEXT_PROTOCOL_NTPV4 |} ]
            {| rec_critical := true; rec_type := 100; rec_body := [] |}
            [ {| rec_critical := false; rec_type := RECORD_COOKIE; rec_body := [] |};
              end_of_message ]
            eq_refl _ eq_refl _ eq_refl).
  - split; vm_compute; [split; discriminate | reflexivity].
  - repeat constructor; vm_compute; discriminate.
  - vm_compute. reflexivity.
  - repeat constructor.
  - vm_compute. reflexivity.
Defined.

(** C6 as stated fails: a request with a Cookie record gets
    UnrecognizedCriticalRecord when a critical record of unknown type comes
    first, and a request in which a critical record of unknown type is
    met gets BadRequest when no Next-Protocol record came before it, though
    one is present. *)
Lemma request_error_first_wins :
  (existsb (fun r => rec_type r =? RECORD_COOKIE) Sample.unknown_then_cookie = true /\
   request_error [] (message_of (encode_records Sample.unknown_then_cookie) 0)
   = Some ERROR_UNRECOGNIZED_CRITICAL_RECORD /\
   ERROR_UNRECOGNIZED_CRITICAL_RECORD <> ERROR_BAD_REQUEST) /\
  (existsb is_next_protocol Sample.unknown_first = true /\
   request_error [] (message_of (encode_records Sample.unknown_first) 0)
   = Some ERROR_BAD_REQUEST /\
   ERROR_BAD_REQUEST <> ERROR_UNRECOGNIZED_CRITICAL_RECORD).
Proof.
  repeat split; try discriminate; vm_compute; reflexivity.
Qed.

End RequestExamples.

(** ** Responses *)

Section ResponseFacts.

Import NtsKe.

Context {E : KeEnv}.

Lemma response_record_cookies (max_cookies : Z) (p : Response)
    (critical type length : Z) (data : list byte) :
  let p' := response_record max_cookies p critical type length data in
  (p_num_cookies p' = p_num_cookies p /\ p_cookies p' = p_cookies p) \/
  (type = RECORD_COOKIE /\ length <= NKE_MAX_COOKIE_LENGTH /\
   p_num_cookies p < max_cookies /\
   p_num_cookies p' = p_num_cookies p + 1 /\
   exists c, c_length c = length /\
             p_cookies p' = aset (p_cookies p) (p_num_cookies p) c).
Proof.
  unfold response_record.
  destruct (type =? RECORD_NEXT_PROTOCOL).
  { destruct ((critical =? 0) || _ || _); left; split; reflexivity. }
  destruct (type =? RECORD_AEAD_ALGORITHM); [left; split; reflexivity|].
  destruct (type =? RECORD_ERROR); [left; split; reflexivity|].
  destruct (type =? RECORD_WARNING); [left; split; reflexivity|].
  destruct (type =? RECORD_COOKIE) eqn:Et.
  { destruct ((length <=? NKE_MAX_COOKIE_LENGTH) && _) eqn:Hc; [|left; split; reflexivity].
    apply andb_true_iff in Hc. destruct Hc as [H1 H2].
    apply Z.leb_le in H1. apply Z.ltb_lt in H2. apply Z.eqb_eq in Et.
    right. repeat split; try assumption. eexists. split; [|reflexivity]. reflexivity. }
  destruct (type =? RECORD_END_OF_MESSAGE); [left; split; reflexivity|].
  destruct (type =? RECORD_NTPV4_SERVER_NEGOTIATION).
  { destruct (length <? 2); [left; split; reflexivity|].
    destruct (length >=? MAX_RECORD_BODY_LENGTH + 1); [left; split; reflexivity|].
    destruct (string_to_ip data length); left; split; reflexivity. }
  destruct (type =? RECORD_NTPV4_PORT_NEGOTIATION).
  { destruct (negb (length =? 2)); left; split; reflexivity. }
  destruct (negb (critical =? 0)); left; split; reflexivity.
Qed.

Lemma response_record_cookies_ok (max_cookies : Z) (p : Response)
    (critical type length : Z) (data : list byte) :
  max_cookies <= zlength (p_cookies p) ->
  cookies_ok max_cookies p ->
  let p' := response_record max_cookies p critical type length data in
  cookies_ok max_cookies p' /\ zlength (p_cookies p') = zlength (p_cookies p).
Proof.
  intros Hsize [Hnum Hlen] p'.
  destruct (response_record_cookies max_cookies p critical type length data)
    as [[Hn Hc] | (_ & Hl & Hroom & Hn & c & Hcl & Hc)]; fold p' in Hn, Hc.
  - unfold cookies_ok. rewrite Hn, Hc. repeat split; try lia. exact Hlen.
  - unfold cookies_ok. rewrite Hn, Hc, zlength_aset. repeat split; try lia.
    intros i Hi. destruct (Z.eq_dec i (p_num_cookies p)) as [->|Hne].
    + rewrite aget_aset_same by lia. lia.
    + rewrite aget_aset_other by lia. apply Hlen. lia.
Qed.

Lemma response_loop_cookies_ok (max_cookies : Z) (fuel : nat) :
  forall (m : NKE_Message) (p : Response),
    (Z.to_nat (m_length m - m_parsed m) < fuel)%nat ->
    max_cookies <= zlength (p_cookies p) ->
    cookies_ok max_cookies p ->
    exists m' p',
      response_loop fuel max_cookies m p = Some (m', p') /\
      cookies_ok max_cookies p' /\
      zlength (p_cookies p') = zlength (p_cookies p).
Proof.
  induction fuel as [|fuel IH]; intros m p Hf Hsize Hok; [lia|].
  cbn [response_loop].
  destruct (negb (p_error p =? ERROR_NONE));
    [exists m, p; split; [reflexivity | split; [exact Hok | reflexivity]]|].
  destruct (get_record m (Some (p_data p)) sizeof_response_data) as [[m1 r]|] eqn:Hg;
    [|exists m, p; split; [reflexivity | split; [exact Hok | reflexivity]]].
  destruct (get_record_progress _ _ _ _ _ Hg) as [Hm1 Hp].
  unfold sizeof_header in Hp.
  assert (Hl : m_length m1 = m_length m) by (rewrite Hm1; reflexivity).
  set (d := match r_body r with Some d => d | None => p_data p end).
  destruct (response_record_cookies_ok max_cookies p (r_critical r) (r_type r)
              (r_body_length r) d Hsize Hok) as [Hok1 Hsize1].
  destruct (IH m1 (response_record max_cookies p (r_critical r) (r_type r)
                     (r_body_length r) d)) as (m2 & p2 & Hrun & Hok2 & Hsize2);
    [lia | lia | exact Hok1 |].
  exists m2, p2. repeat split; try assumption; try apply Hok2. lia.
Qed.

(** C10.  [process_response] returns; it never stores more than
    [max_cookies] cookies and every stored cookie has a length of at most
    [NKE_MAX_COOKIE_LENGTH].  For a Cookie record whose body is longer, or
    that arrives when [max_cookies] cookies are stored, the [switch] changes
    nothing but the scratch array [data]: no cookie is stored and the error
    stays as it was. *)
Theorem process_response_cookies (data0 : list byte) (m : NKE_Message)
    (cookies : list NKE_Cookie) (max_cookies : Z) :
  0 <= max_cookies <= zlength cookies ->
  (exists (ret : Z) (m' : NKE_Message) (p : Response),
      process_response data0 m cookies max_cookies = Some (ret, m', p) /\
      0 <= ret <= max_cookies /\
      0 <= p_num_cookies p <= max_cookies /\
      forall i, 0 <= i < p_num_cookies p ->
                c_length (aget NKE_Cookie_zero (p_cookies p) i) <= NKE_MAX_COOKIE_LENGTH) /\
  (forall (p : Response) (critical length : Z) (data : list byte),
      NKE_MAX_COOKIE_LENGTH < length \/ max_cookies <= p_num_cookies p ->
      response_record max_cookies p critical RECORD_COOKIE length data = set_data p data).
Proof.
  intros Hmax. split.
  - unfold process_response.
    destruct (response_loop_cookies_ok max_cookies
                (records_fuel (reset_message_parsing m)) (reset_message_parsing m)
                (response_start cookies data0))
      as (m' & p & Hrun & [Hnum Hlen] & _).
    + unfold records_fuel. cbn [m_length m_parsed reset_message_parsing]. lia.
    + cbn [p_cookies response_start]. lia.
    + split; cbn [p_num_cookies response_start]; [lia | intros i Hi; lia].
    + rewrite Hrun.
      destruct (negb (p_next_protocol p =? NEXT_PROTOCOL_NTPV4) || _ || _);
        eexists; exists m', p; (split; [reflexivity|]); repeat split;
        try assumption; lia.
  - intros p critical length data H. unfold response_record.
    change (RECORD_COOKIE =? RECORD_NEXT_PROTOCOL) with false.
    change (RECORD_COOKIE =? RECORD_AEAD_ALGORITHM) with false.
    change (RECORD_COOKIE =? RECORD_ERROR) with false.
    change (RECORD_COOKIE =? RECORD_WARNING) with false.
    change (RECORD_COOKIE =? RECORD_COOKIE) with true. cbv iota.
    replace ((length <=? NKE_MAX_COOKIE_LENGTH) && (p_num_cookies p <? max_cookies))
      with false; [reflexivity|].
    symmetry. apply andb_false_iff. rewrite Z.leb_gt, Z.ltb_ge.
    destruct H; [left | right]; lia.
Qed.

End ResponseFacts.

(** ** The key ring and the cookies *)

Section RingFacts.

Import NtsKe.

Context {Siv : SIV} {E : KeEnv}.

Lemma new_id_index (rnd c : Z) :
  0 <= c < 4 ->
  Z.lor (Z.land (rnd mod 2 ^ 32) id_mask) c mod 4 = c.
Proof.
  intros Hc. change 4 with (2 ^ 2) at 1. rewrite <- Z.land_ones by lia.
  rewrite Z.land_lor_distr_l, <- Z.land_assoc.
  change (Z.land id_mask (Z.ones 2)) with 0. rewrite Z.land_0_r, Z.lor_0_l.
  rewrite Z.land_ones by lia. apply Z.mod_small. change (2 ^ 2) with 4. lia.
Qed.

Lemma new_id_low_bits (rnd c : Z) :
  0 <= c < 4 ->
  Z.land (Z.lor (Z.land (rnd mod 2 ^ 32) id_mask) c) 3 = c.
Proof.
  intros Hc. change 3 with (Z.ones 2). rewrite Z.land_ones by lia.
  change (2 ^ 2) with 4. apply new_id_index, Hc.
Qed.

Lemma new_id_range (rnd c : Z) :
  0 <= c < 4 ->
  0 <= Z.lor (Z.land (rnd mod 2 ^ 32) id_mask) c < 2 ^ 32.
Proof.
  intros Hc.
  assert (H : Z.lor (Z.land (rnd mod 2 ^ 32) id_mask) c mod 2 ^ 32
              = Z.lor (Z.land (rnd mod 2 ^ 32) id_mask) c).
  { rewrite <- Z.land_ones by lia.
    rewrite Z.land_lor_distr_l, <- Z.land_assoc.
    change (Z.land id_mask (Z.ones 32)) with id_mask.
    rewrite (Z.land_ones c) by lia. rewrite (Z.mod_small c) by lia. reflexivity. }
  rewrite <- H. apply Z.mod_pos_bound. lia.
Qed.

Lemma generate_server_key_current (ring : KeyRing) (key : list byte) (rnd : Z) :
  current_server_key (generate_server_key ring key rnd)
  = (current_server_key ring + 1) mod MAX_SERVER_KEYS.
Proof. reflexivity. Qed.

Lemma next_key_range (ring : KeyRing) :
  0 <= (current_server_key ring + 1) mod MAX_SERVER_KEYS < MAX_SERVER_KEYS.
Proof. apply Z.mod_pos_bound. reflexivity. Qed.

Lemma slot_generate_same (ring : KeyRing) (key : list byte) (rnd : Z) :
  zlength (server_keys ring) = MAX_SERVER_KEYS ->
  let ring' := generate_server_key ring key rnd in
  slot ring' (current_server_key ring')
  = {| id := Z.lor (Z.land (rnd mod 2 ^ 32) id_mask) (current_server_key ring');
       siv := siv_set_key key |}.
Proof.
  intros Hl ring'. pose proof (next_key_range ring) as Hc.
  unfold ring'. rewrite generate_server_key_current.
  unfold slot, generate_server_key. simpl server_keys.
  apply aget_aset_same. lia.
Qed.

Lemma slot_generate_other (ring : KeyRing) (key : list byte) (rnd i : Z) :
  let ring' := generate_server_key ring key rnd in
  0 <= i -> i <> current_server_key ring' -> slot ring' i = slot ring i.
Proof.
  intros ring' Hi Hne. pose proof (next_key_range ring) as Hc.
  unfold ring' in *. rewrite generate_server_key_current in Hne.
  unfold slot, generate_server_key. simpl server_keys.
  apply aget_aset_other; try lia.
Qed.

Lemma ring_ok_start : ring_ok initial_keys.
Proof.
  split; [reflexivity|]. split; [cbn; lia|]. split.
  - intros i Hi. change MAX_SERVER_KEYS with 4 in Hi.
    assert (i = 0 \/ i = 1 \/ i = 2 \/ i = 3) as [->|[->|[->| ->]]] by lia;
      change (id (slot initial_keys _)) with 0; lia.
  - right. intros i Hi. change MAX_SERVER_KEYS with 4 in Hi.
    cbn [current_server_key initial_keys]. split; [lia|]. intros _.
    assert (i = 0 \/ i = 1 \/ i = 2 \/ i = 3) as [->|[->|[->| ->]]] by lia; reflexivity.
Qed.

Lemma ring_ok_rotate (ring : KeyRing) (key : list byte) (rnd : Z) :
  ring_ok ring -> ring_ok (generate_server_key ring key rnd).
Proof.
  intros (Hl & Hc & Hr & Hs).
  set (ring' := generate_server_key ring key rnd).
  pose proof (next_key_range ring) as Hc'.
  rewrite <- (generate_server_key_current ring key rnd) in Hc'. fold ring' in Hc'.
  pose proof (slot_generate_same ring key rnd Hl) as Hsame. cbv zeta in Hsame.
  fold ring' in Hsame.
  assert (Hother : forall i, 0 <= i -> i <> current_server_key ring' ->
                             slot ring' i = slot ring i)
    by (intros i; apply slot_generate_other).
  assert (Hcur : current_server_key ring' = (current_server_key ring + 1) mod 4)
    by reflexivity.
  unfold ring_ok. change MAX_SERVER_KEYS with 4 in *.
  assert (Hnew : id (slot ring' (current_server_key ring')) mod 4
                 = current_server_key ring').
  { rewrite Hsame. cbn [id]. apply new_id_index. lia. }
  split; [|split; [exact Hc'|split]].
  - unfold ring', generate_server_key. cbn [server_keys]. now rewrite zlength_aset.
  - intros i Hi. destruct (Z.eq_dec i (current_server_key ring')) as [->|Hne].
    + rewrite Hsame. cbn [id]. apply new_id_range. lia.
    + rewrite Hother by lia. apply Hr, Hi.
  - destruct Hs as [Hfull | Hpart].
    + left. intros i Hi. destruct (Z.eq_dec i (current_server_key ring')) as [->|Hne].
      * exact Hnew.
      * rewrite Hother by lia. apply Hfull, Hi.
    + destruct (Z.eq_dec (current_server_key ring) 3) as [H3|H3].
      * left. intros i Hi.
        assert (Hz : current_server_key ring' = 0) by (rewrite Hcur, H3; reflexivity).
        destruct (Z.eq_dec i (current_server_key ring')) as [->|Hne].
        -- exact Hnew.
        -- rewrite Hother by lia. apply (Hpart i Hi). lia.
      * right. intros i Hi.
        assert (Hz : current_server_key ring' = current_server_key ring + 1)
          by (rewrite Hcur; apply Z.mod_small; lia).
        split.
        -- intros Hrange. destruct (Z.eq_dec i (current_server_key ring')) as [->|Hne].
           ++ exact Hnew.
           ++ rewrite Hother by lia. apply (Hpart i Hi). lia.
        -- intros Hrange. rewrite Hother by lia. apply (Hpart i Hi). lia.
Qed.

Lemma reachable_ring_ok (ring : KeyRing) : reachable ring -> ring_ok ring.
Proof.
  induction 1 as [|ring key rnd _ IH]; [apply ring_ok_start | apply ring_ok_rotate, IH].
Qed.

(** In a reachable key ring the id of the current key names the current
    slot. *)
Lemma current_key_index (ring : KeyRing) :
  ring_ok ring -> id (current_key ring) mod MAX_SERVER_KEYS = current_server_key ring.
Proof.
  intros (_ & Hc & _ & [Hfull | Hpart]); unfold current_key.
  - apply Hfull, Hc.
  - change MAX_SERVER_KEYS with 4 in *.
    destruct (Z.eq_dec (current_server_key ring) 0) as [H0|H0].
    + destruct (Hpart _ Hc) as [_ Hz]. rewrite Hz by lia. rewrite H0. reflexivity.
    + apply (Hpart _ Hc). lia.
Qed.

(** A key that is in a reachable key ring is in the slot that its id
    names. *)
Lemma key_in_ring_slot (ring : KeyRing) (k : ServerKey) :
  ring_ok ring -> In k (server_keys ring) -> slot ring (id k mod MAX_SERVER_KEYS) = k.
Proof.
  intros (Hl & Hc & _ & Hs) Hin.
  destruct (In_nth _ _ ServerKey_zero Hin) as (n & Hn & Hk).
  assert (Hslot : slot ring (Z.of_nat n) = k).
  { unfold slot, aget.
    replace (Z.of_nat n <? 0) with false by (symmetry; apply Z.ltb_ge; lia).
    rewrite Nat2Z.id. exact Hk. }
  clear Hk Hin.
  unfold zlength in Hl. change MAX_SERVER_KEYS with 4 in *.
  assert (Hi : 0 <= Z.of_nat n < 4) by lia.
  assert (Hzero : slot ring (Z.of_nat n) = ServerKey_zero ->
                  slot ring 0 = ServerKey_zero ->
                  slot ring (id k mod 4) = k).
  { intros Hz H0. rewrite <- Hslot, Hz. exact H0. }
  destruct Hs as [Hfull | Hpart].
  - rewrite <- Hslot at 1. rewrite (Hfull _ Hi). exact Hslot.
  - destruct (Hpart _ Hi) as [Hin1 Hin2].
    assert (H0 : slot ring 0 = ServerKey_zero) by (apply (Hpart 0); lia).
    destruct (Z_le_dec 1 (Z.of_nat n)) as [H1|H1];
      [destruct (Z_le_dec (Z.of_nat n) (current_server_key ring)) as [H2|H2]|].
    + rewrite <- Hslot at 1. rewrite Hin1 by lia. exact Hslot.
    + apply Hzero; [apply Hin2; lia | exact H0].
    + apply Hzero; [apply Hin2; lia | exact H0].
Qed.

End RingFacts.

Section CookieFacts.

Import NtsKe.

Context {Siv : SIV} {E : KeEnv}.

Lemma sub_all_eq (l : list byte) (n : Z) : zlength l = n -> sub l 0 n = l.
Proof. intros <-. apply sub_all. Qed.

Lemma sub_app_l_eq (l1 l2 : list byte) (n : Z) :
  zlength l1 = n -> sub (l1 ++ l2) 0 n = l1.
Proof. intros <-. apply sub_app_l. Qed.

Lemma sub_app_r_eq (l1 l2 : list byte) (n1 n2 : Z) :
  zlength l1 = n1 -> zlength l2 = n2 -> sub (l1 ++ l2) n1 n2 = l2.
Proof. intros <- <-. apply sub_app_r. Qed.

Lemma NKE_Key_eta (k : NKE_Key) (l : list byte) :
  k_length k = 32 -> k_key k = l -> {| k_length := 32; k_key := l |} = k.
Proof. destruct k. cbn. intros -> ->. reflexivity. Qed.

(** The three fields of the [ServerCookie] that [NKE_GenerateCookie] has
    written. *)
Lemma cookie_fields (buf a b c : list byte) :
  zlength a = 4 -> zlength b = 16 -> zlength c = 80 -> 100 <= zlength buf ->
  let cookie := memcpy (memcpy (memcpy buf 0 a) 4 b) 20 c in
  sub cookie 0 4 = a /\
  sub cookie 4 16 = b /\
  sub cookie 20 80 = c /\
  sub (memcpy (memcpy buf 0 a) 4 b) 4 16 = b.
Proof.
  intros Ha Hb Hc Hbuf.
  assert (H0 : zlength (memcpy buf 0 a) = zlength buf) by (apply length_memcpy; lia).
  assert (H1 : zlength (memcpy (memcpy buf 0 a) 4 b) = zlength buf)
    by (rewrite length_memcpy; lia).
  cbv zeta. repeat split.
  - rewrite !sub_memcpy_before by lia. rewrite <- Ha. apply sub_memcpy_same; lia.
  - rewrite sub_memcpy_before by lia. rewrite <- Hb. apply sub_memcpy_same; lia.
  - rewrite <- Hc. apply sub_memcpy_same; lia.
  - rewrite <- Hb. apply sub_memcpy_same; lia.
Qed.

(** C1.  A cookie that [NKE_GenerateCookie] seals for two 32-byte keys,
    with any nonce, is opened by [NKE_DecodeCookie] to exactly these two
    keys, in every state of the key ring in which the key that sealed it is
    still present. *)
Theorem cookie_round_trip (ring ring' : KeyRing) (c2s s2c : NKE_Key)
    (nonce : list byte) (nke_cookie : NKE_Cookie) :
  SIV_correct Siv ->
  reachable ring -> reachable ring' ->
  In (current_key ring) (server_keys ring') ->
  sizeof_ServerCookie <= NKE_MAX_COOKIE_LENGTH ->
  zlength (c_cookie nke_cookie) = NKE_MAX_COOKIE_LENGTH ->
  k_length c2s = 32 -> zlength (k_key c2s) = 32 ->
  k_length s2c = 32 -> zlength (k_key s2c) = 32 ->
  zlength nonce = 16 ->
  exists cookie : NKE_Cookie,
    NKE_GenerateCookie ring c2s s2c nonce nke_cookie = Some cookie /\
    NKE_DecodeCookie ring' cookie = Some (c2s, s2c).
Proof.
  intros Hsiv Hring Hring' Hin Hmax Hbuf Hlc Hkc Hls Hks Hn.
  pose proof (reachable_ring_ok ring Hring) as Hok.
  pose proof (reachable_ring_ok ring' Hring') as Hok'.
  pose proof (key_in_ring_slot ring' _ Hok' Hin) as Hslot.
  assert (Hid : 0 <= id (current_key ring) < 2 ^ 32)
    by (destruct Hok as (_ & Hc & Hr & _); apply Hr, Hc).
  unfold sizeof_ServerCookie in Hmax.
  unfold NKE_GenerateCookie, offsetof_nonce, sizeof_nonce, offsetof_ciphertext.
  fold (slot ring (current_server_key ring)).
  fold (current_key ring).
  replace (NKE_MAX_COOKIE_LENGTH <? sizeof_ServerCookie) with false
    by (symmetry; apply Z.ltb_ge; unfold sizeof_ServerCookie; lia).
  rewrite Hlc, Hls, Z.eqb_refl. cbn [negb orb].
  rewrite (sub_all_eq _ _ Hkc), (sub_all_eq _ _ Hks), (sub_all_eq _ _ Hn).
  set (a := u32_to_bytes host_big_endian (id (current_key ring))).
  set (pt := k_key c2s ++ k_key s2c).
  destruct (cookie_fields (c_cookie nke_cookie) a nonce
              (siv_encrypt_message (siv (current_key ring)) nonce [] pt))
    as (Hf0 & Hf1 & Hf2 & Hf3).
  { apply zlength_u32_to_bytes. }
  { exact Hn. }
  { rewrite siv_encrypt_length. unfold pt, SIV_DIGEST_SIZE. rewrite zlength_app. lia. }
  { lia. }
  cbv zeta in Hf0, Hf1, Hf2, Hf3. rewrite Hf3.
  eexists. split; [reflexivity|].
  unfold NKE_DecodeCookie, offsetof_nonce, sizeof_nonce, offsetof_ciphertext,
    sizeof_ciphertext.
  change (64 + 16) with 80. cbn [c_length c_cookie].
  rewrite Z.eqb_refl. cbn [negb].
  rewrite Hf0, Hf1, Hf2. unfold a. rewrite u32_of_to_bytes, Z.mod_small by exact Hid.
  fold (slot ring' (id (current_key ring) mod MAX_SERVER_KEYS)). rewrite Hslot.
  rewrite Z.eqb_refl. cbn [negb]. rewrite siv_decrypt_encrypt.
  unfold pt. rewrite (sub_app_l_eq _ _ _ Hkc), (sub_app_r_eq _ _ _ _ Hkc Hks).
  rewrite (NKE_Key_eta c2s _ Hlc eq_refl), (NKE_Key_eta s2c _ Hls eq_refl).
  reflexivity.
Qed.

(** The bits of the new id above the two low ones are those that were
    drawn. *)
Lemma new_id_high_bits (rnd c : Z) :
  0 <= c < 4 ->
  Z.shiftr (Z.lor (Z.land (rnd mod 2 ^ 32) id_mask) c) KEY_ID_INDEX_BITS
  = Z.shiftr (rnd mod 2 ^ 32) KEY_ID_INDEX_BITS.
Proof.
  intros Hc. pose proof (Z.mod_pos_bound rnd (2 ^ 32) eq_refl) as Hr.
  unfold KEY_ID_INDEX_BITS.
  rewrite Z.shiftr_lor, Z.shiftr_land.
  change (Z.shiftr id_mask 2) with (Z.ones 30).
  rewrite Z.land_ones by lia.
  rewrite (Z.shiftr_div_pow2 c) by lia.
  change (2 ^ 2) with 4. rewrite (Z.div_small c) by lia. rewrite Z.lor_0_r.
  apply Z.mod_small. rewrite Z.shiftr_div_pow2 by lia. change (2 ^ 2) with 4.
  split; [apply Z.div_pos; lia|]. apply Z.div_lt_upper_bound; lia.
Qed.

(** C5.  A rotation moves [current_server_key] to the next slot and
    installs there the key that was drawn, with an id made of the bits
    that were drawn and, in its two low bits, the index of that slot; the
    other slots keep their keys.  The id of the new key modulo 4 is
    therefore the index of its slot, and after the rotation every key in
    the ring is the one found in slot [id mod 4]: the id stored there is its
    id.  A cookie that [NKE_DecodeCookie] accepts names the id stored in
    slot [key_id mod 4], and a cookie whose [key_id] differs from the id
    stored in that slot is rejected. *)
Theorem rotation_key_id (ring : KeyRing) (key : list byte) (rnd : Z) :
  reachable ring ->
  let ring' := generate_server_key ring key rnd in
  let new_id := id (current_key ring') in
  current_server_key ring' = (current_server_key ring + 1) mod MAX_SERVER_KEYS /\
  siv (current_key ring') = siv_set_key key /\
  Z.shiftr new_id KEY_ID_INDEX_BITS = Z.shiftr (rnd mod 2 ^ 32) KEY_ID_INDEX_BITS /\
  Z.land new_id 3 = current_server_key ring' /\
  new_id mod MAX_SERVER_KEYS = current_server_key ring' /\
  (forall i, 0 <= i < MAX_SERVER_KEYS -> i <> current_server_key ring' ->
             slot ring' i = slot ring i) /\
  (forall k, In k (server_keys ring') ->
             slot ring' (id k mod MAX_SERVER_KEYS) = k /\
             id (slot ring' (id k mod MAX_SERVER_KEYS)) = id k) /\
  (forall (r : KeyRing) (cookie : NKE_Cookie) (keys : NKE_Key * NKE_Key),
      NKE_DecodeCookie r cookie = Some keys ->
      id (slot r (cookie_key_id cookie mod MAX_SERVER_KEYS)) = cookie_key_id cookie) /\
  (forall (r : KeyRing) (cookie : NKE_Cookie),
      cookie_key_id cookie <> id (slot r (cookie_key_id cookie mod MAX_SERVER_KEYS)) ->
      NKE_DecodeCookie r cookie = None).
Proof.
  intros Hring ring' new_id.
  pose proof (reachable_ring_ok ring Hring) as (Hl & _).
  pose proof (reachable_ring_ok ring' (reachable_rotate ring key rnd Hring)) as Hok'.
  pose proof (next_key_range ring) as Hc.
  rewrite <- (generate_server_key_current ring key rnd) in Hc. fold ring' in Hc.
  pose proof (slot_generate_same ring key rnd Hl) as Hsame. cbv zeta in Hsame.
  fold ring' in Hsame. fold (current_key ring') in Hsame.
  assert (Hid : new_id = Z.lor (Z.land (rnd mod 2 ^ 32) id_mask) (current_server_key ring'))
    by (unfold new_id; rewrite Hsame; reflexivity).
  split; [reflexivity|].
  split; [rewrite Hsame; reflexivity|].
  split; [rewrite Hid; apply new_id_high_bits, Hc|].
  split; [rewrite Hid; apply new_id_low_bits, Hc|].
  split; [rewrite Hid; apply new_id_index, Hc|].
  split; [intros i Hi Hne; apply slot_generate_other; [lia | exact Hne]|].
  split; [|split].
  - intros k Hin. pose proof (key_in_ring_slot ring' k Hok' Hin) as Hk.
    split; [exact Hk | rewrite Hk; reflexivity].
  - intros r cookie keys. unfold NKE_DecodeCookie.
    destruct (negb (c_length cookie =? sizeof_ServerCookie)); [discriminate|].
    fold (cookie_key_id cookie).
    fold (slot r (cookie_key_id cookie mod MAX_SERVER_KEYS)).
    destruct (cookie_key_id cookie =? id _) eqn:He; [|discriminate].
    intros _. apply Z.eqb_eq in He. symmetry. exact He.
  - intros r cookie Hne. unfold NKE_DecodeCookie.
    destruct (negb (c_length cookie =? sizeof_ServerCookie)); [reflexivity|].
    fold (cookie_key_id cookie).
    fold (slot r (cookie_key_id cookie mod MAX_SERVER_KEYS)).
    apply Z.eqb_neq in Hne. rewrite Hne. reflexivity.
Qed.

End CookieFacts.

(** ** The extension fields of NTS-NTP *)

Section FieldFacts.

Import NtsKe NtsNtp.

Context {Siv : SIV} {X : NtpExt}.

(** The field at the cursor, when the fields from the cursor on are
    known. *)
Lemma NEF_ParseField_at (packet : NTP_Packet) (length : Z) (k : nat)
    (fields : list (EFType * list byte)) :
  skipn k (pk_fields packet) = fields ->
  NEF_ParseField packet length (Z.of_nat k) =
    match fields with
    | [] => None
    | (type, body) :: _ => Some (Z.of_nat (S k), type, body)
    end.
Proof.
  intros H. unfold NEF_ParseField.
  replace (Z.of_nat k <? 0) with false by (symmetry; apply Z.ltb_ge; lia).
  rewrite Nat2Z.id, <- hd_error_skipn, H.
  destruct fields as [|[type body] ?]; [reflexivity|].
  cbn [hd_error]. do 3 f_equal. lia.
Qed.

Lemma skipn_next {A : Type} (l : list A) (k : nat) (x : A) (rest : list A) :
  skipn k l = x :: rest -> skipn (S k) l = rest.
Proof.
  revert k. induction l as [|h t IH]; intros [|k] H; cbn in *; try discriminate.
  - now inversion H.
  - apply IH, H.
Qed.

(** The loop of [NTS_CheckRequestAuth] ends within its fuel, with the
    verdict of [check_fields]. *)
Lemma check_request_loop_fields (packet : NTP_Packet) (info : NTP_PacketInfo)
    (fields : list (EFType * list byte)) :
  forall (fuel k : nat) (cookie : option (list byte)) (auth : option AuthAndEEF),
    skipn k (pk_fields packet) = fields ->
    (length fields < fuel)%nat ->
    exists e,
      check_request_loop fuel packet info (Z.of_nat k) cookie auth = Some e /\
      match e with
      | Returned v => v = 0
      | Broke _ => True
      end /\
      check_fields fields (match cookie with Some _ => true | None => false end)
      = match e with Returned _ => 0 | Broke _ => 1 end.
Proof.
  induction fields as [|[t b] fields IH]; intros fuel k cookie auth Hk Hf;
    (destruct fuel as [|fuel]; [cbn in Hf; lia|]); cbn [check_request_loop];
    rewrite (NEF_ParseField_at packet _ k _ Hk).
  - eexists. split; [reflexivity|]. split; [exact I | reflexivity].
  - pose proof (skipn_next _ _ _ _ Hk) as Hk'.
    assert (Hf' : (length fields < fuel)%nat) by (cbn in Hf; lia).
    cbn [check_fields].
    destruct t.
    + apply (IH fuel (S k) cookie auth Hk' Hf').
    + destruct cookie as [c|].
      * eexists. split; [reflexivity|]. split; reflexivity.
      * apply (IH fuel (S k) (Some b) auth Hk' Hf').
    + apply (IH fuel (S k) cookie auth Hk' Hf').
    + destruct (parse_auth_and_eef b (zlength b)) as [a|].
      * apply (IH fuel (S k) cookie (Some a) Hk' Hf').
      * eexists. split; [reflexivity|]. split; reflexivity.
    + apply (IH fuel (S k) cookie auth Hk' Hf').
Qed.

(** [NTS_CheckRequestAuth] returns, and returns 1 exactly for a packet in
    client mode with an extension field in which no second cookie field and
    no malformed authenticator field is found. *)
Lemma NTS_CheckRequestAuth_fields (packet : NTP_Packet) (info : NTP_PacketInfo) :
  NTS_CheckRequestAuth packet info =
    Some (if (pi_ext_fields info =? 0) || negb (is_client (pi_mode info)) then 0
          else check_fields (pk_fields packet) false).
Proof.
  unfold NTS_CheckRequestAuth.
  destruct ((pi_ext_fields info =? 0) || negb (is_client (pi_mode info)));
    [reflexivity|].
  destruct (check_request_loop_fields packet info (pk_fields packet)
              (fields_fuel packet) 0 None None eq_refl)
    as (e & Hrun & Hret & Hv).
  { unfold fields_fuel. lia. }
  change (Z.of_nat 0) with 0 in Hrun. rewrite Hrun, Hv.
  destruct e as [v | [c a]]; [now subst v | reflexivity].
Qed.

(** The loop of [NTS_GenerateResponseAuth] ends within its fuel. *)
Lemma generate_response_loop_fields (request : NTP_Packet) (req_info : NTP_PacketInfo)
    (fields : list (EFType * list byte)) :
  forall (fuel k : nat) (response : NTP_Packet) (res_info : NTP_PacketInfo),
    skipn k (pk_fields request) = fields ->
    (length fields < fuel)%nat ->
    generate_response_loop fuel request req_info (Z.of_nat k) response res_info
    = Some (respond fields response res_info).
Proof.
  induction fields as [|[t b] fields IH]; intros fuel k response res_info Hk Hf;
    (destruct fuel as [|fuel]; [cbn in Hf; lia|]); cbn [generate_response_loop];
    rewrite (NEF_ParseField_at request _ k _ Hk).
  - reflexivity.
  - pose proof (skipn_next _ _ _ _ Hk) as Hk'.
    assert (Hf' : (length fields < fuel)%nat) by (cbn in Hf; lia).
    cbn [respond].
    destruct t.
    + destruct (NEF_AddField response res_info NTP_EF_NTS_UNIQUE_IDENTIFIER b)
        as [[r1 i1]|]; [|reflexivity].
      destruct (add_response_cookie r1 i1) as [[r2 i2]|]; [|reflexivity].
      apply (IH fuel (S k) r2 i2 Hk' Hf').
    + destruct (add_response_cookie response res_info) as [[r2 i2]|]; [|reflexivity].
      apply (IH fuel (S k) r2 i2 Hk' Hf').
    + destruct (add_response_cookie response res_info) as [[r2 i2]|]; [|reflexivity].
      apply (IH fuel (S k) r2 i2 Hk' Hf').
    + apply (IH fuel (S k) response res_info Hk' Hf').
    + apply (IH fuel (S k) response res_info Hk' Hf').
Qed.

Lemma NEF_AddField_fields (packet packet' : NTP_Packet) (info info' : NTP_PacketInfo)
    (type : EFType) (body : list byte) :
  NEF_AddField packet info type body = Some (packet', info') ->
  pk_fields packet' = pk_fields packet ++ [(type, body)] /\
  pk_header packet' = pk_header packet /\
  pi_mode info' = pi_mode info /\
  pi_ext_fields info' = pi_ext_fields info + 1.
Proof.
  unfold NEF_AddField. destruct (NEF_room packet info body); [|discriminate].
  intros H. inversion H; subst. repeat split.
Qed.

Lemma NEF_AddField_room (packet : NTP_Packet) (info : NTP_PacketInfo)
    (type : EFType) (body : list byte) :
  NEF_room packet info body = true ->
  exists packet' info', NEF_AddField packet info type body = Some (packet', info').
Proof.
  intros H. unfold NEF_AddField. rewrite H. eexists. eexists. reflexivity.
Qed.

(** A successful [respond] has appended [response_fields]. *)
Lemma respond_fields (fields : list (EFType * list byte)) :
  forall (response response' : NTP_Packet) (res_info res_info' : NTP_PacketInfo),
    respond fields response res_info = (1, response', res_info') ->
    pk_fields response' = pk_fields response ++ response_fields fields.
Proof.
  induction fields as [|[t b] fields IH]; intros response response' res_info res_info' H.
  - cbn in H. inversion H; subst. cbn. now rewrite app_nil_r.
  - cbn [respond] in H. unfold response_fields. cbn [flat_map fst snd].
    fold (response_fields fields).
    destruct t.
    + destruct (NEF_AddField response res_info NTP_EF_NTS_UNIQUE_IDENTIFIER b)
        as [[r1 i1]|] eqn:H1; [|discriminate].
      destruct (add_response_cookie r1 i1) as [[r2 i2]|] eqn:H2; [|discriminate].
      apply NEF_AddField_fields in H1, H2. destruct H1 as [H1 _], H2 as [H2 _].
      rewrite (IH _ _ _ _ H), H2, H1. now rewrite <- !app_assoc.
    + destruct (add_response_cookie response res_info) as [[r2 i2]|] eqn:H2;
        [|discriminate].
      apply NEF_AddField_fields in H2. destruct H2 as [H2 _].
      rewrite (IH _ _ _ _ H), H2. now rewrite <- !app_assoc.
    + destruct (add_response_cookie response res_info) as [[r2 i2]|] eqn:H2;
        [|discriminate].
      apply NEF_AddField_fields in H2. destruct H2 as [H2 _].
      rewrite (IH _ _ _ _ H), H2. now rewrite <- !app_assoc.
    + apply (IH _ _ _ _ H).
    + apply (IH _ _ _ _ H).
Qed.

(** With room for every field [respond] succeeds. *)
Lemma respond_room (fields : list (EFType * list byte)) :
  (forall p i b, NEF_room p i b = true) ->
  forall (response : NTP_Packet) (res_info : NTP_PacketInfo),
    exists response' res_info', respond fields response res_info = (1, response', res_info').
Proof.
  intros Hroom. induction fields as [|[t b] fields IH]; intros response res_info.
  - eexists. eexists. reflexivity.
  - cbn [respond]. unfold add_response_cookie, NEF_AddField. rewrite !Hroom.
    destruct t; apply IH.
Qed.

Lemma count_type_app (type : EFType) (l1 l2 : list (EFType * list byte)) :
  count_type type (l1 ++ l2) = count_type type l1 + count_type type l2.
Proof. unfold count_type. now rewrite filter_app, zlength_app. Qed.

Lemma count_type_cons (type : EFType) (f : EFType * list byte)
    (l : list (EFType * list byte)) :
  count_type type (f :: l)
  = (if EFType_eqb (fst f) type then 1 else 0) + count_type type l.
Proof.
  unfold count_type. cbn [filter]. destruct (EFType_eqb (fst f) type); [|lia].
  unfold zlength. cbn [length]. lia.
Qed.

(** Every Unique-Identifier, Cookie and Cookie-Placeholder field of the
    request stands for one cookie field of the response, and every
    Unique-Identifier field for one Unique-Identifier field. *)
Lemma count_response_fields (fields : list (EFType * list byte)) :
  count_type NTP_EF_NTS_COOKIE (response_fields fields)
  = count_type NTP_EF_NTS_UNIQUE_IDENTIFIER fields
    + count_type NTP_EF_NTS_COOKIE fields
    + count_type NTP_EF_NTS_COOKIE_PLACEHOLDER fields /\
  count_type NTP_EF_NTS_UNIQUE_IDENTIFIER (response_fields fields)
  = count_type NTP_EF_NTS_UNIQUE_IDENTIFIER fields.
Proof.
  induction fields as [|[t b] fields [IH1 IH2]]; [split; reflexivity|].
  unfold response_fields. cbn [flat_map]. fold (response_fields fields).
  rewrite !count_type_app, !(count_type_cons _ (t, b)), IH1, IH2.
  cbn [fst snd].
  destruct t; rewrite ?count_type_cons; cbn [fst EFType_eqb];
    change (count_type NTP_EF_NTS_COOKIE []) with 0;
    change (count_type NTP_EF_NTS_UNIQUE_IDENTIFIER []) with 0; split; lia.
Qed.

End FieldFacts.

Section AuthFacts.

Import NtsKe NtsNtp.

Context {Siv : SIV} {X : NtpExt}.

Lemma NTS_GenerateResponseAuth_fields (request : NTP_Packet) (req_info : NTP_PacketInfo)
    (response : NTP_Packet) (res_info : NTP_PacketInfo) :
  NTS_GenerateResponseAuth request req_info response res_info =
    Some (if negb (is_client (pi_mode req_info)) || negb (is_server (pi_mode res_info))
          then (0, response, res_info)
          else respond (pk_fields request) response res_info).
Proof.
  unfold NTS_GenerateResponseAuth.
  destruct (negb (is_client (pi_mode req_info)) || negb (is_server (pi_mode res_info)));
    [reflexivity|].
  apply (generate_response_loop_fields request req_info (pk_fields request)
           (fields_fuel request) 0 response res_info eq_refl).
  unfold fields_fuel. lia.
Qed.

(** In what [NTS_GenerateResponseAuth] appends, the Unique-Identifier
    fields are those of the request, and each is followed by a cookie
    field. *)
Lemma response_fields_identifiers (fields : list (EFType * list byte)) :
  filter (fun f => EFType_eqb (fst f) NTP_EF_NTS_UNIQUE_IDENTIFIER) (response_fields fields)
  = filter (fun f => EFType_eqb (fst f) NTP_EF_NTS_UNIQUE_IDENTIFIER) fields.
Proof.
  induction fields as [|[t b] fields IH]; [reflexivity|].
  unfold response_fields. cbn [flat_map]. fold (response_fields fields).
  rewrite filter_app, IH. cbn [fst snd filter].
  destruct t; reflexivity.
Qed.

Lemma response_fields_follow (fields : list (EFType * list byte)) :
  forall (i : nat) (body : list byte),
    nth_error (response_fields fields) i = Some (NTP_EF_NTS_UNIQUE_IDENTIFIER, body) ->
    nth_error (response_fields fields) (S i) = Some (NTP_EF_NTS_COOKIE, repeat x00 100).
Proof.
  induction fields as [|[t b] fields IH]; intros i body.
  - destruct i; discriminate.
  - unfold response_fields. cbn [flat_map]. fold (response_fields fields).
    cbn [fst snd].
    destruct t; cbn [app]; try apply IH.
    + destruct i as [|[|i]]; cbn [nth_error]; [reflexivity | discriminate | apply IH].
    + destruct i as [|i]; cbn [nth_error]; [discriminate | apply IH].
    + destruct i as [|i]; cbn [nth_error]; [discriminate | apply IH].
Qed.

(** C9.  For every request, a successful [NTS_GenerateResponseAuth]
    appends to the response, for each Unique-Identifier field of the
    request, that field and behind it one cookie field of a hundred zero
    bytes, and one such cookie field for each Cookie and each
    Cookie-Placeholder field: the identifiers appended are those of the
    request, each is followed by a cookie field, and the number of cookie
    fields appended is the number of Unique-Identifier, Cookie and
    Cookie-Placeholder fields of the request together.  A request with one
    Unique-Identifier, one Cookie and [n] Cookie-Placeholder fields thus
    gets exactly [n + 2] cookie fields.  With room for the fields, a request
    in client mode and a response in server mode the function succeeds. *)
Theorem response_cookie_count (request : NTP_Packet) (req_info : NTP_PacketInfo)
    (response : NTP_Packet) (res_info : NTP_PacketInfo) :
  (forall response' res_info',
      NTS_GenerateResponseAuth request req_info response res_info
      = Some (1, response', res_info') ->
      exists added : list (EFType * list byte),
        pk_fields response' = pk_fields response ++ added /\
        added
        = flat_map
            (fun f =>
               match fst f with
               | NTP_EF_NTS_UNIQUE_IDENTIFIER =>
                   [(NTP_EF_NTS_UNIQUE_IDENTIFIER, snd f); (NTP_EF_NTS_COOKIE, repeat x00 100)]
               | NTP_EF_NTS_COOKIE | NTP_EF_NTS_COOKIE_PLACEHOLDER =>
                   [(NTP_EF_NTS_COOKIE, repeat x00 100)]
               | _ => []
               end)
            (pk_fields request) /\
        filter (fun f => EFType_eqb (fst f) NTP_EF_NTS_UNIQUE_IDENTIFIER) added
        = filter (fun f => EFType_eqb (fst f) NTP_EF_NTS_UNIQUE_IDENTIFIER)
                 (pk_fields request) /\
        (forall i body,
            nth_error added i = Some (NTP_EF_NTS_UNIQUE_IDENTIFIER, body) ->
            nth_error added (S i) = Some (NTP_EF_NTS_COOKIE, repeat x00 100)) /\
        count_type NTP_EF_NTS_COOKIE added
        = count_type NTP_EF_NTS_UNIQUE_IDENTIFIER (pk_fields request)
          + count_type NTP_EF_NTS_COOKIE (pk_fields request)
          + count_type NTP_EF_NTS_COOKIE_PLACEHOLDER (pk_fields request) /\
        count_type NTP_EF_NTS_COOKIE (pk_fields response')
        = count_type NTP_EF_NTS_COOKIE (pk_fields response)
          + count_type NTP_EF_NTS_COOKIE added /\
        (forall n,
            count_type NTP_EF_NTS_UNIQUE_IDENTIFIER (pk_fields request) = 1 ->
            count_type NTP_EF_NTS_COOKIE (pk_fields request) = 1 ->
            count_type NTP_EF_NTS_COOKIE_PLACEHOLDER (pk_fields request) = n ->
            count_type NTP_EF_NTS_COOKIE added = n + 2)) /\
  (pi_mode req_info = MODE_CLIENT -> pi_mode res_info = MODE_SERVER ->
   (forall p i b, NEF_room p i b = true) ->
   exists response' res_info',
     NTS_GenerateResponseAuth request req_info response res_info
     = Some (1, response', res_info')).
Proof.
  rewrite NTS_GenerateResponseAuth_fields.
  destruct (count_response_fields (pk_fields request)) as [Hcount _].
  split.
  - intros response' res_info' H.
    destruct (negb (is_client (pi_mode req_info)) || negb (is_server (pi_mode res_info)));
      [discriminate|].
    injection H as H. apply respond_fields in H.
    exists (response_fields (pk_fields request)).
    split; [exact H|]. split; [reflexivity|].
    split; [apply response_fields_identifiers|].
    split; [apply response_fields_follow|].
    split; [exact Hcount|].
    split; [rewrite H; apply count_type_app|].
    intros n Hu Hc Hp. rewrite Hcount. lia.
  - intros Hreq Hres Hroom. rewrite Hreq, Hres. cbn [is_client is_server negb orb].
    destruct (respond_room (pk_fields request) Hroom response res_info)
      as (response' & res_info' & H).
    exists response', res_info'. now rewrite H.
Qed.

Lemma add_placeholders_fields (rounds : nat) (cookie : NKE_Cookie) :
  forall (packet packet' : NTP_Packet) (info info' : NTP_PacketInfo),
    add_placeholders rounds cookie packet info = (true, packet', info') ->
    pk_fields packet'
    = pk_fields packet
      ++ repeat (NTP_EF_NTS_COOKIE_PLACEHOLDER, sub (c_cookie cookie) 0 (c_length cookie))
                rounds.
Proof.
  induction rounds as [|rounds IH]; intros packet packet' info info' H.
  - cbn in H. inversion H; subst. cbn. now rewrite app_nil_r.
  - cbn [add_placeholders] in H.
    destruct (NEF_AddField packet info NTP_EF_NTS_COOKIE_PLACEHOLDER _)
      as [[p1 i1]|] eqn:H1; [|discriminate].
    apply NEF_AddField_fields in H1. destruct H1 as [H1 _].
    rewrite (IH _ _ _ _ H), H1. cbn [repeat]. now rewrite <- app_assoc.
Qed.

Lemma add_placeholders_room (rounds : nat) (cookie : NKE_Cookie) :
  (forall p i b, NEF_room p i b = true) ->
  forall (packet : NTP_Packet) (info : NTP_PacketInfo),
    exists packet' info', add_placeholders rounds cookie packet info = (true, packet', info').
Proof.
  intros Hroom. induction rounds as [|rounds IH]; intros packet info.
  - eexists. eexists. reflexivity.
  - cbn [add_placeholders]. unfold NEF_AddField. rewrite Hroom. apply IH.
Qed.

(** The authenticator field that [NTS_GenerateRequestAuth] builds parses
    to a nonce of sixteen bytes and a ciphertext of sixteen bytes. *)
Lemma parse_auth_bytes (nonce ciphertext : list byte) :
  zlength nonce = NONCE_LENGTH -> zlength ciphertext = SIV_DIGEST_SIZE ->
  parse_auth_and_eef (auth_bytes nonce ciphertext) (zlength (auth_bytes nonce ciphertext))
  = Some {| a_nonce := nonce ++ ciphertext; a_ciphertext := ciphertext;
            a_nonce_length := NONCE_LENGTH; a_ciphertext_length := SIV_DIGEST_SIZE |}.
Proof.
  intros Hn Hc. unfold auth_bytes. rewrite (sub_all_eq _ _ Hn).
  unfold parse_auth_and_eef. rewrite !zlength_app, !zlength_htons, Hn, Hc.
  unfold NONCE_LENGTH, SIV_DIGEST_SIZE in *.
  change (2 + (2 + (16 + 16)) <? 4) with false. cbv iota.
  rewrite ntohs_htons.
  change (skipn 2 (htons 16 ++ htons 16 ++ nonce ++ ciphertext))
    with (htons 16 ++ nonce ++ ciphertext).
  rewrite ntohs_htons.
  change (get_padded_length (16 mod 65536) + get_padded_length (16 mod 65536)
          >? 2 + (2 + (16 + 16))) with false. cbv iota.
  change (16 mod 65536) with 16. change (get_padded_length 16) with 16.
  change (skipn 4 (htons 16 ++ htons 16 ++ nonce ++ ciphertext))
    with (nonce ++ ciphertext).
  replace (skipn (Z.to_nat (4 + 16)) (htons 16 ++ htons 16 ++ nonce ++ ciphertext))
    with ciphertext; [reflexivity|].
  change (Z.to_nat (4 + 16)) with (16 + 4)%nat. rewrite <- skipn_skipn.
  change (skipn 4 (htons 16 ++ htons 16 ++ nonce ++ ciphertext))
    with (nonce ++ ciphertext).
  rewrite skipn_app, (skipn_all2 nonce) by (unfold zlength in Hn; lia).
  replace (16 - length nonce)%nat with O by (unfold zlength in Hn; lia).
  reflexivity.
Qed.

(** C7.  With a cookie at hand [NTS_GenerateRequestAuth], when it
    succeeds, has appended in this order the Unique-Identifier field with the
    stored id, the Cookie field with the next cookie of the ring,
    [MAX_COOKIES - num_cookies] Cookie-Placeholder fields with the bytes of
    that cookie, and the authenticator field with the stored nonce and a
    ciphertext of sixteen bytes, the encryption of the empty plaintext; it
    has taken one cookie off the count and moved the index on by one modulo
    [MAX_COOKIES]; with room for the fields it succeeds.  Without a cookie
    it returns 0 and the packet is as it was. *)
Theorem generate_request_auth_fields (inst : NTS_ClientInstance) (packet : NTP_Packet)
    (info : NTP_PacketInfo) :
  SIV_correct Siv ->
  zlength (nonce inst) = NONCE_LENGTH ->
  zlength (uniq_id inst) = UNIQ_ID_LENGTH ->
  (num_cookies inst = 0 ->
   NTS_GenerateRequestAuth inst packet info = (0, inst, packet, info)) /\
  (0 < num_cookies inst <= MAX_COOKIES ->
   let cookie := aget NKE_Cookie_zero (cookies inst) (cookie_index inst) in
   let body := sub (c_cookie cookie) 0 (c_length cookie) in
   (forall inst' packet' info',
       NTS_GenerateRequestAuth inst packet info = (1, inst', packet', info') ->
       exists adata ciphertext placeholders,
         ciphertext = siv_encrypt_message (siv_c2s inst) (nonce inst) adata [] /\
         zlength ciphertext = 16 /\
         placeholders = repeat (NTP_EF_NTS_COOKIE_PLACEHOLDER, body)
                          (Z.to_nat (MAX_COOKIES - num_cookies inst)) /\
         zlength placeholders = MAX_COOKIES - num_cookies inst /\
         pk_fields packet'
         = pk_fields packet
           ++ [(NTP_EF_NTS_UNIQUE_IDENTIFIER, uniq_id inst); (NTP_EF_NTS_COOKIE, body)]
           ++ placeholders
           ++ [(NTP_EF_NTS_AUTH_AND_EEF, auth_bytes (nonce inst) ciphertext)] /\
         parse_auth_and_eef (auth_bytes (nonce inst) ciphertext)
           (zlength (auth_bytes (nonce inst) ciphertext))
         = Some {| a_nonce := nonce inst ++ ciphertext; a_ciphertext := ciphertext;
                   a_nonce_length := 16; a_ciphertext_length := 16 |} /\
         num_cookies inst' = num_cookies inst - 1 /\
         cookie_index inst' = Z.rem (cookie_index inst + 1) MAX_COOKIES /\
         (0 <= cookie_index inst ->
          cookie_index inst' = (cookie_index inst + 1) mod 8) /\
         cookies inst' = cookies inst /\ nonce inst' = nonce inst /\
         uniq_id inst' = uniq_id inst) /\
   ((forall p i b, NEF_room p i b = true) ->
    exists inst' packet' info',
      NTS_GenerateRequestAuth inst packet info = (1, inst', packet', info'))).
Proof.
  intros Hsiv Hn Hu. split.
  - intros H0. unfold NTS_GenerateRequestAuth, needs_nke. rewrite H0. reflexivity.
  - intros Hnum cookie body.
    unfold NTS_GenerateRequestAuth, needs_nke.
    replace (num_cookies inst =? 0) with false by (symmetry; apply Z.eqb_neq; lia).
    fold cookie. fold body.
    rewrite (sub_all_eq _ _ Hu), (sub_all_eq _ _ Hn).
    split.
    + intros inst' packet' info'.
      destruct (NEF_AddField packet info NTP_EF_NTS_UNIQUE_IDENTIFIER (uniq_id inst))
        as [[p1 i1]|] eqn:H1; [|discriminate].
      destruct (NEF_AddField p1 i1 NTP_EF_NTS_COOKIE body) as [[p2 i2]|] eqn:H2;
        [|discriminate].
      destruct (add_placeholders _ cookie p2 i2) as [[[|] p3] i3] eqn:H3; [|discriminate].
      set (ct := siv_encrypt_message (siv_c2s inst) (nonce inst)
                   (packet_bytes p3 (pi_length i3)) []).
      destruct (NEF_AddField p3 i3 NTP_EF_NTS_AUTH_AND_EEF (auth_bytes (nonce inst) ct))
        as [[p4 i4]|] eqn:H4; [|discriminate].
      intros H. inversion H; subst inst' packet' info'. clear H.
      apply NEF_AddField_fields in H1, H2, H4.
      destruct H1 as [H1 _], H2 as [H2 _], H4 as [H4 _].
      apply add_placeholders_fields in H3. fold body in H3.
      assert (Hct : zlength ct = 16) by (unfold ct; rewrite siv_encrypt_length; reflexivity).
      exists (packet_bytes p3 (pi_length i3)), ct,
        (repeat (NTP_EF_NTS_COOKIE_PLACEHOLDER, body)
           (Z.to_nat (MAX_COOKIES - num_cookies inst))).
      split; [reflexivity|]. split; [exact Hct|]. split; [reflexivity|].
      split; [unfold zlength; rewrite repeat_length; unfold MAX_COOKIES in *; lia|].
      split; [rewrite H4, H3, H2, H1; now rewrite <- !app_assoc|].
      split; [apply (parse_auth_bytes _ _ Hn Hct)|].
      cbn [num_cookies cookie_index cookies nonce uniq_id].
      repeat split. intros Hidx. unfold MAX_COOKIES.
      apply Z.rem_mod_nonneg; lia.
    + intros Hroom. unfold NEF_AddField at 1 2. rewrite !Hroom.
      destruct (add_placeholders_room (Z.to_nat (MAX_COOKIES - num_cookies inst)) cookie
                  Hroom
                  {| pk_header := pk_header packet;
                     pk_fields := (pk_fields packet
                                   ++ [(NTP_EF_NTS_UNIQUE_IDENTIFIER, uniq_id inst)])
                                  ++ [(NTP_EF_NTS_COOKIE, body)] |}
                  {| pi_length := pi_length info + NEF_field_length (uniq_id inst)
                                  + NEF_field_length body;
                     pi_mode := pi_mode info;
                     pi_ext_fields := pi_ext_fields info + 1 + 1 |})
        as (p3 & i3 & H3).
      cbn [pk_header pk_fields pi_length pi_mode pi_ext_fields].
      rewrite H3. unfold NEF_AddField. rewrite Hroom.
      eexists. eexists. eexists. reflexivity.
Qed.

(** [NTS_CheckResponseAuth] returns 0 for every packet. *)
Lemma NTS_CheckResponseAuth_zero (inst : NTS_ClientInstance) (packet : NTP_Packet)
    (info : NTP_PacketInfo) :
  NTS_CheckResponseAuth inst packet info = 0.
Proof.
  unfold NTS_CheckResponseAuth.
  now destruct ((pi_ext_fields info =? 0) || negb (is_server (pi_mode info))).
Qed.

End AuthFacts.

(** ** The definitions at work on the sample environment *)

Section SampleFacts.

Import NtsKe NtsNtp.

Lemma bytes_eqb_refl (l : list byte) : Sample.bytes_eqb l l = true.
Proof.
  induction l as [|b l IH]; [reflexivity|]. cbn [Sample.bytes_eqb].
  now rewrite (Byte.byte_dec_lb eq_refl), IH.
Qed.

Lemma length_sample_tag (ctx nonce : list byte) : length (Sample.tag ctx nonce) = 16%nat.
Proof.
  unfold Sample.tag. rewrite length_firstn, !length_app, repeat_length. lia.
Qed.

Lemma sample_siv_correct : SIV_correct Sample.siv.
Proof.
  split.
  - intros k n a p. cbn [siv_encrypt_message Sample.siv].
    rewrite zlength_app. unfold zlength at 1. rewrite length_sample_tag.
    unfold SIV_DIGEST_SIZE. lia.
  - intros k n a p. cbn [siv_encrypt_message siv_decrypt_message Sample.siv].
    rewrite firstn_app_exact by (symmetry; apply length_sample_tag).
    rewrite bytes_eqb_refl, skipn_app, skipn_all2 by (rewrite length_sample_tag; lia).
    rewrite length_sample_tag. reflexivity.
Qed.

Lemma cookie_round_trip_witness :
  let ring := Sample.ring1 in
  let ring' :=
    @generate_server_key Sample.siv
      (@generate_server_key Sample.siv ring (repeat x44 32) 17) (repeat x55 32) 99 in
  exists cookie : NKE_Cookie,
    @NKE_GenerateCookie Sample.siv Sample.ke_env ring Sample.c2s Sample.s2c
      Sample.nonce16 Sample.cookie_buffer = Some cookie /\
    @NKE_DecodeCookie Sample.siv Sample.ke_env ring' cookie
    = Some (Sample.c2s, Sample.s2c).
Proof.
  cbv zeta.
  apply (@cookie_round_trip Sample.siv Sample.ke_env).
  - exact sample_siv_correct.
  - apply reachable_rotate, reachable_start.
  - do 3 apply reachable_rotate. apply reachable_start.
  - apply (nth_error_In _ 1%nat). reflexivity.
  - vm_compute. discriminate.
  - reflexivity.
  - reflexivity.
  - reflexivity.
  - reflexivity.
  - reflexivity.
  - reflexivity.
Defined.

Lemma rotation_key_id_witness :
  let ring' := @NtsKe.generate_server_key Sample.siv Sample.ring1 (repeat x44 32) 17 in
  NtsKe.current_server_key ring' = 2 /\
  Z.shiftr (NtsKe.id (NtsKe.current_key ring')) 2 = 4 /\
  Z.land (NtsKe.id (NtsKe.current_key ring')) 3 = 2 /\
  NtsKe.slot ring' 1 = NtsKe.slot Sample.ring1 1.
Proof.
  cbv zeta.
  pose proof (@rotation_key_id Sample.siv Sample.ke_env Sample.ring1 (repeat x44 32) 17
                (@NtsKe.reachable_rotate Sample.siv _ _ _ (@NtsKe.reachable_start Sample.siv)))
    as (H1 & _ & H3 & H4 & _ & H6 & _).
  cbv zeta in *.
  split; [exact H1|]. split; [exact H3|]. split; [rewrite H4; exact H1|].
  apply H6; [split; [discriminate | reflexivity] | rewrite H1; discriminate].
Defined.

Lemma generate_request_auth_fields_witness :
  exists inst' packet' info',
    @NTS_GenerateRequestAuth Sample.siv Sample.ntp_ext Sample.client Sample.request0
      Sample.request0_info = (1, inst', packet', info').
Proof.
  refine (proj2 (proj2 (@generate_request_auth_fields Sample.siv Sample.ntp_ext
                          Sample.client Sample.request0 Sample.request0_info
                          sample_siv_correct eq_refl eq_refl) _) _).
  - vm_compute. split; [reflexivity | discriminate].
  - reflexivity.
Defined.

Lemma response_cookie_count_witness :
  (exists response' res_info',
     @NtsNtp.NTS_GenerateResponseAuth Sample.ntp_ext Sample.request2
       Sample.request2_info Sample.response0 Sample.response0_info
     = Some (1, response', res_info') /\
     NtsNtp.count_type NtsNtp.NTP_EF_NTS_COOKIE (NtsNtp.pk_fields response') = 2 + 2) /\
  (exists response' res_info',
     @NtsNtp.NTS_GenerateResponseAuth Sample.ntp_ext Sample.request_two_ids
       Sample.request_two_ids_info Sample.response0 Sample.response0_info
     = Some (1, response', res_info') /\
     NtsNtp.count_type NtsNtp.NTP_EF_NTS_COOKIE (NtsNtp.pk_fields response') = 4 /\
     filter (fun f => NtsNtp.EFType_eqb (fst f) NtsNtp.NTP_EF_NTS_UNIQUE_IDENTIFIER)
            (NtsNtp.pk_fields response')
     = [ (NtsNtp.NTP_EF_NTS_UNIQUE_IDENTIFIER, repeat xab 32);
         (NtsNtp.NTP_EF_NTS_UNIQUE_IDENTIFIER, repeat xcd 32) ]).
Proof.
  split.
  - destruct (@response_cookie_count Sample.ntp_ext Sample.request2
                Sample.request2_info Sample.response0 Sample.response0_info)
      as [Hfields Hruns].
    destruct (Hruns eq_refl eq_refl (fun _ _ _ => eq_refl)) as (response' & res_info' & H).
    destruct (Hfields response' res_info' H) as (added & _ & _ & _ & _ & _ & Hr & Hn).
    exists response', res_info'. split; [exact H|].
    rewrite Hr, (Hn 2 eq_refl eq_refl eq_refl). reflexivity.
  - destruct (@response_cookie_count Sample.ntp_ext Sample.request_two_ids
                Sample.request_two_ids_info Sample.response0 Sample.response0_info)
      as [Hfields Hruns].
    destruct (Hruns eq_refl eq_refl (fun _ _ _ => eq_refl)) as (response' & res_info' & H).
    destruct (Hfields response' res_info' H) as (added & Ha & _ & Hids & _ & Hc & Hr & _).
    exists response', res_info'. split; [exact H|]. split.
    + rewrite Hr, Hc. reflexivity.
    + rewrite Ha. cbn [NtsNtp.pk_fields Sample.response0 app]. rewrite Hids. reflexivity.
Defined.

Lemma process_response_cookies_witness :
  exists (ret : Z) (m' : NKE_Message) (p : Response),
    @process_response Sample.ke_env [] (message_of (encode_records Sample.ke_response) 0)
      (repeat NKE_Cookie_zero 8) 8 = Some (ret, m', p) /\
    0 <= ret <= 8 /\
    0 <= p_num_cookies p <= 8 /\
    forall i, 0 <= i < p_num_cookies p ->
              c_length (aget NKE_Cookie_zero (p_cookies p) i) <= 256.
Proof.
  refine (proj1 (@process_response_cookies Sample.ke_env []
                   (message_of (encode_records Sample.ke_response) 0)
                   (repeat NKE_Cookie_zero 8) 8 _)).
  vm_compute. split; discriminate.
Defined.

(** C2 fails on the code: a request in client mode whose only extension
    field is a Unique-Identifier field, with no cookie and no authenticator
    field, is accepted; and so is a request whose cookie [NKE_DecodeCookie]
    rejects and whose authenticator is sixteen zero bytes. *)
Lemma check_request_auth_accepts_bare_request :
  (count_type NTP_EF_NTS_COOKIE (pk_fields Sample.bare_request) = 0 /\
   count_type NTP_EF_NTS_AUTH_AND_EEF (pk_fields Sample.bare_request) = 0 /\
   NTS_CheckRequestAuth Sample.bare_request Sample.bare_request_info = Some 1) /\
  (@NKE_DecodeCookie Sample.siv Sample.ke_env Sample.ring1 Sample.forged_cookie = None /\
   NTS_CheckRequestAuth Sample.forged_request Sample.forged_request_info = Some 1).
Proof.
  split; [repeat split|]. split; vm_compute; reflexivity.
Qed.

(** C8 fails on the code: the client builds a request, the server builds
    the response to it, and [NTS_CheckResponseAuth] returns 0 for that
    response, as it does for every packet. *)
Lemma check_response_auth_rejects_response :
  exists inst' request info response res_info,
    @NTS_GenerateRequestAuth Sample.siv Sample.ntp_ext Sample.client Sample.request0
      Sample.request0_info = (1, inst', request, info) /\
    @NTS_GenerateResponseAuth Sample.ntp_ext request info Sample.response0
      Sample.response0_info = Some (1, response, res_info) /\
    @NTS_CheckResponseAuth Sample.siv inst' response res_info = 0.
Proof.
  do 5 eexists. split; [vm_compute; reflexivity|].
  split; [vm_compute; reflexivity | apply NTS_CheckResponseAuth_zero].
Qed.

End SampleFacts.

(** * Further properties of the code *)

(** ** The record codec, continued *)

Section CodecMore.

Import NtsKe KeRead.

Lemma add_record_Some (m m' : NKE_Message) (c t : Z) (body : list byte) :
  add_record m c t body = Some m' ->
  zlength body <= 65535 /\
  m_length m + sizeof_header + zlength body <= MAX_MESSAGE_LENGTH.
Proof.
  unfold add_record.
  destruct ((zlength body <? 0) || (zlength body >? 65535) ||
            (m_length m + sizeof_header + zlength body >? MAX_MESSAGE_LENGTH)) eqn:H;
    [discriminate|].
  intros _. rewrite !orb_false_iff, !Z.gtb_ltb, !Z.ltb_ge in H. lia.
Qed.

(** X1.  [add_record] fails exactly when the body is longer than 65535
    bytes or header and body do not fit behind the bytes of the message; when
    it succeeds the message holds its old bytes followed by the header and the
    body, [length] has grown by four and the length of the body, and [sent],
    [eof] and [parsed] are as before. *)
Theorem add_record_appends (m : NKE_Message) (c t : Z) (body : list byte) :
  message_ok m ->
  (add_record m c t body = None <->
   65535 < zlength body \/
   MAX_MESSAGE_LENGTH < m_length m + sizeof_header + zlength body) /\
  (forall m', add_record m c t body = Some m' ->
     message_ok m' /\
     m_length m' = m_length m + sizeof_header + zlength body /\
     contents m' =
       contents m ++ htons (Z.lor ((if c =? 0 then 0 else 1) * RECORD_CRITICAL_BIT) t)
                  ++ htons (zlength body) ++ body /\
     m_sent m' = m_sent m /\ m_eof m' = m_eof m /\ m_parsed m' = m_parsed m).
Proof.
  intros Hok. split.
  - split.
    + intros Hnone.
      destruct (Z_le_dec (zlength body) 65535) as [H1|H1]; [|left; lia].
      destruct (Z_le_dec (m_length m + sizeof_header + zlength body) MAX_MESSAGE_LENGTH)
        as [H2|H2]; [|right; lia].
      destruct (add_record_ok m c t body Hok H1 H2) as (m' & Hadd & _). congruence.
    + intros H. destruct (add_record m c t body) as [m'|] eqn:Hadd; [|reflexivity].
      apply add_record_Some in Hadd. lia.
  - intros m' Hadd. destruct (add_record_Some _ _ _ _ _ Hadd) as [H1 H2].
    destruct (add_record_ok m c t body Hok H1 H2)
      as (m1 & Hadd1 & Hok1 & Hlen & Hc & Heof & Hparsed & Hsent).
    assert (m1 = m') by congruence. subst m1.
    repeat split; try assumption; try apply Hok1.
    rewrite Hc. unfold encode_record. cbn [rec_critical rec_type rec_body].
    now destruct (c =? 0).
Qed.

Lemma add_record_appends_witness :
  exists m',
    add_record blank_message 1 RECORD_NEXT_PROTOCOL (htons NEXT_PROTOCOL_NTPV4) = Some m' /\
    m_length m' = 6.
Proof.
  destruct (add_record blank_message 1 RECORD_NEXT_PROTOCOL (htons NEXT_PROTOCOL_NTPV4))
    as [m'|] eqn:Hadd.
  - exists m'. split; [reflexivity|].
    refine (proj1 (proj2 (proj2 (add_record_appends blank_message 1 RECORD_NEXT_PROTOCOL
                                   (htons NEXT_PROTOCOL_NTPV4) _) m' Hadd))).
    split; vm_compute; [split; discriminate | reflexivity].
  - vm_compute in Hadd. discriminate.
Defined.

End CodecMore.

Section CodecMore2.

Import NtsKe KeRead.

Lemma negb_int_of_bool (b : bool) : negb (int_of_bool b =? 0) = b.
Proof. now destruct b. Qed.

(** The bytes that a call of [get_record] with a buffer of [MAX_BODY]
    bytes has copied are the body of the record. *)
Lemma sub_memcpy_body (buf body : list byte) :
  zlength buf = MAX_BODY -> zlength body <= 65535 ->
  sub (memcpy buf 0 (firstn (Z.to_nat (Z.min MAX_BODY (zlength body))) body)) 0
      (zlength body) = body.
Proof.
  intros Hbuf Hb. unfold MAX_BODY in *.
  pose proof (zlength_nonneg body) as Hnn.
  replace (Z.min 65535 (zlength body)) with (zlength body) by lia.
  replace (firstn (Z.to_nat (zlength body)) body) with body
    by (unfold zlength; rewrite Nat2Z.id; symmetry; apply firstn_all).
  apply sub_memcpy_same; lia.
Qed.

Lemma zlength_memcpy_body (buf body : list byte) :
  zlength buf = MAX_BODY -> zlength body <= 65535 ->
  zlength (memcpy buf 0 (firstn (Z.to_nat (Z.min MAX_BODY (zlength body))) body))
  = MAX_BODY.
Proof.
  intros Hbuf Hb. rewrite length_memcpy; [exact Hbuf | lia |].
  unfold zlength at 1. rewrite length_firstn. unfold MAX_BODY, zlength in *. lia.
Qed.

Lemma read_records_encoded (rs : list KeRecord) :
  forall (fuel : nat) (m : NKE_Message) (pre buf : list byte),
    message_ok m -> Forall record_ok rs ->
    contents m = pre ++ encode_records rs ->
    m_parsed m = zlength pre ->
    zlength buf = MAX_BODY ->
    (length rs < fuel)%nat ->
    read_records fuel m buf = rs.
Proof.
  induction rs as [|r rs IH]; intros fuel m pre buf Hok Hrs Hc Hp Hbuf Hf;
    (destruct fuel as [|fuel]; [cbn in Hf; lia|]); cbn [read_records].
  - pose proof (zlength_contents m Hok) as Hz.
    rewrite Hc, zlength_app in Hz. change (zlength (encode_records [])) with 0 in Hz.
    rewrite get_record_end by (unfold sizeof_header; lia). reflexivity.
  - inversion Hrs as [|? ? Hr Hrs']; subst.
    rewrite encode_records_cons in Hc.
    rewrite (get_record_at m pre (encode_records rs) r (Some buf) MAX_BODY Hok Hr Hc Hp).
    cbn [r_critical r_type r_body_length r_body option_map].
    rewrite negb_int_of_bool, sub_memcpy_body by (try exact Hbuf; apply Hr).
    f_equal; [now destruct r|].
    apply (IH fuel _ (pre ++ encode_record r)).
    + apply message_ok_set_parsed, Hok.
    + exact Hrs'.
    + change (contents (set_parsed m _)) with (contents m).
      rewrite Hc. now rewrite <- app_assoc.
    + rewrite m_parsed_set_parsed, zlength_app. reflexivity.
    + apply zlength_memcpy_body; [exact Hbuf | apply Hr].
    + cbn in Hf. lia.
Qed.

(** X2.  Round trip of the codec: when [add_record] has written the
    records [rs] one after the other into a reset message, the message holds
    exactly their encodings, and [get_record], called until it returns 0
    with a buffer for the longest body, gives back the records [rs], each
    with its critical bit, its type and its body. *)
Theorem records_round_trip (m0 m : NKE_Message) (rs : list KeRecord) (buf : list byte) :
  message_ok m0 ->
  Forall (fun r => 0 <= rec_type r < 32768) rs ->
  zlength buf = MAX_BODY ->
  add_records (reset_message m0) rs = Some m ->
  contents m = encode_records rs /\
  read_records (records_fuel m) (reset_message_parsing m) buf = rs.
Proof.
  intros Hok0 Ht Hbuf Hadd.
  assert (Hok00 : message_ok (reset_message m0))
    by (split; [cbn; unfold MAX_MESSAGE_LENGTH; lia | apply Hok0]).
  assert (Hgen : forall rs m1 m2,
             message_ok m1 -> add_records m1 rs = Some m2 ->
             Forall (fun r => zlength (rec_body r) <= 65535) rs /\
             m_length m1 + zlength (encode_records rs) <= MAX_MESSAGE_LENGTH).
  { clear. induction rs as [|r rs IH]; intros m1 m2 Hok1 H.
    - split; [constructor|]. change (zlength (encode_records [])) with 0. 
      destruct Hok1 as [Hl _]. lia.
    - cbn [add_records] in H.
      destruct (add_record m1 (int_of_bool (rec_critical r)) (rec_type r) (rec_body r))
        as [m1'|] eqn:Ha; [|discriminate].
      destruct (add_record_Some _ _ _ _ _ Ha) as [Hb Hfit].
      destruct (add_record_ok m1 (int_of_bool (rec_critical r)) (rec_type r) (rec_body r)
                  Hok1 Hb Hfit)
        as (mx & Hax & Hokx & Hlx & _).
      assert (mx = m1') by congruence. subst mx.
      destruct (IH m1' m2 Hokx H) as [Hbs Hfits].
      split; [constructor; assumption|].
      rewrite encode_records_cons, zlength_app, zlength_encode_record. lia. }
  destruct (Hgen rs _ _ Hok00 Hadd) as [Hbs Hfit].
  destruct (add_records_ok rs (reset_message m0) Hok00 Hbs Hfit)
    as (m1 & Hadd1 & Hok1 & Hc1 & _).
  assert (m1 = m) by congruence. subst m1.
  change (contents (reset_message m0)) with (@nil byte) in Hc1. cbn [app] in Hc1.
  split; [exact Hc1|].
  assert (Hall : Forall record_ok rs).
  { rewrite Forall_forall in *. intros r Hr. split; [apply Ht, Hr | apply Hbs, Hr]. }
  pose proof (zlength_contents m Hok1) as Hz. rewrite Hc1 in Hz.
  pose proof (zlength_encode_records rs) as Hn. unfold sizeof_header, zlength in Hn, Hz.
  rewrite reset_message_parsing_set_parsed.
  apply (read_records_encoded rs _ (set_parsed m 0) [] buf).
  - apply message_ok_set_parsed, Hok1.
  - exact Hall.
  - exact Hc1.
  - reflexivity.
  - exact Hbuf.
  - unfold records_fuel. lia.
Qed.

Lemma records_round_trip_witness :
  exists m,
    add_records (reset_message blank_message) (sample_request ++ [end_of_message]) = Some m /\
    read_records (records_fuel m) (reset_message_parsing m) (repeat x00 (Z.to_nat MAX_BODY))
    = sample_request ++ [end_of_message].
Proof.
  destruct (add_records (reset_message blank_message) (sample_request ++ [end_of_message]))
    as [m|] eqn:Hadd.
  - exists m. split; [reflexivity|].
    refine (proj2 (records_round_trip blank_message m (sample_request ++ [end_of_message])
                     (repeat x00 (Z.to_nat MAX_BODY)) _ _ _ Hadd)).
    + split; vm_compute; [split; discriminate | reflexivity].
    + repeat constructor; vm_compute; discriminate.
    + vm_compute. reflexivity.
  - vm_compute in Hadd. discriminate.
Defined.

End CodecMore2.

Section CodecMore3.

Import NtsKe KeRead.

Lemma sub_of_contents (m : NKE_Message) (off len : Z) :
  0 <= off -> off + len <= m_length m ->
  sub (m_data m) off len = sub (contents m) off len.
Proof.
  intros Ho Hl. unfold contents. symmetry. apply sub_sub_prefix; assumption.
Qed.

(** X3.  [get_record] reads nothing but the bytes of the message: two
    messages with the same [length], the same cursor and the same bytes in
    [data[0 .. length)] give the same answer, whatever else their arrays
    hold. *)
Theorem get_record_reads_contents (m1 m2 : NKE_Message) (body : option (list byte))
    (body_length : Z) :
  m_length m1 = m_length m2 ->
  m_parsed m1 = m_parsed m2 ->
  0 <= m_parsed m1 ->
  contents m1 = contents m2 ->
  option_map snd (get_record m1 body body_length)
  = option_map snd (get_record m2 body body_length) /\
  option_map (fun x => m_parsed (fst x)) (get_record m1 body body_length)
  = option_map (fun x => m_parsed (fst x)) (get_record m2 body body_length).
Proof.
  intros Hl Hp Hnn Hc. unfold get_record. rewrite <- Hl, <- Hp.
  destruct (m_length m1 <? m_parsed m1 + sizeof_header) eqn:H1; [split; reflexivity|].
  apply Z.ltb_ge in H1.
  assert (Hh : sub (m_data m1) (m_parsed m1) sizeof_header
               = sub (m_data m2) (m_parsed m1) sizeof_header).
  { rewrite (sub_of_contents m1), (sub_of_contents m2), Hc by lia. reflexivity. }
  rewrite <- Hh.
  set (blen := ntohs (skipn 2 (sub (m_data m1) (m_parsed m1) sizeof_header))).
  destruct (m_length m1 <? m_parsed m1 + (sizeof_header + blen)) eqn:H2;
    [split; reflexivity|].
  apply Z.ltb_ge in H2.
  assert (Hb : sub (m_data m1) (m_parsed m1 + sizeof_header) (Z.min body_length blen)
               = sub (m_data m2) (m_parsed m1 + sizeof_header) (Z.min body_length blen)).
  { unfold sizeof_header in *.
    rewrite (sub_of_contents m1), (sub_of_contents m2), Hc by lia. reflexivity. }
  rewrite <- Hb. split; reflexivity.
Qed.

Lemma get_record_reads_contents_witness :
  let m1 := message_of (encode_record end_of_message) 0 in
  let m2 := set_parsed
              {| m_length := 4; m_sent := 0; m_eof := 0; m_parsed := 0;
                 m_data := encode_record end_of_message ++ [xff; xff] |} 0 in
  option_map snd (get_record m1 None 0) = option_map snd (get_record m2 None 0).
Proof.
  cbv zeta.
  refine (proj1 (get_record_reads_contents _ _ None 0 _ _ _ _)).
  - reflexivity.
  - reflexivity.
  - vm_compute. discriminate.
  - vm_compute. reflexivity.
Defined.

(** A record that is cut short cannot be read. *)
Lemma get_record_partial (m : NKE_Message) (pre : list byte) (r : KeRecord) (k : nat)
    (buf : option (list byte)) (n : Z) :
  message_ok m -> record_ok r ->
  contents m = pre ++ firstn k (encode_record r) ->
  m_parsed m = zlength pre ->
  (k < length (encode_record r))%nat ->
  get_record m buf n = None.
Proof.
  intros Hok [Ht Hb] Hc Hp Hk.
  pose proof (zlength_contents m Hok) as Hz.
  pose proof (zlength_encode_record r) as Hle. unfold zlength at 1 in Hle.
  pose proof (zlength_nonneg (rec_body r)) as Hnn.
  rewrite Hc, zlength_app in Hz. unfold zlength at 2 in Hz.
  rewrite length_firstn in Hz. unfold sizeof_header in *.
  unfold get_record, sizeof_header. rewrite Hp.
  destruct (m_length m <? zlength pre + 4) eqn:H1; [reflexivity|].
  apply Z.ltb_ge in H1.
  assert (Hk4 : (4 <= k)%nat) by lia.
  rewrite (sub_contents_at m pre (firstn k (encode_record r)) 4 Hok Hc)
    by (unfold zlength; rewrite length_firstn; lia).
  assert (Hhdr : firstn (Z.to_nat 4) (firstn k (encode_record r))
                 = htons (Z.lor (int_of_bool (rec_critical r) * RECORD_CRITICAL_BIT)
                                (rec_type r))
                   ++ htons (zlength (rec_body r))).
  { rewrite firstn_firstn. replace (Nat.min (Z.to_nat 4) k) with 4%nat by lia.
    reflexivity. }
  rewrite Hhdr.
  change (skipn 2 (htons ?w ++ htons (zlength (rec_body r))))
    with (htons (zlength (rec_body r)) ++ []).
  rewrite ntohs_htons, Z.mod_small by lia.
  replace (m_length m <? zlength pre + (4 + zlength (rec_body r))) with true
    by (symmetry; apply Z.ltb_lt; lia).
  reflexivity.
Qed.

(** The loop of [check_message_format] on the records [rs] followed by
    bytes at which no record can be read. *)
Lemma get_records_encoded_rest (rs : list KeRecord) :
  forall (fuel : nat) (m : NKE_Message) (pre rest : list byte) (last : option (Z * Z * Z)),
    message_ok m -> Forall record_ok rs ->
    contents m = pre ++ encode_records rs ++ rest ->
    m_parsed m = zlength pre ->
    (forall p, get_record (set_parsed m (zlength (pre ++ encode_records rs))) None p = None) ->
    (length rs < fuel)%nat ->
    get_records fuel m last
    = Some (set_parsed m (zlength (pre ++ encode_records rs)), last_record rs last).
Proof.
  induction rs as [|r rs IH]; intros fuel m pre rest last Hok Hrs Hc Hp Hstop Hf;
    (destruct fuel as [|fuel]; [cbn in Hf; lia|]); cbn [get_records].
  - change (encode_records []) with (@nil byte) in *. rewrite app_nil_r in *.
    rewrite <- Hp in *. rewrite set_parsed_parsed in *. rewrite Hstop. reflexivity.
  - inversion Hrs as [|? ? Hr Hrs']; subst.
    rewrite encode_records_cons, <- app_assoc in Hc.
    rewrite (get_record_at m pre (encode_records rs ++ rest) r None 0 Hok Hr Hc Hp).
    cbn [r_critical r_type r_body_length].
    rewrite (IH fuel _ (pre ++ encode_record r) rest).
    + cbn [last_record fold_left]. do 2 f_equal.
      rewrite encode_records_cons, app_assoc. reflexivity.
    + apply message_ok_set_parsed, Hok.
    + exact Hrs'.
    + change (contents (set_parsed m _)) with (contents m).
      rewrite Hc. now rewrite <- app_assoc.
    + rewrite m_parsed_set_parsed, zlength_app. reflexivity.
    + intros p. rewrite encode_records_cons, app_assoc in Hstop.
      exact (Hstop p).
    + cbn in Hf. lia.
Qed.

End CodecMore3.

Section CodecVerdicts.

Import NtsKe KeRead.

(** The verdict on a message made of whole records, the last one [r]. *)
Lemma check_format_last (m : NKE_Message) (rs : list KeRecord) (r : KeRecord) :
  message_ok m -> Forall record_ok (rs ++ [r]) ->
  contents m = encode_records (rs ++ [r]) ->
  option_map fst (check_message_format m)
  = Some (if is_final r then MSG_OK else MSG_ERROR).
Proof.
  intros Hok Hrs Hc.
  pose proof (zlength_contents m Hok) as Hz. rewrite Hc in Hz.
  pose proof (zlength_encode_records (rs ++ [r])) as Hn.
  unfold sizeof_header, zlength in Hn, Hz.
  assert (Hpos : (0 < length (rs ++ [r]))%nat) by (rewrite length_app; cbn; lia).
  unfold check_message_format. rewrite reset_message_parsing_set_parsed.
  rewrite (get_records_encoded (rs ++ [r]) _ (set_parsed m 0) [] None).
  - rewrite last_record_app.
    change (m_length (set_parsed (set_parsed m 0) (m_length (set_parsed m 0))))
      with (m_length m).
    change (m_parsed (set_parsed (set_parsed m 0) (m_length (set_parsed m 0))))
      with (m_length m).
    replace (m_length m =? 0) with false by (symmetry; apply Z.eqb_neq; lia).
    rewrite Z.ltb_irrefl. cbn [orb].
    unfold is_final. rewrite int_of_bool_eqb.
    destruct (rec_critical r), (rec_type r =? RECORD_END_OF_MESSAGE),
      (zlength (rec_body r) =? 0); reflexivity.
  - apply message_ok_set_parsed, Hok.
  - exact Hrs.
  - exact Hc.
  - reflexivity.
  - unfold records_fuel. rewrite m_length_set_parsed. lia.
Qed.

(** X4.  A buffer that ends where a record ends is never Incomplete:
    [check_message_format] answers Ok when the last record is a critical
    End-of-Message record with an empty body and Error when it is any other
    record, whether [eof] is set or not.  A message of which so far only
    whole records have arrived, the final one not among them, is thus an
    Error. *)
Theorem check_whole_records (m : NKE_Message) (rs : list KeRecord) :
  message_ok m -> Forall record_ok rs -> rs <> [] ->
  contents m = encode_records rs ->
  option_map fst (check_message_format m)
  = Some (if is_final (last rs end_of_message) then MSG_OK else MSG_ERROR).
Proof.
  intros Hok Hrs Hne Hc.
  destruct (exists_last Hne) as (rs' & r & ->).
  rewrite last_last. apply (check_format_last m rs' r Hok Hrs Hc).
Qed.

Lemma check_whole_records_witness :
  option_map fst (check_message_format (message_of (encode_records sample_request) 0))
  = Some MSG_ERROR.
Proof.
  refine (check_whole_records (message_of (encode_records sample_request) 0)
            sample_request _ _ _ _).
  - split; vm_compute; [split; discriminate | reflexivity].
  - repeat constructor; vm_compute; discriminate.
  - discriminate.
  - vm_compute. reflexivity.
Defined.

(** X5.  A buffer that ends inside a record is Incomplete while [eof] is
    not set and Error once it is: this holds for any whole records [rs]
    followed by a proper, non-empty prefix of the encoding of a record. *)
Theorem check_truncated (m : NKE_Message) (rs : list KeRecord) (r : KeRecord) (k : nat) :
  message_ok m -> Forall record_ok rs -> record_ok r ->
  (0 < k < length (encode_record r))%nat ->
  contents m = encode_records rs ++ firstn k (encode_record r) ->
  option_map fst (check_message_format m)
  = Some (if m_eof m =? 0 then MSG_INCOMPLETE else MSG_ERROR).
Proof.
  intros Hok Hrs Hr Hk Hc.
  pose proof (zlength_contents m Hok) as Hz. rewrite Hc, zlength_app in Hz.
  unfold zlength at 2 in Hz. rewrite length_firstn in Hz.
  pose proof (zlength_encode_records rs) as Hn.
  unfold sizeof_header in Hn. unfold zlength at 1 in Hn.
  pose proof (zlength_nonneg (encode_records rs)) as Hnn.
  unfold check_message_format. rewrite reset_message_parsing_set_parsed.
  rewrite (get_records_encoded_rest rs _ (set_parsed m 0) []
             (firstn k (encode_record r)) None).
  - cbn [app].
    change (m_length (set_parsed (set_parsed m 0) ?p)) with (m_length m).
    change (m_eof (set_parsed (set_parsed m 0) ?p)) with (m_eof m).
    rewrite m_parsed_set_parsed.
    replace (zlength (encode_records rs) <? m_length m) with true
      by (symmetry; apply Z.ltb_lt; lia).
    rewrite orb_true_r. now destruct (m_eof m =? 0).
  - apply message_ok_set_parsed, Hok.
  - exact Hrs.
  - exact Hc.
  - reflexivity.
  - intros p. cbn [app].
    apply (get_record_partial _ (encode_records rs) r k).
    + apply message_ok_set_parsed, Hok.
    + exact Hr.
    + exact Hc.
    + reflexivity.
    + lia.
  - unfold records_fuel. rewrite m_length_set_parsed. lia.
Qed.

Lemma check_truncated_witness :
  option_map fst
    (check_message_format
       (message_of (encode_records sample_request ++ firstn 2 (encode_record end_of_message))
                   0))
  = Some MSG_INCOMPLETE.
Proof.
  refine (check_truncated
            (message_of (encode_records sample_request
                         ++ firstn 2 (encode_record end_of_message)) 0)
            sample_request end_of_message 2 _ _ _ _ _).
  - split; vm_compute; [split; discriminate | reflexivity].
  - repeat constructor; vm_compute; discriminate.
  - exact record_ok_end_of_message.
  - cbn. lia.
  - vm_compute. reflexivity.
Defined.

End CodecVerdicts.

(** ** The exchange of a request and a response *)

Section ExchangeFacts.

Import NtsKe KeRead.

Context {Siv : SIV} {E : KeEnv}.

Lemma response_loop_encoded (max_cookies : Z) (rs : list KeRecord) :
  forall (fuel : nat) (m : NKE_Message) (pre : list byte) (p : Response),
    message_ok m -> Forall record_ok rs ->
    contents m = pre ++ encode_records rs ->
    m_parsed m = zlength pre ->
    (length rs < fuel)%nat ->
    exists m', response_loop fuel max_cookies m p = Some (m', response_run max_cookies p rs).
Proof.
  induction rs as [|r rs IH]; intros fuel m pre p Hok Hrs Hc Hp Hf;
    (destruct fuel as [|fuel]; [cbn in Hf; lia|]);
    cbn [response_loop response_run];
    (destruct (negb (p_error p =? ERROR_NONE)); [exists m; reflexivity|]).
  - pose proof (zlength_contents m Hok) as Hz.
    rewrite Hc, zlength_app in Hz. change (zlength (encode_records [])) with 0 in Hz.
    rewrite get_record_end by (unfold sizeof_header; lia).
    exists m. reflexivity.
  - inversion Hrs as [|? ? Hr Hrs']; subst.
    rewrite encode_records_cons in Hc.
    rewrite (get_record_at m pre (encode_records rs) r (Some (p_data p))
               sizeof_response_data Hok Hr Hc Hp).
    cbn [r_critical r_type r_body_length r_body option_map].
    apply (IH fuel _ (pre ++ encode_record r)).
    + apply message_ok_set_parsed, Hok.
    + exact Hrs'.
    + change (contents (set_parsed m _)) with (contents m).
      rewrite Hc. now rewrite <- app_assoc.
    + rewrite m_parsed_set_parsed, zlength_app. reflexivity.
    + cbn in Hf. lia.
Qed.

(** [process_response] on a message made of the records [rs]. *)
Lemma process_response_encoded (data0 : list byte) (m : NKE_Message)
    (cookies : list NKE_Cookie) (max_cookies : Z) (rs : list KeRecord) :
  message_ok m -> Forall record_ok rs -> contents m = encode_records rs ->
  let p := response_run max_cookies (response_start cookies data0) rs in
  exists m',
    process_response data0 m cookies max_cookies =
    Some (if negb (p_next_protocol p =? NEXT_PROTOCOL_NTPV4) ||
             negb (p_aead_algorithm p =? AEAD_AES_SIV_CMAC_256) ||
             negb (p_error p =? ERROR_NONE)
          then 0 else p_num_cookies p, m', p).
Proof.
  intros Hok Hrs Hc p.
  pose proof (zlength_contents m Hok) as Hz. rewrite Hc in Hz.
  pose proof (zlength_encode_records rs) as Hn. unfold sizeof_header, zlength in Hn, Hz.
  unfold process_response. rewrite reset_message_parsing_set_parsed.
  destruct (response_loop_encoded max_cookies rs (records_fuel (set_parsed m 0))
              (set_parsed m 0) [] (response_start cookies data0)) as [m' Hrun].
  - apply message_ok_set_parsed, Hok.
  - exact Hrs.
  - exact Hc.
  - reflexivity.
  - unfold records_fuel. rewrite m_length_set_parsed. lia.
  - rewrite Hrun. fold p. exists m'.
    now destruct (negb (p_next_protocol p =? NEXT_PROTOCOL_NTPV4) || _ || _).
Qed.

Lemma message_ok_reset (m : NKE_Message) : message_ok m -> message_ok (reset_message m).
Proof.
  intros [_ Hd]. split; [cbn; unfold MAX_MESSAGE_LENGTH; lia | exact Hd].
Qed.

Lemma contents_reset (m : NKE_Message) : contents (reset_message m) = [].
Proof. reflexivity. Qed.

(** [prepare_request] writes the three records of a request. *)
Lemma prepare_request_records (inst : NKE_Instance) :
  message_ok (i_message inst) ->
  exists m,
    prepare_request inst = (1, set_message inst m) /\
    message_ok m /\
    contents m = encode_records (sample_request ++ [end_of_message]) /\
    m_eof m = 0.
Proof.
  intros Hok. unfold prepare_request.
  pose proof (message_ok_reset _ Hok) as Hok0.
  destruct (add_record_ok (reset_message (i_message inst)) 1 RECORD_NEXT_PROTOCOL
              (htons NEXT_PROTOCOL_NTPV4) Hok0)
    as (m1 & -> & Hok1 & Hl1 & Hc1 & He1 & _);
    [vm_compute; discriminate | vm_compute; discriminate |].
  destruct (add_record_ok m1 1 RECORD_AEAD_ALGORITHM (htons AEAD_AES_SIV_CMAC_256) Hok1)
    as (m2 & -> & Hok2 & Hl2 & Hc2 & He2 & _);
    [vm_compute; discriminate | rewrite Hl1; vm_compute; discriminate |].
  destruct (add_record_ok m2 1 RECORD_END_OF_MESSAGE [] Hok2)
    as (m3 & -> & Hok3 & Hl3 & Hc3 & He3 & _);
    [vm_compute; discriminate | rewrite Hl2, Hl1; vm_compute; discriminate |].
  exists m3. repeat split; try apply Hok3.
  - rewrite Hc3, Hc2, Hc1, contents_reset. reflexivity.
  - rewrite He3, He2, He1. reflexivity.
Qed.

(** X6.  The request that [prepare_request] builds, in any message buffer,
    holds a critical Next-Protocol record offering NTPv4, a critical AEAD
    record offering AES-SIV-CMAC-256 and the final record;
    [check_message_format] accepts it, and [process_request] finds no error
    in it and negotiates NTPv4 and AES-SIV-CMAC-256, whatever its scratch
    array held before. *)
Theorem prepare_request_accepted (inst : NKE_Instance) (data0 : list byte) :
  message_ok (i_message inst) ->
  exists inst',
    prepare_request inst = (1, inst') /\
    contents (i_message inst') = encode_records (sample_request ++ [end_of_message]) /\
    option_map fst (check_message_format (i_message inst')) = Some MSG_OK /\
    option_map snd (request_verdict data0 (i_message inst'))
    = Some (ERROR_NONE, NEXT_PROTOCOL_NTPV4, AEAD_AES_SIV_CMAC_256).
Proof.
  intros Hok.
  destruct (prepare_request_records inst Hok) as (m & Hprep & Hokm & Hc & Heof).
  assert (Hrs : Forall record_ok (sample_request ++ [end_of_message]))
    by (repeat constructor; vm_compute; discriminate).
  exists (set_message inst m). split; [exact Hprep|]. cbn [i_message set_message].
  split; [exact Hc|]. split.
  - rewrite (check_format_last m sample_request end_of_message Hokm Hrs Hc).
    reflexivity.
  - pose proof (zlength_contents m Hokm) as Hz. rewrite Hc in Hz.
    unfold request_verdict. rewrite reset_message_parsing_set_parsed.
    set (q0 := {| q_next_protocol := NEXT_PROTOCOL_NONE; q_aead_algorithm := AEAD_NONE;
                  q_error := ERROR_NONE; q_has_next_protocol := 0; q_data := data0 |}).
    destruct (request_loop_encoded data0 (sample_request ++ [end_of_message])
                (records_fuel (set_parsed m 0)) (set_parsed m 0) [] q0) as [m' Hrun].
    + apply message_ok_set_parsed, Hokm.
    + exact Hrs.
    + exact Hc.
    + reflexivity.
    + unfold records_fuel. rewrite m_length_set_parsed, <- Hz. vm_compute. lia.
    + rewrite Hrun. reflexivity.
Qed.


(** [prepare_response] for an error writes an Error record and the final
    record. *)
Lemma prepare_response_error (ring : KeyRing) (nonces : nat -> list byte)
    (cookie0 : NKE_Cookie) (inst : NKE_Instance) (error np aead : Z) :
  message_ok (i_message inst) -> error <> ERROR_NONE ->
  exists m,
    prepare_response ring nonces cookie0 inst error np aead = (1, set_message inst m) /\
    message_ok m /\
    contents m = encode_records [error_record error; end_of_message] /\
    m_eof m = 0.
Proof.
  intros Hok Herr. unfold prepare_response.
  apply Z.eqb_neq in Herr. rewrite Herr. cbn [negb].
  pose proof (message_ok_reset _ Hok) as Hok0.
  destruct (add_record_ok (reset_message (i_message inst)) 1 RECORD_ERROR
              (htons error) Hok0)
    as (m1 & -> & Hok1 & Hl1 & Hc1 & He1 & _);
    [rewrite zlength_htons; lia
    | rewrite zlength_htons; vm_compute; discriminate |].
  destruct (add_record_ok m1 1 RECORD_END_OF_MESSAGE [] Hok1)
    as (m2 & -> & Hok2 & Hl2 & Hc2 & He2 & _);
    [vm_compute; discriminate
    | rewrite Hl1, zlength_htons; vm_compute; discriminate |].
  exists m2. repeat split; try apply Hok2.
  - rewrite Hc2, Hc1, contents_reset. reflexivity.
  - rewrite He2, He1. reflexivity.
Qed.

Lemma record_ok_error_record (error : Z) : record_ok (error_record error).
Proof.
  split; [vm_compute; split; [discriminate | reflexivity]|].
  cbn [rec_body error_record]. rewrite zlength_htons. lia.
Qed.

(** X7.  For an error [prepare_response] writes a critical Error record
    with the error code and the final record, and nothing else: no keys are
    exported and no cookie is made.  [check_message_format] accepts the
    message, and [process_response] returns 0 for it with the error
    BadResponse, stores no cookie and leaves the caller's array as it was. *)
Theorem error_response_rejected (ring : KeyRing) (nonces : nat -> list byte)
    (cookie0 : NKE_Cookie) (inst : NKE_Instance) (error np aead : Z)
    (data0 : list byte) (cookies : list NKE_Cookie) (max_cookies : Z) :
  message_ok (i_message inst) -> error <> ERROR_NONE ->
  exists inst' m' p,
    prepare_response ring nonces cookie0 inst error np aead = (1, inst') /\
    contents (i_message inst') = encode_records [error_record error; end_of_message] /\
    option_map fst (check_message_format (i_message inst')) = Some MSG_OK /\
    process_response data0 (i_message inst') cookies max_cookies = Some (0, m', p) /\
    p_error p = ERROR_BAD_RESPONSE /\ p_num_cookies p = 0 /\ p_cookies p = cookies.
Proof.
  intros Hok Herr.
  destruct (prepare_response_error ring nonces cookie0 inst error np aead Hok Herr)
    as (m & Hprep & Hokm & Hc & Heof).
  assert (Hrs : Forall record_ok [error_record error; end_of_message])
    by (constructor; [apply record_ok_error_record|];
        constructor; [exact record_ok_end_of_message | constructor]).
  destruct (process_response_encoded data0 m cookies max_cookies _ Hokm Hrs Hc)
    as [m' Hresp].
  exists (set_message inst m), m', (response_run max_cookies (response_start cookies data0)
                                      [error_record error; end_of_message]).
  cbn [i_message set_message].
  split; [exact Hprep|]. split; [exact Hc|]. split.
  - rewrite (check_format_last m [error_record error] end_of_message Hokm Hrs Hc).
    reflexivity.
  - split; [rewrite Hresp; reflexivity|]. repeat split.
Qed.

End ExchangeFacts.

Lemma prepare_request_accepted_witness :
  exists inst', @NtsKe.prepare_request Sample.ke_env SampleKe.inst = (1, inst').
Proof.
  destruct (@prepare_request_accepted Sample.ke_env SampleKe.inst []) as (inst' & H & _).
  - split; vm_compute; [split; discriminate | reflexivity].
  - exists inst'. exact H.
Defined.

Lemma error_response_rejected_witness :
  exists inst',
    @NtsKe.prepare_response Sample.siv Sample.ke_env Sample.ring1 (fun _ => Sample.nonce16)
      Sample.cookie_buffer SampleKe.inst NtsKe.ERROR_BAD_REQUEST NtsKe.NEXT_PROTOCOL_NONE
      NtsKe.AEAD_NONE = (1, inst').
Proof.
  destruct (@error_response_rejected Sample.siv Sample.ke_env Sample.ring1
              (fun _ => Sample.nonce16) Sample.cookie_buffer SampleKe.inst
              NtsKe.ERROR_BAD_REQUEST NtsKe.NEXT_PROTOCOL_NONE NtsKe.AEAD_NONE []
              SampleKe.cookies 8) as (inst' & _ & _ & H & _).
  - split; vm_compute; [split; discriminate | reflexivity].
  - discriminate.
  - exists inst'. exact H.
Defined.

Section CookieExchange.

Import NtsKe KeRead.

Context {Siv : SIV} {E : KeEnv}.

Lemma memcpy_0 (buf src : list byte) : memcpy buf 0 src = src ++ skipn (length src) buf.
Proof. reflexivity. Qed.

Lemma sub_memcpy_0 (buf src : list byte) (n : Z) :
  zlength src = n -> sub (memcpy buf 0 src) 0 n = src.
Proof. intros <-. rewrite memcpy_0. apply sub_app_l. Qed.

(** [NKE_DecodeCookie] reads the length of a cookie and the bytes of the
    [ServerCookie] at the start of its array, nothing behind them. *)
Lemma decode_prefix (ring : KeyRing) (a b : NKE_Cookie) :
  c_length a = c_length b ->
  sub (c_cookie a) 0 sizeof_ServerCookie = sub (c_cookie b) 0 sizeof_ServerCookie ->
  NKE_DecodeCookie ring a = NKE_DecodeCookie ring b.
Proof.
  intros Hl Hs. unfold NKE_DecodeCookie. rewrite Hl.
  rewrite <- (sub_sub_prefix (c_cookie a) sizeof_ServerCookie 0 4),
    <- (sub_sub_prefix (c_cookie a) sizeof_ServerCookie offsetof_nonce sizeof_nonce),
    <- (sub_sub_prefix (c_cookie a) sizeof_ServerCookie offsetof_ciphertext
          sizeof_ciphertext), Hs
    by (vm_compute; try split; discriminate).
  rewrite !sub_sub_prefix by (vm_compute; try split; discriminate).
  reflexivity.
Qed.

(** What [NKE_GenerateCookie] makes in a key ring that is in order
    [NKE_DecodeCookie] opens in every key ring in order that still has the
    key. *)
Lemma generate_sealed (ring ring' : KeyRing) (c2s s2c : NKE_Key)
    (nonce : list byte) (nke_cookie : NKE_Cookie) :
  SIV_correct Siv ->
  ring_ok ring -> ring_ok ring' ->
  In (current_key ring) (server_keys ring') ->
  sizeof_ServerCookie <= NKE_MAX_COOKIE_LENGTH ->
  zlength (c_cookie nke_cookie) = NKE_MAX_COOKIE_LENGTH ->
  k_length c2s = 32 -> zlength (k_key c2s) = 32 ->
  k_length s2c = 32 -> zlength (k_key s2c) = 32 ->
  zlength nonce = 16 ->
  exists cookie : NKE_Cookie,
    NKE_GenerateCookie ring c2s s2c nonce nke_cookie = Some cookie /\
    sealed ring' c2s s2c cookie.
Proof.
  intros Hsiv Hok Hok' Hin Hmax Hbuf Hlc Hkc Hls Hks Hn.
  pose proof (key_in_ring_slot ring' _ Hok' Hin) as Hslot.
  assert (Hid : 0 <= id (current_key ring) < 2 ^ 32)
    by (destruct Hok as (_ & Hc & Hr & _); apply Hr, Hc).
  unfold sizeof_ServerCookie in Hmax.
  unfold NKE_GenerateCookie, offsetof_nonce, sizeof_nonce, offsetof_ciphertext.
  fold (slot ring (current_server_key ring)).
  fold (current_key ring).
  replace (NKE_MAX_COOKIE_LENGTH <? sizeof_ServerCookie) with false
    by (symmetry; apply Z.ltb_ge; unfold sizeof_ServerCookie; lia).
  rewrite Hlc, Hls, Z.eqb_refl. cbn [negb orb].
  rewrite (sub_all_eq _ _ Hkc), (sub_all_eq _ _ Hks), (sub_all_eq _ _ Hn).
  set (a := u32_to_bytes host_big_endian (id (current_key ring))).
  set (pt := k_key c2s ++ k_key s2c).
  assert (Hct : zlength (siv_encrypt_message (siv (current_key ring)) nonce [] pt) = 80).
  { rewrite siv_encrypt_length. unfold pt, SIV_DIGEST_SIZE. rewrite zlength_app. lia. }
  destruct (cookie_fields (c_cookie nke_cookie) a nonce
              (siv_encrypt_message (siv (current_key ring)) nonce [] pt))
    as (Hf0 & Hf1 & Hf2 & Hf3);
    [apply zlength_u32_to_bytes | exact Hn | exact Hct | lia |].
  cbv zeta in Hf0, Hf1, Hf2, Hf3. rewrite Hf3.
  eexists. split; [reflexivity|].
  split; [reflexivity|]. split.
  { cbn [c_cookie].
    assert (Ha : zlength a = 4) by apply zlength_u32_to_bytes.
    assert (H0 : zlength (memcpy (c_cookie nke_cookie) 0 a) = NKE_MAX_COOKIE_LENGTH)
      by (rewrite length_memcpy; lia).
    assert (H1 : zlength (memcpy (memcpy (c_cookie nke_cookie) 0 a) 4 nonce)
                 = NKE_MAX_COOKIE_LENGTH)
      by (rewrite length_memcpy; lia).
    rewrite length_memcpy; lia. }
  unfold NKE_DecodeCookie, offsetof_nonce, sizeof_nonce, offsetof_ciphertext,
    sizeof_ciphertext.
  change (64 + 16) with 80. cbn [c_length c_cookie].
  rewrite Z.eqb_refl. cbn [negb].
  rewrite Hf0, Hf1, Hf2. unfold a. rewrite u32_of_to_bytes, Z.mod_small by exact Hid.
  fold (slot ring' (id (current_key ring) mod MAX_SERVER_KEYS)). rewrite Hslot.
  rewrite Z.eqb_refl. cbn [negb]. rewrite siv_decrypt_encrypt.
  unfold pt. rewrite (sub_app_l_eq _ _ _ Hkc), (sub_app_r_eq _ _ _ _ Hkc Hks).
  rewrite (NKE_Key_eta c2s _ Hlc eq_refl), (NKE_Key_eta s2c _ Hls eq_refl).
  reflexivity.
Qed.


Lemma zlength_cookie_body (ring : KeyRing) (c2s s2c : NKE_Key) (c : NKE_Cookie) :
  sizeof_ServerCookie <= NKE_MAX_COOKIE_LENGTH ->
  sealed ring c2s s2c c ->
  zlength (rec_body (cookie_record c)) = sizeof_ServerCookie.
Proof.
  intros Hmax (Hl & Hb & _). cbn [rec_body cookie_record]. rewrite Hl.
  apply zlength_sub; unfold sizeof_ServerCookie in *; lia.
Qed.

(** The loop of [prepare_response] that adds the cookies. *)
Lemma add_cookies_ok (ring : KeyRing) (c2s s2c : NKE_Key) (nonces : nat -> list byte) :
  SIV_correct Siv -> ring_ok ring ->
  In (current_key ring) (server_keys ring) ->
  sizeof_ServerCookie <= NKE_MAX_COOKIE_LENGTH ->
  k_length c2s = 32 -> zlength (k_key c2s) = 32 ->
  k_length s2c = 32 -> zlength (k_key s2c) = 32 ->
  (forall i, zlength (nonces i) = 16) ->
  forall (rounds i : nat) (cookie : NKE_Cookie) (m : NKE_Message),
    message_ok m ->
    zlength (c_cookie cookie) = NKE_MAX_COOKIE_LENGTH ->
    m_length m + 104 * Z.of_nat rounds <= MAX_MESSAGE_LENGTH ->
    exists m' cs,
      add_cookies rounds i ring c2s s2c nonces cookie m = (true, m') /\
      message_ok m' /\
      contents m' = contents m ++ encode_records (map cookie_record cs) /\
      m_length m' = m_length m + 104 * Z.of_nat rounds /\
      length cs = rounds /\
      Forall (sealed ring c2s s2c) cs /\
      m_eof m' = m_eof m.
Proof.
  intros Hsiv Hring Hin Hmax Hlc Hkc Hls Hks Hn.
  induction rounds as [|rounds IH]; intros i cookie m Hok Hbuf Hroom.
  - exists m, []. cbn [add_cookies map]. repeat split; try apply Hok.
    + change (encode_records []) with (@nil byte). now rewrite app_nil_r.
    + lia.
    + constructor.
  - cbn [add_cookies].
    destruct (generate_sealed ring ring c2s s2c (nonces i) cookie Hsiv Hring Hring Hin
                Hmax Hbuf Hlc Hkc Hls Hks (Hn i)) as (c & -> & Hc).
    pose proof (zlength_cookie_body ring c2s s2c c Hmax Hc) as Hbody.
    cbn [rec_body cookie_record] in Hbody. unfold sizeof_ServerCookie in Hbody.
    destruct (add_record_ok m 0 RECORD_COOKIE (sub (c_cookie c) 0 (c_length c)) Hok)
      as (m1 & -> & Hok1 & Hl1 & Hc1 & He1 & _);
      [lia | unfold sizeof_header; lia |].
    unfold sizeof_header in Hl1.
    destruct (IH (S i) c m1 Hok1 (proj1 (proj2 Hc))) as (m2 & cs & Hrun & Hok2 & Hc2 & Hl2 & Hlen & Hcs & He2);
      [lia|].
    exists m2, (c :: cs). rewrite Hrun. repeat split; try apply Hok2.
    + rewrite Hc2, Hc1. cbn [map]. rewrite encode_records_cons, <- app_assoc. reflexivity.
    + lia.
    + cbn [length]. now rewrite Hlen.
    + constructor; assumption.
    + now rewrite He2.
Qed.

Lemma NKE_GetKeys_length (inst : NKE_Instance) (c2s s2c : NKE_Key) :
  NKE_GetKeys inst = Some (c2s, s2c) -> k_length c2s = 32 /\ k_length s2c = 32.
Proof.
  unfold NKE_GetKeys.
  destruct (gnutls_prf_rfc5705 _ _ EXPORTER_CONTEXT_C2S _); [|discriminate].
  destruct (gnutls_prf_rfc5705 _ _ EXPORTER_CONTEXT_S2C _); [|discriminate].
  intros H. inversion H. split; reflexivity.
Qed.

Lemma zlength_response_head (np aead : Z) :
  12 <= zlength (encode_records (response_head np aead)) <= 18.
Proof.
  unfold response_head. destruct (CNF_GetNTPPort =? NTP_PORT); vm_compute; split; discriminate.
Qed.

(** [prepare_response] without an error writes the negotiated values,
    eight cookies and the final record. *)
Lemma prepare_response_records (ring : KeyRing) (nonces : nat -> list byte)
    (cookie0 : NKE_Cookie) (inst : NKE_Instance) (np aead : Z) (c2s s2c : NKE_Key) :
  SIV_correct Siv -> ring_ok ring ->
  In (current_key ring) (server_keys ring) ->
  sizeof_ServerCookie <= NKE_MAX_COOKIE_LENGTH ->
  message_ok (i_message inst) ->
  NKE_GetKeys inst = Some (c2s, s2c) ->
  zlength (k_key c2s) = 32 -> zlength (k_key s2c) = 32 ->
  (forall i, zlength (nonces i) = 16) ->
  zlength (c_cookie cookie0) = NKE_MAX_COOKIE_LENGTH ->
  exists m cs,
    prepare_response ring nonces cookie0 inst ERROR_NONE np aead = (1, set_message inst m) /\
    message_ok m /\
    contents m = encode_records (response_head np aead ++ map cookie_record cs
                                 ++ [end_of_message]) /\
    length cs = Z.to_nat MAX_COOKIES /\
    Forall (sealed ring c2s s2c) cs /\
    m_eof m = 0.
Proof.
  intros Hsiv Hring Hin Hmax Hok Hkeys Hkc Hks Hn Hbuf.
  destruct (NKE_GetKeys_length inst c2s s2c Hkeys) as [Hlc Hls].
  unfold prepare_response.
  change (negb (ERROR_NONE =? ERROR_NONE)) with false. cbv iota.
  pose proof (message_ok_reset _ Hok) as Hok0.
  destruct (add_record_ok (reset_message (i_message inst)) 1 RECORD_NEXT_PROTOCOL
              (htons np) Hok0)
    as (m1 & -> & Hok1 & Hl1 & Hc1 & He1 & _);
    [rewrite zlength_htons; lia | rewrite zlength_htons; vm_compute; discriminate |].
  rewrite zlength_htons in Hl1. change (m_length (reset_message _)) with 0 in Hl1.
  unfold sizeof_header in Hl1.
  destruct (add_record_ok m1 1 RECORD_AEAD_ALGORITHM (htons aead) Hok1)
    as (m2 & -> & Hok2 & Hl2 & Hc2 & He2 & _);
    [rewrite zlength_htons; lia
    | rewrite zlength_htons, Hl1; vm_compute; discriminate |].
  rewrite zlength_htons in Hl2. unfold sizeof_header in Hl2.
  assert (Hport : exists m3,
             (if negb (CNF_GetNTPPort =? NTP_PORT)
              then add_record m2 1 RECORD_NTPV4_PORT_NEGOTIATION (htons CNF_GetNTPPort)
              else Some m2) = Some m3 /\
             message_ok m3 /\
             contents m3 = encode_records (response_head np aead) /\
             m_length m3 <= 18 /\ m_eof m3 = 0).
  { unfold response_head. destruct (CNF_GetNTPPort =? NTP_PORT); cbn [negb].
    - exists m2. repeat split; try apply Hok2; try lia.
      + rewrite Hc2, Hc1, contents_reset. reflexivity.
      + rewrite He2, He1. reflexivity.
    - destruct (add_record_ok m2 1 RECORD_NTPV4_PORT_NEGOTIATION (htons CNF_GetNTPPort)
                  Hok2)
        as (m3 & -> & Hok3 & Hl3 & Hc3 & He3 & _);
        [rewrite zlength_htons; lia
        | rewrite zlength_htons; unfold sizeof_header, MAX_MESSAGE_LENGTH; lia |].
      rewrite zlength_htons in Hl3. unfold sizeof_header in Hl3.
      exists m3. repeat split; try apply Hok3; try lia.
      + rewrite Hc3, Hc2, Hc1, contents_reset. reflexivity.
      + rewrite He3, He2, He1. reflexivity. }
  destruct Hport as (m3 & -> & Hok3 & Hc3 & Hl3 & He3).
  rewrite Hkeys.
  pose proof (proj1 Hok3) as Hl3'.
  destruct (add_cookies_ok ring c2s s2c nonces Hsiv Hring Hin Hmax Hlc Hkc Hls Hks Hn
              (Z.to_nat MAX_COOKIES) O cookie0 m3 Hok3 Hbuf)
    as (m4 & cs & -> & Hok4 & Hc4 & Hl4 & Hlen & Hcs & He4);
    [unfold MAX_MESSAGE_LENGTH; change (Z.of_nat (Z.to_nat MAX_COOKIES)) with 8; lia|].
  change (Z.of_nat (Z.to_nat MAX_COOKIES)) with 8 in Hl4.
  destruct (add_record_ok m4 1 RECORD_END_OF_MESSAGE [] Hok4)
    as (m5 & -> & Hok5 & Hl5 & Hc5 & He5 & _);
    [vm_compute; discriminate
    | change (zlength (@nil byte)) with 0; unfold sizeof_header, MAX_MESSAGE_LENGTH; lia |].
  exists m5, cs. repeat split; try apply Hok5; try assumption.
  - rewrite Hc5, Hc4, Hc3, !encode_records_app, <- !app_assoc. reflexivity.
  - rewrite He5, He4, He3. reflexivity.
Qed.

End CookieExchange.

Section CookieExchange2.

Import NtsKe KeRead.

Context {Siv : SIV} {E : KeEnv}.

Lemma current_key_in_ring (ring : KeyRing) :
  ring_ok ring -> In (current_key ring) (server_keys ring).
Proof.
  intros (Hl & Hc & _). unfold current_key, slot, aget.
  replace (current_server_key ring <? 0) with false by (symmetry; apply Z.ltb_ge; lia).
  apply nth_In. unfold zlength in Hl. lia.
Qed.

Lemma sizeof_response_data_ge :
  sizeof_ServerCookie <= NKE_MAX_COOKIE_LENGTH -> sizeof_ServerCookie <= sizeof_response_data.
Proof.
  unfold sizeof_response_data, sizeof_ServerCookie. intros H.
  pose proof (Z.div_mod NKE_MAX_COOKIE_LENGTH 2) as Hd.
  pose proof (Z.mod_pos_bound NKE_MAX_COOKIE_LENGTH 2) as Hm. lia.
Qed.

(** A record whose body fits the scratch array of [process_response] is
    copied whole to the start of the array. *)
Lemma response_run_record (max_cookies : Z) (p : Response) (r : KeRecord)
    (rs : list KeRecord) :
  p_error p = ERROR_NONE -> zlength (rec_body r) <= sizeof_response_data ->
  response_run max_cookies p (r :: rs)
  = response_run max_cookies
      (response_record max_cookies p (int_of_bool (rec_critical r)) (rec_type r)
         (zlength (rec_body r)) (rec_body r ++ skipn (length (rec_body r)) (p_data p)))
      rs.
Proof.
  intros He Hl. cbn [response_run]. rewrite He. cbn [Z.eqb negb].
  rewrite Z.min_r by lia. unfold zlength at 2. rewrite Nat2Z.id, firstn_all, memcpy_0.
  reflexivity.
Qed.

Lemma response_run_stopped (max_cookies : Z) (p : Response) (rs : list KeRecord) :
  p_error p <> ERROR_NONE -> response_run max_cookies p rs = p.
Proof.
  intros H. destruct rs; [reflexivity|]. cbn [response_run].
  apply Z.eqb_neq in H. now rewrite H.
Qed.

Lemma response_run_head (max_cookies : Z) (cookies : list NKE_Cookie) (data0 : list byte)
    (rest : list KeRecord) :
  sizeof_ServerCookie <= NKE_MAX_COOKIE_LENGTH ->
  exists p1,
    response_run max_cookies (response_start cookies data0)
      (response_head NEXT_PROTOCOL_NTPV4 AEAD_AES_SIV_CMAC_256 ++ rest)
    = response_run max_cookies p1 rest /\
    agreed p1 /\ p_num_cookies p1 = 0 /\ p_cookies p1 = cookies /\
    p_addr p1 = None /\
    p_port p1 = if CNF_GetNTPPort =? NTP_PORT then None else Some (CNF_GetNTPPort mod 65536).
Proof.
  intros Hmax. apply sizeof_response_data_ge in Hmax. unfold sizeof_ServerCookie in Hmax.
  unfold response_head. cbn [app].
  rewrite response_run_record; [| reflexivity | cbn; lia].
  rewrite response_run_record; [| reflexivity | cbn; lia].
  destruct (CNF_GetNTPPort =? NTP_PORT); cbn [app].
  - eexists. split; [reflexivity|]. repeat split.
  - rewrite response_run_record; [| reflexivity | cbn; lia].
    eexists. split; [reflexivity|]. repeat split.
    refine (eq_trans (y := Some (ntohs (htons CNF_GetNTPPort ++ []))) _ _);
      [reflexivity | f_equal; apply ntohs_htons].
Qed.


(** The [switch] of [process_response] on the record of a cookie. *)
Lemma response_record_cookie (max_cookies : Z) (p : Response) (c : NKE_Cookie) :
  sizeof_ServerCookie <= NKE_MAX_COOKIE_LENGTH ->
  c_length c = sizeof_ServerCookie ->
  zlength (c_cookie c) = NKE_MAX_COOKIE_LENGTH ->
  let body := rec_body (cookie_record c) in
  let p' := response_record max_cookies p 0 RECORD_COOKIE (zlength body)
              (body ++ skipn (length body) (p_data p)) in
  p_next_protocol p' = p_next_protocol p /\
  p_aead_algorithm p' = p_aead_algorithm p /\
  p_error p' = p_error p /\
  p_addr p' = p_addr p /\ p_port p' = p_port p /\
  (p_num_cookies p < max_cookies ->
   p_num_cookies p' = p_num_cookies p + 1 /\
   exists c', c_length c' = c_length c /\
              sub (c_cookie c') 0 sizeof_ServerCookie = sub (c_cookie c) 0 sizeof_ServerCookie /\
              p_cookies p' = aset (p_cookies p) (p_num_cookies p) c') /\
  (max_cookies <= p_num_cookies p ->
   p_num_cookies p' = p_num_cookies p /\ p_cookies p' = p_cookies p).
Proof.
  intros Hmax Hl Hbuf body p'.
  assert (Hbody : zlength body = sizeof_ServerCookie).
  { unfold body. cbn [rec_body cookie_record]. rewrite Hl.
    apply zlength_sub; unfold sizeof_ServerCookie in *; lia. }
  unfold p', response_record.
  change (RECORD_COOKIE =? RECORD_NEXT_PROTOCOL) with false.
  change (RECORD_COOKIE =? RECORD_AEAD_ALGORITHM) with false.
  change (RECORD_COOKIE =? RECORD_ERROR) with false.
  change (RECORD_COOKIE =? RECORD_WARNING) with false.
  change (RECORD_COOKIE =? RECORD_COOKIE) with true. cbv iota.
  rewrite Hbody.
  replace (sizeof_ServerCookie <=? NKE_MAX_COOKIE_LENGTH) with true
    by (symmetry; apply Z.leb_le; exact Hmax).
  cbn [andb].
  destruct (p_num_cookies p <? max_cookies) eqn:Hroom;
    [apply Z.ltb_lt in Hroom | apply Z.ltb_ge in Hroom];
    cbn [p_next_protocol p_aead_algorithm p_error p_addr p_port p_num_cookies p_cookies];
    (repeat (split; [reflexivity|])); (split; [|intros; try lia]).
  - intros _. split; [reflexivity|]. eexists. split; [|split; [|reflexivity]].
    + cbn [c_length]. now rewrite Hl.
    + cbn [c_cookie]. rewrite (sub_app_l_eq _ _ _ Hbody).
      rewrite (sub_memcpy_0 _ _ _ Hbody). unfold body. cbn [rec_body cookie_record].
      now rewrite Hl.
  - lia.
  - split; reflexivity.
Qed.

(** The loop of [process_response] on the records of cookies: the first
    ones are stored until the caller's array is full, the others are
    skipped. *)
Lemma response_run_cookies (ring : KeyRing) (c2s s2c : NKE_Key) (max_cookies : Z) :
  sizeof_ServerCookie <= NKE_MAX_COOKIE_LENGTH ->
  forall (cs : list NKE_Cookie) (p : Response) (rest : list KeRecord),
    agreed p ->
    0 <= p_num_cookies p <= max_cookies ->
    max_cookies <= zlength (p_cookies p) ->
    Forall (sealed ring c2s s2c) cs ->
    (forall i, 0 <= i < p_num_cookies p ->
       NKE_DecodeCookie ring (aget NKE_Cookie_zero (p_cookies p) i) = Some (c2s, s2c)) ->
    exists p',
      response_run max_cookies p (map cookie_record cs ++ rest)
      = response_run max_cookies p' rest /\
      agreed p' /\
      p_num_cookies p' = Z.min (p_num_cookies p + zlength cs) max_cookies /\
      zlength (p_cookies p') = zlength (p_cookies p) /\
      p_addr p' = p_addr p /\ p_port p' = p_port p /\
      (forall i, 0 <= i < p_num_cookies p' ->
         NKE_DecodeCookie ring (aget NKE_Cookie_zero (p_cookies p') i) = Some (c2s, s2c)).
Proof.
  intros Hmax. pose proof (sizeof_response_data_ge Hmax) as Hsrd.
  induction cs as [|c cs IH]; intros p rest Hag Hnum Hsize Hcs Hdec.
  - exists p. cbn [map app]. change (zlength (@nil NKE_Cookie)) with 0.
    repeat split; try apply Hag; try assumption. lia.
  - inversion Hcs as [|? ? Hc Hcs']; subst. cbn [map app].
    pose proof (zlength_cookie_body ring c2s s2c c Hmax Hc) as Hbody.
    destruct Hc as (Hl & Hbuf & Hopen).
    destruct Hag as (Hnp & Haead & Herr).
    rewrite response_run_record; [| exact Herr | rewrite Hbody; exact Hsrd].
    cbn [rec_critical rec_type cookie_record int_of_bool].
    change {| rec_critical := false; rec_type := RECORD_COOKIE;
              rec_body := sub (c_cookie c) 0 (c_length c) |} with (cookie_record c).
    destruct (response_record_cookie max_cookies p c Hmax Hl Hbuf)
      as (H1 & H2 & H3 & H4 & H5 & Hstore & Hskip).
    cbv zeta in H1, H2, H3, H4, H5, Hstore, Hskip.
    set (p1 := response_record max_cookies p 0 RECORD_COOKIE _ _) in *.
    assert (Hz : zlength (c :: cs) = 1 + zlength cs)
      by (unfold zlength; cbn [length]; lia).
    pose proof (zlength_nonneg cs) as Hnn.
    destruct (Z_lt_dec (p_num_cookies p) max_cookies) as [Hroom|Hfull].
    + destruct (Hstore Hroom) as (Hn1 & c' & Hl' & Hs' & Hc1).
      destruct (IH p1 rest) as (p' & Hrun & Hag' & Hn' & Hsz' & Ha' & Hp' & Hdec').
      * repeat split; congruence.
      * lia.
      * rewrite Hc1, zlength_aset. exact Hsize.
      * exact Hcs'.
      * intros i Hi. rewrite Hc1.
        destruct (Z.eq_dec i (p_num_cookies p)) as [->|Hne].
        -- rewrite aget_aset_same by lia.
           rewrite (decode_prefix ring c' c Hl' Hs'). exact Hopen.
        -- rewrite aget_aset_other by lia. apply Hdec. lia.
      * exists p'. split; [exact Hrun|]. split; [exact Hag'|].
        split; [rewrite Hn', Hn1, Hz; f_equal; lia|].
        split; [rewrite Hsz', Hc1; apply zlength_aset|].
        split; [congruence|]. split; [congruence|]. exact Hdec'.
    + destruct Hskip as (Hn1 & Hc1); [lia|].
      destruct (IH p1 rest) as (p' & Hrun & Hag' & Hn' & Hsz' & Ha' & Hp' & Hdec').
      * repeat split; congruence.
      * lia.
      * rewrite Hc1. exact Hsize.
      * exact Hcs'.
      * intros i Hi. rewrite Hc1. apply Hdec. lia.
      * exists p'. split; [exact Hrun|]. split; [exact Hag'|].
        split; [rewrite Hn', Hn1; lia|].
        split; [rewrite Hsz', Hc1; reflexivity|].
        split; [congruence|]. split; [congruence|]. exact Hdec'.
Qed.

Lemma response_run_final (max_cookies : Z) (p : Response) :
  agreed p ->
  0 <= sizeof_response_data ->
  let p' := response_run max_cookies p [end_of_message] in
  agreed p' /\ p_num_cookies p' = p_num_cookies p /\ p_cookies p' = p_cookies p /\
  p_addr p' = p_addr p /\ p_port p' = p_port p.
Proof.
  intros (Hnp & Haead & Herr) Hsrd p'. unfold p'.
  rewrite response_run_record; [| exact Herr | exact Hsrd].
  cbn [response_run]. repeat split; assumption.
Qed.

(** A response with the negotiated values, cookies and the final record,
    as [prepare_response] builds it for NTPv4 and AES-SIV-CMAC-256, is
    accepted by [check_message_format], and [process_response] stores as many
    of its cookies as it was given room for; [NKE_DecodeCookie] opens each
    to the keys it was sealed for. *)
Lemma response_cookies_open (ring : KeyRing) (c2s s2c : NKE_Key)
    (data0 : list byte) (m : NKE_Message) (cs : list NKE_Cookie)
    (cookies : list NKE_Cookie) (max_cookies : Z) :
  sizeof_ServerCookie <= NKE_MAX_COOKIE_LENGTH ->
  message_ok m ->
  contents m = encode_records (response_head NEXT_PROTOCOL_NTPV4 AEAD_AES_SIV_CMAC_256
                               ++ map cookie_record cs ++ [end_of_message]) ->
  Forall (sealed ring c2s s2c) cs ->
  0 <= max_cookies <= zlength cookies ->
  exists m' p,
    option_map fst (check_message_format m) = Some MSG_OK /\
    process_response data0 m cookies max_cookies
    = Some (Z.min (zlength cs) max_cookies, m', p) /\
    p_num_cookies p = Z.min (zlength cs) max_cookies /\
    (forall i, 0 <= i < Z.min (zlength cs) max_cookies ->
       NKE_DecodeCookie ring (aget NKE_Cookie_zero (p_cookies p) i) = Some (c2s, s2c)) /\
    p_port p = (if CNF_GetNTPPort =? NTP_PORT then None
                else Some (CNF_GetNTPPort mod 65536)) /\
    p_addr p = None.
Proof.
  intros Hmax Hokm Hc Hcs Hroom.
  pose proof (sizeof_response_data_ge Hmax) as Hsrd. unfold sizeof_ServerCookie in Hsrd.
  set (head := response_head NEXT_PROTOCOL_NTPV4 AEAD_AES_SIV_CMAC_256) in *.
  assert (Hrs : Forall record_ok (head ++ map cookie_record cs ++ [end_of_message])).
  { apply Forall_app. split.
    - unfold head, response_head. apply Forall_app. split.
      + repeat constructor; vm_compute; discriminate.
      + destruct (CNF_GetNTPPort =? NTP_PORT); [constructor|].
        repeat constructor; try (vm_compute; discriminate).
    - apply Forall_app. split.
      + apply Forall_map. apply Forall_impl with (2 := Hcs). intros c Hsealed. split.
        * vm_compute. split; [discriminate | reflexivity].
        * rewrite (zlength_cookie_body ring c2s s2c c Hmax Hsealed).
          unfold sizeof_ServerCookie. lia.
      + constructor; [exact record_ok_end_of_message | constructor]. }
  destruct (process_response_encoded data0 m cookies max_cookies _ Hokm Hrs Hc)
    as [m' Hresp]. cbv zeta in Hresp.
  destruct (response_run_head max_cookies cookies data0
              (map cookie_record cs ++ [end_of_message]) Hmax)
    as (p1 & Hrun1 & Hag1 & Hn1 & Hc1 & Ha1 & Hp1).
  fold head in Hrun1.
  destruct (response_run_cookies ring c2s s2c max_cookies Hmax cs p1 [end_of_message])
    as (p2 & Hrun2 & Hag2 & Hn2 & Hsz2 & Ha2 & Hp2 & Hdec2);
    [exact Hag1 | lia | rewrite Hc1; lia | exact Hcs | intros i Hi; lia |].
  destruct (response_run_final max_cookies p2 Hag2) as (Hag3 & Hn3 & Hc3 & Ha3 & Hp3);
    [lia|].
  rewrite Hrun1, Hrun2 in Hresp.
  set (p3 := response_run max_cookies p2 [end_of_message]) in *.
  assert (Hcount : p_num_cookies p3 = Z.min (zlength cs) max_cookies).
  { rewrite Hn3, Hn2, Hn1. reflexivity. }
  destruct Hag3 as (Hnp3 & Haead3 & Herr3).
  rewrite Hnp3, Haead3, Herr3, Hcount in Hresp. cbn [Z.eqb negb orb] in Hresp.
  exists m', p3.
  split.
  { rewrite app_assoc in Hc, Hrs.
    rewrite (check_format_last m _ end_of_message Hokm Hrs Hc). reflexivity. }
  split; [exact Hresp|]. split; [exact Hcount|]. split.
  - intros i Hi. rewrite Hc3. apply Hdec2. rewrite <- Hn3, Hcount. exact Hi.
  - split; [rewrite Hp3, Hp2; exact Hp1 | rewrite Ha3, Ha2; exact Ha1].
Qed.

End CookieExchange2.

Section ResponseVerdicts.

Import NtsKe KeRead.

Context {Siv : SIV} {E : KeEnv}.

(** What the [switch] of [process_response] does to the three locals that
    decide the return value, by the type of the record. *)
Lemma response_record_verdict (max_cookies : Z) (p : Response)
    (critical type length : Z) (data : list byte) :
  let p' := response_record max_cookies p critical type length data in
  (type <> RECORD_NEXT_PROTOCOL -> p_next_protocol p' = p_next_protocol p) /\
  (type <> RECORD_AEAD_ALGORITHM -> p_aead_algorithm p' = p_aead_algorithm p) /\
  (type = RECORD_ERROR \/ type = RECORD_WARNING -> p_error p' = ERROR_BAD_RESPONSE).
Proof.
  unfold response_record.
  destruct (Z.eqb_spec type RECORD_NEXT_PROTOCOL) as [->|H1].
  { destruct ((critical =? 0) || _ || _); (split; [congruence|]);
      (split; [reflexivity|]); intros [H|H]; discriminate H. }
  destruct (Z.eqb_spec type RECORD_AEAD_ALGORITHM) as [->|H2].
  { split; [reflexivity|]. split; [congruence|]. intros [H|H]; discriminate H. }
  destruct (Z.eqb_spec type RECORD_ERROR) as [->|H3]; [repeat split|].
  destruct (Z.eqb_spec type RECORD_WARNING) as [->|H4]; [repeat split|].
  assert (Hno : type = RECORD_ERROR \/ type = RECORD_WARNING -> False) by tauto.
  destruct (type =? RECORD_COOKIE).
  { destruct ((length <=? NKE_MAX_COOKIE_LENGTH) && _);
      repeat split; intros H; destruct (Hno H). }
  destruct (type =? RECORD_END_OF_MESSAGE);
    [repeat split; intros H; destruct (Hno H)|].
  destruct (type =? RECORD_NTPV4_SERVER_NEGOTIATION).
  { destruct (length <? 2); [repeat split; intros H; destruct (Hno H)|].
    destruct (length >=? MAX_RECORD_BODY_LENGTH + 1);
      [repeat split; intros H; destruct (Hno H)|].
    destruct (string_to_ip data length); repeat split; intros H; destruct (Hno H). }
  destruct (type =? RECORD_NTPV4_PORT_NEGOTIATION).
  { destruct (negb (length =? 2)); repeat split; intros H; destruct (Hno H). }
  destruct (negb (critical =? 0)); repeat split; intros H; destruct (Hno H).
Qed.

Lemma response_run_no_next_protocol (max_cookies : Z) (rs : list KeRecord) :
  forall p : Response,
    Forall (fun r => rec_type r <> RECORD_NEXT_PROTOCOL) rs ->
    p_next_protocol (response_run max_cookies p rs) = p_next_protocol p.
Proof.
  induction rs as [|r rs IH]; intros p H; [reflexivity|].
  inversion H as [|? ? Hr H']; subst. cbn [response_run].
  destruct (negb (p_error p =? ERROR_NONE)); [reflexivity|].
  rewrite IH by exact H'. now apply response_record_verdict.
Qed.

Lemma response_run_no_aead (max_cookies : Z) (rs : list KeRecord) :
  forall p : Response,
    Forall (fun r => rec_type r <> RECORD_AEAD_ALGORITHM) rs ->
    p_aead_algorithm (response_run max_cookies p rs) = p_aead_algorithm p.
Proof.
  induction rs as [|r rs IH]; intros p H; [reflexivity|].
  inversion H as [|? ? Hr H']; subst. cbn [response_run].
  destruct (negb (p_error p =? ERROR_NONE)); [reflexivity|].
  rewrite IH by exact H'. now apply response_record_verdict.
Qed.

Lemma response_run_error (max_cookies : Z) (rs : list KeRecord) :
  forall p : Response,
    Exists (fun r => rec_type r = RECORD_ERROR \/ rec_type r = RECORD_WARNING) rs ->
    p_error (response_run max_cookies p rs) <> ERROR_NONE.
Proof.
  induction rs as [|r rs IH]; intros p H; [inversion H|].
  cbn [response_run].
  destruct (Z.eqb_spec (p_error p) ERROR_NONE) as [He|He]; cbn [negb]; [|exact He].
  inversion H as [? ? Hr|? ? H']; subst.
  - rewrite response_run_stopped; rewrite (proj2 (proj2 (response_record_verdict _ _ _ _ _ _)) Hr);
      discriminate.
  - apply IH, H'.
Qed.

(** X9.  [process_response] returns 0, whatever else the response holds,
    for a response without a Next-Protocol record, for a response without
    an AEAD-Algorithm record, and for a response with an Error or a Warning
    record. *)
Theorem process_response_refuses (data0 : list byte) (m : NKE_Message)
    (cookies : list NKE_Cookie) (max_cookies : Z) (rs : list KeRecord) :
  message_ok m -> Forall record_ok rs -> contents m = encode_records rs ->
  Forall (fun r => rec_type r <> RECORD_NEXT_PROTOCOL) rs \/
  Forall (fun r => rec_type r <> RECORD_AEAD_ALGORITHM) rs \/
  Exists (fun r => rec_type r = RECORD_ERROR \/ rec_type r = RECORD_WARNING) rs ->
  exists m' p, process_response data0 m cookies max_cookies = Some (0, m', p).
Proof.
  intros Hok Hrs Hc H.
  destruct (process_response_encoded data0 m cookies max_cookies rs Hok Hrs Hc)
    as [m' Hresp]. cbv zeta in Hresp.
  set (p := response_run max_cookies (response_start cookies data0) rs) in *.
  exists m', p. rewrite Hresp.
  replace (negb (p_next_protocol p =? NEXT_PROTOCOL_NTPV4) ||
           negb (p_aead_algorithm p =? AEAD_AES_SIV_CMAC_256) ||
           negb (p_error p =? ERROR_NONE)) with true; [reflexivity|].
  symmetry. destruct H as [H|[H|H]].
  - unfold p. rewrite response_run_no_next_protocol by exact H. reflexivity.
  - unfold p. rewrite response_run_no_aead by exact H.
    cbn [p_aead_algorithm response_start].
    change (negb (AEAD_NONE =? AEAD_AES_SIV_CMAC_256)) with true.
    now rewrite orb_true_r.
  - apply (response_run_error max_cookies rs (response_start cookies data0)) in H.
    fold p in H. apply Z.eqb_neq in H. rewrite H. cbn [negb]. now rewrite orb_true_r.
Qed.

End ResponseVerdicts.

Lemma process_response_refuses_witness :
  exists m' p,
    @NtsKe.process_response Sample.ke_env []
      (NtsKe.message_of (NtsKe.encode_records [NtsKe.end_of_message]) 1)
      SampleKe.cookies 8 = Some (0, m', p).
Proof.
  apply (@process_response_refuses Sample.ke_env [] _ SampleKe.cookies 8
           [NtsKe.end_of_message]).
  - split; vm_compute; [split; discriminate | reflexivity].
  - repeat constructor; vm_compute; discriminate.
  - vm_compute. reflexivity.
  - left. repeat constructor. discriminate.
Defined.

Section Handshake.

Import NtsKe KeRead.

Context {Siv : SIV} {E : KeEnv}.

(** The loop of [process_request] moves the cursor and nothing else. *)
Lemma request_loop_message (fuel : nat) :
  forall (m m' : NKE_Message) (q q' : Request),
    request_loop fuel m q = Some (m', q') -> m' = set_parsed m (m_parsed m').
Proof.
  induction fuel as [|fuel IH]; intros m m' q q' H; [discriminate|].
  cbn [request_loop] in H.
  destruct (negb (q_error q =? ERROR_NONE)).
  { inversion H; subst. symmetry. apply set_parsed_parsed. }
  destruct (get_record m (Some (q_data q)) MAX_RECORD_BODY_LENGTH) as [[m1 r]|] eqn:Hg.
  - apply IH in H. destruct (get_record_progress _ _ _ _ _ Hg) as [Hm1 _].
    rewrite H, Hm1. reflexivity.
  - inversion H; subst. symmetry. apply set_parsed_parsed.
Qed.

(** [process_request] on the request that [prepare_request] builds. *)
Lemma sample_request_verdict (data0 : list byte) (m : NKE_Message) :
  message_ok m -> contents m = encode_records (sample_request ++ [end_of_message]) ->
  exists m1,
    request_verdict data0 m
    = Some (m1, (ERROR_NONE, NEXT_PROTOCOL_NTPV4, AEAD_AES_SIV_CMAC_256)) /\
    message_ok m1.
Proof.
  intros Hokm Hc.
  assert (Hrs : Forall record_ok (sample_request ++ [end_of_message]))
    by (repeat constructor; vm_compute; discriminate).
  pose proof (zlength_contents m Hokm) as Hz. rewrite Hc in Hz.
  unfold request_verdict. rewrite reset_message_parsing_set_parsed.
  set (q0 := {| q_next_protocol := NEXT_PROTOCOL_NONE; q_aead_algorithm := AEAD_NONE;
                q_error := ERROR_NONE; q_has_next_protocol := 0; q_data := data0 |}).
  destruct (request_loop_encoded data0 (sample_request ++ [end_of_message])
              (records_fuel (set_parsed m 0)) (set_parsed m 0) [] q0) as [m' Hrun].
  - apply message_ok_set_parsed, Hokm.
  - exact Hrs.
  - exact Hc.
  - reflexivity.
  - unfold records_fuel. rewrite m_length_set_parsed, <- Hz. vm_compute. lia.
  - rewrite Hrun. exists m'. split; [reflexivity|].
    rewrite (request_loop_message _ _ _ _ _ Hrun). now do 2 apply message_ok_set_parsed.
Qed.

(** X8.  The handshake.  When the server's buffer holds the request that
    [prepare_request] builds, [process_request] returns 1 and leaves a
    response that [check_message_format] accepts; for a client whose buffer
    holds that response, [process_response] returns the number of cookies
    it was given room for, eight at most, each cookie it has stored is
    opened by [NKE_DecodeCookie] to the two keys that [NKE_GetKeys] exported
    on the server, and the port it reports is the server's when that is not
    the standard one. *)
Theorem handshake_cookies (ring : KeyRing) (nonces : nat -> list byte)
    (cookie0 : NKE_Cookie) (data0 : list byte) (client server : NKE_Instance)
    (c2s s2c : NKE_Key) :
  SIV_correct Siv -> reachable ring ->
  sizeof_ServerCookie <= NKE_MAX_COOKIE_LENGTH ->
  message_ok (i_message client) -> message_ok (i_message server) ->
  contents (i_message server) = contents (i_message (snd (prepare_request client))) ->
  NKE_GetKeys server = Some (c2s, s2c) ->
  zlength (k_key c2s) = 32 -> zlength (k_key s2c) = 32 ->
  (forall i, zlength (nonces i) = 16) ->
  zlength (c_cookie cookie0) = NKE_MAX_COOKIE_LENGTH ->
  exists server',
    fst (prepare_request client) = 1 /\
    option_map fst (check_message_format (i_message server)) = Some MSG_OK /\
    process_request ring nonces cookie0 data0 server = Some (1, server') /\
    option_map fst (check_message_format (i_message server')) = Some MSG_OK /\
    forall (m : NKE_Message) (datac : list byte) (cookies : list NKE_Cookie)
           (max_cookies : Z),
      message_ok m -> contents m = contents (i_message server') ->
      0 <= max_cookies <= zlength cookies ->
      exists m' p,
        process_response datac m cookies max_cookies
        = Some (Z.min MAX_COOKIES max_cookies, m', p) /\
        (forall i, 0 <= i < Z.min MAX_COOKIES max_cookies ->
           NKE_DecodeCookie ring (aget NKE_Cookie_zero (p_cookies p) i)
           = Some (c2s, s2c)) /\
        p_port p = (if CNF_GetNTPPort =? NTP_PORT then None
                    else Some (CNF_GetNTPPort mod 65536)).
Proof.
  intros Hsiv Hreach Hmax Hokc Hoks Hrecv Hkeys Hkc Hks Hn Hbuf.
  pose proof (reachable_ring_ok ring Hreach) as Hring.
  pose proof (current_key_in_ring ring Hring) as Hin.
  destruct (prepare_request_records client Hokc) as (mc & Hprep & Hokmc & Hcc & _).
  rewrite Hprep in Hrecv |- *. cbn [fst snd i_message set_message] in Hrecv |- *.
  rewrite Hcc in Hrecv.
  destruct (sample_request_verdict data0 (i_message server) Hoks Hrecv)
    as (m1 & Hverdict & Hok1).
  destruct (prepare_response_records ring nonces cookie0 (set_message server m1)
              NEXT_PROTOCOL_NTPV4 AEAD_AES_SIV_CMAC_256 c2s s2c Hsiv Hring Hin Hmax
              Hok1 Hkeys Hkc Hks Hn Hbuf)
    as (ms & cs & Hresp & Hokms & Hcs & Hlen & Hsealed & _).
  assert (Hcount : zlength cs = MAX_COOKIES) by (unfold zlength; rewrite Hlen; reflexivity).
  assert (Hrq : Forall record_ok (sample_request ++ [end_of_message]))
    by (repeat constructor; vm_compute; discriminate).
  exists (set_message server ms). split; [reflexivity|]. split.
  { rewrite (check_format_last _ sample_request end_of_message Hoks Hrq Hrecv).
    reflexivity. }
  split.
  { unfold process_request. rewrite Hverdict, Hresp. reflexivity. }
  cbn [i_message set_message]. split.
  { destruct (response_cookies_open ring c2s s2c [] ms cs [] 0 Hmax Hokms Hcs Hsealed)
      as (_ & _ & Hfmt & _); [change (zlength (@nil NKE_Cookie)) with 0; lia|].
    exact Hfmt. }
  intros m datac cookies max_cookies Hokm Hcm Hroom.
  rewrite Hcs in Hcm.
  destruct (response_cookies_open ring c2s s2c datac m cs cookies max_cookies Hmax Hokm
              Hcm Hsealed Hroom) as (m' & p & _ & Hret & _ & Hdec & Hport & _).
  rewrite Hcount in Hret, Hdec. exists m', p. repeat split; assumption.
Qed.

End Handshake.

Lemma handshake_cookies_witness :
  exists server',
    @NtsKe.process_request Sample.siv Sample.ke_env Sample.ring1 (fun _ => Sample.nonce16)
      Sample.cookie_buffer [] (snd (@NtsKe.prepare_request Sample.ke_env SampleKe.inst))
    = Some (1, server').
Proof.
  destruct (@handshake_cookies Sample.siv Sample.ke_env Sample.ring1
              (fun _ => Sample.nonce16) Sample.cookie_buffer [] SampleKe.inst
              (snd (@NtsKe.prepare_request Sample.ke_env SampleKe.inst))
              {| NtsKe.k_length := 32; NtsKe.k_key := repeat x00 32 |}
              {| NtsKe.k_length := 32; NtsKe.k_key := repeat x01 32 |})
    as (server' & _ & _ & H & _).
  - exact sample_siv_correct.
  - apply NtsKe.reachable_rotate, NtsKe.reachable_start.
  - vm_compute. discriminate.
  - split; vm_compute; [split; discriminate | reflexivity].
  - split; vm_compute; [split; discriminate | reflexivity].
  - reflexivity.
  - reflexivity.
  - reflexivity.
  - reflexivity.
  - intros i. reflexivity.
  - reflexivity.
  - exists server'. exact H.
Defined.

Section Negotiation.

Import NtsKe KeRead.

Context {Siv : SIV} {E : KeEnv}.

Lemma ntohs_skipn_prefix (k : nat) :
  forall (n : nat) (body rest : list byte),
    (k + 2 <= n)%nat -> (n <= length body)%nat ->
    ntohs (skipn k (firstn n body ++ rest)) = ntohs (skipn k body).
Proof.
  induction k as [|k IH]; intros n body rest Hk Hn.
  - destruct body as [|a [|b body]]; cbn [length] in Hn; try lia.
    destruct n as [|[|n]]; try lia. reflexivity.
  - destruct body as [|a body]; cbn [length] in Hn; [lia|].
    destruct n as [|n]; [lia|]. cbn [firstn app skipn]. apply IH; lia.
Qed.

Lemma existsb_ext_in {A : Type} (f g : A -> bool) (l : list A) :
  (forall a, In a l -> f a = g a) -> existsb f l = existsb g l.
Proof.
  induction l as [|a l IH]; intros H; [reflexivity|]. cbn [existsb].
  rewrite (H a (or_introl eq_refl)), IH; [reflexivity|].
  intros b Hb. apply H. now right.
Qed.

(** The loops of [process_request] see in the scratch array what the body
    of the record holds. *)
Lemma offered_copy (body rest : list byte) (wanted : Z) :
  offered (firstn (Z.to_nat (Z.min MAX_RECORD_BODY_LENGTH (zlength body))) body ++ rest)
          (zlength body) wanted
  = offered body (zlength body) wanted.
Proof.
  unfold offered. apply existsb_ext_in. intros i Hi. apply in_seq in Hi.
  f_equal. apply ntohs_skipn_prefix.
  - destruct Hi as [_ Hi]. cbn [Nat.add] in Hi.
    rewrite (Z.min_comm MAX_RECORD_BODY_LENGTH).
    pose proof (zlength_nonneg body) as Hnn. unfold MAX_RECORD_BODY_LENGTH in *.
    assert (H2 : 0 <= Z.min (zlength body) 256) by lia.
    pose proof (Z.div_mod (Z.min (zlength body) 256) 2) as Hd.
    pose proof (Z.mod_pos_bound (Z.min (zlength body) 256) 2) as Hm.
    assert (Hq : 0 <= Z.min (zlength body) 256 / 2) by (apply Z.div_pos; lia).
    lia.
  - unfold zlength. lia.
Qed.

(** What the [switch] of [process_request] does to the negotiated
    values: each is changed only by a record of its type that offers the
    value the server supports. *)
Lemma request_record_negotiated (q : Request) (r : KeRecord) (data : list byte) :
  let q' := request_record q (int_of_bool (rec_critical r)) (rec_type r)
              (zlength (rec_body r)) data in
  ((is_next_protocol r = true ->
    offered data (zlength (rec_body r)) NEXT_PROTOCOL_NTPV4 = false) ->
   q_next_protocol q' = q_next_protocol q) /\
  ((is_aead_algorithm r = true ->
    offered data (zlength (rec_body r)) AEAD_AES_SIV_CMAC_256 = false) ->
   q_aead_algorithm q' = q_aead_algorithm q).
Proof.
  unfold request_record, is_next_protocol, is_aead_algorithm.
  destruct (rec_type r =? RECORD_NEXT_PROTOCOL).
  { destruct ((int_of_bool (rec_critical r) =? 0) || _ || _); [split; reflexivity|].
    split; [|reflexivity]. intros Hnp. rewrite Hnp by reflexivity. reflexivity. }
  destruct (rec_type r =? RECORD_AEAD_ALGORITHM).
  { destruct ((_ <? 2) || _); [split; reflexivity|].
    split; [reflexivity|]. intros Haead. rewrite Haead by reflexivity. reflexivity. }
  destruct ((rec_type r =? RECORD_ERROR) || _ || _); [split; reflexivity|].
  destruct (rec_type r =? RECORD_END_OF_MESSAGE); [split; reflexivity|].
  destruct (negb (int_of_bool (rec_critical r) =? 0)); split; reflexivity.
Qed.

Lemma request_run_next_protocol (rs : list KeRecord) :
  forall q : Request,
    Forall (fun r => is_next_protocol r = true -> offers NEXT_PROTOCOL_NTPV4 r = false) rs ->
    q_next_protocol (request_run q rs) = q_next_protocol q.
Proof.
  induction rs as [|r rs IH]; intros q Hnp; [reflexivity|].
  inversion Hnp as [|? ? Hr1 Hnp']; subst.
  cbn [request_run].
  destruct (negb (q_error q =? ERROR_NONE)); [reflexivity|].
  rewrite (IH _ Hnp').
  apply request_record_negotiated. rewrite memcpy_0, offered_copy. exact Hr1.
Qed.

Lemma request_run_aead_algorithm (rs : list KeRecord) :
  forall q : Request,
    Forall (fun r => is_aead_algorithm r = true -> offers AEAD_AES_SIV_CMAC_256 r = false)
           rs ->
    q_aead_algorithm (request_run q rs) = q_aead_algorithm q.
Proof.
  induction rs as [|r rs IH]; intros q Haead; [reflexivity|].
  inversion Haead as [|? ? Hr2 Haead']; subst.
  cbn [request_run].
  destruct (negb (q_error q =? ERROR_NONE)); [reflexivity|].
  rewrite (IH _ Haead').
  apply request_record_negotiated. rewrite memcpy_0, offered_copy. exact Hr2.
Qed.

(** X10.  [process_request] does not require that the client offers what
    the server supports.  For a request whose records raise no error and
    have a Next-Protocol record among them, the error is None.  When no
    Next-Protocol record offers NTPv4 the negotiated protocol stays -1,
    whatever algorithms are offered; when no AEAD-Algorithm record offers
    AES-SIV-CMAC-256 (or there is no such record) the negotiated algorithm
    stays -1, whatever protocols are offered.  In each case the response
    is made as for a successful negotiation: it carries the two values and
    eight cookies that [NKE_DecodeCookie] opens. *)
Theorem process_request_unchecked_offer (ring : KeyRing) (nonces : nat -> list byte)
    (cookie0 : NKE_Cookie) (data0 : list byte) (inst : NKE_Instance)
    (rs : list KeRecord) (c2s s2c : NKE_Key) :
  SIV_correct Siv -> reachable ring ->
  sizeof_ServerCookie <= NKE_MAX_COOKIE_LENGTH ->
  message_ok (i_message inst) -> Forall record_ok rs ->
  contents (i_message inst) = encode_records rs ->
  Forall quiet rs -> existsb is_next_protocol rs = true ->
  NKE_GetKeys inst = Some (c2s, s2c) ->
  zlength (k_key c2s) = 32 -> zlength (k_key s2c) = 32 ->
  (forall i, zlength (nonces i) = 16) ->
  zlength (c_cookie cookie0) = NKE_MAX_COOKIE_LENGTH ->
  exists (np aead : Z) (inst' : NKE_Instance) (cs : list NKE_Cookie),
    option_map snd (request_verdict data0 (i_message inst)) = Some (ERROR_NONE, np, aead) /\
    (Forall (fun r => is_next_protocol r = true -> offers NEXT_PROTOCOL_NTPV4 r = false) rs ->
     np = NEXT_PROTOCOL_NONE) /\
    (Forall (fun r => is_aead_algorithm r = true -> offers AEAD_AES_SIV_CMAC_256 r = false) rs ->
     aead = AEAD_NONE) /\
    process_request ring nonces cookie0 data0 inst = Some (1, inst') /\
    contents (i_message inst')
    = encode_records (response_head np aead ++ map cookie_record cs ++ [end_of_message]) /\
    length cs = Z.to_nat MAX_COOKIES /\
    Forall (sealed ring c2s s2c) cs.
Proof.
  intros Hsiv Hreach Hmax Hok Hrs Hc Hquiet Hnp Hkeys Hkc Hks Hn Hbuf.
  pose proof (reachable_ring_ok ring Hreach) as Hring.
  pose proof (current_key_in_ring ring Hring) as Hin.
  pose proof (request_error_encoded data0 (i_message inst) rs Hok Hrs Hc) as Herr.
  pose proof (verdict_error_quiet rs [] false Hquiet) as Hv. rewrite app_nil_r in Hv.
  rewrite Hv, Hnp in Herr. cbn [orb verdict_error] in Herr. clear Hv.
  pose proof (zlength_contents _ Hok) as Hz. rewrite Hc in Hz.
  pose proof (zlength_encode_records rs) as Hlen. unfold sizeof_header, zlength in Hlen, Hz.
  unfold request_error, request_verdict in Herr.
  unfold process_request, request_verdict.
  rewrite reset_message_parsing_set_parsed in *.
  set (q0 := {| q_next_protocol := NEXT_PROTOCOL_NONE; q_aead_algorithm := AEAD_NONE;
                q_error := ERROR_NONE; q_has_next_protocol := 0; q_data := data0 |}) in *.
  destruct (request_loop_encoded data0 rs (records_fuel (set_parsed (i_message inst) 0))
              (set_parsed (i_message inst) 0) [] q0) as [m1 Hrun].
  - apply message_ok_set_parsed, Hok.
  - exact Hrs.
  - exact Hc.
  - reflexivity.
  - unfold records_fuel. rewrite m_length_set_parsed. lia.
  - rewrite Hrun in Herr |- *. cbn [option_map snd fst] in Herr |- *.
    injection Herr as Herr. rewrite Herr.
    assert (Hok1 : message_ok m1).
    { rewrite (request_loop_message _ _ _ _ _ Hrun). now do 2 apply message_ok_set_parsed. }
    destruct (prepare_response_records ring nonces cookie0 (set_message inst m1)
                (q_next_protocol (request_run q0 rs)) (q_aead_algorithm (request_run q0 rs))
                c2s s2c Hsiv Hring Hin Hmax Hok1 Hkeys Hkc Hks Hn Hbuf)
      as (ms & cs & Hresp & Hokms & Hcs & Hcount & Hsealed & _).
    exists (q_next_protocol (request_run q0 rs)), (q_aead_algorithm (request_run q0 rs)),
      (set_message inst ms), cs.
    split; [reflexivity|].
    split; [intros H1; apply (request_run_next_protocol rs q0 H1)|].
    split; [intros H2; apply (request_run_aead_algorithm rs q0 H2)|].
    split; [rewrite Hresp; reflexivity|].
    split; [exact Hcs|]. split; assumption.
Qed.

End Negotiation.

Lemma process_request_unchecked_offer_witness :
  exists np aead inst',
    option_map snd
      (@NtsKe.request_verdict []
         (NtsKe.i_message (SampleKe.holding (NtsKe.encode_records SampleKe.other_protocol))))
    = Some (NtsKe.ERROR_NONE, np, aead) /\
    np = NtsKe.NEXT_PROTOCOL_NONE /\ aead = NtsKe.AEAD_NONE /\
    @NtsKe.process_request Sample.siv Sample.ke_env Sample.ring1 (fun _ => Sample.nonce16)
      Sample.cookie_buffer []
      (SampleKe.holding (NtsKe.encode_records SampleKe.other_protocol))
    = Some (1, inst').
Proof.
  destruct (@process_request_unchecked_offer Sample.siv Sample.ke_env Sample.ring1
              (fun _ => Sample.nonce16) Sample.cookie_buffer []
              (SampleKe.holding (NtsKe.encode_records SampleKe.other_protocol))
              SampleKe.other_protocol
              {| NtsKe.k_length := 32; NtsKe.k_key := repeat x00 32 |}
              {| NtsKe.k_length := 32; NtsKe.k_key := repeat x01 32 |})
    as (np & aead & inst' & cs & Hv & Hnp & Haead & H & _).
  - exact sample_siv_correct.
  - apply NtsKe.reachable_rotate, NtsKe.reachable_start.
  - vm_compute. discriminate.
  - split; vm_compute; [split; discriminate | reflexivity].
  - repeat constructor; vm_compute; discriminate.
  - vm_compute. reflexivity.
  - repeat constructor.
  - reflexivity.
  - reflexivity.
  - reflexivity.
  - reflexivity.
  - intros i. reflexivity.
  - reflexivity.
  - exists np, aead, inst'. split; [exact Hv|].
    split; [apply Hnp; repeat constructor; discriminate|].
    split; [apply Haead; repeat constructor; discriminate | exact H].
Defined.

(** ** The life of a server key *)

Section Rotations.

Import NtsKe KeRead.

Context {Siv : SIV} {E : KeEnv}.

Lemma rotations_cons (ring : KeyRing) (d : list byte * Z) (ds : list (list byte * Z)) :
  rotations ring (d :: ds) = rotations (generate_server_key ring (fst d) (snd d)) ds.
Proof. reflexivity. Qed.

Lemma rotations_snoc (ring : KeyRing) (ds : list (list byte * Z)) (d : list byte * Z) :
  rotations ring (ds ++ [d]) = generate_server_key (rotations ring ds) (fst d) (snd d).
Proof. unfold rotations. now rewrite fold_left_app. Qed.

Lemma ring_ok_rotations (ds : list (list byte * Z)) :
  forall ring : KeyRing, ring_ok ring -> ring_ok (rotations ring ds).
Proof.
  induction ds as [|d ds IH]; intros ring Hok; [exact Hok|].
  rewrite rotations_cons. apply IH, ring_ok_rotate, Hok.
Qed.

Lemma reachable_rotations (ds : list (list byte * Z)) :
  forall ring : KeyRing, reachable ring -> reachable (rotations ring ds).
Proof.
  induction ds as [|d ds IH]; intros ring Hr; [exact Hr|].
  rewrite rotations_cons. apply IH, reachable_rotate, Hr.
Qed.

Lemma current_rotations (ds : list (list byte * Z)) :
  forall ring : KeyRing,
    current_server_key (rotations ring ds)
    = (current_server_key ring + zlength ds) mod MAX_SERVER_KEYS \/
    (ds = [] /\ current_server_key (rotations ring ds) = current_server_key ring).
Proof.
  induction ds as [|d ds IH]; intros ring; [right; split; reflexivity|].
  left. rewrite rotations_cons.
  assert (Hz : zlength (d :: ds) = 1 + zlength ds) by (unfold zlength; cbn [length]; lia).
  destruct (IH (generate_server_key ring (fst d) (snd d))) as [H|[-> H]].
  - rewrite H, generate_server_key_current, Z.add_mod_idemp_l by discriminate.
    f_equal. lia.
  - cbn [rotations fold_left]. rewrite generate_server_key_current. reflexivity.
Qed.

(** A slot keeps its key as long as the rotations do not come to it. *)
Lemma slot_rotations (i : Z) (ds : list (list byte * Z)) :
  forall ring : KeyRing,
    0 <= i ->
    (forall k, 1 <= k <= zlength ds ->
               (current_server_key ring + k) mod MAX_SERVER_KEYS <> i) ->
    slot (rotations ring ds) i = slot ring i.
Proof.
  induction ds as [|d ds IH]; intros ring Hi Hk; [reflexivity|].
  assert (Hz : zlength (d :: ds) = 1 + zlength ds) by (unfold zlength; cbn [length]; lia).
  pose proof (zlength_nonneg ds) as Hnn.
  rewrite rotations_cons, IH.
  - apply slot_generate_other; [exact Hi|].
    rewrite generate_server_key_current. intros Heq. apply (Hk 1); [lia | now symmetry].
  - exact Hi.
  - intros k Hk1. rewrite generate_server_key_current, Z.add_mod_idemp_l by discriminate.
    replace (current_server_key ring + 1 + k) with (current_server_key ring + (1 + k)) by lia.
    apply Hk. lia.
Qed.

Lemma slot_in_ring (ring : KeyRing) (i : Z) :
  0 <= i < zlength (server_keys ring) -> In (slot ring i) (server_keys ring).
Proof.
  intros Hi. unfold slot, aget.
  replace (i <? 0) with false by (symmetry; apply Z.ltb_ge; lia).
  apply nth_In. unfold zlength in Hi. lia.
Qed.

Lemma next_slots_differ (c k : Z) :
  0 <= c < 4 -> 1 <= k <= 3 -> (c + k) mod 4 <> c.
Proof.
  intros Hc Hk.
  assert (Hc' : c = 0 \/ c = 1 \/ c = 2 \/ c = 3) by lia.
  assert (Hk' : k = 1 \/ k = 2 \/ k = 3) by lia.
  destruct Hc' as [->|[->|[->| ->]]]; destruct Hk' as [->|[->| ->]]; discriminate.
Qed.

(** The key that seals stays in its slot through the next three
    rotations. *)
Lemma current_key_kept (ring : KeyRing) (ds : list (list byte * Z)) :
  ring_ok ring -> zlength ds <= 3 ->
  slot (rotations ring ds) (current_server_key ring) = current_key ring.
Proof.
  intros (_ & Hc & _) Hds. change MAX_SERVER_KEYS with 4 in Hc.
  apply slot_rotations; [lia|].
  intros k Hk. change MAX_SERVER_KEYS with 4. apply next_slots_differ; lia.
Qed.

(** X11.  A cookie outlives three rotations of the server keys: what
    [NKE_GenerateCookie] seals in a reachable key ring, [NKE_DecodeCookie]
    opens to the same two keys after any number of runs of
    [server_key_timeout] up to three, and the sealing key is then still in
    the slot it was in. *)
Theorem cookie_outlives_three_rotations (ring : KeyRing) (draws : list (list byte * Z))
    (c2s s2c : NKE_Key) (nonce : list byte) (nke_cookie : NKE_Cookie) :
  SIV_correct Siv -> reachable ring -> zlength draws <= 3 ->
  sizeof_ServerCookie <= NKE_MAX_COOKIE_LENGTH ->
  zlength (c_cookie nke_cookie) = NKE_MAX_COOKIE_LENGTH ->
  k_length c2s = 32 -> zlength (k_key c2s) = 32 ->
  k_length s2c = 32 -> zlength (k_key s2c) = 32 ->
  zlength nonce = 16 ->
  slot (rotations ring draws) (current_server_key ring) = current_key ring /\
  exists cookie : NKE_Cookie,
    NKE_GenerateCookie ring c2s s2c nonce nke_cookie = Some cookie /\
    NKE_DecodeCookie (rotations ring draws) cookie = Some (c2s, s2c).
Proof.
  intros Hsiv Hreach Hds Hmax Hbuf Hlc Hkc Hls Hks Hn.
  pose proof (reachable_ring_ok ring Hreach) as Hring.
  pose proof (ring_ok_rotations draws ring Hring) as Hring'.
  pose proof (current_key_kept ring draws Hring Hds) as Hkept.
  split; [exact Hkept|].
  assert (Hin : In (current_key ring) (server_keys (rotations ring draws))).
  { rewrite <- Hkept. apply slot_in_ring.
    destruct Hring as (_ & Hc & _). destruct Hring' as (Hl & _). lia. }
  destruct (generate_sealed ring (rotations ring draws) c2s s2c nonce nke_cookie
              Hsiv Hring Hring' Hin Hmax Hbuf Hlc Hkc Hls Hks Hn)
    as (cookie & Hgen & _ & _ & Hdec).
  exists cookie. split; assumption.
Qed.

(** The key id that [NKE_GenerateCookie] writes is the id of the current
    key. *)
Lemma generate_key_id (ring : KeyRing) (c2s s2c : NKE_Key) (nonce : list byte)
    (nke_cookie cookie : NKE_Cookie) :
  ring_ok ring ->
  sizeof_ServerCookie <= zlength (c_cookie nke_cookie) ->
  zlength nonce = 16 ->
  NKE_GenerateCookie ring c2s s2c nonce nke_cookie = Some cookie ->
  cookie_key_id cookie = id (current_key ring).
Proof.
  intros Hring Hbuf Hn. unfold NKE_GenerateCookie, sizeof_ServerCookie in *.
  destruct (NKE_MAX_COOKIE_LENGTH <? 100); [discriminate|].
  destruct (negb (k_length c2s =? 32) || negb (k_length s2c =? 32)); [discriminate|].
  intros H. injection H as <-. unfold cookie_key_id. cbn [c_cookie].
  fold (slot ring (current_server_key ring)). fold (current_key ring).
  unfold offsetof_nonce, sizeof_nonce, offsetof_ciphertext.
  rewrite (sub_all_eq _ _ Hn).
  set (a := u32_to_bytes host_big_endian (id (current_key ring))).
  assert (Ha : zlength a = 4) by apply zlength_u32_to_bytes.
  assert (H0 : zlength (memcpy (c_cookie nke_cookie) 0 a) = zlength (c_cookie nke_cookie))
    by (apply length_memcpy; lia).
  assert (H1 : zlength (memcpy (memcpy (c_cookie nke_cookie) 0 a) 4 nonce)
               = zlength (c_cookie nke_cookie))
    by (rewrite length_memcpy; lia).
  rewrite !sub_memcpy_before by lia.
  rewrite <- Ha. rewrite sub_memcpy_same by lia.
  unfold a. rewrite u32_of_to_bytes. apply Z.mod_small.
  destruct Hring as (_ & Hc & Hr & _). apply Hr, Hc.
Qed.

(** X12.  The fourth rotation comes back to the slot of the key that
    sealed a cookie and puts a new key there, whose id is drawn anew but for
    its two low bits; unless the new id is the old one, [NKE_DecodeCookie]
    then rejects the cookie. *)
Theorem fourth_rotation_drops_key (ring : KeyRing) (draws : list (list byte * Z))
    (c2s s2c : NKE_Key) (nonce : list byte) (nke_cookie cookie : NKE_Cookie) :
  reachable ring -> zlength draws = 4 ->
  sizeof_ServerCookie <= zlength (c_cookie nke_cookie) ->
  zlength nonce = 16 ->
  NKE_GenerateCookie ring c2s s2c nonce nke_cookie = Some cookie ->
  let ring' := rotations ring draws in
  current_server_key ring' = current_server_key ring /\
  current_key ring'
  = {| id := Z.lor (Z.land (snd (last draws ([], 0)) mod 2 ^ 32) id_mask)
                   (current_server_key ring);
       siv := siv_set_key (fst (last draws ([], 0))) |} /\
  (id (current_key ring') <> id (current_key ring) ->
   NKE_DecodeCookie ring' cookie = None).
Proof.
  intros Hreach Hds Hbuf Hn Hgen ring'.
  pose proof (reachable_ring_ok ring Hreach) as Hring.
  assert (Hne : draws <> []) by (intros ->; discriminate Hds).
  destruct (exists_last Hne) as (ds & d & Heq).
  assert (Hlen : zlength ds = 3).
  { rewrite Heq in Hds. unfold zlength in *. rewrite length_app in Hds. cbn in Hds. lia. }
  pose proof (ring_ok_rotations ds ring Hring) as Hok3.
  assert (Hcur3 : current_server_key (rotations ring ds)
                  = (current_server_key ring + 3) mod MAX_SERVER_KEYS).
  { destruct (current_rotations ds ring) as [H|[-> _]]; [|discriminate Hlen].
    now rewrite H, Hlen. }
  assert (Hcur : current_server_key ring' = current_server_key ring).
  { unfold ring'. rewrite Heq, rotations_snoc, generate_server_key_current, Hcur3.
    rewrite Z.add_mod_idemp_l by discriminate.
    destruct Hring as (_ & Hc & _). change MAX_SERVER_KEYS with 4 in *.
    replace (current_server_key ring + 3 + 1) with (current_server_key ring + 1 * 4) by lia.
    rewrite Z.mod_add by lia. apply Z.mod_small, Hc. }
  assert (Hkey : current_key ring'
                 = {| id := Z.lor (Z.land (snd d mod 2 ^ 32) id_mask) (current_server_key ring);
                      siv := siv_set_key (fst d) |}).
  { unfold current_key. rewrite <- Hcur. unfold ring'. rewrite Heq, rotations_snoc.
    apply (slot_generate_same (rotations ring ds) (fst d) (snd d)), Hok3. }
  split; [exact Hcur|]. split.
  { rewrite Heq, last_last. fold ring'. exact Hkey. }
  intros Hid.
  pose proof (generate_key_id ring c2s s2c nonce nke_cookie cookie Hring Hbuf Hn Hgen) as Hcid.
  pose proof (current_key_index ring Hring) as Hidx.
  unfold NKE_DecodeCookie.
  destruct (negb (c_length cookie =? sizeof_ServerCookie)); [reflexivity|].
  fold (cookie_key_id cookie). rewrite Hcid, Hidx.
  fold (slot ring' (current_server_key ring)). rewrite <- Hcur. fold (current_key ring').
  replace (id (current_key ring) =? id (current_key ring')) with false; [reflexivity|].
  symmetry. apply Z.eqb_neq. congruence.
Qed.

End Rotations.

Lemma cookie_outlives_three_rotations_witness :
  exists cookie : NtsKe.NKE_Cookie,
    @NtsKe.NKE_GenerateCookie Sample.siv Sample.ke_env Sample.ring1 Sample.c2s Sample.s2c
      Sample.nonce16 Sample.cookie_buffer = Some cookie /\
    @NtsKe.NKE_DecodeCookie Sample.siv Sample.ke_env
      (@KeRead.rotations Sample.siv Sample.ring1 (firstn 3 SampleKe.four_draws)) cookie
    = Some (Sample.c2s, Sample.s2c).
Proof.
  apply (@cookie_outlives_three_rotations Sample.siv Sample.ke_env).
  - exact sample_siv_correct.
  - apply NtsKe.reachable_rotate, NtsKe.reachable_start.
  - vm_compute. discriminate.
  - vm_compute. discriminate.
  - reflexivity.
  - reflexivity.
  - reflexivity.
  - reflexivity.
  - reflexivity.
  - reflexivity.
Defined.

Lemma fourth_rotation_drops_key_witness :
  @NtsKe.NKE_DecodeCookie Sample.siv Sample.ke_env
    (@KeRead.rotations Sample.siv Sample.ring1 SampleKe.four_draws) SampleKe.sealed_cookie
  = None.
Proof.
  apply (@fourth_rotation_drops_key Sample.siv Sample.ke_env Sample.ring1
           SampleKe.four_draws Sample.c2s Sample.s2c Sample.nonce16 Sample.cookie_buffer
           SampleKe.sealed_cookie).
  - apply NtsKe.reachable_rotate, NtsKe.reachable_start.
  - reflexivity.
  - vm_compute. discriminate.
  - reflexivity.
  - reflexivity.
  - vm_compute. discriminate.
Defined.

(** ** The extension fields, continued *)

Section AuthFieldFacts.

Import NtsKe NtsNtp NtpRun.

Lemma mod_2_32_mod_4 (n : Z) : (n mod 2 ^ 32) mod 4 = n mod 4.
Proof.
  rewrite (Z.mod_eq n (2 ^ 32)) by lia.
  replace (n - 2 ^ 32 * (n / 2 ^ 32)) with (n + (- 2 ^ 30 * (n / 2 ^ 32)) * 4) by lia.
  apply Z.mod_add. lia.
Qed.

(** Where the sum does not pass [INT_MAX] the unsigned arithmetic of
    [get_padded_length] is that of the integers. *)
Lemma get_padded_length_int (n : Z) :
  - 2 ^ 31 <= n <= 2 ^ 31 - 4 ->
  get_padded_length n = if negb (n mod 4 =? 0) then n + (4 - n mod 4) else n.
Proof.
  intros Hn. unfold get_padded_length. cbv zeta. rewrite mod_2_32_mod_4.
  destruct (Z.eqb_spec (n mod 4) 0) as [H0|H0]; cbn [negb]; [reflexivity|].
  pose proof (Z.mod_pos_bound n 4 eq_refl) as Hm.
  assert (H4 : (n + (4 - n mod 4)) mod 4 = 0).
  { replace (n + (4 - n mod 4)) with (n - n mod 4 + 1 * 4) by lia.
    rewrite Z.mod_add by lia. rewrite Zminus_mod_idemp_r, Z.sub_diag. reflexivity. }
  pose proof (Z.div_mod (n + (4 - n mod 4)) 4 ltac:(lia)) as Hd'.
  rewrite H4 in Hd'.
  set (s := n + (4 - n mod 4)) in *.
  assert (Hs : - 2 ^ 31 < s < 2 ^ 31) by (unfold s; lia).
  unfold int_of_unsigned.
  destruct (Z_lt_dec n 0) as [Hneg|Hpos].
  - replace (n mod 2 ^ 32) with (n + 2 ^ 32)
      by (apply Z.mod_unique with (q := -1); lia).
    replace (n + 2 ^ 32 + (4 - n mod 4)) with (s + 2 ^ 32) by (unfold s; lia).
    destruct (Z.eq_dec s 0) as [Hz|Hz].
    + rewrite Hz. change ((0 + 2 ^ 32) mod 2 ^ 32) with 0. reflexivity.
    + assert (Hlt : s < 0) by (unfold s in *; lia).
      rewrite Z.mod_small by lia.
      replace (s + 2 ^ 32 <? 2 ^ 31) with false by (symmetry; apply Z.ltb_ge; lia).
      lia.
  - rewrite (Z.mod_small n) by lia. fold s. rewrite Z.mod_small by lia.
    replace (s <? 2 ^ 31) with true by (symmetry; apply Z.ltb_lt; lia).
    reflexivity.
Qed.

Lemma get_padded_length_bounds (n : Z) :
  - 2 ^ 31 <= n <= 2 ^ 31 - 4 ->
  get_padded_length n mod 4 = 0 /\ n <= get_padded_length n < n + 4.
Proof.
  intros Hn. rewrite (get_padded_length_int n Hn).
  pose proof (Z.mod_pos_bound n 4 eq_refl) as Hm.
  destruct (Z.eqb_spec (n mod 4) 0) as [H0|H0]; cbn [negb].
  - split; [exact H0 | lia].
  - split; [|lia].
    replace (n + (4 - n mod 4)) with (n - n mod 4 + 1 * 4) by lia.
    rewrite Z.mod_add by lia. rewrite Zminus_mod_idemp_r, Z.sub_diag. reflexivity.
Qed.

(** X13.  [get_padded_length] rounds an [int] up to the next multiple of
    four as long as that is an [int]: the result is a multiple of four and
    an [int], and padding it again changes nothing; for a length of at most
    [INT_MAX - 3] it is not below the length and less than four above it;
    for the three lengths above, the unsigned sum passes [INT_MAX] and the
    result is [INT_MIN]. *)
Theorem get_padded_length_rounds (n : Z) :
  - 2 ^ 31 <= n < 2 ^ 31 ->
  - 2 ^ 31 <= get_padded_length n < 2 ^ 31 /\
  get_padded_length n mod 4 = 0 /\
  get_padded_length (get_padded_length n) = get_padded_length n /\
  (n <= 2 ^ 31 - 4 -> n <= get_padded_length n < n + 4) /\
  (2 ^ 31 - 4 < n -> get_padded_length n = - 2 ^ 31).
Proof.
  intros Hn.
  assert (Hidem : get_padded_length n mod 4 = 0 ->
                  get_padded_length (get_padded_length n) = get_padded_length n).
  { intros H. unfold get_padded_length at 1. cbv zeta.
    rewrite mod_2_32_mod_4, H. reflexivity. }
  destruct (Z_le_dec n (2 ^ 31 - 4)) as [Hle|Hgt].
  - destruct (get_padded_length_bounds n ltac:(lia)) as [H4 Hb].
    split; [|split; [exact H4 | split; [exact (Hidem H4) | split; [intros _; exact Hb | lia]]]].
    pose proof (Z.div_mod (get_padded_length n) 4) as Hd.
    pose proof (Z.div_mod (2 ^ 31) 4) as Hd'. change (2 ^ 31 mod 4) with 0 in Hd'. lia.
  - assert (Hcases : n = 2147483645 \/ n = 2147483646 \/ n = 2147483647) by lia.
    destruct Hcases as [-> | [-> | ->]];
      (split; [vm_compute; split; [discriminate | reflexivity]|]);
      (split; [reflexivity|]); (split; [reflexivity|]); (split; [lia | reflexivity]).
Qed.

Lemma get_padded_length_rounds_witness :
  - 2 ^ 31 <= NtsNtp.get_padded_length 2147483646 < 2 ^ 31 /\
  NtsNtp.get_padded_length 2147483646 mod 4 = 0 /\
  NtsNtp.get_padded_length (NtsNtp.get_padded_length 2147483646)
  = NtsNtp.get_padded_length 2147483646 /\
  (2147483646 <= 2 ^ 31 - 4 ->
   2147483646 <= NtsNtp.get_padded_length 2147483646 < 2147483646 + 4) /\
  (2 ^ 31 - 4 < 2147483646 -> NtsNtp.get_padded_length 2147483646 = - 2 ^ 31).
Proof.
  apply (get_padded_length_rounds 2147483646). lia.
Defined.

Lemma zlength_skipn {A : Type} (k : nat) (l : list A) :
  zlength (skipn k l) = Z.max 0 (zlength l - Z.of_nat k).
Proof. unfold zlength. rewrite length_skipn. lia. Qed.

(** X14.  [parse_auth_and_eef] rejects a field exactly when its body is
    shorter than four bytes or shorter than the two padded lengths it
    announces; the four bytes that the two length fields take themselves are
    not counted.  When it accepts, the nonce is taken to start behind the
    length fields and the ciphertext behind the padded nonce, and the two
    announced lengths together can be up to four bytes more than what the
    body holds behind the length fields. *)
Theorem parse_auth_and_eef_accepts (body : list byte) :
  let nonce_length := ntohs body in
  let ciphertext_length := ntohs (skipn 2 body) in
  (parse_auth_and_eef body (zlength body) = None <->
   zlength body < 4 \/
   zlength body < get_padded_length nonce_length + get_padded_length ciphertext_length) /\
  (forall a, parse_auth_and_eef body (zlength body) = Some a ->
     a_nonce_length a = nonce_length /\ a_ciphertext_length a = ciphertext_length /\
     a_nonce a = skipn 4 body /\
     a_ciphertext a = skipn (Z.to_nat (4 + get_padded_length nonce_length)) body /\
     zlength (a_nonce a) = zlength body - 4 /\
     a_nonce_length a + a_ciphertext_length a <= zlength (a_nonce a) + 4).
Proof.
  intros nl cl. unfold parse_auth_and_eef. fold nl. fold cl.
  pose proof (zlength_skipn 4 body) as Hskip.
  set (rest := skipn 4 body) in *.
  pose proof (ntohs_range body) as Hrn.
  pose proof (ntohs_range (skipn 2 body)) as Hrc. fold nl in Hrn. fold cl in Hrc.
  destruct (get_padded_length_bounds nl ltac:(lia)) as (_ & Hnl).
  destruct (get_padded_length_bounds cl ltac:(lia)) as (_ & Hcl).
  destruct (Z.ltb_spec (zlength body) 4) as [H4|H4].
  { split; [split; [left; exact H4 | reflexivity] | discriminate]. }
  destruct (get_padded_length nl + get_padded_length cl >? zlength body) eqn:Hgt.
  - rewrite Z.gtb_ltb in Hgt. apply Z.ltb_lt in Hgt.
    split; [split; [right; exact Hgt | reflexivity] | discriminate].
  - rewrite Z.gtb_ltb in Hgt. apply Z.ltb_ge in Hgt. split.
    + split; [discriminate | lia].
    + intros a Ha. injection Ha as <-.
      do 4 (split; [reflexivity|]).
      unfold a_nonce, a_nonce_length, a_ciphertext_length. lia.
Qed.


(** X15.  A field whose body is four bytes shorter than its nonce and its
    ciphertext need is accepted: for any two announced lengths, a body that
    holds the two length fields and as many bytes as the padded lengths less
    four passes [parse_auth_and_eef], and the ciphertext it points to then
    has four bytes less than the padded length announced for it. *)
Theorem parse_auth_and_eef_overrun (nl cl : Z) (payload : list byte) :
  0 <= nl < 65536 -> 0 <= cl < 65536 ->
  4 + zlength payload = get_padded_length nl + get_padded_length cl ->
  let body := htons nl ++ htons cl ++ payload in
  exists a,
    parse_auth_and_eef body (zlength body) = Some a /\
    a_nonce_length a = nl /\ a_ciphertext_length a = cl /\
    zlength (a_ciphertext a) = Z.max 0 (get_padded_length cl - 4).
Proof.
  intros Hnl Hcl Hlen body.
  destruct (get_padded_length_bounds nl ltac:(lia)) as (_ & Hpn).
  destruct (get_padded_length_bounds cl ltac:(lia)) as (_ & Hpc).
  pose proof (zlength_nonneg payload) as Hnn.
  assert (Hz : zlength body = 4 + zlength payload)
    by (unfold body; rewrite !zlength_app, !zlength_htons; lia).
  assert (H1 : ntohs body = nl)
    by (unfold body; rewrite ntohs_htons; apply Z.mod_small; exact Hnl).
  assert (H2 : ntohs (skipn 2 body) = cl).
  { change (skipn 2 body) with (htons cl ++ payload).
    rewrite ntohs_htons. apply Z.mod_small. exact Hcl. }
  unfold parse_auth_and_eef. rewrite H1, H2, Hz.
  replace (4 + zlength payload <? 4) with false by (symmetry; apply Z.ltb_ge; lia).
  replace (get_padded_length nl + get_padded_length cl >? 4 + zlength payload) with false
    by (symmetry; rewrite Z.gtb_ltb; apply Z.ltb_ge; lia).
  eexists. split; [reflexivity|]. split; [reflexivity|]. split; [reflexivity|].
  unfold a_ciphertext. rewrite zlength_skipn, Hz, Z2Nat.id by lia. lia.
Qed.

Lemma parse_auth_and_eef_overrun_witness :
  exists a,
    parse_auth_and_eef (htons 16 ++ htons 16 ++ repeat x00 28)
      (zlength (htons 16 ++ htons 16 ++ repeat x00 28)) = Some a /\
    a_nonce_length a = 16 /\ a_ciphertext_length a = 16 /\
    zlength (a_ciphertext a) = Z.max 0 (get_padded_length 16 - 4).
Proof.
  apply (parse_auth_and_eef_overrun 16 16 (repeat x00 28)).
  - lia.
  - lia.
  - reflexivity.
Defined.

Lemma count_type_range (type : EFType) (fields : list (EFType * list byte)) :
  0 <= count_type type fields.
Proof. unfold count_type. apply zlength_nonneg. Qed.

(** What [NTS_CheckRequestAuth] decides on the fields of a packet. *)
Lemma check_fields_decides (fields : list (EFType * list byte)) :
  forall cookie : bool,
    check_fields fields cookie
    = if ((if cookie then 1 else 0) + count_type NTP_EF_NTS_COOKIE fields <=? 1)
         && forallb auth_parses fields
      then 1 else 0.
Proof.
  induction fields as [|[type body] fields IH]; intros cookie.
  - destruct cookie; reflexivity.
  - pose proof (count_type_range NTP_EF_NTS_COOKIE fields) as Hc.
    rewrite count_type_cons. cbn [check_fields forallb fst].
    unfold auth_parses at 1. cbn [fst snd].
    destruct type; cbn [EFType_eqb]; try (rewrite IH, Z.add_0_l; reflexivity).
    + destruct cookie.
      * replace (1 + (1 + count_type NTP_EF_NTS_COOKIE fields) <=? 1) with false
          by (symmetry; apply Z.leb_gt; lia).
        reflexivity.
      * rewrite IH. cbn [andb]. rewrite Z.add_0_l. reflexivity.
    + destruct (parse_auth_and_eef body (zlength body)).
      * rewrite IH, Z.add_0_l. reflexivity.
      * cbn [andb]. now rewrite andb_false_r.
Qed.

(** X16.  [NTS_CheckRequestAuth] returns 1 exactly for a packet in client
    mode that has extension fields, of which at most one is a Cookie field
    and of which every authenticator field passes [parse_auth_and_eef].
    Neither a cookie nor an authenticator field need be there, and nothing
    is decrypted or verified. *)
Theorem check_request_auth_decides (packet : NTP_Packet) (info : NTP_PacketInfo) :
  NTS_CheckRequestAuth packet info
  = Some (if negb (pi_ext_fields info =? 0) && is_client (pi_mode info)
             && (count_type NTP_EF_NTS_COOKIE (pk_fields packet) <=? 1)
             && forallb auth_parses (pk_fields packet)
          then 1 else 0).
Proof.
  rewrite NTS_CheckRequestAuth_fields, check_fields_decides. rewrite Z.add_0_l.
  destruct (pi_ext_fields info =? 0); [reflexivity|].
  destruct (is_client (pi_mode info)); reflexivity.
Qed.

End AuthFieldFacts.

Section RequestResponse.

Import NtsKe NtsNtp NtpRun.

Context {Siv : SIV} {X : NtpExt}.

Lemma add_placeholders_all (rounds : nat) (cookie : NKE_Cookie) :
  (forall p i b, NEF_room p i b = true) ->
  forall (packet : NTP_Packet) (info : NTP_PacketInfo),
    exists packet' info',
      add_placeholders rounds cookie packet info = (true, packet', info') /\
      pk_fields packet'
      = pk_fields packet ++ repeat (NTP_EF_NTS_COOKIE_PLACEHOLDER, cookie_body cookie) rounds /\
      pi_mode info' = pi_mode info /\
      pi_ext_fields info' = pi_ext_fields info + Z.of_nat rounds.
Proof.
  intros Hroom. induction rounds as [|rounds IH]; intros packet info.
  - exists packet, info. cbn [add_placeholders repeat]. rewrite app_nil_r.
    repeat split. lia.
  - cbn [add_placeholders]. unfold NEF_AddField. rewrite Hroom.
    destruct (IH {| pk_header := pk_header packet;
                    pk_fields := pk_fields packet
                                 ++ [(NTP_EF_NTS_COOKIE_PLACEHOLDER,
                                      sub (c_cookie cookie) 0 (c_length cookie))] |}
                 {| pi_length := pi_length info
                                 + NEF_field_length (sub (c_cookie cookie) 0 (c_length cookie));
                    pi_mode := pi_mode info;
                    pi_ext_fields := pi_ext_fields info + 1 |})
      as (p' & i' & Hrun & Hf & Hm & He).
    exists p', i'. unfold NEF_AddField in Hrun. rewrite Hrun. split; [reflexivity|].
    cbn [pk_fields pi_mode pi_ext_fields] in Hf, Hm, He.
    split; [|split; [exact Hm | lia]].
    rewrite Hf, <- app_assoc. reflexivity.
Qed.

(** A call of [NTS_GenerateRequestAuth] for which the packet has room. *)
Lemma generate_request_all (inst : NTS_ClientInstance) (packet : NTP_Packet)
    (info : NTP_PacketInfo) :
  SIV_correct Siv ->
  zlength (nonce inst) = NONCE_LENGTH ->
  zlength (uniq_id inst) = UNIQ_ID_LENGTH ->
  0 < num_cookies inst <= MAX_COOKIES ->
  (forall p i b, NEF_room p i b = true) ->
  exists ciphertext packet' info',
    NTS_GenerateRequestAuth inst packet info = (1, after_request inst, packet', info') /\
    zlength ciphertext = SIV_DIGEST_SIZE /\
    pk_fields packet'
    = pk_fields packet
      ++ [(NTP_EF_NTS_UNIQUE_IDENTIFIER, uniq_id inst);
          (NTP_EF_NTS_COOKIE,
           cookie_body (aget NKE_Cookie_zero (cookies inst) (cookie_index inst)))]
      ++ repeat (NTP_EF_NTS_COOKIE_PLACEHOLDER,
                 cookie_body (aget NKE_Cookie_zero (cookies inst) (cookie_index inst)))
                (Z.to_nat (MAX_COOKIES - num_cookies inst))
      ++ [(NTP_EF_NTS_AUTH_AND_EEF, auth_bytes (nonce inst) ciphertext)] /\
    pi_mode info' = pi_mode info /\
    pi_ext_fields info' = pi_ext_fields info + 3 + (MAX_COOKIES - num_cookies inst).
Proof.
  intros Hsiv Hn Hu Hnum Hroom.
  unfold NTS_GenerateRequestAuth, needs_nke.
  replace (num_cookies inst =? 0) with false by (symmetry; apply Z.eqb_neq; lia).
  set (cookie := aget NKE_Cookie_zero (cookies inst) (cookie_index inst)).
  rewrite (sub_all_eq _ _ Hu), (sub_all_eq _ _ Hn).
  unfold NEF_AddField at 1 2. rewrite !Hroom.
  destruct (add_placeholders_all (Z.to_nat (MAX_COOKIES - num_cookies inst)) cookie Hroom
              {| pk_header := pk_header packet;
                 pk_fields := (pk_fields packet
                               ++ [(NTP_EF_NTS_UNIQUE_IDENTIFIER, uniq_id inst)])
                              ++ [(NTP_EF_NTS_COOKIE,
                                   sub (c_cookie cookie) 0 (c_length cookie))] |}
              {| pi_length := pi_length info + NEF_field_length (uniq_id inst)
                              + NEF_field_length (sub (c_cookie cookie) 0 (c_length cookie));
                 pi_mode := pi_mode info;
                 pi_ext_fields := pi_ext_fields info + 1 + 1 |})
    as (p3 & i3 & H3 & Hf3 & Hm3 & He3).
  cbn [pk_header pk_fields pi_length pi_mode pi_ext_fields] in H3, Hf3, Hm3, He3 |- *.
  rewrite H3. unfold NEF_AddField. rewrite Hroom.
  set (ct := siv_encrypt_message (siv_c2s inst) (nonce inst)
               (packet_bytes p3 (pi_length i3)) []).
  exists ct. eexists. eexists. split; [reflexivity|].
  cbn [pk_fields pi_mode pi_ext_fields].
  split; [unfold ct; rewrite siv_encrypt_length; reflexivity|].
  split; [rewrite Hf3; unfold cookie_body; now rewrite <- !app_assoc|].
  split; [exact Hm3|].
  rewrite He3, Z2Nat.id by lia. lia.
Qed.

Lemma response_fields_app (l1 l2 : list (EFType * list byte)) :
  response_fields (l1 ++ l2) = response_fields l1 ++ response_fields l2.
Proof. apply flat_map_app. Qed.

Lemma response_fields_placeholders (body : list byte) (n : nat) :
  response_fields (repeat (NTP_EF_NTS_COOKIE_PLACEHOLDER, body) n)
  = repeat (NTP_EF_NTS_COOKIE, repeat x00 100) n.
Proof.
  induction n as [|n IH]; [reflexivity|].
  cbn [repeat]. change (response_fields (?f :: ?l)) with
    ([(NTP_EF_NTS_COOKIE, repeat x00 100)] ++ response_fields l).
  rewrite IH. reflexivity.
Qed.

Lemma forallb_auth_placeholders (body : list byte) (n : nat) :
  forallb auth_parses (repeat (NTP_EF_NTS_COOKIE_PLACEHOLDER, body) n) = true.
Proof. induction n as [|n IH]; [reflexivity | exact IH]. Qed.

Lemma count_cookie_placeholders (body : list byte) (n : nat) :
  count_type NTP_EF_NTS_COOKIE (repeat (NTP_EF_NTS_COOKIE_PLACEHOLDER, body) n) = 0.
Proof. induction n as [|n IH]; [reflexivity | exact IH]. Qed.

(** X17.  One request and its response.  For a client with cookies and a
    packet without extension fields that has room, [NTS_GenerateRequestAuth]
    succeeds; [NTS_CheckRequestAuth] accepts the request;
    [NTS_GenerateResponseAuth] answers with the client's identifier and with
    ten cookies less the number the client had, each a hundred zero bytes;
    and [NTS_CheckResponseAuth] rejects that response, so the client is left
    with one cookie less. *)
Theorem request_response_exchange (inst : NTS_ClientInstance) (packet : NTP_Packet)
    (info : NTP_PacketInfo) (response : NTP_Packet) (res_info : NTP_PacketInfo) :
  SIV_correct Siv ->
  zlength (nonce inst) = NONCE_LENGTH ->
  zlength (uniq_id inst) = UNIQ_ID_LENGTH ->
  0 < num_cookies inst <= MAX_COOKIES ->
  (forall p i b, NEF_room p i b = true) ->
  pk_fields packet = [] -> pi_mode info = MODE_CLIENT -> 0 <= pi_ext_fields info ->
  pi_mode res_info = MODE_SERVER ->
  exists inst' request req_info response' res_info',
    NTS_GenerateRequestAuth inst packet info = (1, inst', request, req_info) /\
    NTS_CheckRequestAuth request req_info = Some 1 /\
    NTS_GenerateResponseAuth request req_info response res_info
    = Some (1, response', res_info') /\
    pk_fields response'
    = pk_fields response
      ++ (NTP_EF_NTS_UNIQUE_IDENTIFIER, uniq_id inst)
         :: repeat (NTP_EF_NTS_COOKIE, repeat x00 100)
                   (Z.to_nat (MAX_COOKIES + 2 - num_cookies inst)) /\
    NTS_CheckResponseAuth inst' response' res_info' = 0 /\
    num_cookies inst' = num_cookies inst - 1.
Proof.
  intros Hsiv Hn Hu Hnum Hroom Hempty Hmode Hext Hres.
  destruct (generate_request_all inst packet info Hsiv Hn Hu Hnum Hroom)
    as (ct & request & req_info & Hgen & Hct & Hf & Hm & He).
  rewrite Hempty in Hf. cbn [app] in Hf.
  set (body := cookie_body (aget NKE_Cookie_zero (cookies inst) (cookie_index inst))) in *.
  set (k := Z.to_nat (MAX_COOKIES - num_cookies inst)) in *.
  destruct (respond_room (pk_fields request) Hroom response res_info)
    as (response' & res_info' & Hresp).
  exists (after_request inst), request, req_info, response', res_info'.
  split; [exact Hgen|]. split.
  { rewrite NTS_CheckRequestAuth_fields, check_fields_decides, Hm, Hmode, Hf.
    replace (pi_ext_fields req_info =? 0) with false
      by (symmetry; apply Z.eqb_neq; unfold MAX_COOKIES in *; lia).
    cbn [is_client negb orb].
    rewrite !count_type_cons, count_type_app, count_cookie_placeholders.
    cbn [forallb]. rewrite forallb_app, forallb_auth_placeholders.
    cbn [forallb fst snd EFType_eqb]. unfold auth_parses. cbn [fst snd].
    rewrite (parse_auth_bytes _ _ Hn Hct). reflexivity. }
  split.
  { rewrite NTS_GenerateResponseAuth_fields, Hm, Hmode, Hres, Hresp. reflexivity. }
  split.
  { rewrite (respond_fields _ _ _ _ _ Hresp), Hf. f_equal.
    change ((NTP_EF_NTS_UNIQUE_IDENTIFIER, uniq_id inst) :: (NTP_EF_NTS_COOKIE, body) :: ?l)
      with ([(NTP_EF_NTS_UNIQUE_IDENTIFIER, uniq_id inst); (NTP_EF_NTS_COOKIE, body)] ++ l).
    rewrite !response_fields_app, response_fields_placeholders.
    replace (Z.to_nat (MAX_COOKIES + 2 - num_cookies inst)) with (S (S k))
      by (unfold k, MAX_COOKIES in *; lia).
    cbn [repeat]. 
    change (response_fields [(NTP_EF_NTS_UNIQUE_IDENTIFIER, uniq_id inst);
                             (NTP_EF_NTS_COOKIE, body)])
      with [(NTP_EF_NTS_UNIQUE_IDENTIFIER, uniq_id inst);
            (NTP_EF_NTS_COOKIE, repeat x00 100); (NTP_EF_NTS_COOKIE, repeat x00 100)].
    change (response_fields [(NTP_EF_NTS_AUTH_AND_EEF, auth_bytes (nonce inst) ct)])
      with (@nil (EFType * list byte)).
    rewrite app_nil_r. reflexivity. }
  split; [apply NTS_CheckResponseAuth_zero | reflexivity].
Qed.

End RequestResponse.

Lemma request_response_exchange_witness :
  exists inst' request req_info,
    @NtsNtp.NTS_GenerateRequestAuth Sample.siv Sample.ntp_ext Sample.client Sample.request0
      Sample.request0_info = (1, inst', request, req_info) /\
    NtsNtp.NTS_CheckRequestAuth request req_info = Some 1.
Proof.
  destruct (@request_response_exchange Sample.siv Sample.ntp_ext Sample.client
              Sample.request0 Sample.request0_info Sample.response0 Sample.response0_info)
    as (inst' & request & req_info & _ & _ & H1 & H2 & _).
  - exact sample_siv_correct.
  - reflexivity.
  - reflexivity.
  - vm_compute. split; [reflexivity | discriminate].
  - intros p i b. reflexivity.
  - reflexivity.
  - reflexivity.
  - vm_compute. discriminate.
  - reflexivity.
  - exists inst', request, req_info. split; assumption.
Defined.

Section CookiePool.

Import NtsKe NtsNtp NtpRun.

Context {Siv : SIV} {X : NtpExt}.

Lemma requests_empty (k : nat) (inst : NTS_ClientInstance) (packet : NTP_Packet)
    (info : NTP_PacketInfo) :
  num_cookies inst = 0 ->
  requests k inst packet info = (repeat (0, packet) k, inst).
Proof.
  intros H0. induction k as [|k IH]; [reflexivity|].
  cbn [requests repeat]. unfold NTS_GenerateRequestAuth, needs_nke. rewrite H0.
  cbn [Z.eqb]. rewrite IH. reflexivity.
Qed.

(** X18.  The cookies of a client are used in the order of the array,
    each once.  Of [k] calls of [NTS_GenerateRequestAuth] in a row, for
    packets that have room, the first [num_cookies] return 1 and the others
    0; the call number [j] sends the cookie in slot
    [(cookie_index + j) mod 8]; in the end [num_cookies] is less by the
    number of successful calls, [cookie_index] has advanced by that number
    modulo 8, and the array of cookies is as it was: nothing refills it. *)
Theorem requests_use_pool (k : nat) :
  forall (inst : NTS_ClientInstance) (packet : NTP_Packet) (info : NTP_PacketInfo),
    SIV_correct Siv ->
    zlength (nonce inst) = NONCE_LENGTH ->
    zlength (uniq_id inst) = UNIQ_ID_LENGTH ->
    0 <= num_cookies inst <= MAX_COOKIES ->
    0 <= cookie_index inst < MAX_COOKIES ->
    (forall p i b, NEF_room p i b = true) ->
    pk_fields packet = [] ->
    let used := Z.to_nat (Z.min (Z.of_nat k) (num_cookies inst)) in
    let out := fst (requests k inst packet info) in
    let inst' := snd (requests k inst packet info) in
    map fst out = repeat 1 used ++ repeat 0 (k - used) /\
    map (fun o => nth_error (pk_fields (snd o)) 1) (firstn used out)
    = map (fun j => Some (NTP_EF_NTS_COOKIE,
                          cookie_body (aget NKE_Cookie_zero (cookies inst)
                                         ((cookie_index inst + Z.of_nat j) mod MAX_COOKIES))))
          (seq 0 used) /\
    num_cookies inst' = num_cookies inst - Z.of_nat used /\
    cookie_index inst' = (cookie_index inst + Z.of_nat used) mod MAX_COOKIES /\
    cookies inst' = cookies inst.
Proof.
  induction k as [|k IH]; intros inst packet info Hsiv Hn Hu Hnum Hidx Hroom Hempty.
  { cbv zeta. cbn [requests fst snd Z.of_nat].
    replace (Z.min 0 (num_cookies inst)) with 0 by lia.
    cbn [Z.to_nat repeat firstn map seq app Nat.sub Z.of_nat].
    rewrite Z.sub_0_r, Z.add_0_r, Z.mod_small by exact Hidx. repeat (split; [reflexivity|]). reflexivity. }
  destruct (Z.eq_dec (num_cookies inst) 0) as [H0|H0].
  { cbv zeta. rewrite (requests_empty _ _ _ _ H0), H0.
    replace (Z.min (Z.of_nat (S k)) 0) with 0 by lia.
    cbn [Z.to_nat fst snd firstn map seq app repeat Nat.sub Z.of_nat].
    rewrite Z.sub_0_r, Z.add_0_r, Z.mod_small by exact Hidx.
    split; [rewrite map_repeat; reflexivity|].
    split; [reflexivity|]. split; [exact H0|]. split; reflexivity. }
  destruct (generate_request_all inst packet info Hsiv Hn Hu) as
    (ct & p1 & i1 & Hgen & _ & Hf & _); [lia | exact Hroom |].
  rewrite Hempty in Hf. cbn [app] in Hf.
  assert (Hi1 : cookie_index (after_request inst) = (cookie_index inst + 1) mod MAX_COOKIES).
  { cbn [cookie_index after_request]. apply Z.rem_mod_nonneg; unfold MAX_COOKIES in *; lia. }
  specialize (IH (after_request inst) packet info Hsiv Hn Hu).
  cbn [num_cookies after_request] in IH. rewrite Hi1 in IH.
  cbn [cookies after_request] in IH.
  destruct IH as (IHa & IHb & IHc & IHd & IHe);
    [lia | apply Z.mod_pos_bound; reflexivity | exact Hroom | exact Hempty |].
  cbv zeta. cbn [requests]. rewrite Hgen.
  destruct (requests k (after_request inst) packet info) as [rest inst2] eqn:Hrest.
  cbn [fst snd] in *.
  set (m := Z.to_nat (Z.min (Z.of_nat k) (num_cookies inst - 1))) in *.
  replace (Z.to_nat (Z.min (Z.of_nat (S k)) (num_cookies inst))) with (S m)
    by (unfold m; lia).
  cbn [repeat app map firstn Nat.sub seq fst snd].
  split; [rewrite IHa; reflexivity|]. split.
  { rewrite IHb, Hf. cbn [nth_error]. rewrite Z.add_0_r, (Z.mod_small (cookie_index inst))
      by exact Hidx.
    f_equal. rewrite <- seq_shift, map_map. apply map_ext. intros j.
    rewrite Z.add_mod_idemp_l by discriminate.
    replace (cookie_index inst + 1 + Z.of_nat j) with (cookie_index inst + Z.of_nat (S j))
      by lia.
    reflexivity. }
  split; [rewrite IHc; lia|]. split; [|exact IHe].
  rewrite IHd, Z.add_mod_idemp_l by discriminate. f_equal. lia.
Qed.

End CookiePool.

Lemma requests_use_pool_witness :
  map fst (fst (@NtpRun.requests Sample.siv Sample.ntp_ext 9 Sample.client Sample.request0
                  Sample.request0_info))
  = [1; 1; 1; 1; 1; 1; 1; 1; 0].
Proof.
  apply (@requests_use_pool Sample.siv Sample.ntp_ext 9 Sample.client Sample.request0
           Sample.request0_info).
  - exact sample_siv_correct.
  - reflexivity.
  - reflexivity.
  - vm_compute. split; discriminate.
  - vm_compute. split; [discriminate | reflexivity].
  - intros p i b. reflexivity.
  - reflexivity.
Defined.

(** ** Connections *)

Section ConnectionFacts.

Import NtsKe KeRead KeConn.

Context {Siv : SIV} {E : KeEnv} {T : Tls}.

Lemma close_connection_closed (inst : NKE_Instance_Record) :
  n_state (fst (close_connection inst)) = KE_CLOSED.
Proof. unfold close_connection. destruct (n_state inst) eqn:H; try reflexivity. exact H. Qed.

Lemma close_connection_mode (inst : NKE_Instance_Record) :
  n_mode (fst (close_connection inst)) = n_mode inst /\
  n_session (fst (close_connection inst)) = n_session inst /\
  n_message (fst (close_connection inst)) = n_message inst.
Proof. unfold close_connection. destruct (n_state inst); repeat split. Qed.

(** X19.  [close_connection] leaves the instance closed and touches
    neither its mode, its session nor its message.  It closes a descriptor
    only for an instance that was not closed, and then the descriptor of the
    instance; afterwards the descriptor is invalid and the timeout id is 0,
    and a second [close_connection] or a [session_timeout] makes no call at
    all: no descriptor is closed twice. *)
Theorem close_connection_once (inst : NKE_Instance_Record) :
  let inst' := fst (close_connection inst) in
  n_state inst' = KE_CLOSED /\
  n_mode inst' = n_mode inst /\ n_session inst' = n_session inst /\
  n_message inst' = n_message inst /\
  (n_state inst <> KE_CLOSED ->
   n_sock_fd inst' = INVALID_SOCK_FD /\ n_timeout_id inst' = 0 /\
   In (SCH_RemoveTimeout (n_timeout_id inst)) (snd (close_connection inst))) /\
  (forall fd, In (close fd) (snd (close_connection inst)) ->
     n_state inst <> KE_CLOSED /\ fd = n_sock_fd inst /\ fd <> INVALID_SOCK_FD) /\
  close_connection inst' = (inst', []) /\
  snd (session_timeout inst') = [].
Proof.
  cbv zeta. split; [apply close_connection_closed|].
  destruct (close_connection_mode inst) as (Hm & Hs & Hmsg).
  split; [exact Hm|]. split; [exact Hs|]. split; [exact Hmsg|].
  assert (Hcalls : forall fd, In (close fd) (snd (close_connection inst)) ->
                     n_state inst <> KE_CLOSED /\ fd = n_sock_fd inst /\
                     fd <> INVALID_SOCK_FD).
  { intros fd. unfold close_connection.
    destruct (n_state inst); cbn [snd In];
      try (intros []; fail);
      (intros [Hin|Hin]; [discriminate Hin|]);
      (destruct (Z.eqb_spec (n_sock_fd inst) INVALID_SOCK_FD) as [He|He];
       cbn [negb In] in Hin; [destruct Hin|]);
      (destruct Hin as [Hin|[Hin|[]]]; [discriminate Hin|]);
      injection Hin as <-; (split; [discriminate|]); (split; [reflexivity | exact He]). }
  split.
  { unfold close_connection. destruct (n_state inst); intros Hne;
      try (now destruct Hne); cbn [fst snd n_sock_fd n_timeout_id In];
      (split; [reflexivity|]); (split; [reflexivity|]); left; reflexivity. }
  split; [exact Hcalls|].
  pose proof (close_connection_closed inst) as Hc.
  split.
  - unfold close_connection at 1. rewrite Hc. reflexivity.
  - unfold session_timeout, close_connection at 1. cbn [n_state set_timeout_id].
    rewrite Hc. reflexivity.
Qed.

Lemma rank_closed (mode : NtsKeMode) (state : NtsKeState) :
  state <> KE_CLOSED -> (rank mode state < rank mode KE_CLOSED)%nat.
Proof. destruct mode, state; cbn; intros H; try lia; now destruct H. Qed.

(** What a call of [close_connection] does to an instance that is not
    closed. *)
Lemma closes_advance (inst : NKE_Instance_Record) :
  n_state inst <> KE_CLOSED ->
  let inst' := fst (close_connection inst) in
  n_mode inst' = n_mode inst /\ n_session inst' = n_session inst /\
  (rank (n_mode inst) (n_state inst) < rank (n_mode inst) (n_state inst'))%nat /\
  n_state inst' = KE_CLOSED.
Proof.
  intros Hne inst'. destruct (close_connection_mode inst) as (Hm & Hs & _).
  pose proof (close_connection_closed inst) as Hc. fold inst' in Hm, Hs, Hc.
  repeat split; try assumption. rewrite Hc. apply rank_closed, Hne.
Qed.

Lemma update_state_advances (ring : KeyRing) (scratch : Scratch)
    (selected : option (list byte)) (inst inst' : NKE_Instance_Record)
    (calls : list Call) :
  update_state ring scratch selected inst = Some (inst', calls) ->
  n_mode inst' = n_mode inst /\ n_session inst' = n_session inst /\
  ((rank (n_mode inst) (n_state inst) < rank (n_mode inst) (n_state inst'))%nat \/
   (n_state inst = KE_RECEIVE /\ n_state inst' = KE_RECEIVE /\ calls = [] /\
    option_map fst (check_message_format (n_message inst)) = Some MSG_INCOMPLETE)) /\
  (n_state inst' = KE_CLOSED \/ n_sock_fd inst' = n_sock_fd inst).
Proof.
  unfold update_state.
  assert (Hclose : forall i : NKE_Instance_Record,
             n_mode i = n_mode inst -> n_session i = n_session inst ->
             n_state i = n_state inst -> n_state inst <> KE_CLOSED ->
             Some (close_connection i) = Some (inst', calls) ->
             n_mode inst' = n_mode inst /\ n_session inst' = n_session inst /\
             ((rank (n_mode inst) (n_state inst) < rank (n_mode inst) (n_state inst'))%nat \/
              (n_state inst = KE_RECEIVE /\ n_state inst' = KE_RECEIVE /\ calls = [] /\
               option_map fst (check_message_format (n_message inst)) = Some MSG_INCOMPLETE)) /\
             (n_state inst' = KE_CLOSED \/ n_sock_fd inst' = n_sock_fd inst)).
  { intros i Hm Hs Hst Hne H. injection H as H1.
    destruct (closes_advance i) as (Hm' & Hs' & Hr & Hc); [congruence|].
    assert (Hi : inst' = fst (close_connection i)) by (rewrite H1; reflexivity).
    rewrite <- Hi in Hm', Hs', Hr, Hc. rewrite Hm, Hst in Hr.
    repeat split; try congruence; [left; exact Hr | left; exact Hc]. }
  assert (Henter : forall (i : NKE_Instance_Record) (s : NtsKeState) (e : Z),
             n_mode i = n_mode inst -> n_session i = n_session inst ->
             n_sock_fd i = n_sock_fd inst ->
             (rank (n_mode inst) (n_state inst) < rank (n_mode inst) s)%nat ->
             Some (enter i s e) = Some (inst', calls) ->
             n_mode inst' = n_mode inst /\ n_session inst' = n_session inst /\
             ((rank (n_mode inst) (n_state inst) < rank (n_mode inst) (n_state inst'))%nat \/
              (n_state inst = KE_RECEIVE /\ n_state inst' = KE_RECEIVE /\ calls = [] /\
               option_map fst (check_message_format (n_message inst)) = Some MSG_INCOMPLETE)) /\
             (n_state inst' = KE_CLOSED \/ n_sock_fd inst' = n_sock_fd inst)).
  { intros i s e Hm Hs Hfd Hr H. injection H as <- <-.
    cbn [n_mode n_session n_state n_sock_fd set_state].
    repeat split; try assumption; [left; exact Hr | right; exact Hfd]. }
  destruct (n_mode inst) eqn:Hmode; [discriminate| |];
    destruct (n_state inst) eqn:Hstate; try discriminate.
  - (* server, WAIT_CONNECT *)
    apply Henter; try reflexivity; [exact Hmode | cbn; lia].
  - destruct (check_alpn selected =? 0).
    + apply Hclose; try reflexivity; congruence.
    + apply Henter; try reflexivity; [exact Hmode | cbn; lia].
  - apply Henter; try reflexivity; [exact Hmode | cbn; lia].
  - destruct (check_message_format (n_message inst)) as [[[| |] m]|] eqn:Hfmt;
      [| | |discriminate].
    + intros H. injection H as <- <-. cbn [n_mode n_session n_state n_sock_fd set_n_message].
      repeat split; try assumption.
      * right. repeat split; assumption.
      * right. reflexivity.
    + apply Hclose; try reflexivity; try assumption. discriminate.
    + unfold exchange_view. cbn [n_session set_n_message].
      destruct (n_session inst) as [session|] eqn:Hsession; [|discriminate].
      unfold process_request.
      destruct (request_verdict _ _) as [[m1 [[e np] aead]]|]; [|discriminate].
      destruct (prepare_response _ _ _ _ _ _ _) as [r view'].
      change (1 =? 0) with false. cbv iota.
      apply Henter; try reflexivity; try assumption. cbn; lia.
  - apply Hclose; try reflexivity; congruence.
  - apply Henter; try reflexivity; [exact Hmode | cbn; lia].
  - destruct (check_alpn selected =? 0).
    + apply Hclose; try reflexivity; congruence.
    + destruct (exchange_view inst) as [view|]; [|discriminate].
      destruct (prepare_request view) as [r view'].
      destruct (r =? 0).
      * apply Hclose; try reflexivity; try assumption. discriminate.
      * apply Henter; try reflexivity; try assumption. cbn; lia.
  - apply Henter; try reflexivity; [exact Hmode | cbn; lia].
  - destruct (check_message_format (n_message inst)) as [[[| |] m]|] eqn:Hfmt;
      [| | |discriminate].
    + intros H. injection H as <- <-. cbn [n_mode n_session n_state n_sock_fd set_n_message].
      repeat split; try assumption.
      * right. repeat split; assumption.
      * right. reflexivity.
    + apply Hclose; try reflexivity; try assumption. discriminate.
    + apply Henter; try reflexivity; try assumption. cbn; lia.
  - apply Hclose; try reflexivity; congruence.
Qed.


Lemma receive_step (answers : list (Z * list byte * Z)) :
  forall (inst : NKE_Instance_Record) (step : Step NKE_Instance_Record),
    receive answers inst = Some step ->
    n_mode (step_result step) = n_mode inst /\
    n_session (step_result step) = n_session inst /\
    match step with
    | Closed inst' _ => n_state inst' = KE_CLOSED
    | Waits inst' calls =>
        n_state inst' = n_state inst /\ n_sock_fd inst' = n_sock_fd inst
    | GoesOn inst' calls =>
        n_state inst' = n_state inst /\ n_sock_fd inst' = n_sock_fd inst
    end.
Proof.
  assert (Hclose : forall (inst : NKE_Instance_Record) step,
             (let '(inst', calls) := close_connection inst in Some (Closed inst' calls))
             = Some step ->
             n_mode (step_result step) = n_mode inst /\
             n_session (step_result step) = n_session inst /\
             match step with
             | Closed inst' _ => n_state inst' = KE_CLOSED
             | Waits inst' calls =>
                 n_state inst' = n_state inst /\ n_sock_fd inst' = n_sock_fd inst
             | GoesOn inst' calls =>
                 n_state inst' = n_state inst /\ n_sock_fd inst' = n_sock_fd inst
             end).
  { intros inst step. destruct (close_connection_mode inst) as (Hm & Hs & _).
    pose proof (close_connection_closed inst) as Hc.
    destruct (close_connection inst) as [i c]. cbn [fst] in *.
    intros H. injection H as <-. cbn [step_result]. repeat split; assumption. }
  induction answers as [|[[r bytes] pending] answers IH]; intros inst step; cbn [receive].
  - destruct (m_length (n_message inst) >=? MAX_MESSAGE_LENGTH); [apply Hclose | discriminate].
  - destruct (m_length (n_message inst) >=? MAX_MESSAGE_LENGTH); [apply Hclose|].
    destruct (r <? 0).
    + destruct (gnutls_error_is_fatal r); [apply Hclose|].
      intros H. injection H as <-. cbn [step_result]. repeat split.
    + destruct (pending >? 0).
      * intros H. apply IH in H. cbn [n_mode n_session n_state n_sock_fd set_n_message] in H.
        exact H.
      * intros H. injection H as <-. cbn [step_result]. repeat split.
Qed.

Lemma socket_event_step (event : Z) (answers : Answers) (inst : NKE_Instance_Record)
    (step : Step NKE_Instance_Record) :
  socket_event event answers inst = Some step ->
  n_state inst <> KE_CLOSED /\
  n_mode (step_result step) = n_mode inst /\
  n_session (step_result step) = n_session inst /\
  match step with
  | Closed inst' _ => n_state inst' = KE_CLOSED
  | Waits inst' calls =>
      n_state inst' = n_state inst /\ n_sock_fd inst' = n_sock_fd inst
  | GoesOn inst' calls =>
      n_state inst' = n_state inst /\ n_sock_fd inst' = n_sock_fd inst
  end.
Proof.
  unfold socket_event.
  destruct (close_connection_mode inst) as (Hm & Hs & _).
  pose proof (close_connection_closed inst) as Hc.
  destruct (close_connection inst) as [ic cc]. cbn [fst] in Hm, Hs, Hc.
  destruct (n_state inst) eqn:Hstate; try discriminate;
    (intros H0; split; [discriminate|]; revert H0).
  - destruct (negb (event =? SCH_FILE_OUTPUT));
      [|destruct (negb (socket_error answers =? 0))];
      intros H; injection H as <-; cbn [step_result]; repeat split; assumption.
  - destruct (handshake answers <? 0);
      [destruct (gnutls_error_is_fatal (handshake answers))|];
      intros H; injection H as <-; cbn [step_result]; repeat split; assumption.
  - destruct (send answers <? 0);
      [destruct (gnutls_error_is_fatal (send answers))
      |destruct (m_sent (n_message inst) + send answers <? m_length (n_message inst))];
      intros H; injection H as <-; cbn [step_result]; repeat split; assumption.
  - intros H. apply receive_step in H. rewrite Hstate in H. exact H.
  - destruct (bye answers <? 0);
      [destruct (gnutls_error_is_fatal (bye answers))|];
      intros H; injection H as <-; cbn [step_result]; repeat split; assumption.
Qed.

(** X20.  A connection never goes back.  A run of [read_write_socket]
    leaves the instance in the state it was in, or in a later state on the
    way of its mode: wait for the connection, handshake, receive and send
    for a server or send and receive for a client, shutdown, closed.  The
    mode and the session stay, and the descriptor stays unless the
    connection was closed. *)
Theorem connection_advances (ring : KeyRing) (scratch : Scratch) (event : Z)
    (answers : Answers) (inst inst' : NKE_Instance_Record) (calls : list Call) :
  read_write_socket ring scratch event answers inst = Some (inst', calls) ->
  n_mode inst' = n_mode inst /\ n_session inst' = n_session inst /\
  (n_state inst' = n_state inst \/
   (rank (n_mode inst) (n_state inst) < rank (n_mode inst) (n_state inst'))%nat) /\
  (n_state inst' = KE_CLOSED \/ n_sock_fd inst' = n_sock_fd inst).
Proof.
  unfold read_write_socket.
  destruct (socket_event event answers inst) as [step|] eqn:Hev; [|discriminate].
  apply socket_event_step in Hev. destruct Hev as (Hne & Hm & Hs & Hstep).
  destruct step as [i c|i c|i c]; cbn [step_result] in Hm, Hs.
  - intros H. injection H as <- <-. repeat split; try assumption.
    + right. rewrite Hstep. apply rank_closed, Hne.
    + left. exact Hstep.
  - intros H. injection H as <- <-. destruct Hstep as [Hst Hfd].
    repeat split; try assumption; [left | right]; assumption.
  - destruct (update_state ring scratch (selected_protocol answers) i) as [[i2 c2]|] eqn:Hup;
      [|discriminate].
    intros H. injection H as <- <-. destruct Hstep as [Hst Hfd].
    apply update_state_advances in Hup.
    destruct Hup as (Hm2 & Hs2 & Hr & Hfd2). rewrite Hm, Hst in Hr.
    split; [congruence|]. split; [congruence|]. split.
    + destruct Hr as [Hr|(Hr1 & Hr2 & _)]; [right; exact Hr | left; congruence].
    + destruct Hfd2 as [H|H]; [left; exact H | right; congruence].
Qed.

End ConnectionFacts.

Lemma connection_advances_witness :
  KeConn.n_mode (KeConn.set_state SampleKe.connecting KeConn.KE_HANDSHAKE)
  = KeConn.n_mode SampleKe.connecting.
Proof.
  refine (proj1 (@connection_advances Sample.siv Sample.ke_env SampleKe.tls Sample.ring1
                   SampleKe.scratch 2 SampleKe.quiet_answers SampleKe.connecting
                   (KeConn.set_state SampleKe.connecting KeConn.KE_HANDSHAKE)
                   [KeConn.SCH_SetFileHandlerEvent 8 2 1] _)).
  reflexivity.
Defined.

Section ConnectionMessages.

Import NtsKe KeRead KeConn.

Context {Siv : SIV} {E : KeEnv} {T : Tls}.

(** [check_message_format] answers for every message, and moves the cursor
    only. *)
Lemma check_message_format_message (m : NKE_Message) :
  exists f m', check_message_format m = Some (f, m') /\ m' = set_parsed m (m_parsed m').
Proof.
  unfold check_message_format. rewrite reset_message_parsing_set_parsed.
  destruct (get_records_total (records_fuel (set_parsed m 0)) (set_parsed m 0) None)
    as (m' & last & Hrun & _ & Hm' & _).
  - unfold records_fuel. cbn [m_length m_parsed set_parsed]. lia.
  - exact I.
  - rewrite Hrun.
    assert (Heq : m' = set_parsed m (m_parsed m')) by (rewrite Hm'; reflexivity).
    destruct ((m_length m' =? 0) || (m_parsed m' <? m_length m'));
      [eexists; eexists; split; [reflexivity | exact Heq]|].
    destruct last as [[[c t] l]|];
      [destruct ((c =? 0) || negb (t =? RECORD_END_OF_MESSAGE) || negb (l =? 0))|];
      eexists; eexists; (split; [reflexivity | exact Heq]).
Qed.

Lemma add_record_keeps (m m' : NKE_Message) (c t : Z) (body : list byte) :
  message_ok m -> add_record m c t body = Some m' ->
  message_ok m' /\ m_sent m' = m_sent m /\ m_length m <= m_length m'.
Proof.
  intros Hok Hadd. destruct (add_record_Some _ _ _ _ _ Hadd) as [H1 H2].
  destruct (add_record_ok m c t body Hok H1 H2) as (m1 & Hadd1 & Hok1 & Hl & _ & _ & _ & Hs).
  assert (m1 = m') by congruence. subst m1.
  pose proof (zlength_nonneg body). unfold sizeof_header in Hl.
  repeat split; try apply Hok1; try assumption. lia.
Qed.

Lemma add_cookies_keeps (ring : KeyRing) (c2s s2c : NKE_Key) (nonces : nat -> list byte) :
  forall (rounds i : nat) (cookie : NKE_Cookie) (m : NKE_Message),
    message_ok m ->
    let m' := snd (add_cookies rounds i ring c2s s2c nonces cookie m) in
    message_ok m' /\ m_sent m' = m_sent m.
Proof.
  induction rounds as [|rounds IH]; intros i cookie m Hok; cbn [add_cookies].
  - split; [exact Hok | reflexivity].
  - destruct (NKE_GenerateCookie ring c2s s2c (nonces i) cookie) as [cookie'|];
      [|split; [exact Hok | reflexivity]].
    destruct (add_record m 0 RECORD_COOKIE _) as [m1|] eqn:Hadd;
      [|split; [exact Hok | reflexivity]].
    destruct (add_record_keeps _ _ _ _ _ Hok Hadd) as (Hok1 & Hs1 & _).
    destruct (IH (S i) cookie' m1 Hok1) as [H1 H2]. split; [exact H1 | congruence].
Qed.

(** Whatever [prepare_response] returns, it leaves a message in order of
    which nothing is sent yet. *)
Lemma prepare_response_keeps (ring : KeyRing) (nonces : nat -> list byte)
    (cookie0 : NKE_Cookie) (inst : NKE_Instance) (error np aead : Z) :
  message_ok (i_message inst) ->
  let m := i_message (snd (prepare_response ring nonces cookie0 inst error np aead)) in
  message_ok m /\ m_sent m = 0.
Proof.
  intros Hok. pose proof (message_ok_reset _ Hok) as Hok0.
  unfold prepare_response.
  set (m0 := reset_message (i_message inst)) in *.
  assert (Hs0 : m_sent m0 = 0) by reflexivity.
  assert (Hfin : forall (ok : bool) (m1 : NKE_Message),
             message_ok m1 -> m_sent m1 = 0 ->
             let m := i_message (snd (if ok then
                                        match add_record m1 1 RECORD_END_OF_MESSAGE [] with
                                        | Some m2 => (1, set_message inst m2)
                                        | None => (0, set_message inst m1)
                                        end
                                      else (0, set_message inst m1))) in
             message_ok m /\ m_sent m = 0).
  { intros ok m1 Hok1 Hs1. destruct ok; [|split; assumption].
    destruct (add_record m1 1 RECORD_END_OF_MESSAGE []) as [m2|] eqn:Hadd;
      [|split; assumption].
    destruct (add_record_keeps _ _ _ _ _ Hok1 Hadd) as (Hok2 & Hs2 & _).
    split; [exact Hok2 | cbn [snd i_message set_message]; congruence]. }
  destruct (negb (error =? ERROR_NONE)).
  { destruct (add_record m0 1 RECORD_ERROR (htons error)) as [m1|] eqn:Hadd.
    - destruct (add_record_keeps _ _ _ _ _ Hok0 Hadd) as (Hok1 & Hs1 & _).
      apply (Hfin true m1 Hok1). congruence.
    - apply (Hfin false m0 Hok0 Hs0). }
  destruct (add_record m0 1 RECORD_NEXT_PROTOCOL (htons np)) as [ma|] eqn:Ha;
    [|apply (Hfin false m0 Hok0 Hs0)].
  destruct (add_record_keeps _ _ _ _ _ Hok0 Ha) as (Hoka & Hsa & _).
  destruct (add_record ma 1 RECORD_AEAD_ALGORITHM (htons aead)) as [mb|] eqn:Hb;
    [|apply (Hfin false ma Hoka); congruence].
  destruct (add_record_keeps _ _ _ _ _ Hoka Hb) as (Hokb & Hsb & _).
  assert (Hport : forall port, port = (if negb (CNF_GetNTPPort =? NTP_PORT)
                                       then add_record mb 1 RECORD_NTPV4_PORT_NEGOTIATION
                                              (htons CNF_GetNTPPort)
                                       else Some mb) ->
                               forall mc, port = Some mc -> message_ok mc /\ m_sent mc = 0).
  { intros port -> mc. destruct (negb (CNF_GetNTPPort =? NTP_PORT)).
    - intros Hc. destruct (add_record_keeps _ _ _ _ _ Hokb Hc) as (Hokc & Hsc & _).
      split; [exact Hokc | congruence].
    - intros H. injection H as <-. split; [exact Hokb | congruence]. }
  specialize (Hport _ eq_refl).
  destruct (if negb (CNF_GetNTPPort =? NTP_PORT)
            then add_record mb 1 RECORD_NTPV4_PORT_NEGOTIATION (htons CNF_GetNTPPort)
            else Some mb) as [mc|];
    [|apply (Hfin false mb Hokb); congruence].
  destruct (Hport mc eq_refl) as [Hokc Hsc].
  destruct (NKE_GetKeys inst) as [[c2s s2c]|]; [|apply (Hfin false mc Hokc Hsc)].
  destruct (add_cookies_keeps ring c2s s2c nonces (Z.to_nat MAX_COOKIES) O cookie0 mc Hokc)
    as [Hokd Hsd].
  destruct (add_cookies (Z.to_nat MAX_COOKIES) 0 ring c2s s2c nonces cookie0 mc)
    as [ok md]. cbn [snd] in Hokd, Hsd.
  apply (Hfin ok md Hokd). congruence.
Qed.

Lemma prepare_request_keeps (inst : NKE_Instance) :
  message_ok (i_message inst) ->
  let m := i_message (snd (prepare_request inst)) in
  message_ok m /\ m_sent m = 0.
Proof.
  intros Hok. pose proof (message_ok_reset _ Hok) as Hok0.
  unfold prepare_request.
  set (m0 := reset_message (i_message inst)) in *.
  assert (Hs0 : m_sent m0 = 0) by reflexivity.
  destruct (add_record m0 1 RECORD_NEXT_PROTOCOL _) as [m1|] eqn:H1;
    [|split; assumption].
  destruct (add_record_keeps _ _ _ _ _ Hok0 H1) as (Hok1 & Hs1 & _).
  destruct (add_record m1 1 RECORD_AEAD_ALGORITHM _) as [m2|] eqn:H2;
    [|split; [exact Hok1 | cbn [snd i_message set_message]; congruence]].
  destruct (add_record_keeps _ _ _ _ _ Hok1 H2) as (Hok2 & Hs2 & _).
  destruct (add_record m2 1 RECORD_END_OF_MESSAGE []) as [m3|] eqn:H3;
    [|split; [exact Hok2 | cbn [snd i_message set_message]; congruence]].
  destruct (add_record_keeps _ _ _ _ _ Hok2 H3) as (Hok3 & Hs3 & _).
  split; [exact Hok3 | cbn [snd i_message set_message]; congruence].
Qed.

Lemma process_request_keeps (ring : KeyRing) (nonces : nat -> list byte)
    (cookie0 : NKE_Cookie) (data0 : list byte) (inst inst' : NKE_Instance) (r : Z) :
  message_ok (i_message inst) ->
  process_request ring nonces cookie0 data0 inst = Some (r, inst') ->
  r = 1 /\ message_ok (i_message inst') /\ m_sent (i_message inst') = 0.
Proof.
  intros Hok. unfold process_request, request_verdict.
  destruct (request_loop _ _ _) as [[m1 q]|] eqn:Hrun; [|discriminate].
  assert (Hok1 : message_ok m1).
  { rewrite (request_loop_message _ _ _ _ _ Hrun).
    apply message_ok_set_parsed. rewrite reset_message_parsing_set_parsed.
    apply message_ok_set_parsed, Hok. }
  pose proof (prepare_response_keeps ring nonces cookie0 (set_message inst m1)
                (if q_has_next_protocol q =? 0 then ERROR_BAD_REQUEST else q_error q)
                (q_next_protocol q) (q_aead_algorithm q) Hok1) as Hkeep.
  cbv zeta in Hkeep.
  destruct (prepare_response _ _ _ _ _ _ _) as [r0 i0]. cbn [snd] in Hkeep.
  intros H. injection H as <- <-. split; [reflexivity | exact Hkeep].
Qed.


Lemma connection_ok_closed (inst : NKE_Instance_Record) :
  connection_ok inst -> connection_ok (fst (close_connection inst)).
Proof.
  unfold connection_ok. destruct (close_connection_mode inst) as (_ & _ & ->). tauto.
Qed.

Lemma connection_ok_parsed (inst : NKE_Instance_Record) (m : NKE_Message) :
  connection_ok inst -> m = set_parsed (n_message inst) (m_parsed m) ->
  connection_ok (set_n_message inst m).
Proof.
  intros [Hok Hs] ->. split; [apply message_ok_set_parsed, Hok | exact Hs].
Qed.

Lemma receive_keeps (answers : list (Z * list byte * Z)) :
  forall (inst : NKE_Instance_Record) (step : Step NKE_Instance_Record),
    connection_ok inst ->
    recv_ok (m_length (n_message inst)) answers ->
    receive answers inst = Some step ->
    connection_ok (step_result step).
Proof.
  induction answers as [|[[r bytes] pending] answers IH]; intros inst step Hok Hrecv;
    cbn [receive].
  - destruct (m_length (n_message inst) >=? MAX_MESSAGE_LENGTH); [|discriminate].
    pose proof (connection_ok_closed inst Hok) as Hc.
    destruct (close_connection inst) as [i c]. intros H. injection H as <-. exact Hc.
  - destruct (m_length (n_message inst) >=? MAX_MESSAGE_LENGTH) eqn:Hfull.
    { pose proof (connection_ok_closed inst Hok) as Hc.
      destruct (close_connection inst) as [i c]. intros H. injection H as <-. exact Hc. }
    destruct (Z.ltb_spec r 0) as [Hneg|Hpos].
    { destruct (gnutls_error_is_fatal r).
      - pose proof (connection_ok_closed inst Hok) as Hc.
        destruct (close_connection inst) as [i c]. intros H. injection H as <-. exact Hc.
      - intros H. injection H as <-. exact Hok. }
    cbn [recv_ok] in Hrecv. destruct Hrecv as [Hrecv|(Hroom & Hlen & Hrest)]; [lia|].
    destruct Hok as [[Hl Hd] Hs].
    set (m' := {| m_length := m_length (n_message inst) + r;
                  m_sent := m_sent (n_message inst);
                  m_eof := if r =? 0 then 1 else m_eof (n_message inst);
                  m_parsed := m_parsed (n_message inst);
                  m_data := memcpy (m_data (n_message inst)) (m_length (n_message inst))
                              bytes |}).
    assert (Hok' : connection_ok (set_n_message inst m')).
    { split; [split|]; cbn [n_message set_n_message m_length m_sent m_data m'].
      - lia.
      - rewrite length_memcpy; [exact Hd | lia | lia].
      - lia. }
    destruct (pending >? 0).
    + apply IH; [exact Hok' | exact Hrest].
    + intros H. injection H as <-. exact Hok'.
Qed.

Lemma update_state_keeps (ring : KeyRing) (scratch : Scratch)
    (selected : option (list byte)) (inst inst' : NKE_Instance_Record)
    (calls : list Call) :
  connection_ok inst ->
  update_state ring scratch selected inst = Some (inst', calls) ->
  connection_ok inst'.
Proof.
  intros Hok. unfold update_state.
  assert (Hclose : forall i : NKE_Instance_Record,
             connection_ok i -> Some (close_connection i) = Some (inst', calls) ->
             connection_ok inst').
  { intros i Hi H. injection H as H.
    pose proof (connection_ok_closed i Hi) as Hc. rewrite H in Hc. exact Hc. }
  assert (Henter : forall (i : NKE_Instance_Record) (s : NtsKeState) (e : Z),
             connection_ok i -> Some (enter i s e) = Some (inst', calls) ->
             connection_ok inst').
  { intros i s e Hi H. injection H as <- <-. exact Hi. }
  assert (Hview : forall view view' : NKE_Instance,
             exchange_view inst = Some view ->
             message_ok (i_message view') -> m_sent (i_message view') = 0 ->
             connection_ok (set_n_message inst (i_message view'))).
  { intros view view' _ Hm Hs. split; [exact Hm|].
    cbn [n_message set_n_message]. rewrite Hs. destruct Hm as [Hl _]. lia. }
  destruct (check_message_format_message (n_message inst)) as (f & m1 & Hfmt & Hm1).
  pose proof (connection_ok_parsed inst m1 Hok Hm1) as Hok1.
  destruct (n_mode inst); [discriminate| |]; destruct (n_state inst); try discriminate.
  - apply Henter, Hok.
  - destruct (check_alpn selected =? 0); [apply Hclose | apply Henter]; exact Hok.
  - apply Henter, Hok.
  - rewrite Hfmt. destruct f.
    + intros H. injection H as <- <-. exact Hok1.
    + apply Hclose, Hok1.
    + unfold exchange_view. cbn [n_session set_n_message].
      destruct (n_session inst) as [session|]; [|discriminate].
      destruct (process_request _ _ _ _ _) as [[r view']|] eqn:Hreq; [|discriminate].
      apply process_request_keeps in Hreq; [|cbn [i_message n_message]; apply Hok1].
      destruct Hreq as (-> & Hm & Hs). change (1 =? 0) with false. cbv iota.
      apply Henter. split; [exact Hm|].
      cbn [n_message set_n_message]. rewrite Hs. destruct Hm as [Hl _]. lia.
  - apply Hclose, Hok.
  - apply Henter, Hok.
  - destruct (check_alpn selected =? 0); [apply Hclose, Hok|].
    unfold exchange_view. destruct (n_session inst) as [session|]; [|discriminate].
    pose proof (prepare_request_keeps {| i_session := session; i_message := n_message inst |}
                  (proj1 Hok)) as Hkeep. cbv zeta in Hkeep.
    destruct (prepare_request _) as [r view']. cbn [snd] in Hkeep.
    assert (Hok' : connection_ok (set_n_message inst (i_message view'))).
    { destruct Hkeep as [Hm Hs]. split; [exact Hm|].
      cbn [n_message set_n_message]. rewrite Hs. destruct Hm as [Hl _]. lia. }
    destruct (r =? 0); [apply Hclose | apply Henter]; exact Hok'.
  - apply Henter. split; [apply message_ok_reset, Hok|].
    cbn [n_message set_n_message reset_message m_sent m_length]. lia.
  - rewrite Hfmt. destruct f.
    + intros H. injection H as <- <-. exact Hok1.
    + apply Hclose, Hok1.
    + apply Henter, Hok1.
  - apply Hclose, Hok.
Qed.

(** X21.  The handlers keep the message of an instance in order.  When
    the message lies within the array, with no more sent than it holds,
    and [gnutls_record_send] and [gnutls_record_recv] return no more than
    they were asked for, then after a run of [read_write_socket] the message
    again lies within the array, [length] is at most the size of the array
    and [sent] is at most [length]. *)
Theorem read_write_socket_keeps (ring : KeyRing) (scratch : Scratch) (event : Z)
    (answers : Answers) (inst inst' : NKE_Instance_Record) (calls : list Call) :
  connection_ok inst ->
  send answers <= m_length (n_message inst) - m_sent (n_message inst) ->
  recv_ok (m_length (n_message inst)) (recv answers) ->
  read_write_socket ring scratch event answers inst = Some (inst', calls) ->
  connection_ok inst'.
Proof.
  intros Hok Hsend Hrecv. unfold read_write_socket.
  destruct (socket_event event answers inst) as [step|] eqn:Hev; [|discriminate].
  assert (Hstep : connection_ok (step_result step)).
  { unfold socket_event in Hev.
    pose proof (connection_ok_closed inst Hok) as Hc.
    destruct (close_connection inst) as [ic cc]. cbn [fst] in Hc.
    destruct (n_state inst); try discriminate.
    - destruct (negb (event =? SCH_FILE_OUTPUT));
        [|destruct (negb (socket_error answers =? 0))];
        injection Hev as <-; assumption.
    - destruct (handshake answers <? 0);
        [destruct (gnutls_error_is_fatal (handshake answers))|];
        injection Hev as <-; assumption.
    - destruct (Z.ltb_spec (send answers) 0) as [Hneg|Hpos].
      + destruct (gnutls_error_is_fatal (send answers)); injection Hev as <-; assumption.
      + assert (Hok' : connection_ok
                         (set_n_message inst
                            {| m_length := m_length (n_message inst);
                               m_sent := m_sent (n_message inst) + send answers;
                               m_eof := m_eof (n_message inst);
                               m_parsed := m_parsed (n_message inst);
                               m_data := m_data (n_message inst) |})).
        { destruct Hok as [[Hl Hd] Hs]. split; [split; assumption|].
          cbn [n_message set_n_message m_sent m_length]. lia. }
        destruct (m_sent (n_message inst) + send answers <? m_length (n_message inst));
          injection Hev as <-; exact Hok'.
    - apply (receive_keeps _ _ _ Hok Hrecv Hev).
    - destruct (bye answers <? 0);
        [destruct (gnutls_error_is_fatal (bye answers))|];
        injection Hev as <-; assumption. }
  destruct step as [i c|i c|i c]; cbn [step_result] in Hstep.
  - intros H. injection H as <- <-. exact Hstep.
  - intros H. injection H as <- <-. exact Hstep.
  - destruct (update_state ring scratch (selected_protocol answers) i) as [[i2 c2]|] eqn:Hup;
      [|discriminate].
    intros H. injection H as <- <-. apply (update_state_keeps _ _ _ _ _ _ Hstep Hup).
Qed.

End ConnectionMessages.

Lemma read_write_socket_keeps_witness :
  exists inst2 calls2,
    @KeConn.read_write_socket Sample.siv Sample.ke_env SampleKe.tls Sample.ring1
      SampleKe.scratch 1 SampleKe.two_parts SampleKe.listening = Some SampleKe.answered /\
    KeConn.n_state (fst SampleKe.answered) = KeConn.KE_SEND /\
    KeConn.connection_ok (fst SampleKe.answered) /\
    @KeConn.read_write_socket Sample.siv Sample.ke_env SampleKe.tls Sample.ring1
      SampleKe.scratch 2 SampleKe.sends_ten (fst SampleKe.answered) = Some (inst2, calls2) /\
    NtsKe.m_sent (KeConn.n_message inst2) = 10 /\
    KeConn.connection_ok inst2.
Proof.
  assert (H1 : @KeConn.read_write_socket Sample.siv Sample.ke_env SampleKe.tls Sample.ring1
                 SampleKe.scratch 1 SampleKe.two_parts SampleKe.listening
               = Some SampleKe.answered) by (vm_compute; reflexivity).
  assert (H2 : KeConn.connection_ok (fst SampleKe.answered)).
  { apply (@read_write_socket_keeps Sample.siv Sample.ke_env SampleKe.tls Sample.ring1
             SampleKe.scratch 1 SampleKe.two_parts SampleKe.listening
             (fst SampleKe.answered) (snd SampleKe.answered)).
    - split; [split|]; vm_compute; try reflexivity; split; discriminate.
    - vm_compute. discriminate.
    - right. split; [vm_compute; discriminate|]. split; [reflexivity|].
      right. split; [vm_compute; discriminate|]. split; [reflexivity | exact I].
    - rewrite H1. now destruct SampleKe.answered. }
  assert (H3 : option_map (fun x => NtsKe.m_sent (KeConn.n_message (fst x)))
                 (@KeConn.read_write_socket Sample.siv Sample.ke_env SampleKe.tls
                    Sample.ring1 SampleKe.scratch 2 SampleKe.sends_ten
                    (fst SampleKe.answered)) = Some 10) by (vm_compute; reflexivity).
  destruct (@KeConn.read_write_socket Sample.siv Sample.ke_env SampleKe.tls
              Sample.ring1 SampleKe.scratch 2 SampleKe.sends_ten (fst SampleKe.answered))
    as [[inst2 calls2]|] eqn:H4; [|discriminate].
  exists inst2, calls2.
  split; [exact H1|]. split; [vm_compute; reflexivity|]. split; [exact H2|].
  split; [reflexivity|]. split; [injection H3 as H3; exact H3|].
  apply (@read_write_socket_keeps Sample.siv Sample.ke_env SampleKe.tls Sample.ring1
           SampleKe.scratch 2 SampleKe.sends_ten (fst SampleKe.answered) inst2 calls2).
  - exact H2.
  - vm_compute. discriminate.
  - exact I.
  - exact H4.
Defined.

Section ServerWithoutKeys.

Import NtsKe KeRead KeConn.

Context {Siv : SIV} {E : KeEnv} {T : Tls}.

(** [prepare_response] when [NKE_GetKeys] fails: it returns 0 and leaves
    the records written before. *)
Lemma prepare_response_no_keys (ring : KeyRing) (nonces : nat -> list byte)
    (cookie0 : NKE_Cookie) (inst : NKE_Instance) (np aead : Z) :
  message_ok (i_message inst) -> NKE_GetKeys inst = None ->
  exists m,
    prepare_response ring nonces cookie0 inst ERROR_NONE np aead = (0, set_message inst m) /\
    message_ok m /\
    contents m = encode_records (response_head np aead).
Proof.
  intros Hok Hkeys. unfold prepare_response.
  change (negb (ERROR_NONE =? ERROR_NONE)) with false. cbv iota.
  pose proof (message_ok_reset _ Hok) as Hok0.
  destruct (add_record_ok (reset_message (i_message inst)) 1 RECORD_NEXT_PROTOCOL
              (htons np) Hok0)
    as (m1 & -> & Hok1 & Hl1 & Hc1 & _);
    [rewrite zlength_htons; lia | rewrite zlength_htons; vm_compute; discriminate |].
  rewrite zlength_htons in Hl1. change (m_length (reset_message _)) with 0 in Hl1.
  unfold sizeof_header in Hl1.
  destruct (add_record_ok m1 1 RECORD_AEAD_ALGORITHM (htons aead) Hok1)
    as (m2 & -> & Hok2 & Hl2 & Hc2 & _);
    [rewrite zlength_htons; lia
    | rewrite zlength_htons, Hl1; vm_compute; discriminate |].
  rewrite zlength_htons in Hl2. unfold sizeof_header in Hl2.
  unfold response_head. destruct (CNF_GetNTPPort =? NTP_PORT); cbn [negb].
  - rewrite Hkeys. exists m2. split; [reflexivity|]. split; [exact Hok2|].
    rewrite Hc2, Hc1, contents_reset. reflexivity.
  - destruct (add_record_ok m2 1 RECORD_NTPV4_PORT_NEGOTIATION (htons CNF_GetNTPPort) Hok2)
      as (m3 & -> & Hok3 & Hl3 & Hc3 & _);
      [rewrite zlength_htons; lia
      | rewrite zlength_htons; unfold sizeof_header, MAX_MESSAGE_LENGTH; lia |].
    rewrite Hkeys. exists m3. split; [reflexivity|]. split; [exact Hok3|].
    rewrite Hc3, Hc2, Hc1, contents_reset. reflexivity.
Qed.

(** A message that ends with the records of [response_head] is not
    accepted. *)
Lemma response_head_not_final (m : NKE_Message) (np aead : Z) :
  message_ok m -> contents m = encode_records (response_head np aead) ->
  option_map fst (check_message_format m) = Some MSG_ERROR.
Proof.
  intros Hok Hc. unfold response_head in Hc.
  destruct (CNF_GetNTPPort =? NTP_PORT).
  - rewrite app_nil_r in Hc.
    rewrite (check_format_last m
               [{| rec_critical := true; rec_type := RECORD_NEXT_PROTOCOL;
                   rec_body := htons np |}]
               {| rec_critical := true; rec_type := RECORD_AEAD_ALGORITHM;
                  rec_body := htons aead |} Hok); [reflexivity | | exact Hc].
    repeat constructor; try (vm_compute; discriminate).
  - rewrite (check_format_last m
               [{| rec_critical := true; rec_type := RECORD_NEXT_PROTOCOL;
                   rec_body := htons np |};
                {| rec_critical := true; rec_type := RECORD_AEAD_ALGORITHM;
                   rec_body := htons aead |}]
               {| rec_critical := true; rec_type := RECORD_NTPV4_PORT_NEGOTIATION;
                  rec_body := htons CNF_GetNTPPort |} Hok); [reflexivity | | exact Hc].
    repeat constructor; try (vm_compute; discriminate).
Qed.

(** X22.  A server sends a response also when the keys cannot be exported.
    For a request that [check_message_format] accepts and in which
    [process_request] finds no error, [update_state] goes from receiving to
    sending although [prepare_response] has failed at [NKE_GetKeys]: the
    message to send holds the negotiated values only, without a cookie and
    without the final record, and [check_message_format] answers Error for
    a message with these bytes. *)
Theorem server_answers_without_keys (ring : KeyRing) (scratch : Scratch)
    (selected : option (list byte)) (inst : NKE_Instance_Record) (session : Session) :
  n_mode inst = KE_SERVER -> n_state inst = KE_RECEIVE ->
  n_session inst = Some session ->
  message_ok (n_message inst) ->
  option_map fst (check_message_format (n_message inst)) = Some MSG_OK ->
  request_error (s_data scratch) (n_message inst) = Some ERROR_NONE ->
  NKE_GetKeys {| i_session := session; i_message := n_message inst |} = None ->
  exists inst' np aead,
    update_state ring scratch selected inst
    = Some (inst', [SCH_SetFileHandlerEvent (n_sock_fd inst) SCH_FILE_OUTPUT 1]) /\
    n_state inst' = KE_SEND /\
    contents (n_message inst') = encode_records (response_head np aead) /\
    forall m, message_ok m -> contents m = contents (n_message inst') ->
              option_map fst (check_message_format m) = Some MSG_ERROR.
Proof.
  intros Hmode Hstate Hsession Hok Hfmt Herr Hkeys.
  destruct (check_message_format_message (n_message inst)) as (f & m1 & Hcheck & Hm1).
  rewrite Hcheck in Hfmt. cbn [option_map fst] in Hfmt. injection Hfmt as ->.
  unfold update_state. rewrite Hmode, Hstate, Hcheck.
  unfold exchange_view. cbn [n_session set_n_message]. rewrite Hsession.
  unfold request_error in Herr. unfold process_request.
  assert (Hv : request_verdict (s_data scratch) m1
               = request_verdict (s_data scratch) (n_message inst))
    by (rewrite Hm1; reflexivity).
  cbn [i_message n_message set_n_message]. rewrite Hv.
  destruct (request_verdict (s_data scratch) (n_message inst)) as [[m2 [[e np] aead]]|] eqn:Hrun;
    [|discriminate].
  cbn [option_map fst snd] in Herr. injection Herr as ->.
  assert (Hok2 : message_ok m2).
  { unfold request_verdict in Hrun.
    destruct (request_loop _ _ _) as [[m q]|] eqn:Hloop; [|discriminate].
    injection Hrun as <- _ _ _. rewrite (request_loop_message _ _ _ _ _ Hloop).
    apply message_ok_set_parsed. rewrite reset_message_parsing_set_parsed.
    apply message_ok_set_parsed, Hok. }
  destruct (prepare_response_no_keys ring (s_nonces scratch) (s_cookie scratch)
              (set_message {| i_session := session; i_message := m1 |} m2) np aead Hok2 Hkeys)
    as (m3 & Hprep & Hok3 & Hc3).
  rewrite Hprep. change (1 =? 0) with false. cbv iota.
  eexists. exists np, aead. split; [reflexivity|].
  cbn [n_state n_message set_state set_n_message i_message set_message].
  split; [reflexivity|]. split; [exact Hc3|].
  intros m Hokm Hcm. rewrite Hc3 in Hcm. apply (response_head_not_final m np aead Hokm Hcm).
Qed.

End ServerWithoutKeys.

Lemma server_answers_without_keys_witness :
  exists inst' np aead,
    @KeConn.update_state Sample.siv SampleKe.ke_env_no_keys SampleKe.tls Sample.ring1
      SampleKe.scratch None SampleKe.serving_no_keys
    = Some (inst', [KeConn.SCH_SetFileHandlerEvent 7 2 1]) /\
    KeConn.n_state inst' = KeConn.KE_SEND /\
    NtsKe.contents (KeConn.n_message inst')
    = NtsKe.encode_records (@KeRead.response_head SampleKe.ke_env_no_keys np aead).
Proof.
  destruct (@server_answers_without_keys Sample.siv SampleKe.ke_env_no_keys SampleKe.tls
              Sample.ring1 SampleKe.scratch None SampleKe.serving_no_keys tt)
    as (inst' & np & aead & H1 & H2 & H3 & _).
  - reflexivity.
  - reflexivity.
  - reflexivity.
  - split; vm_compute; [split; discriminate | reflexivity].
  - vm_compute. reflexivity.
  - vm_compute. reflexivity.
  - reflexivity.
  - exists inst', np, aead. repeat split; assumption.
Defined.

Section AcceptFacts.

Import NtsKe KeRead KeConn.

Context {Siv : SIV} {E : KeEnv} {T : Tls}.

(** What the loop of [accept_connection] finds: the first slot that is
    NULL or holds a closed instance; every slot before it is in use. *)
Lemma find_slot_first (server : Server) (rounds : nat) :
  forall (i : nat) (found : Found),
    find_slot rounds i server = Some found ->
    match found with
    | FoundNull k =>
        (i <= k < i + rounds)%nat /\ slot_at server k = Null /\
        forall j, (i <= j < k)%nat -> in_use server j
    | FoundClosed k address inst =>
        (i <= k < i + rounds)%nat /\ slot_at server k = Points address inst /\
        is_closed (n_state inst) = true /\
        forall j, (i <= j < k)%nat -> in_use server j
    | FoundNone => forall j, (i <= j < i + rounds)%nat -> in_use server j
    end.
Proof.
  induction rounds as [|rounds IH]; intros i found; cbn [find_slot].
  - intros H. injection H as <-. intros j Hj. lia.
  - destruct (slot_at server i) as [|address inst|address] eqn:Hslot; [| |discriminate].
    + intros H. injection H as <-. repeat split; try lia. exact Hslot.
    + destruct (is_closed (n_state inst)) eqn:Hclosed.
      * intros H. injection H as <-. repeat split; try lia; assumption.
      * intros H. apply IH in H.
        assert (Hi : in_use server i) by (exists address, inst; split; assumption).
        destruct found as [k|k a ins|].
        -- destruct H as (Hk & Hnull & Hbefore). repeat split; try lia; [exact Hnull|].
           intros j Hj. destruct (Nat.eq_dec j i) as [->|Hne]; [exact Hi|].
           apply Hbefore. lia.
        -- destruct H as (Hk & Hp & Hc & Hbefore). repeat split; try lia; try assumption.
           intros j Hj. destruct (Nat.eq_dec j i) as [->|Hne]; [exact Hi|].
           apply Hbefore. lia.
        -- intros j Hj. destruct (Nat.eq_dec j i) as [->|Hne]; [exact Hi|].
           apply H. lia.
Qed.

Lemma find_slot_dangles (server : Server) (k address : nat) (rounds : nat) :
  forall i : nat,
    (i <= k < i + rounds)%nat ->
    (forall j, (i <= j < k)%nat -> in_use server j) ->
    slot_at server k = Dangles address ->
    find_slot rounds i server = None.
Proof.
  induction rounds as [|rounds IH]; intros i Hk Hbefore Hd; [lia|].
  cbn [find_slot]. destruct (Nat.eq_dec i k) as [->|Hne].
  - rewrite Hd. reflexivity.
  - destruct (Hbefore i) as (a & inst & Hslot & Hactive); [lia|].
    rewrite Hslot, Hactive. apply IH; [lia | | exact Hd].
    intros j Hj. apply Hbefore. lia.
Qed.

Lemma slot_points (server : Server) (i address : nat) (inst : NKE_Instance_Record) :
  slot_at server i = Points address inst ->
  nth i (server_instances server) None = Some address /\
  nth address (heap server) None = Some inst /\
  (address < length (heap server))%nat.
Proof.
  unfold slot_at.
  destruct (nth i (server_instances server) None) as [a|]; [|discriminate].
  destruct (nth a (heap server) None) as [ins|] eqn:Hcell; [|discriminate].
  intros H. injection H as <- <-. repeat split; try assumption.
  destruct (Nat.lt_ge_cases a (length (heap server))) as [Hlt|Hge]; [exact Hlt|].
  rewrite nth_overflow in Hcell by exact Hge. discriminate.
Qed.

(** A slot in use is the same before and after a store into the cell of
    another instance. *)
Lemma in_use_set_heap (server : Server) (address : nat)
    (cell : option NKE_Instance_Record) (j : nat) :
  (forall inst, nth address (heap server) None = Some inst ->
                is_closed (n_state inst) = true) ->
  in_use server j ->
  slot_at (set_heap server address cell) j = slot_at server j.
Proof.
  intros Hclosed (a & inst & Hslot & Hactive).
  destruct (slot_points _ _ _ _ Hslot) as (Ht & Hh & _).
  unfold slot_at, set_heap. cbn [heap server_instances]. rewrite Ht, Hh.
  rewrite nth_set_nth_other, Hh; [reflexivity|].
  intros ->. rewrite (Hclosed inst Hh) in Hactive. discriminate.
Qed.


Lemma take_slot_spares (answers : Accepted) (server server1 : Server)
    (taken : option (nat * NKE_Instance_Record)) :
  take_slot answers server = Some (taken, server1) ->
  (forall j, in_use server j -> slot_at server1 j = slot_at server j) /\
  match taken with
  | None =>
      server1 = server /\
      forall j, (j < Z.to_nat MAX_SERVER_INSTANCES)%nat -> in_use server j
  | Some (address, inst) =>
      is_closed (n_state inst) = true /\
      nth address (heap server1) None = Some inst /\
      (address < length (heap server1))%nat /\
      exists i, (i < Z.to_nat MAX_SERVER_INSTANCES)%nat /\
                ~ in_use server i /\
                (forall j, (j < i)%nat -> in_use server j) /\
                ((i < length (server_instances server))%nat ->
                 nth i (server_instances server1) None = Some address)
  end.
Proof.
  unfold take_slot.
  destruct (find_slot (Z.to_nat MAX_SERVER_INSTANCES) 0 server) as [found|] eqn:Hfind;
    [|discriminate].
  apply find_slot_first in Hfind. destruct found as [k|k a inst|].
  - destruct Hfind as (Hk & Hnull & Hbefore).
    intros H. injection H as <- <-. split.
    + intros j (a & inst & Hslot & Hactive).
      destruct (slot_points _ _ _ _ Hslot) as (Ht & Hh & Hlt).
      assert (Hjk : k <> j).
      { intros ->. rewrite Hnull in Hslot. discriminate. }
      unfold slot_at. cbn [heap server_instances].
      rewrite nth_set_nth_other by exact Hjk. rewrite Ht.
      rewrite app_nth1 by exact Hlt. reflexivity.
    + split; [reflexivity|]. split.
      * cbn [heap]. rewrite app_nth2 by lia. rewrite Nat.sub_diag. reflexivity.
      * split; [cbn [heap]; rewrite length_app; cbn [length]; lia|].
        exists k. split; [lia|]. split.
        -- intros (a & inst & Hslot & _). rewrite Hnull in Hslot. discriminate.
        -- split.
           ++ intros j Hj. apply Hbefore. lia.
           ++ intros Hlen. cbn [server_instances]. apply nth_set_nth_same. exact Hlen.
  - destruct Hfind as (Hk & Hp & Hc & Hbefore).
    intros H. injection H as <- <-. split; [reflexivity|].
    destruct (slot_points _ _ _ _ Hp) as (Ht & Hh & Hlt).
    split; [exact Hc|]. split; [exact Hh|]. split; [exact Hlt|].
    exists k. split; [lia|]. split.
    + intros (a2 & i2 & Hs2 & Ha2). rewrite Hp in Hs2. injection Hs2 as <- <-.
      rewrite Hc in Ha2. discriminate.
    + split.
      * intros j Hj. apply Hbefore. lia.
      * intros _. exact Ht.
  - intros H. injection H as <- <-. split; [reflexivity|]. split; [reflexivity|].
    intros j Hj. apply Hfind. lia.
Qed.

Lemma in_use_same (server server1 : Server) (j : nat) :
  slot_at server1 j = slot_at server j -> in_use server j -> in_use server1 j.
Proof. intros Heq (a & inst & Hslot & Hactive). exists a, inst. now rewrite Heq. Qed.

(** X23.  [accept_connection] never takes the slot of a connection in
    progress: whatever it does, every slot of [server_instances] that
    pointed to an instance that was not closed points to the same instance
    afterwards, unchanged.  When all ten slots are in use and a connection
    arrives that may be served, it changes nothing and closes the
    descriptor it was given. *)
Theorem accept_connection_spares (answers : Accepted) (server server' : Server)
    (calls : list Call) :
  accept_connection answers server = Some (server', calls) ->
  (forall j, in_use server j -> slot_at server' j = slot_at server j) /\
  ((forall j, (j < Z.to_nat MAX_SERVER_INSTANCES)%nat -> in_use server j) ->
   0 <= accepted_fd answers -> access_allowed answers <> 0 ->
   server' = server /\ calls = [close (accepted_fd answers)]).
Proof.
  unfold accept_connection.
  destruct (Z.ltb_spec (accepted_fd answers) 0) as [Hfd|Hfd].
  { intros H. injection H as <- <-. split; [reflexivity | lia]. }
  destruct (Z.eqb_spec (access_allowed answers) 0) as [Hacc|Hacc].
  { intros H. injection H as <- <-. split; [reflexivity | intros _ _ Hn; now destruct Hn]. }
  destruct (take_slot answers server) as [[taken server1]|] eqn:Htake; [|discriminate].
  apply take_slot_spares in Htake. destruct Htake as [Hspare Htaken].
  destruct taken as [[address inst]|].
  - destruct Htaken as (Hclosed & Hcell & _ & i & Hi & Hfree & _).
    assert (Hset : forall cell j, in_use server j ->
                     slot_at (set_heap server1 address cell) j = slot_at server j).
    { intros cell j Hj. rewrite <- (Hspare j Hj). apply in_use_set_heap.
      - intros ins Hins. rewrite Hcell in Hins. injection Hins as <-. exact Hclosed.
      - apply (in_use_same server server1 j (Hspare j Hj) Hj). }
    assert (Hnot : (forall j, (j < Z.to_nat MAX_SERVER_INSTANCES)%nat -> in_use server j) ->
                   0 <= accepted_fd answers -> access_allowed answers <> 0 ->
                   server' = server /\ calls = [close (accepted_fd answers)]).
    { intros Hall. destruct (Hfree (Hall i Hi)). }
    destruct (negb (fcntl_result answers =? 0)).
    { intros H. injection H as <- <-. split; [exact Hspare | exact Hnot]. }
    destruct (accept_server_connection inst (accepted_fd answers) (created_session answers)
                (timeout answers)) as [[[r inst'] c]|]; [|discriminate].
    destruct (r =? 0); intros H; injection H as <- <-;
      (split; [intros j Hj; apply Hset, Hj | exact Hnot]).
  - destruct Htaken as [-> Hall]. intros H. injection H as <- <-.
    split; [exact Hspare|]. intros _ _ _. split; reflexivity.
Qed.

Lemma find_slot_finds (server : Server) (k : nat) (rounds : nat) :
  forall i : nat,
    (i <= k < i + rounds)%nat ->
    (forall j, (i <= j < k)%nat -> in_use server j) ->
    match slot_at server k with
    | Null => find_slot rounds i server = Some (FoundNull k)
    | Points address inst =>
        is_closed (n_state inst) = true ->
        find_slot rounds i server = Some (FoundClosed k address inst)
    | Dangles _ => True
    end.
Proof.
  induction rounds as [|rounds IH]; intros i Hk Hbefore; [lia|].
  destruct (Nat.eq_dec i k) as [->|Hne].
  - cbn [find_slot]. destruct (slot_at server k) as [|a inst|a]; [reflexivity | | exact I].
    intros ->. reflexivity.
  - specialize (IH (S i)).
    destruct (Hbefore i) as (a & inst & Hslot & Hactive); [lia|].
    assert (Hrest : forall j, (S i <= j < k)%nat -> in_use server j)
      by (intros j Hj; apply Hbefore; lia).
    specialize (IH ltac:(lia) Hrest).
    destruct (slot_at server k) as [|a' inst'|a'] eqn:Hk'; [| |exact I].
    + cbn [find_slot]. rewrite Hslot, Hactive. exact IH.
    + intros Hc. cbn [find_slot]. rewrite Hslot, Hactive. apply IH, Hc.
Qed.

(** X24.  When no session can be made for an accepted connection,
    [accept_connection] frees the instance it took and leaves the pointer to
    it in [server_instances]: the slot, which was NULL or held a closed
    instance, now points to freed memory.  The next [accept_connection] for
    a connection that may be served reads the freed instance. *)
Theorem accept_connection_dangles (answers : Accepted) (server : Server) (i : nat) :
  length (server_instances server) = Z.to_nat MAX_SERVER_INSTANCES ->
  0 <= accepted_fd answers -> access_allowed answers <> 0 ->
  fcntl_result answers = 0 -> created_session answers = None ->
  (i < Z.to_nat MAX_SERVER_INSTANCES)%nat ->
  (forall j, (j < i)%nat -> in_use server j) ->
  (slot_at server i = Null \/
   exists address inst, slot_at server i = Points address inst /\ n_state inst = KE_CLOSED) ->
  exists server' calls address,
    accept_connection answers server = Some (server', calls) /\
    slot_at server' i = Dangles address /\
    In (Free address) calls /\
    (forall j, (j < i)%nat -> in_use server' j) /\
    forall answers2 : Accepted,
      0 <= accepted_fd answers2 -> access_allowed answers2 <> 0 ->
      accept_connection answers2 server' = None.
Proof.
  intros Hlen Hfd Hacc Hfcntl Hcreated Hi Hbefore Hfree.
  assert (Hbefore0 : forall j, (0 <= j < i)%nat -> in_use server j)
    by (intros j Hj; apply Hbefore; lia).
  pose proof (find_slot_finds server i (Z.to_nat MAX_SERVER_INSTANCES) 0%nat
                ltac:(lia) Hbefore0) as Hfind.
  assert (Htake : exists address inst server1,
             take_slot answers server = Some (Some (address, inst), server1) /\
             n_state inst = KE_CLOSED /\
             nth i (server_instances server1) None = Some address).
  { unfold take_slot. destruct Hfree as [Hnull|(a & inst & Hp & Hc)].
    - rewrite Hnull in Hfind. rewrite Hfind.
      eexists. eexists. eexists. split; [reflexivity|]. split; [reflexivity|].
      cbn [server_instances]. apply nth_set_nth_same. lia.
    - rewrite Hp in Hfind. rewrite Hfind by (rewrite Hc; reflexivity).
      exists a, inst, server. split; [reflexivity|]. split; [exact Hc|].
      apply (slot_points _ _ _ _ Hp). }
  destruct Htake as (address & inst & server1 & Htake & Hstate & Htable).
  pose proof (take_slot_spares _ _ _ _ Htake) as [Hspare (Hclosed & Hcell & Hlt & _)].
  set (inst' := {| n_mode := n_mode inst; n_state := n_state inst;
                   n_sock_fd := n_sock_fd inst; n_session := None;
                   n_timeout_id := n_timeout_id inst; n_message := n_message inst;
                   n_remote_addr := n_remote_addr inst |}).
  set (calls := (match n_session inst with Some _ => [gnutls_deinit] | None => [] end)
                ++ NKE_DestroyInstance address inst' ++ [close (accepted_fd answers)]).
  exists (set_heap server1 address None), calls, address.
  assert (Hrun : accept_connection answers server
                 = Some (set_heap server1 address None, calls)).
  { unfold accept_connection.
    replace (accepted_fd answers <? 0) with false by (symmetry; apply Z.ltb_ge; lia).
    replace (access_allowed answers =? 0) with false by (symmetry; apply Z.eqb_neq; lia).
    rewrite Htake, Hfcntl. cbn [Z.eqb negb].
    unfold accept_server_connection, calls, inst'. rewrite Hstate, Hcreated. reflexivity. }
  assert (Hdangle : slot_at (set_heap server1 address None) i = Dangles address).
  { unfold slot_at, set_heap. cbn [heap server_instances]. rewrite Htable.
    rewrite nth_set_nth_same by exact Hlt. reflexivity. }
  assert (Huse : forall j, (j < i)%nat -> in_use (set_heap server1 address None) j).
  { intros j Hj. pose proof (Hbefore j Hj) as Hin.
    apply (in_use_same server).
    - rewrite <- (Hspare j Hin). apply in_use_set_heap.
      + intros ins Hins. rewrite Hcell in Hins. injection Hins as <-. exact Hclosed.
      + apply (in_use_same server server1 j (Hspare j Hin) Hin).
    - exact Hin. }
  split; [exact Hrun|]. split; [exact Hdangle|]. split.
  { unfold calls, NKE_DestroyInstance. rewrite !in_app_iff. right. left. right. right.
    left. reflexivity. }
  split; [exact Huse|].
  intros answers2 Hfd2 Hacc2. unfold accept_connection.
  replace (accepted_fd answers2 <? 0) with false by (symmetry; apply Z.ltb_ge; lia).
  replace (access_allowed answers2 =? 0) with false by (symmetry; apply Z.eqb_neq; lia).
  unfold take_slot.
  rewrite (find_slot_dangles (set_heap server1 address None) i address
             (Z.to_nat MAX_SERVER_INSTANCES) 0%nat); [reflexivity | lia | | exact Hdangle].
  intros j Hj. apply Huse. lia.
Qed.

End AcceptFacts.

Lemma accept_connection_dangles_witness :
  exists server' calls address,
    @KeConn.accept_connection Sample.ke_env SampleKe.tls SampleKe.no_session
      SampleKe.busy_server = Some (server', calls) /\
    KeConn.slot_at server' 2 = KeConn.Dangles address.
Proof.
  destruct (@accept_connection_dangles Sample.ke_env SampleKe.tls SampleKe.no_session
              SampleKe.busy_server 2) as (server' & calls & address & H1 & H2 & _).
  - reflexivity.
  - vm_compute. discriminate.
  - vm_compute. discriminate.
  - reflexivity.
  - reflexivity.
  - vm_compute. lia.
  - intros j Hj. destruct j as [|[|j]]; [| |lia];
      eexists; eexists; (split; [reflexivity | reflexivity]).
  - left. reflexivity.
  - exists server', calls, address. split; assumption.
Defined.

Lemma accept_connection_spares_witness :
  KeConn.slot_at
      (KeConn.set_heap
         (@KeConn.Build_Server Sample.ke_env
            (KeConn.heap SampleKe.busy_server
             ++ [Some (KeConn.NKE_CreateInstance (NtsKe.m_data NtsKe.blank_message))])
            (set_nth (KeConn.server_instances SampleKe.busy_server) 2 (Some 2%nat)))
         2 None) 1
  = KeConn.slot_at SampleKe.busy_server 1.
Proof.
  refine (proj1 (@accept_connection_spares Sample.ke_env SampleKe.tls SampleKe.no_session
                   SampleKe.busy_server _
                   ([] ++ KeConn.NKE_DestroyInstance 2
                             (@KeConn.Build_NKE_Instance_Record Sample.ke_env
                                KeConn.KE_UNKNOWN KeConn.KE_CLOSED KeConn.INVALID_SOCK_FD
                                None 0
                                (NtsKe.Build_NKE_Message 0 0 0 0
                                   (NtsKe.m_data NtsKe.blank_message)) None)
                        ++ [KeConn.close 9]) _) 1%nat _).
  - reflexivity.
  - exists 1%nat, SampleKe.serving. split; reflexivity.
Defined.

Section ClientResults.

Import NtsKe KeRead KeConn.

Context {Siv : SIV} {E : KeEnv} {T : Tls}.

Lemma record_ok_response_head (np aead : Z) : Forall record_ok (response_head np aead).
Proof.
  unfold response_head. apply Forall_app. split.
  - repeat constructor; vm_compute; discriminate.
  - destruct (CNF_GetNTPPort =? NTP_PORT); [constructor|].
    repeat constructor; try (vm_compute; discriminate).
Qed.

Lemma record_ok_cookie_records (ring : KeyRing) (c2s s2c : NKE_Key) (cs : list NKE_Cookie) :
  sizeof_ServerCookie <= NKE_MAX_COOKIE_LENGTH ->
  Forall (sealed ring c2s s2c) cs -> Forall record_ok (map cookie_record cs).
Proof.
  intros Hmax Hcs. apply Forall_map. apply Forall_impl with (2 := Hcs).
  intros c Hsealed. split.
  - vm_compute. split; [discriminate | reflexivity].
  - rewrite (zlength_cookie_body ring c2s s2c c Hmax Hsealed).
    unfold sizeof_ServerCookie. lia.
Qed.

(** A message of whole records none of which is the final record is not
    accepted. *)
Lemma check_format_not_final (m : NKE_Message) (rs : list KeRecord) :
  message_ok m -> Forall record_ok rs -> rs <> [] ->
  contents m = encode_records rs ->
  Forall (fun r => rec_type r <> RECORD_END_OF_MESSAGE) rs ->
  option_map fst (check_message_format m) = Some MSG_ERROR.
Proof.
  intros Hok Hrs Hne Hc Hnot.
  destruct (exists_last Hne) as (rs' & r & ->).
  rewrite (check_format_last m rs' r Hok Hrs Hc).
  apply Forall_app in Hnot. destruct Hnot as [_ Hr].
  inversion Hr as [|? ? Hr' _]; subst. unfold is_final.
  apply Z.eqb_neq in Hr'. rewrite Hr'. now rewrite andb_false_r.
Qed.

(** X25.  [NKE_GetCookies] does not wait for the end of the exchange.  For
    an instance in client mode, in whatever state, whose buffer holds the
    start of a response, the negotiated values and some cookies but no final
    record, it returns as many of these cookies as it was given room for,
    and [NKE_DecodeCookie] opens each; [check_message_format] answers Error
    for the same buffer. *)
Theorem get_cookies_before_end (ring : KeyRing) (c2s s2c : NKE_Key) (data0 : list byte)
    (inst : NKE_Instance_Record) (cs : list NKE_Cookie) (cookies : list NKE_Cookie)
    (max_cookies : Z) :
  n_mode inst = KE_CLIENT ->
  sizeof_ServerCookie <= NKE_MAX_COOKIE_LENGTH ->
  message_ok (n_message inst) ->
  contents (n_message inst)
  = encode_records (response_head NEXT_PROTOCOL_NTPV4 AEAD_AES_SIV_CMAC_256
                    ++ map cookie_record cs) ->
  Forall (sealed ring c2s s2c) cs ->
  0 <= max_cookies <= zlength cookies ->
  exists inst' cookies',
    NKE_GetCookies data0 inst cookies max_cookies
    = Some (Z.min (zlength cs) max_cookies, inst', cookies') /\
    n_state inst' = n_state inst /\
    (forall i, 0 <= i < Z.min (zlength cs) max_cookies ->
       NKE_DecodeCookie ring (aget NKE_Cookie_zero cookies' i) = Some (c2s, s2c)) /\
    option_map fst (check_message_format (n_message inst)) = Some MSG_ERROR.
Proof.
  intros Hmode Hmax Hok Hc Hcs Hroom.
  set (head := response_head NEXT_PROTOCOL_NTPV4 AEAD_AES_SIV_CMAC_256) in *.
  assert (Hrs : Forall record_ok (head ++ map cookie_record cs)).
  { apply Forall_app. split; [apply record_ok_response_head|].
    apply (record_ok_cookie_records ring c2s s2c cs Hmax Hcs). }
  destruct (process_response_encoded data0 (n_message inst) cookies max_cookies _ Hok Hrs Hc)
    as [m' Hresp]. cbv zeta in Hresp.
  destruct (response_run_head max_cookies cookies data0 (map cookie_record cs) Hmax)
    as (p1 & Hrun1 & Hag1 & Hn1 & Hc1 & _).
  fold head in Hrun1.
  destruct (response_run_cookies ring c2s s2c max_cookies Hmax cs p1 [])
    as (p2 & Hrun2 & Hag2 & Hn2 & _ & _ & _ & Hdec2);
    [exact Hag1 | lia | rewrite Hc1; lia | exact Hcs | intros i Hi; lia |].
  rewrite app_nil_r in Hrun2. cbn [response_run] in Hrun2.
  rewrite Hrun1, Hrun2 in Hresp.
  destruct Hag2 as (Hnp & Haead & Herr).
  rewrite Hnp, Haead, Herr, Hn2, Hn1 in Hresp. cbn [Z.eqb negb orb] in Hresp.
  rewrite Z.add_0_l in Hresp.
  unfold NKE_GetCookies. rewrite Hmode. cbn [is_client negb andb]. rewrite Hresp.
  eexists. eexists. split; [reflexivity|]. split; [reflexivity|]. split.
  - intros i Hi. apply Hdec2. rewrite Hn2, Hn1, Z.add_0_l. exact Hi.
  - apply (check_format_not_final _ (head ++ map cookie_record cs) Hok Hrs).
    + unfold head, response_head. discriminate.
    + exact Hc.
    + apply Forall_app. split.
      * unfold head, response_head. apply Forall_app. split.
        -- repeat constructor; discriminate.
        -- destruct (CNF_GetNTPPort =? NTP_PORT); repeat constructor; discriminate.
      * apply Forall_map. apply Forall_forall. intros c _. discriminate.
Qed.

(** X26.  [NKE_GetNtpAddress] depends on the port of the server.  For an
    instance in client mode whose buffer holds a response as
    [prepare_response] builds it, with at least one cookie: when the server
    uses the standard NTP port, the response has no port record and
    [NKE_GetNtpAddress] returns 0; when it uses another port, not a multiple
    of 65536, [NKE_GetNtpAddress] returns 1 with that port modulo 65536 and,
    as the response names no server, with the address the instance is
    connected to. *)
Theorem get_ntp_address_port (ring : KeyRing) (c2s s2c : NKE_Key) (data0 : list byte)
    (cookie0 : NKE_Cookie) (inst : NKE_Instance_Record) (cs : list NKE_Cookie) :
  n_mode inst = KE_CLIENT ->
  sizeof_ServerCookie <= NKE_MAX_COOKIE_LENGTH ->
  message_ok (n_message inst) ->
  contents (n_message inst)
  = encode_records (response_head NEXT_PROTOCOL_NTPV4 AEAD_AES_SIV_CMAC_256
                    ++ map cookie_record cs ++ [end_of_message]) ->
  Forall (sealed ring c2s s2c) cs -> cs <> [] ->
  exists inst',
    NKE_GetNtpAddress data0 cookie0 inst
    = Some (if (CNF_GetNTPPort =? NTP_PORT) || (CNF_GetNTPPort mod 65536 =? 0)
            then (0, inst', None)
            else (1, inst', Some (n_remote_addr inst, CNF_GetNTPPort mod 65536))).
Proof.
  intros Hmode Hmax Hok Hc Hcs Hne.
  assert (Hone : Z.min (zlength cs) 1 = 1).
  { destruct cs as [|c cs]; [now destruct Hne|].
    unfold zlength. cbn [length]. lia. }
  destruct (response_cookies_open ring c2s s2c data0 (n_message inst) cs [cookie0] 1
              Hmax Hok Hc Hcs) as (m' & p & _ & Hresp & _ & _ & Hport & Haddr);
    [change (zlength [cookie0]) with 1; lia|].
  rewrite Hone in Hresp.
  unfold NKE_GetNtpAddress. rewrite Hmode. cbn [is_client negb andb].
  rewrite Hresp, Hport, Haddr. change (1 =? 0) with false. cbv iota.
  exists (set_n_message inst m').
  destruct (CNF_GetNTPPort =? NTP_PORT); cbn [orb]; [reflexivity|].
  destruct (CNF_GetNTPPort mod 65536 =? 0); reflexivity.
Qed.

End ClientResults.

Lemma get_cookies_before_end_witness :
  exists inst' cookies',
    @KeConn.NKE_GetCookies Sample.ke_env [] SampleKe.receiving SampleKe.cookies 8
    = Some (1, inst', cookies').
Proof.
  destruct (@get_cookies_before_end Sample.siv Sample.ke_env Sample.ring1 Sample.c2s
              Sample.s2c [] SampleKe.receiving [SampleKe.sealed_cookie] SampleKe.cookies 8)
    as (inst' & cookies' & H & _).
  - reflexivity.
  - vm_compute. discriminate.
  - split; vm_compute; [split; discriminate | reflexivity].
  - vm_compute. reflexivity.
  - repeat constructor; vm_compute; reflexivity.
  - vm_compute. split; discriminate.
  - exists inst', cookies'. exact H.
Defined.

Lemma get_ntp_address_port_witness :
  exists inst',
    @KeConn.NKE_GetNtpAddress Sample.ke_env [] Sample.cookie_buffer SampleKe.received
    = Some (0, inst', None).
Proof.
  apply (@get_ntp_address_port Sample.siv Sample.ke_env Sample.ring1 Sample.c2s Sample.s2c
           [] Sample.cookie_buffer SampleKe.received [SampleKe.sealed_cookie]).
  - reflexivity.
  - vm_compute. discriminate.
  - split; vm_compute; [split; discriminate | reflexivity].
  - vm_compute. reflexivity.
  - repeat constructor; vm_compute; reflexivity.
  - discriminate.
Defined.

(** ** The cookies of a client *)

Section PoolFacts.

Import NtsKe NtsNtp KeConn NtsPrepare.

Context {Siv : SIV} {E : KeEnv} {T : Tls} {X : NtpExt}.

Lemma process_response_bound (data0 : list byte) (m m' : NKE_Message)
    (pool : list NKE_Cookie) (max_cookies r : Z) (p : Response) :
  0 <= max_cookies <= zlength pool ->
  process_response data0 m pool max_cookies = Some (r, m', p) ->
  0 <= r <= max_cookies /\ zlength (p_cookies p) = zlength pool.
Proof.
  intros Hmax. unfold process_response.
  destruct (response_loop_cookies_ok max_cookies
              (records_fuel (reset_message_parsing m)) (reset_message_parsing m)
              (response_start pool data0))
    as (m1 & p1 & Hrun & [Hnum _] & Hsize).
  - unfold records_fuel. cbn [m_length m_parsed reset_message_parsing]. lia.
  - cbn [p_cookies response_start]. lia.
  - split; cbn [p_num_cookies response_start]; [lia | intros i Hi; lia].
  - rewrite Hrun. cbn [p_cookies response_start] in Hsize.
    destruct (negb (p_next_protocol p1 =? NEXT_PROTOCOL_NTPV4) || _ || _);
      intros H; injection H as <- <- <-; split; try exact Hsize; lia.
Qed.

Lemma NKE_GetCookies_bound (data0 : list byte) (k k' : NKE_Instance_Record)
    (pool pool' : list NKE_Cookie) (max_cookies n : Z) :
  0 <= max_cookies <= zlength pool ->
  NKE_GetCookies data0 k pool max_cookies = Some (n, k', pool') ->
  0 <= n <= max_cookies /\ zlength pool' = zlength pool.
Proof.
  intros Hmax. unfold NKE_GetCookies.
  destruct (negb (is_client (n_mode k)) && negb (is_closed (n_state k))).
  - intros H. injection H as <- <- <-. split; [lia | reflexivity].
  - destruct (process_response data0 (n_message k) pool max_cookies) as [[[r m'] p]|] eqn:Hp;
      [|discriminate].
    intros H. injection H as <- <- <-. apply (process_response_bound _ _ _ _ _ _ _ Hmax Hp).
Qed.

Lemma get_nke_data_pool (addr : IPAddr) (answers : Opened) (inst inst' : NTS_Client)
    (calls : list Call) :
  pool_ok (base inst) ->
  get_nke_data addr answers inst = Some (inst', calls) ->
  pool_ok (base inst') /\
  nonce (base inst') = nonce (base inst) /\ uniq_id (base inst') = uniq_id (base inst) /\
  (num_cookies (base inst') <> 0 -> cookie_index (base inst') = 0 /\ nke inst' = None).
Proof.
  intros (Hsize & Hnum & Hidx & Hsum). unfold get_nke_data, needs_nke.
  destruct (Z.eqb_spec (num_cookies (base inst)) 0) as [H0|H0]; [|discriminate].
  cbn [negb].
  destruct (connect addr answers inst) as [[[[address k]|] c]|]; [| |discriminate].
  - destruct (NKE_GetCookies _ k (cookies (base inst)) MAX_COOKIES) as [[[n k'] pool]|] eqn:Hget;
      [|discriminate].
    apply NKE_GetCookies_bound in Hget; [|unfold MAX_COOKIES in *; lia].
    destruct Hget as [Hn Hpool].
    destruct (Z.eqb_spec n 0) as [Hn0|Hn0].
    + intros H. injection H as <- <-. cbn [base nke set_pool].
      unfold pool_ok. cbn [set_pool cookies num_cookies cookie_index nonce uniq_id].
      split; [lia|]. split; [reflexivity|]. split; [reflexivity|].
      intros Hne. destruct (Hne Hn0).
    + destruct (exchange_view k') as [view|]; [|discriminate].
      destruct (NKE_GetKeys view) as [[c2s s2c]|]; intros H; injection H as <- <-;
        cbn [base nke set_pool]; unfold pool_ok;
        cbn [set_pool cookies num_cookies cookie_index nonce uniq_id].
      * split; [lia|]. split; [reflexivity|]. split; [reflexivity|].
        intros _. split; reflexivity.
      * split; [lia|]. split; [reflexivity|]. split; [reflexivity|].
        intros Hne. destruct (Hne eq_refl).
  - intros H. injection H as <- <-. cbn [base nke].
    split; [repeat split; assumption|]. split; [reflexivity|]. split; [reflexivity|].
    intros Hne. destruct (Hne H0).
Qed.

(** X27.  [NTS_PrepareForAuth] keeps the cookies of a client in order: the
    array holds [MAX_COOKIES] cookies, [num_cookies] and [cookie_index] are
    not negative and the unused cookies end within the array.  It returns 1
    exactly when the client has a cookie afterwards.  When it has fetched
    cookies, at most eight, they start at index 0, the key establishment
    instance is gone, and the identifier and the nonce are the new random
    values; a client that had cookies is left as it was. *)
Theorem prepare_for_auth_pool (addr : IPAddr) (answers : Opened)
    (new_id new_nonce : list byte) (inst inst' : NTS_Client) (r : Z) (calls : list Call) :
  pool_ok (base inst) ->
  NTS_PrepareForAuth addr answers new_id new_nonce inst = Some (r, inst', calls) ->
  pool_ok (base inst') /\
  (r = 1 <-> num_cookies (base inst') <> 0) /\ (r = 0 \/ r = 1) /\
  (num_cookies (base inst) <> 0 -> inst' = inst /\ calls = []) /\
  (num_cookies (base inst) = 0 -> r = 1 ->
   cookie_index (base inst') = 0 /\ num_cookies (base inst') <= MAX_COOKIES /\
   nke inst' = None /\
   uniq_id (base inst') = new_id /\ nonce (base inst') = new_nonce).
Proof.
  intros Hpool. unfold NTS_PrepareForAuth, needs_nke.
  destruct (Z.eqb_spec (num_cookies (base inst)) 0) as [H0|H0]; cbn [negb].
  - destruct (get_nke_data addr answers inst) as [[i c]|] eqn:Hget; [|discriminate].
    destruct (get_nke_data_pool _ _ _ _ _ Hpool Hget) as (Hpool' & _ & _ & Hfetched).
    destruct (Z.eqb_spec (num_cookies (base i)) 0) as [Hn|Hn].
    + intros H. injection H as <- <- <-.
      split; [exact Hpool'|]. split; [split; [discriminate | intros Hne; now destruct Hne]|].
      split; [left; reflexivity|]. split; [intros Hne; now destruct Hne | discriminate].
    + intros H. injection H as <- <- <-. cbn [base nke].
      destruct Hpool' as (Hs & Hnn & Hi & Hsum). destruct (Hfetched Hn) as [Hidx Hnke].
      split; [repeat split; cbn [cookies num_cookies cookie_index]; assumption|].
      cbn [num_cookies cookie_index uniq_id nonce].
      split; [split; [intros _; exact Hn | reflexivity]|].
      split; [right; reflexivity|]. split; [intros Hne; now destruct Hne|].
      intros _ _. repeat split; try assumption. lia.
  - intros H. injection H as <- <- <-.
    split; [exact Hpool|]. split; [split; [intros _; exact H0 | reflexivity]|].
    split; [right; reflexivity|]. split; [intros _; split; reflexivity|].
    intros Hz. now destruct H0.
Qed.

(** X28.  [NTS_GenerateRequestAuth] keeps the cookies of a client in order
    too, whether it succeeds or a field does not fit.  When it returns 1
    the cookie it has sent was read inside the array, the number of
    placeholders it has added lies between 0 and 7, and the client has one
    cookie less. *)
Theorem generate_request_pool (inst inst' : NTS_ClientInstance)
    (packet packet' : NTP_Packet) (info info' : NTP_PacketInfo) (r : Z) :
  pool_ok inst ->
  NTS_GenerateRequestAuth inst packet info = (r, inst', packet', info') ->
  pool_ok inst' /\
  (r = 0 \/ r = 1) /\
  (r = 0 -> inst' = inst) /\
  (r = 1 ->
   0 <= cookie_index inst < zlength (cookies inst) /\
   0 <= MAX_COOKIES - num_cookies inst < MAX_COOKIES /\
   num_cookies inst' = num_cookies inst - 1 /\ cookies inst' = cookies inst).
Proof.
  intros Hpool. pose proof Hpool as (Hsize & Hnum & Hidx & Hsum).
  unfold NTS_GenerateRequestAuth, needs_nke.
  assert (Hfail : forall p i, (0, inst, p, i) = (r, inst', packet', info') ->
             pool_ok inst' /\ (r = 0 \/ r = 1) /\ (r = 0 -> inst' = inst) /\
             (r = 1 ->
              0 <= cookie_index inst < zlength (cookies inst) /\
              0 <= MAX_COOKIES - num_cookies inst < MAX_COOKIES /\
              num_cookies inst' = num_cookies inst - 1 /\ cookies inst' = cookies inst)).
  { intros p i H. injection H as <- <- <- <-.
    split; [exact Hpool|]. split; [left; reflexivity|].
    split; [reflexivity | discriminate]. }
  destruct (Z.eqb_spec (num_cookies inst) 0) as [H0|H0]; [apply Hfail|].
  destruct (NEF_AddField packet info NTP_EF_NTS_UNIQUE_IDENTIFIER _) as [[p1 i1]|];
    [|apply Hfail].
  destruct (NEF_AddField p1 i1 NTP_EF_NTS_COOKIE _) as [[p2 i2]|]; [|apply Hfail].
  destruct (add_placeholders _ _ p2 i2) as [[[|] p3] i3]; [|apply Hfail].
  destruct (NEF_AddField p3 i3 NTP_EF_NTS_AUTH_AND_EEF _) as [[p4 i4]|]; [|apply Hfail].
  intros H. injection H as <- <- <- <-.
  assert (Hrem : Z.rem (cookie_index inst + 1) MAX_COOKIES
                 = (cookie_index inst + 1) mod MAX_COOKIES)
    by (apply Z.rem_mod_nonneg; unfold MAX_COOKIES; lia).
  unfold MAX_COOKIES in *.
  split.
  { unfold pool_ok. cbn [cookies num_cookies cookie_index]. rewrite Hrem.
    destruct (Z.eq_dec (cookie_index inst + 1) 8) as [H8|H8].
    - rewrite H8. change (8 mod 8) with 0. unfold MAX_COOKIES. lia.
    - rewrite Z.mod_small by lia. unfold MAX_COOKIES. lia. }
  split; [right; reflexivity|]. split; [discriminate|].
  intros _. cbn [cookies num_cookies]. repeat split; lia.
Qed.

End PoolFacts.

Lemma prepare_for_auth_pool_witness :
  @NtsPrepare.pool_ok Sample.siv (NtsPrepare.base (snd (fst SampleKe.prepared))).
Proof.
  refine (proj1 (@prepare_for_auth_pool Sample.siv Sample.ke_env SampleKe.tls tt
                   SampleKe.opened (repeat xcd 32) (repeat x5b 16) SampleKe.waiting_client
                   (snd (fst SampleKe.prepared)) (fst (fst SampleKe.prepared))
                   (snd SampleKe.prepared) _ _)).
  - vm_compute. repeat split; discriminate.
  - vm_compute. reflexivity.
Defined.

Lemma generate_request_pool_witness :
  @NtsPrepare.pool_ok Sample.siv
    (snd (fst (fst (@NtsNtp.NTS_GenerateRequestAuth Sample.siv Sample.ntp_ext Sample.client
                      Sample.request0 Sample.request0_info)))).
Proof.
  refine (proj1 (@generate_request_pool Sample.siv Sample.ntp_ext Sample.client _
                   Sample.request0
                   (snd (fst (@NtsNtp.NTS_GenerateRequestAuth Sample.siv Sample.ntp_ext
                                Sample.client Sample.request0 Sample.request0_info)))
                   Sample.request0_info
                   (snd (@NtsNtp.NTS_GenerateRequestAuth Sample.siv Sample.ntp_ext
                           Sample.client Sample.request0 Sample.request0_info))
                   (fst (fst (fst (@NtsNtp.NTS_GenerateRequestAuth Sample.siv Sample.ntp_ext
                                     Sample.client Sample.request0 Sample.request0_info))))
                   _ _)).
  - vm_compute. repeat split; discriminate.
  - reflexivity.
Defined.

Section ReceiveFacts.

Import NtsKe KeRead KeConn.

Context {Siv : SIV} {E : KeEnv} {T : Tls}.

Lemma contents_received (m : NKE_Message) (bytes : list byte) (eof : Z) :
  message_ok m -> m_length m + zlength bytes <= MAX_MESSAGE_LENGTH ->
  contents {| m_length := m_length m + zlength bytes; m_sent := m_sent m; m_eof := eof;
              m_parsed := m_parsed m;
              m_data := memcpy (m_data m) (m_length m) bytes |}
  = contents m ++ bytes.
Proof.
  intros [Hl Hd] Hroom. unfold contents. cbn [m_data m_length].
  apply firstn_memcpy; lia.
Qed.

Lemma set_n_message_same (inst : NKE_Instance_Record) :
  set_n_message inst (n_message inst) = inst.
Proof. destruct inst. reflexivity. Qed.

Lemma stored_behind_nil (m : NKE_Message) : message_ok m -> stored_behind m [] m.
Proof.
  intros Hok. split; [exact Hok|]. cbn [map concat existsb]. rewrite app_nil_r.
  repeat split.
Qed.

(** One round of the loop that stores [bytes]. *)
Lemma stored_behind_cons (m m1 : NKE_Message) (r : Z) (bytes : list byte) (pending : Z)
    (taken : list (Z * list byte * Z)) :
  message_ok m -> 0 <= r <= MAX_MESSAGE_LENGTH - m_length m -> zlength bytes = r ->
  stored_behind
    {| m_length := m_length m + r; m_sent := m_sent m;
       m_eof := if r =? 0 then 1 else m_eof m; m_parsed := m_parsed m;
       m_data := memcpy (m_data m) (m_length m) bytes |} taken m1 ->
  stored_behind m ((r, bytes, pending) :: taken) m1.
Proof.
  intros Hok Hr Hlen (Hok1 & Hc & Heof & Hsent & Hparsed).
  split; [exact Hok1|]. cbn [map concat existsb fst snd m_eof m_sent m_parsed] in *.
  split; [|split; [|split; assumption]].
  - rewrite Hc, <- Hlen, contents_received by (try exact Hok; lia).
    now rewrite <- app_assoc.
  - rewrite Heof. destruct (r =? 0); cbn [orb]; [now destruct (existsb _ taken) | reflexivity].
Qed.

Lemma stored_behind_snoc (m m1 : NKE_Message) (r : Z) (bytes : list byte) (pending : Z)
    (taken : list (Z * list byte * Z)) :
  stored_behind m taken m1 ->
  0 <= r <= MAX_MESSAGE_LENGTH - m_length m1 -> zlength bytes = r ->
  stored_behind m (taken ++ [(r, bytes, pending)])
    {| m_length := m_length m1 + r; m_sent := m_sent m1;
       m_eof := if r =? 0 then 1 else m_eof m1; m_parsed := m_parsed m1;
       m_data := memcpy (m_data m1) (m_length m1) bytes |}.
Proof.
  intros (Hok1 & Hc & Heof & Hsent & Hparsed) Hr Hlen.
  split; [|split; [|split; [|split; assumption]]].
  - destruct Hok1 as [Hl Hd]. split; cbn [m_length m_data]; [lia|].
    rewrite length_memcpy; [exact Hd | lia | lia].
  - rewrite <- Hlen, contents_received by (try exact Hok1; lia).
    rewrite Hc, map_app, concat_app. cbn [map concat fst snd].
    now rewrite app_nil_r, <- app_assoc.
  - cbn [m_eof]. rewrite existsb_app. cbn [existsb fst]. rewrite orb_false_r, Heof.
    destruct (existsb _ taken); cbn [orb]; [now destruct (r =? 0) | reflexivity].
Qed.

(** The rounds after which the loop goes on: the bytes they store lie
    behind those of the message, and the loop continues with the calls that
    are left. *)
Lemma receive_reads (taken : list (Z * list byte * Z)) :
  forall inst : NKE_Instance_Record,
    connection_ok inst ->
    reads (m_length (n_message inst)) taken ->
    exists m1,
      stored_behind (n_message inst) taken m1 /\
      0 <= m_sent m1 <= m_length m1 /\
      forall rest, receive (taken ++ rest) inst = receive rest (set_n_message inst m1).
Proof.
  induction taken as [|[[r bytes] pending] taken IH]; intros inst Hok Hreads.
  - exists (n_message inst). split; [apply stored_behind_nil, Hok|]. split; [apply Hok|].
    intros rest. now rewrite set_n_message_same.
  - cbn [reads] in Hreads. destruct Hreads as (Hfree & Hr & Hlen & Hpend & Hrest).
    set (m' := {| m_length := m_length (n_message inst) + r;
                  m_sent := m_sent (n_message inst);
                  m_eof := if r =? 0 then 1 else m_eof (n_message inst);
                  m_parsed := m_parsed (n_message inst);
                  m_data := memcpy (m_data (n_message inst)) (m_length (n_message inst))
                              bytes |}).
    assert (Hok' : connection_ok (set_n_message inst m')).
    { destruct Hok as [[Hl Hd] Hs].
      split; [split|]; cbn [n_message set_n_message m_length m_sent m_data m'].
      - lia.
      - rewrite length_memcpy; [exact Hd | lia | lia].
      - lia. }
    destruct (IH (set_n_message inst m') Hok' Hrest) as (m1 & Hst & Hs1 & Hrun).
    exists m1. split; [|split; [exact Hs1|]].
    + apply stored_behind_cons; [apply Hok | exact Hr | exact Hlen | exact Hst].
    + intros rest.
      transitivity (receive (taken ++ rest) (set_n_message inst m')); [|apply Hrun].
      cbn [app]. cbn [receive].
      replace (m_length (n_message inst) >=? MAX_MESSAGE_LENGTH) with false
        by (symmetry; rewrite Z.geb_leb; apply Z.leb_gt; lia).
      replace (r <? 0) with false by (symmetry; apply Z.ltb_ge; lia).
      replace (pending >? 0) with true by (symmetry; rewrite Z.gtb_ltb; apply Z.ltb_lt; lia).
      reflexivity.
Qed.

(** X29.  The loop that receives.  As long as the buffer is not full, a
    call of [gnutls_record_recv] returns a number that is not negative and
    [gnutls_record_check_pending] is positive, the loop goes round: let
    [taken] be these calls.  The bytes they stored then lie behind the bytes
    the message held, in the order of the calls, and the loop ends in one
    of three ways.  With the buffer full it closes the connection without
    another call.  When the next call fails, it closes the connection for a
    fatal error and else returns to wait, in both cases with the bytes
    stored so far.  When the next call returns a number that is not
    negative and nothing is pending, its bytes are stored as well and the
    handler goes on to [update_state].  [eof] is 1 when a call has returned
    0, and as before otherwise. *)
Theorem receive_appends (taken rest : list (Z * list byte * Z))
    (inst : NKE_Instance_Record) :
  connection_ok inst ->
  reads (m_length (n_message inst)) taken ->
  exists m1,
    stored_behind (n_message inst) taken m1 /\
    let inst1 := set_n_message inst m1 in
    (MAX_MESSAGE_LENGTH <= m_length m1 ->
     receive (taken ++ rest) inst
     = Some (Closed (fst (close_connection inst1)) (snd (close_connection inst1)))) /\
    (m_length m1 < MAX_MESSAGE_LENGTH ->
     forall r bytes pending rest',
       rest = (r, bytes, pending) :: rest' ->
       (r < 0 ->
        receive (taken ++ rest) inst
        = Some (if gnutls_error_is_fatal r
                then Closed (fst (close_connection inst1)) (snd (close_connection inst1))
                else Waits inst1 [])) /\
       (0 <= r <= MAX_MESSAGE_LENGTH - m_length m1 -> zlength bytes = r -> pending <= 0 ->
        exists m2,
          stored_behind (n_message inst) (taken ++ [(r, bytes, pending)]) m2 /\
          receive (taken ++ rest) inst = Some (GoesOn (set_n_message inst m2) []))).
Proof.
  intros Hok Hreads.
  destruct (receive_reads taken inst Hok Hreads) as (m1 & Hst & _ & Hrun).
  exists m1. split; [exact Hst|]. cbv zeta. rewrite Hrun. split.
  - intros Hfull. destruct rest as [|[[r bytes] pending] rest']; cbn [receive];
      cbn [n_message set_n_message];
      replace (m_length m1 >=? MAX_MESSAGE_LENGTH) with true
        by (symmetry; apply Z.geb_le; lia);
      now destruct (close_connection (set_n_message inst m1)).
  - intros Hfree r bytes pending rest' ->. cbn [receive]. cbn [n_message set_n_message].
    replace (m_length m1 >=? MAX_MESSAGE_LENGTH) with false
      by (symmetry; rewrite Z.geb_leb; apply Z.leb_gt; lia).
    split.
    + intros Hneg. replace (r <? 0) with true by (symmetry; apply Z.ltb_lt; lia).
      destruct (gnutls_error_is_fatal r); [|reflexivity].
      now destruct (close_connection (set_n_message inst m1)).
    + intros Hr Hlen Hpend.
      replace (r <? 0) with false by (symmetry; apply Z.ltb_ge; lia).
      replace (pending >? 0) with false by (symmetry; rewrite Z.gtb_ltb; apply Z.ltb_ge; lia).
      eexists. split; [apply (stored_behind_snoc _ _ r bytes pending _ Hst Hr Hlen)|].
      reflexivity.
Qed.

End ReceiveFacts.

Lemma receive_appends_witness :
  exists m2,
    KeConn.stored_behind NtsKe.blank_message (KeConn.recv SampleKe.two_parts) m2 /\
    @KeConn.receive Sample.ke_env SampleKe.tls (KeConn.recv SampleKe.two_parts)
      SampleKe.listening
    = Some (KeConn.GoesOn (KeConn.set_n_message SampleKe.listening m2) []).
Proof.
  destruct (@receive_appends Sample.ke_env SampleKe.tls
              [(6, firstn 6 (NtsKe.encode_records
                               (NtsKe.sample_request ++ [NtsKe.end_of_message])), 10)]
              [(10, skipn 6 (NtsKe.encode_records
                               (NtsKe.sample_request ++ [NtsKe.end_of_message])), 0)]
              SampleKe.listening)
    as (m1 & Hst & _ & Hgo).
  - split; [split|]; vm_compute; try reflexivity; split; discriminate.
  - cbn [KeConn.reads]. vm_compute. repeat split; discriminate.
  - assert (Hl : NtsKe.m_length m1 = 6).
    { rewrite <- (zlength_contents m1 (proj1 Hst)).
      destruct Hst as (_ & -> & _). reflexivity. }
    destruct (Hgo ltac:(rewrite Hl; reflexivity) 10
                (skipn 6 (NtsKe.encode_records
                            (NtsKe.sample_request ++ [NtsKe.end_of_message]))) 0 []
                eq_refl) as [_ Hdone].
    destruct Hdone as (m2 & Hst2 & Hrun).
    + rewrite Hl. split; vm_compute; discriminate.
    + reflexivity.
    + discriminate.
    + exists m2. split; [exact Hst2 | exact Hrun].
Defined.
